(* ===== verification/_CoqProject ===== *)
-Q . S2P
Prelude.v
Trace.v
GoStrings.v
Regexp.v
SiteErrors.v
Handle.v
SitePath.v
Zip.v
SiteTypes.v
SiteTree.v
FakeService.v
FakeEvents.v
FakeRuns.v
FakeFacts.v
FakeGuarantees.v
FakeTheorems.v
FakePublish.v
FakeQueries.v
Http.v
Resolver.v
ServeHeaders.v
Encoding.v
Observability.v
GitParse.v
GoURL.v
GitRemote.v
GitWorld.v
GitService.v
GitOps.v
GitPublish.v
GitGuard.v
GitSafety.v
GitRunner.v
GitPaths.v
GitLocks.v
GitConcurrent.v
GitTheorems.v
Preview.v
Serve.v
ServeFacts.v
ServeGet.v
TreeProvider.v
Lockout.v
RateLimit.v
Access.v
Wire.v
ApiWorld.v
Session.v
Rest.v
RestAccounts.v
Routes.v
RestSafety.v
RestFacts.v
Membership.v
Webhook.v
Mcp.v
McpFacts.v
Tokens.v
TlsEdge.v
Ops.v
Config.v
SecretBox.v
Settings.v
DomainCfg.v
OidcCfg.v
NetGuard.v
AdminConfig.v
LoginState.v
Providers.v
SignIn.v
SignInFacts.v
SignInRuns.v
MetaDb.v
MetaDbFacts.v
MetaStore.v
MetaApi.v
MetaFlows.v
MetaGit.v
MetaOps.v
App.v
