(* ===== verification/Prelude.v ===== *)
(** * kotoji: a verification library of the hosting server's core

    kotoji hosts static web projects: every project ("site") is a git
    repository with a draft and a published branch, edited through a REST API
    and MCP tools, served under one host name per site and per preview branch.
    This library models the Go code under src/backend/internal and proves what
    its components promise each other and their callers.  Definitions keep the
    names of the source and are executable; every theorem that is a claim about
    the program carries its id (C1, C2, ...) in its comment.

    ** Layout

    - Prelude (this file): results [Res], the state-and-error monad [M] with its
      notation in [kotoji_scope], the classes of programs (read-only, atomic,
      respecting a relation) with the hint databases that prove membership.
    - Trace: programs as functions on the trace of what they asked the world, and
      a program logic for them: which events are justified by the events before.
    - GoStrings, Regexp, Encoding, Http: what the source uses of the Go standard
      library, written out: strings, path cleaning, strconv, the regular
      expressions of the label grammar, base64, hex, query decoding, headers,
      host splitting, time formats.  Unicode case tables are the class
      [GoUnicode], of which the proofs use only the behaviour on ASCII.
    - SiteErrors, Handle, SitePath, Zip, SiteTypes (site/errors.go, handle.go,
      path.go, mime.go, zip.go, service.go, store.go): the error taxonomy, the
      label grammar, the path gates and MIME table, the archive guards, the
      domain types.
    - SiteTree, FakeService (site/fake_helpers.go, fake.go): file trees as maps,
      and the in-memory implementation of the site service, method by method.
      FakeEvents is its abstract specification: an event is one atomic change of
      sites, redirects and the commit counter, and [does] says which event a call
      performs; FakeRuns proves that each successful call is that event, that failing
      calls change nothing, and that a call with an event is not refused; FakeFacts and
      FakeGuarantees derive the invariant and what one call may change;
      FakeTheorems, FakePublish and FakeQueries hold the claims.
    - GitParse, GitRemote (site/git_helpers.go): the
      parsers of git's output and the gate for mirror remotes.
    - GitWorld, GitService, GitOps, GitPublish (site/git_service.go,
      git_helpers.go, mirror.go, git_auth.go, lock.go, zip.go): the production
      implementation of the site service.  A method is a function on the trace of
      its questions to git, the store, the file system and the locks; a [World]
      answers them, each answer depending on everything before.  [exec] runs one
      [call].  GitGuard says which effect is justified when, with the rules of the helpers, and GitSafety
      prove it for every helper and method, GitPaths where files end up, GitLocks
      which locks are held, GitRunner (gitrunner.go) what a git process sees,
      GitConcurrent what interleaved calls can do to each other.  GitTheorems
      holds the claims with a concrete world, and runs that show
      behaviour the comments do not announce.
    - Resolver (resolve/resolver.go): host names to sites and branches.
    - ServeHeaders, Preview, Serve, TreeProvider (serve/, preview/,
      secretbox/key.go): the data plane.  A request goes through the resolver, the
      tree provider, the preview authoriser and the file server of Serve, which
      are fields of its [Handler] as in the source; ServeFacts and ServeGet hold
      the claims.
    - Lockout, RateLimit, Access (auth/lockout.go, singleuse.go, access.go,
      ratelimit/, api/authz.go): login lockout, single use of login states,
      keyed rate limiting with the client address, sign-in policy, the guard of
      the REST endpoints.
    - Wire, ApiWorld, Session, Rest, RestAccounts, Routes (api/, auth/session.go,
      csrf.go, middleware.go): the control plane.  A handler is a function on the
      trace of its questions to the site service and the store, which are requests
      indexed by the type of their answer ([Svc], [Store]); [serve] puts the session
      and the CSRF check in front and dispatches on the [endpoint].  Wire is what
      replies look like.  RestSafety says which question is justified when and
      proves it for every handler; RestFacts holds round trips, a client that reads
      the log endpoint page by page, and a sample instance; Membership follows the member table through a request.
    - Webhook (webhook/github.go): the handler of GitHub deliveries, in the same
      style.  Tokens (mcpserver/verifier.go, limits.go): bearer tokens against a
      table of tokens, and the limiter of tool calls.
    - Mcp, McpFacts (mcpserver/): the tools against the class [SiteService], the
      calls they make of any instance, recorded, and their effects over one, the
      in-memory service.
    - TlsEdge (tlsedge/decision.go, engine.go): the certificate issuance gate, and
      the engine around it: its two servers and their life.
    - Ops (ops/ops.go, scheduler.go, osfs.go): reaper, gc and startup check.
    - Observability (observability/): request ids, access log, panic recovery and
      probes, as middleware over programs that use a ResponseWriter.
    - GoURL: net/url as far as the source looks at its results.
    - Config (config/config.go): the environment to a typed, validated [Config].
    - SecretBox (secretbox/secretbox.go), Settings (db/store.go, db/tx.go): sealed
      values, transactions that can fail in every way, the instance settings.
    - DomainCfg, OidcCfg (domaincfg/, oidccfg/): what is in force, of environment,
      database and request; their caches, also under interleaving.
    - NetGuard (auth/oidc.go, api/admin_oidc.go): which hosts may be connected to.
    - AdminConfig (api/admin_domain.go, admin_oidc.go): the
      endpoints that change those settings, over table, caches and audit trail.
    - LoginState (auth/handlers.go): the signed cookie of a redirect
      login, the sanitiser of redirect targets, the same-origin check.
    - Providers (auth/provider.go, devauth.go, oidc.go, oidc_runtime.go), SignIn
      (auth/handlers.go): the providers and every handler of the sign-in surface, over
      one trace of questions, answers and writes to the browser.  SignInFacts and
      SignInRuns state what may stand in such a trace.
    - MetaDb (db/gen, db/migrations): the tables and every query as a function on
      them, constraints and triggers included; MetaDbFacts: their invariant [db_ok].
      MetaStore (db/store.go, site/storeadapter.go, auth/handlers.go, app/adapters.go):
      the transactions of several statements and the stores the services are given;
      [meta] interprets the requests of ApiWorld over the tables, and histories of operations
      run through it.  MetaApi: the control plane over the database, which
      refines the member table of Membership.  MetaFlows: creating a site, recording a login.
    - MetaGit, MetaOps: the git-backed service and the background jobs with the store
      they have in production.  A world answers their questions from the tables, which
      are replayed along the trace; calls of the service follow one another with any
      other operations in between, and the jobs have them between their steps.
    - App (app/app.go, cmd/kotojid/main.go, and the CORS options of api/router.go and
      mcpserver/server.go): what each part is configured with and given: secrets,
      mirror, limiters, the resolver and the handler of the data plane, the gate over
      the database, what the process opens and releases.

    ** Correspondence

    A Go method that returns (T, error) is a function to [Res] or, when it
    mutates its receiver, to [M]: the state after a failing call is kept.  A
    method that runs under a mutex is one step; where the source releases the
    mutex half way (CachingTreeProvider.Tree, Decider.existsCached) each critical
    section is a definition and the theorems hold for any interleaving.  Clock
    readings, random bytes, identifiers and the order in which a map is iterated
    are arguments, so the theorems quantify over them.  [time] is a number of
    nanoseconds.  Sizes in Zip are int64 and uint64 with their wrap-around
    written out; elsewhere lengths are mathematical integers, since they are
    lengths of existing strings.

    ** The groups of claims

    - The git-backed service, for every call, every answer of the world
      and every interleaving: effects only under their guards (the answers of the
      store that justify them being the world's), no lost updates, locks released;
      files written and removed only inside the site, as far as the text of paths
      goes and but for branches that climb; the parsers of git's output, on output
      without stray separators.  Further theorems: git runs hardened, mirrors are on GitHub only.
    - The in-memory service (C8): refinement of the abstract service, which
      fixes what each call does and when it is refused.  Further theorems: append-only histories, the invariant of every reachable state, what
      publishing and writing did.
    - Path gate, archives, labels: what is accepted, exactly; size bounds; labels
      name their (handle, branch) again.
    - REST: every request acts within its caller's rights; a request alone leaves a
      site its owner, a grant that demotes an owner and a failing listing of the
      members apart; cookies of sibling hosts do not count, errors keep their status,
      files and, in pages of less than 500, logs are read completely.  Webhooks act on signed pushes only; a bearer token
      authenticates exactly its row.
    - MCP: every call a tool makes of the service, whichever it is, is allowed by the
      membership of the token's owner and the scopes of the token; creating a site by
      flags of the token and the account instead.
    - Data plane: every response carries the security headers, nothing outside
      the published tree is read, previews fail closed, every request is
      answered; soundness of preview grants and their handshake; soundness and
      completeness of the resolver.
    - Accounts: lockouts are served, login states are single use, the rate-limit
      key cannot be chosen by the client, sign-in is fail-closed.
    - Operations: what the background jobs may destroy and in which order, whatever
      the store says; over the database, only sites deleted longer ago than the grace
      period.  No panic leaves the middleware.
    - Composition: with a base domain configured, the gate of the certificates agrees
      with the data plane on what the database has, up to 30 seconds; while calls do
      not overlap, every name keeps leading to its site.
    - Configuration: what loads is well-formed and, in production, hardened.
      Settings: updates round-trip, fail without effect and keep the client secret and
      the GitHub token sealed (the webhook secret is not).
      Caches: a saved change is in force unless filling the cache failed, a login talks
      to the configured provider.
      Administration: no save opens the instance, two shapes of body apart; the
      secret is not shown.
    - Sign-in: nobody is written, promoted or signed in without proof of identity,
      guesses are counted, the login state is authentic, targets stay on the site.
    - Metadata: the constraints of the tables hold after every history, however the
      statements and commits fare; the member table is refined; a site comes with
      its owner; recording a login gives nobody rights.

    ** Bounds

    [Serve.writeContent] and [writeNotFound] call each other and run on fuel: 2
    is enough whenever 404.html, if it is listed, can be opened
    (ServeHTTP_total), and no fuel is enough otherwise (unreadable_404_diverges).
    The digit loops of itoa and parse run on fuel that their lemmas show
    sufficient.  The scheduler loop takes its number of ticks.

    ** Not modelled

    The generated OpenAPI types, the route trees (chi), the CORS library, the MCP SDK,
    CertMagic, the OIDC and GitHub clients, the database driver, the rendering of logs,
    the seed and maintenance commands and the front end: glue or third-party code.  Queries are functions on the tables, written from their text;
    users are never deleted, and no query does it.  The text of JSON and the
    multiplexing of paths are not modelled: a handler starts from its endpoint and
    the outcome of decoding its body, and replies with a tree.
    What git does to a repository is not modelled: the git-backed service is
    verified against any answers git could give.  Cancellation of a context is
    a command that fails.
    Third-party behaviour enters as classes: [UUIDText], [UUIDParse], [Crypto]
    (SHA-256, HMAC), [TokenBucket] (golang.org/x/time/rate), [GoHTTP]
    (http.ServeContent and Redirect), [Members] (membership queries), [Env] (store,
    git and file system as the background jobs see them), [World] (the same as the
    git-backed service sees them), [Exec] (child processes), [TarReader],
    [GoTime] (the spellings of a timestamp beyond the fixed-width form), the
    [World] of ApiWorld (the service, the store, clock and randomness as a request
    sees them), [GoText] (texts of library errors), [GoNetip] (addresses),
    [ReserveBucket] (reservations of golang.org/x/time/rate), [GoDuration]
    (time.ParseDuration), [AEAD] with [AEADLaws] (AES-GCM), [Faults] (how the
    statements of a transaction fare), [GoNet] (net.ParseIP and name lookup),
    [GoLoginJSON] with its law (encoding/json on a login state), [GoOAuth] (the URL of
    the authorization endpoint), [Peer] (how much of a response a client takes),
    [CertMagic] (the names of its directories), [SignInWorld] (the answers sign-in gets), [Postgres] (citext folding, the
    order of a scan). *)

From stdpp Require Export base tactics numbers option list gmap strings sorting.
From Stdlib Require Export Lia ZArith Ascii.

(** ** Results and the state-and-error monad

    Go functions that return [(T, error)] are modelled by [Res E T]; methods
    that also mutate their receiver by [M S E T], a function from the receiver's
    state to the state after the call and the result.  The state after a failing
    call is kept, because the source mutates in place and some error paths run
    after a mutation. *)

Inductive Res (E A : Type) : Type :=
| Ok (a : A)
| Err (e : E).
Arguments Ok {E A} a.
Arguments Err {E A} e.

Definition M (S E A : Type) : Type := S → S * Res E A.

Section monad.
Context {S E : Type}.

Definition ok {A} (a : A) : M S E A := λ s, (s, Ok a).
Definition fail {A} (e : E) : M S E A := λ s, (s, Err e).
Definition get : M S E S := λ s, (s, Ok s).
Definition put (s' : S) : M S E unit := λ _, (s', Ok tt).
Definition modify (f : S → S) : M S E unit := λ s, (f s, Ok tt).
Definition bindM {A B} (m : M S E A) (f : A → M S E B) : M S E B :=
  λ s, match m s with
       | (s', Ok a) => f a s'
       | (s', Err e) => (s', Err e)
       end.
(** [if err := r; err != nil { return err }] for a pure check *)
Definition lift {A} (r : Res E A) : M S E A :=
  λ s, (s, r).
(** [v, ok := m[k]; if !ok { return e }] *)
Definition want {A} (o : option A) (e : E) : M S E A :=
  λ s, (s, match o with Some a => Ok a | None => Err e end).
(** [if b { return e }] *)
Definition guard_not (b : bool) (e : E) : M S E unit :=
  λ s, (s, if b then Err e else Ok tt).
End monad.

Declare Scope kotoji_scope.
Delimit Scope kotoji_scope with kotoji.
Notation "'let!' x := m 'in' k" := (bindM m (λ x, k))
  (at level 10, x binder, m at level 100, k at level 200) : kotoji_scope.
Notation "m ';!' k" := (bindM m (λ _, k))
  (at level 199, k at level 200, right associativity) : kotoji_scope.
Global Open Scope kotoji_scope.

Definition res_bind {E A B} (r : Res E A) (f : A → Res E B) : Res E B :=
  match r with Ok a => f a | Err e => Err e end.
Notation "'try!' x := r 'in' k" := (res_bind r (λ x, k))
  (at level 10, x binder, r at level 100, k at level 200) : kotoji_scope.
Notation "'check!' r 'in' k" := (res_bind r (λ _, k))
  (at level 10, r at level 100, k at level 200) : kotoji_scope.

Definition is_ok {E A} (r : Res E A) : bool :=
  match r with Ok _ => true | Err _ => false end.

Lemma res_bind_ok {E A B} (r : Res E A) (f : A → Res E B) b : res_bind r f = Ok b → ∃ a, r = Ok a ∧ f a = Ok b.
Proof. destruct r as [a|e]; [by exists a|done]. Qed.
Lemma ok_unit {E} (r : Res E unit) a : r = Ok a → r = Ok tt.
Proof. by destruct a. Qed.

(** ** Reasoning about monadic programs *)

Section monad_facts.
Context {S E : Type}.

(** A program that never changes the state, whatever it returns. *)
Definition readonly {A} (m : M S E A) : Prop :=
  ∀ s s' r, m s = (s', r) → s' = s.
(** A program that leaves the state alone when it fails. *)
Definition atomic {A} (m : M S E A) : Prop :=
  ∀ s s' e, m s = (s', Err e) → s' = s.
(** A program that cannot fail. *)
Definition infallible {A} (m : M S E A) : Prop :=
  ∀ s s' e, m s = (s', Err e) → False.
(** A program all of whose runs, successful or not, are related by [R]. *)
Definition respects (R : S → S → Prop) {A} (m : M S E A) : Prop :=
  ∀ s s' r, m s = (s', r) → R s s'.

Lemma bindM_ok_inv {A B} (m : M S E A) (f : A → M S E B) s s2 b :
  bindM m f s = (s2, Ok b) →
  ∃ s1 a, m s = (s1, Ok a) ∧ f a s1 = (s2, Ok b).
Proof. unfold bindM. destruct (m s) as [s1 [a|e]]; naive_solver. Qed.

Lemma bindM_err_inv {A B} (m : M S E A) (f : A → M S E B) s s2 e :
  bindM m f s = (s2, Err e) →
  m s = (s2, Err e) ∨ ∃ s1 a, m s = (s1, Ok a) ∧ f a s1 = (s2, Err e).
Proof. unfold bindM. destruct (m s) as [s1 [a|e']]; naive_solver. Qed.

Lemma readonly_ok {A} (a : A) : readonly (@ok S E A a).
Proof. unfold readonly, ok. naive_solver. Qed.
Lemma readonly_fail {A} e : readonly (@fail S E A e).
Proof. unfold readonly, fail. naive_solver. Qed.
Lemma readonly_get : readonly (@get S E).
Proof. unfold readonly, get. naive_solver. Qed.
Lemma readonly_lift {A} r : readonly (@lift S E A r).
Proof. unfold readonly, lift. naive_solver. Qed.
Lemma readonly_want {A} o e : readonly (@want S E A o e).
Proof. unfold readonly, want. naive_solver. Qed.
Lemma readonly_guard b e : readonly (@guard_not S E b e).
Proof. unfold readonly, guard_not. naive_solver. Qed.
Lemma readonly_bind {A B} (m : M S E A) (f : A → M S E B) :
  readonly m → (∀ a, readonly (f a)) → readonly (bindM m f).
Proof.
  unfold readonly, bindM. intros Hm Hf s s' r.
  destruct (m s) as [s1 [a|e]] eqn:Em; intros H.
  - apply Hf in H as ->. by eapply Hm.
  - simplify_eq. by eapply Hm.
Qed.

Lemma atomic_readonly {A} (m : M S E A) : readonly m → atomic m.
Proof. unfold readonly, atomic. eauto. Qed.
Lemma atomic_infallible {A} (m : M S E A) : infallible m → atomic m.
Proof. unfold infallible, atomic. intros H s s' e Hm. by destruct (H _ _ _ Hm). Qed.
Lemma atomic_bind {A B} (m : M S E A) (f : A → M S E B) :
  readonly m → (∀ a, atomic (f a)) → atomic (bindM m f).
Proof.
  intros Hm Hf s s' e [H|(s1 & a & H1 & H2)]%bindM_err_inv.
  - by eapply Hm.
  - apply Hf in H2 as ->. by eapply Hm.
Qed.
Lemma infallible_ok {A} (a : A) : infallible (@ok S E A a).
Proof. unfold infallible, ok. naive_solver. Qed.
Lemma infallible_get : infallible (@get S E).
Proof. unfold infallible, get. naive_solver. Qed.
Lemma infallible_put s : infallible (@put S E s).
Proof. unfold infallible, put. naive_solver. Qed.
Lemma infallible_modify g : infallible (@modify S E g).
Proof. unfold infallible, modify. naive_solver. Qed.
Lemma infallible_bind {A B} (m : M S E A) (f : A → M S E B) :
  infallible m → (∀ a, infallible (f a)) → infallible (bindM m f).
Proof.
  intros Hm Hf s s' e [H|(s1 & a & H1 & H2)]%bindM_err_inv.
  - by eapply Hm.
  - by eapply Hf.
Qed.

Lemma respects_readonly R {A} (m : M S E A) :
  reflexive _ R → readonly m → respects R m.
Proof. intros HR Hm s s' r H. apply Hm in H as ->. apply HR. Qed.
Lemma respects_bind R {A B} (m : M S E A) (f : A → M S E B) :
  transitive _ R → respects R m → (∀ a, respects R (f a)) →
  respects R (bindM m f).
Proof.
  intros HR Hm Hf s s' r. unfold bindM.
  destruct (m s) as [s1 [a|e]] eqn:Em; intros H.
  - eapply HR; [by eapply Hm|by eapply Hf].
  - simplify_eq. by eapply Hm.
Qed.
End monad_facts.

Create HintDb kotoji.
#[export] Hint Resolve readonly_ok readonly_fail readonly_get readonly_lift
  readonly_want readonly_guard readonly_bind : kotoji.
#[export] Hint Resolve infallible_ok infallible_get infallible_put
  infallible_modify infallible_bind : kotoji.

(** ** Tactics *)

(** Split a successful (or failing) monadic run in [H] into its steps. *)
Ltac run_inv H :=
  let s := fresh "s" in let a := fresh "a" in
  let H1 := fresh "Hm" in let H2 := fresh "Hk" in
  lazymatch type of H with
  | bindM _ _ _ = (_, Ok _) =>
      apply bindM_ok_inv in H; destruct H as (s & a & H1 & H2)
  end.

(** Decide a boolean test of a goal or hypothesis in propositional form. *)
Ltac bool_hyps :=
  repeat match goal with
  | H : andb _ _ = true |- _ => apply andb_true_iff in H; destruct H
  | H : orb _ _ = false |- _ => apply orb_false_iff in H; destruct H
  | H : negb _ = true |- _ => apply negb_true_iff in H
  | H : negb _ = false |- _ => apply negb_false_iff in H
  | H : bool_decide _ = true |- _ => apply bool_decide_eq_true in H
  | H : bool_decide _ = false |- _ => apply bool_decide_eq_false in H
  | H : (_ <? _)%Z = true |- _ => apply Z.ltb_lt in H
  | H : (_ <? _)%Z = false |- _ => apply Z.ltb_ge in H
  | H : (_ <=? _)%Z = true |- _ => apply Z.leb_le in H
  | H : (_ <=? _)%Z = false |- _ => apply Z.leb_gt in H
  | H : (_ =? _)%Z = true |- _ => apply Z.eqb_eq in H
  | H : (_ =? _)%Z = false |- _ => apply Z.eqb_neq in H
  | H : (_ <? _) = true |- _ => apply Nat.ltb_lt in H
  | H : (_ <? _) = false |- _ => apply Nat.ltb_ge in H
  | H : (_ <=? _) = true |- _ => apply Nat.leb_le in H
  | H : (_ <=? _) = false |- _ => apply Nat.leb_gt in H
  | H : (_ =? _)%string = true |- _ => apply String.eqb_eq in H
  | H : (_ =? _)%string = false |- _ => apply String.eqb_neq in H
  end.

(** Case split on every [match]/[if] scrutinee left in [H]. *)
Ltac case_hyp H :=
  repeat match type of H with
  | context [match ?x with _ => _ end] => destruct x eqn:?; try discriminate H
  end.

(** ** Machine integers (Go's 64-bit [int], [int64], [uint64]) *)

Definition wrap_u64 (z : Z) : Z := (z mod 2 ^ 64)%Z.
Definition wrap_i64 (z : Z) : Z := ((z + 2 ^ 63) mod 2 ^ 64 - 2 ^ 63)%Z.
Definition in_i64 (z : Z) : Prop := (- 2 ^ 63 ≤ z < 2 ^ 63)%Z.

Lemma wrap_i64_id z : in_i64 z → wrap_i64 z = z.
Proof. unfold wrap_i64, in_i64. intros. rewrite Z.mod_small; lia. Qed.
Lemma wrap_i64_bound z : in_i64 (wrap_i64 z).
Proof.
  unfold wrap_i64, in_i64. pose proof (Z.mod_pos_bound (z + 2 ^ 63) (2 ^ 64)). lia.
Qed.
Lemma wrap_u64_id z : (0 ≤ z < 2 ^ 64)%Z → wrap_u64 z = z.
Proof. apply Z.mod_small. Qed.

(** ** Lists with distinct keys *)

Lemma find_unique {A B} (key : A → B) (p : A → bool) l x :
  NoDup (key <$> l) → (∀ a b, p a = true → p b = true → key a = key b) → x ∈ l → p x = true → List.find p l = Some x.
Proof.
  intros Hnd Hk Hx Hp. induction l as [|a l IH]; [by apply elem_of_nil in Hx|]. simpl.
  apply NoDup_cons in Hnd as [Ha Hnd]. apply elem_of_cons in Hx as [->|Hx]; [by rewrite Hp|].
  destruct (p a) eqn:Ea; [|by apply IH]. destruct Ha. rewrite (Hk _ _ Ea Hp). by apply list_elem_of_fmap_2.
Qed.
Lemma NoDup_fmap_filter {A B} (key : A → B) (p : A → bool) l : NoDup (key <$> l) → NoDup (key <$> List.filter p l).
Proof.
  induction l as [|x l IH]; [done|]. intros [Hx Hnd]%NoDup_cons. simpl. destruct (p x); [|auto].
  apply NoDup_cons. split; [|auto]. contradict Hx. apply list_elem_of_fmap in Hx as (y & -> & Hy).
  apply list_elem_of_fmap_2. rewrite list_elem_of_In in *. by apply filter_In in Hy as [? _].
Qed.
