(* ===== verification/Trace.v ===== *)
(** * Programs over an unknown environment

    A program that talks to git, a database or the file system is a function on
    traces: it appends what it asked together with the answer, which the
    environment chooses knowing everything done so far.  [careful] says that
    every event of a trace is [justified] by the events before it, and [job] is
    the program logic that proves it.  Conditions that survive until a program
    ends are [stable]: kept by any further [calm] event. *)

From S2P Require Import Prelude.

Section trace.
Context {event E : Type}.

Definition J (A : Type) : Type := M (list event) E A.
Definition ask {A} (answer : list event → Res E A) (ev : Res E A → event) : J A :=
  λ tr, let r := answer tr in (tr ++ [ev r], r).
(** A question whose error the caller inspects, or ignores *)
Definition try_ {A} (m : J A) : J (Res E A) := λ tr, let '(tr, r) := m tr in (tr, Ok r).
Definition note (e : event) : J unit := λ tr, (tr ++ [e], Ok tt).
(** [defer cleanup]: what runs when the function returns, whatever it returns *)
Definition finally {A B} (m : J A) (cleanup : J B) : J A :=
  λ tr, let '(tr, r) := m tr in ((cleanup tr).1, r).
(** [if err != nil { return f(err) }] *)
Definition mapErr {A} (f : E → E) (m : J A) : J A :=
  λ tr, match m tr with (tr, Err e) => (tr, Err (f e)) | r => r end.
(** [defer func() { if !ok { cleanup } }()] *)
Definition onError {A B} (m : J A) (cleanup : J B) : J A :=
  λ tr, match m tr with (tr, Err e) => ((cleanup tr).1, Err e) | r => r end.
(** [_ = m] *)
Definition ignore {A} (m : J A) : J unit := λ tr, ((m tr).1, Ok tt).
(** A loop that stops at the first error *)
Fixpoint each {A} (f : A → J unit) (l : list A) : J unit :=
  match l with
  | [] => ok tt
  | a :: l => f a ;! each f l
  end.

Context (calm : event → Prop).
Context (justified : list event → event → Prop).

Definition careful (tr : list event) : Prop := ∀ pre e post, tr = pre ++ e :: post → justified pre e.

Lemma careful_nil : careful [].
Proof. intros pre e post Heq. by destruct pre. Qed.
Lemma careful_snoc tr e : careful tr → justified tr e → careful (tr ++ [e]).
Proof.
  intros Ht He pre e' post Heq. destruct post as [|e2 post _] using rev_ind.
  - apply app_inj_tail in Heq as [-> ->]. done.
  - rewrite app_comm_cons, app_assoc in Heq. apply app_inj_tail in Heq as [-> _]. by eapply Ht.
Qed.

(** A careful extension *)
Definition extends (tr tr' : list event) : Prop := careful tr' ∧ ∃ more, tr' = tr ++ more.
Lemma extends_refl tr : careful tr → extends tr tr.
Proof. intros Ht. split; [done|]. exists []. by rewrite app_nil_r. Qed.
Lemma extends_trans t1 t2 t3 : extends t1 t2 → extends t2 t3 → extends t1 t3.
Proof.
  intros [_ [m1 ->]] [Hc [m2 ->]]. split; [done|]. exists (m1 ++ m2). by rewrite app_assoc.
Qed.
Lemma extends_snoc t1 t2 e : extends t1 t2 → justified t2 e → extends t1 (t2 ++ [e]).
Proof.
  intros [Hc [m ->]] He. split; [by apply careful_snoc|]. exists (m ++ [e]). by rewrite app_assoc.
Qed.

(** ** The program logic *)

Definition stable (P : list event → Prop) : Prop := ∀ t e, calm e → P t → P (t ++ [e]).
Lemma stable_app P t m : stable P → Forall calm m → P t → P (t ++ m).
Proof.
  intros HP Hm. revert t. induction Hm as [|e m He Hm IH]; intros t Ht; [by rewrite app_nil_r|].
  change (e :: m) with ([e] ++ m). rewrite app_assoc. apply IH, HP; done.
Qed.
Definition calmly (tr tr' : list event) : Prop := careful tr' ∧ ∃ more, Forall calm more ∧ tr' = tr ++ more.
Lemma calmly_extends tr tr' : calmly tr tr' → extends tr tr'.
Proof. intros (Hc & more & _ & ->). split; [done|by exists more]. Qed.

Definition job {A} (P : list event → Prop) (m : J A) (Q : A → list event → Prop) : Prop :=
  ∀ tr, careful tr → P tr → calmly tr (m tr).1 ∧ ∀ a, (m tr).2 = Ok a → Q a (m tr).1.

Lemma calmly_refl tr : careful tr → calmly tr tr.
Proof. intros Ht. split; [done|]. exists []. rewrite app_nil_r. by split. Qed.
Lemma calmly_snoc tr e : careful tr → calm e → justified tr e → calmly tr (tr ++ [e]).
Proof. intros Ht He Hj. split; [by apply careful_snoc|]. exists [e]. split; [by constructor|done]. Qed.

Lemma job_weaken {A} (P P' : list event → Prop) (m : J A) Q :
  job P' m Q → (∀ t, P t → P' t) → job P m Q.
Proof. intros Hm HP tr Ht H. auto. Qed.
Lemma job_post {A} P (m : J A) (Q Q' : A → list event → Prop) :
  job P m Q → (∀ a t, Q a t → Q' a t) → job P m Q'.
Proof. intros Hm HQ tr Ht H. destruct (Hm tr Ht H). split; auto. Qed.
Lemma job_bind {A B} P (m : J A) Q (k : A → J B) R :
  stable P → job P m Q → (∀ a, job (λ t, P t ∧ Q a t) (k a) R) → job P (bindM m k) R.
Proof.
  intros Hst Hm Hk tr Ht HP. destruct (Hm tr Ht HP) as [Hx HQ]. unfold bindM.
  destruct (m tr) as [t1 [a|e]]; simpl in *; [|done].
  destruct Hx as (Hc & more & Hmore & ->).
  destruct (Hk a (tr ++ more) Hc) as [(Hc2 & more2 & Hm2 & Heq) HR].
  { split; [by apply stable_app|by apply HQ]. }
  split; [|done]. split; [done|]. exists (more ++ more2). rewrite app_assoc. by split; [apply Forall_app|].
Qed.
Lemma job_ask {A} P (answer : list event → Res E A) ev :
  (∀ r, calm (ev r)) → (∀ tr, P tr → justified tr (ev (answer tr))) →
  job P (ask answer ev) (λ a t, ev (Ok a) ∈ t).
Proof.
  intros Hc Hj tr Ht HP. split; [apply calmly_snoc; auto|].
  intros a. simpl. intros ->. rewrite elem_of_app, list_elem_of_singleton. by right.
Qed.
Lemma job_try_ask {A} P (answer : list event → Res E A) ev :
  (∀ r, calm (ev r)) → (∀ tr, P tr → justified tr (ev (answer tr))) →
  job P (try_ (ask answer ev)) (λ r t, ev r ∈ t).
Proof.
  intros Hc Hj tr Ht HP. split; [apply calmly_snoc; auto|].
  simpl. intros a [= <-]. rewrite elem_of_app, list_elem_of_singleton. by right.
Qed.
Lemma job_try {A} P (m : J A) (Q : A → list event → Prop) :
  job P m Q → job P (try_ m) (λ r t, ∀ a, r = Ok a → Q a t).
Proof.
  intros Hm tr Ht HP. destruct (Hm tr Ht HP) as [Hx HQ]. unfold try_.
  destruct (m tr) as [t1 r]; simpl in *. split; [done|]. by intros ? [= <-].
Qed.
Lemma job_note P e : calm e → (∀ tr, P tr → justified tr e) → job P (note e) (λ _ t, e ∈ t).
Proof.
  intros Hc Hj tr Ht HP. split; [apply calmly_snoc; auto|].
  intros a _. simpl. rewrite elem_of_app, list_elem_of_singleton. by right.
Qed.
Lemma job_ok {A} (P : list event → Prop) (a : A) (Q : A → list event → Prop) :
  (∀ t, P t → Q a t) → job P (ok a) Q.
Proof. intros HQ tr Ht HP. split; [by apply calmly_refl|]. simpl. intros ? [= <-]. auto. Qed.
Lemma job_fail {A} P (e : E) (Q : A → list event → Prop) : job P (fail e) Q.
Proof. intros tr Ht HP. split; [by apply calmly_refl|done]. Qed.
Lemma job_guard P b (e : E) : job P (guard_not b e) (λ _ _, b = false).
Proof. intros tr Ht HP. split; [by apply calmly_refl|]. simpl. by destruct b. Qed.
Lemma job_lift {A} P (r : Res E A) : job P (lift r) (λ a _, r = Ok a).
Proof. intros tr Ht HP. split; [by apply calmly_refl|done]. Qed.

(** [e] happened, and only calm events since *)
Definition recent (e : event) (t : list event) : Prop := ∃ pre post, t = pre ++ e :: post ∧ Forall calm post.
Lemma recent_in e t : recent e t → e ∈ t.
Proof. intros (pre & post & -> & _). rewrite elem_of_app, elem_of_cons. auto. Qed.
Lemma recent_last t e : recent e (t ++ [e]).
Proof. exists t, []. by split; [|constructor]. Qed.
Lemma stable_recent e : stable (recent e).
Proof.
  intros t e' He' (pre & post & -> & Hp). exists pre, (post ++ [e']). rewrite <-app_assoc.
  split; [done|]. apply Forall_app. by repeat constructor.
Qed.
Lemma job_recent {A} P (answer : list event → Res E A) ev :
  (∀ r, calm (ev r)) → (∀ tr, P tr → justified tr (ev (answer tr))) →
  job P (ask answer ev) (λ a t, recent (ev (Ok a)) t).
Proof.
  intros Hc Hj tr Ht HP. split; [apply calmly_snoc; auto|].
  intros a. simpl. intros ->. apply recent_last.
Qed.
Lemma job_try_recent {A} P (answer : list event → Res E A) ev :
  (∀ r, calm (ev r)) → (∀ tr, P tr → justified tr (ev (answer tr))) →
  job P (try_ (ask answer ev)) (λ r t, recent (ev r) t).
Proof.
  intros Hc Hj tr Ht HP. split; [apply calmly_snoc; auto|].
  simpl. intros a [= <-]. apply recent_last.
Qed.

(** Rules that keep the precondition small *)
Definition anything {A} (_ : A) (_ : list event) : Prop := True.
Lemma job_any {A} P (m : J A) Q : job P m Q → job P m anything.
Proof. intros Hm. by eapply job_post. Qed.
Lemma job_seq {A B} P (m : J A) (k : A → J B) R :
  stable P → job P m anything → (∀ a, job P (k a) R) → job P (bindM m k) R.
Proof.
  intros HP Hm Hk. eapply job_bind; [done|exact Hm|]. intros a. eapply job_weaken; [apply Hk|]. by intros t [].
Qed.
(** A stable precondition still holds at the end. *)
Lemma job_keep {A} P (m : J A) Q : stable P → job P m Q → job P m (λ _, P).
Proof.
  intros HP Hm tr Ht H. destruct (Hm tr Ht H) as [Hx _]. split; [done|]. intros a _.
  destruct Hx as (_ & more & Hmore & ->). by apply stable_app.
Qed.
Lemma job_lift_bind {A B} P (r : Res E A) (k : A → J B) R :
  (∀ a, r = Ok a → job P (k a) R) → job P (bindM (lift r) k) R.
Proof.
  intros Hk tr Ht HP. unfold bindM, lift. destruct r as [a|e]; [by apply Hk|]. split; [by apply calmly_refl|done].
Qed.
Lemma job_guard_bind {B} P b (e : E) (k : unit → J B) R :
  (b = false → job P (k tt) R) → job P (bindM (guard_not b e) k) R.
Proof.
  intros Hk tr Ht HP. unfold bindM, guard_not. destruct b; [split; [by apply calmly_refl|done]|]. by apply Hk.
Qed.
Lemma job_read {A} P (f : list event → A) : job P (λ tr, (tr, Ok (f tr))) anything.
Proof. intros tr Ht HP. split; [by apply calmly_refl|done]. Qed.
Lemma job_peek {A} P (f : list event → Res E A) : job P (λ tr, (tr, f tr)) anything.
Proof. intros tr Ht HP. split; [by apply calmly_refl|done]. Qed.
Lemma job_mapErr {A} P f (m : J A) Q : job P m Q → job P (mapErr f m) Q.
Proof.
  intros Hm tr Ht HP. destruct (Hm tr Ht HP) as [Hx HQ]. unfold mapErr.
  by destruct (m tr) as [t1 [a|e]].
Qed.
Lemma job_ignore {A} P (m : J A) Q : job P m Q → job P (ignore m) anything.
Proof. intros Hm tr Ht HP. destruct (Hm tr Ht HP) as [Hx HQ]. by split. Qed.
Lemma calmly_trans t1 t2 t3 : calmly t1 t2 → calmly t2 t3 → calmly t1 t3.
Proof.
  intros (_ & m1 & H1 & ->) (Hc & m2 & H2 & ->). split; [done|]. exists (m1 ++ m2).
  rewrite app_assoc. by split; [apply Forall_app|].
Qed.
Lemma stable_calmly P t t' : stable P → calmly t t' → P t → P t'.
Proof. intros HP (_ & m & Hm & ->). by apply stable_app. Qed.
Lemma job_finally {A B} P (m : J A) Q (c : J B) R :
  stable P → (∀ a, stable (Q a)) → job P m Q → job P c R → job P (finally m c) Q.
Proof.
  intros HP HQ Hm Hc tr Ht H. destruct (Hm tr Ht H) as [Hx Hq]. unfold finally.
  destruct (m tr) as [t1 r]; simpl in *.
  destruct (Hc t1 (proj1 Hx) (stable_calmly _ _ _ HP Hx H)) as [Hy _].
  split; [by eapply calmly_trans|]. intros a Ha. eapply stable_calmly; [apply HQ|exact Hy|]. by apply Hq.
Qed.
Lemma job_onError {A B} P (m : J A) Q (c : J B) R :
  stable P → job P m Q → job P c R → job P (onError m c) Q.
Proof.
  intros HP Hm Hc tr Ht H. destruct (Hm tr Ht H) as [Hx Hq]. unfold onError.
  destruct (m tr) as [t1 [a|e]]; simpl in *; [done|].
  destruct (Hc t1 (proj1 Hx) (stable_calmly _ _ _ HP Hx H)) as [Hy _].
  split; [by eapply calmly_trans|done].
Qed.
Lemma job_each {A} P (f : A → J unit) l :
  stable P → (∀ a, a ∈ l → job P (f a) anything) → job P (each f l) anything.
Proof.
  intros HP. induction l as [|a l IH]; intros Hf; simpl; [by apply job_ok|].
  apply job_seq; [done|apply Hf; by left|]. intros _. apply IH. intros b Hb. apply Hf. by right.
Qed.

Lemma stable_in e : stable (λ t, e ∈ t).
Proof. intros t e' _ Hin. rewrite elem_of_app. by left. Qed.
Lemma stable_and P Q : stable P → stable Q → stable (λ t, P t ∧ Q t).
Proof. intros HP HQ t m Hm [? ?]. auto. Qed.
Lemma stable_pure (p : Prop) : stable (λ _, p).
Proof. by intros t m. Qed.
Lemma stable_forall {A} (P : A → list event → Prop) : (∀ a, stable (P a)) → stable (λ t, ∀ a, P a t).
Proof. intros HP t e He Ht a. by apply HP. Qed.
Lemma stable_impl (p : Prop) P : stable P → stable (λ t, p → P t).
Proof. intros HP t e He Ht Hp. auto. Qed.
End trace.

Create HintDb jobs.
#[export] Hint Resolve stable_in stable_recent stable_and stable_pure stable_forall stable_impl : jobs.
