(* ===== verification/GoStrings.v ===== *)
(** * Go's strings, path and filepath functions the source uses

    A Go [string] (or [[]byte]) is a byte sequence: Rocq's [string].  The
    functions below are executable models of the standard library's functions
    on a Unix host.  Those whose result depends on the Unicode tables are exact
    on ASCII input and defer to an instance of [GoUnicode] otherwise, so that a
    theorem proved here holds whatever the tables say. *)

From S2P Require Import Prelude.

Abbreviation bytes := string (only parsing).
Global Arguments String.append !_ _ / : simpl nomatch.

(** ** Characters *)

Definition char_in (lo hi : ascii) (c : ascii) : bool :=
  (N_of_ascii lo <=? N_of_ascii c)%N && (N_of_ascii c <=? N_of_ascii hi)%N.
Definition is_lower : ascii → bool := char_in "a" "z".
Definition is_upper : ascii → bool := char_in "A" "Z".
Definition is_digit : ascii → bool := char_in "0" "9".
Definition is_ascii (c : ascii) : bool := (N_of_ascii c <? 128)%N.
Definition lower_char (c : ascii) : ascii :=
  if is_upper c then ascii_of_N (N_of_ascii c + 32) else c.
(** [asciiSpace] of package strings: tab, newline, VT, FF, CR, space *)
Definition is_space (c : ascii) : bool :=
  char_in "009" "013" c || (c =? " ")%char.
Definition NUL : ascii := "000"%char.
Definition dquote : string := String "034" EmptyString.
Definition quoted (s : string) : string := dquote +:+ s +:+ dquote.

(** ** Slices and predicates *)

Fixpoint str_forall (p : ascii → bool) (s : string) : bool :=
  match s with
  | EmptyString => true
  | String c s => p c && str_forall p s
  end.
Definition str_exists (p : ascii → bool) (s : string) : bool :=
  negb (str_forall (λ c, negb (p c)) s).

(** [s[:n]] and [s[n:]] *)
Fixpoint str_take (n : nat) (s : string) : string :=
  match n, s with
  | S n, String c s => String c (str_take n s)
  | _, _ => ""
  end.
Fixpoint str_drop (n : nat) (s : string) : string :=
  match n, s with
  | S n, String _ s => str_drop n s
  | O, _ => s
  | _, EmptyString => ""
  end.

(** strings.HasPrefix, strings.HasSuffix *)
Fixpoint has_prefix (p s : string) : bool :=
  match p, s with
  | EmptyString, _ => true
  | String a p, String b s => (a =? b)%char && has_prefix p s
  | String _ _, EmptyString => false
  end.
Definition has_suffix (suf s : string) : bool :=
  (String.length suf <=? String.length s) &&
  (str_drop (String.length s - String.length suf) s =? suf)%string.

(** strings.Index and strings.Contains *)
Fixpoint index (sub s : string) : option nat :=
  if has_prefix sub s then Some 0
  else match s with
       | EmptyString => None
       | String _ s => S <$> index sub s
       end.
Definition contains (sub s : string) : bool :=
  match index sub s with Some _ => true | None => false end.

(** strings.IndexByte, strings.LastIndexByte *)
Fixpoint index_byte (c : ascii) (s : string) : option nat :=
  match s with
  | EmptyString => None
  | String d s => if (c =? d)%char then Some 0 else S <$> index_byte c s
  end.
Fixpoint last_index_byte (c : ascii) (s : string) : option nat :=
  match s with
  | EmptyString => None
  | String d s =>
      match last_index_byte c s with
      | Some i => Some (S i)
      | None => if (c =? d)%char then Some 0 else None
      end
  end.
Definition contains_char (c : ascii) (s : string) : bool :=
  str_exists (λ d, c =? d)%char s.

(** strings.TrimPrefix, strings.TrimSuffix, strings.TrimLeft, strings.TrimRight *)
Definition trim_prefix (p s : string) : string :=
  if has_prefix p s then str_drop (String.length p) s else s.
Definition trim_suffix (suf s : string) : string :=
  if has_suffix suf s
  then str_take (String.length s - String.length suf) s else s.
Fixpoint trim_left (p : ascii → bool) (s : string) : string :=
  match s with
  | EmptyString => ""
  | String c s' => if p c then trim_left p s' else s
  end.
Fixpoint trim_right (p : ascii → bool) (s : string) : string :=
  match s with
  | EmptyString => ""
  | String c s' =>
      match trim_right p s' with
      | EmptyString => if p c then "" else String c ""
      | t => String c t
      end
  end.
Definition trim_with (p : ascii → bool) (s : string) : string :=
  trim_right p (trim_left p s).

(** strings.Split with a one-byte separator, strings.Join, strings.Cut *)
Fixpoint split (c : ascii) (s : string) : list string :=
  match s with
  | EmptyString => [""]
  | String d s =>
      if (c =? d)%char then "" :: split c s
      else match split c s with
           | [] => [String d ""]
           | x :: xs => String d x :: xs
           end
  end.
Fixpoint join (sep : string) (l : list string) : string :=
  match l with
  | [] => ""
  | [x] => x
  | x :: l => x +:+ sep +:+ join sep l
  end.
Definition cut (c : ascii) (s : string) : string * string * bool :=
  match index_byte c s with
  | Some i => (str_take i s, str_drop (S i) s, true)
  | None => (s, "", false)
  end.
(** strings.Count of a one-byte substring *)
Fixpoint count_char (c : ascii) (s : string) : nat :=
  match s with
  | EmptyString => 0
  | String d s => (if (c =? d)%char then 1 else 0) + count_char c s
  end.
(** strings.SplitN(s, c, n) for n > 0 *)
Fixpoint split_n (c : ascii) (s : string) (n : nat) : list string :=
  match n with
  | 0 => []
  | 1 => [s]
  | S n' =>
      match index_byte c s with
      | Some i => str_take i s :: split_n c (str_drop (S i) s) n'
      | None => [s]
      end
  end.

(** ** Functions that consult the Unicode tables outside ASCII *)

Class GoUnicode := {
  uni_to_lower : string → string;
  uni_trim_space : string → string;
  uni_equal_fold : string → string → bool;
  uni_fields : string → list string;
}.

(** strings.Fields on ASCII: the maximal runs of non-space bytes; [cur] is the
    field being read *)
Fixpoint ascii_fields_go (s cur : string) : list string :=
  let flush l := if (cur =? "")%string then l else cur :: l in
  match s with
  | EmptyString => flush []
  | String c s => if is_space c then flush (ascii_fields_go s "") else ascii_fields_go s (cur +:+ String c "")
  end.
Definition ascii_fields (s : string) : list string := ascii_fields_go s "".

(** Tables with which non-ASCII bytes are left alone; used by the witnesses. *)
Fixpoint str_map (f : ascii → ascii) (s : string) : string :=
  match s with
  | EmptyString => ""
  | String c s => String (f c) (str_map f s)
  end.
Definition ascii_only_unicode : GoUnicode := {|
  uni_to_lower := str_map lower_char;
  uni_trim_space := trim_with is_space;
  uni_equal_fold a b := (str_map lower_char a =? str_map lower_char b)%string;
  uni_fields := ascii_fields;
|}.

Section unicode.
Context `{GoUnicode}.

Definition all_ascii : string → bool := str_forall is_ascii.

(** strings.ToLower, strings.TrimSpace, strings.EqualFold, strings.Fields *)
Definition to_lower (s : string) : string :=
  if all_ascii s then str_map lower_char s else uni_to_lower s.
Definition trim_space (s : string) : string :=
  if all_ascii s then trim_with is_space s else uni_trim_space s.
Definition equal_fold (a b : string) : bool :=
  if all_ascii a && all_ascii b
  then (str_map lower_char a =? str_map lower_char b)%string
  else uni_equal_fold a b.
Definition fields (s : string) : list string :=
  if all_ascii s then ascii_fields s else uni_fields s.
End unicode.

(** ** path and filepath (Unix) *)

Definition slash : ascii := "/"%char.

(** One element of the path is appended to the output of path.Clean; the output
    is kept as a reversed list of elements. *)
Definition clean_step (rooted : bool) (out : list string) (seg : string) : list string :=
  if (seg =? "")%string || (seg =? ".")%string then out
  else if (seg =? "..")%string then
    match out with
    | [] => if rooted then [] else [".."]
    | top :: out' => if (top =? "..")%string then ".." :: out else out'
    end
  else seg :: out.
Definition clean_segs (rooted : bool) (segs : list string) : list string :=
  rev (foldl (clean_step rooted) [] segs).
Definition path_clean (p : string) : string :=
  let rooted := has_prefix "/" p in
  let out := join "/" (clean_segs rooted (split slash p)) in
  if rooted then "/" +:+ out
  else if (out =? "")%string then "." else out.

(** filepath.IsLocal on Unix *)
Definition is_local (p : string) : bool :=
  if has_prefix "/" p || (p =? "")%string then false
  else
    let has_dots := existsb (λ s, (s =? ".")%string || (s =? "..")%string) (split slash p) in
    let p := if has_dots then path_clean p else p in
    negb ((p =? "..")%string || has_prefix "../" p).

(** filepath.Join: the non-empty elements, cleaned *)
Definition filepath_Join (l : list string) : string :=
  match List.filter (λ s, negb (s =? "")%string) l with
  | [] => ""
  | l => path_clean (join "/" l)
  end.
(** filepath.Dir of a cleaned path *)
Definition filepath_Dir (p : string) : string :=
  match last_index_byte slash p with
  | Some i => path_clean (str_take (S i) p)
  | None => "."
  end.

(** path.Ext (and filepath.Ext): from the last dot of the last element *)
Definition last_seg (p : string) : string :=
  match last_index_byte slash p with
  | Some i => str_drop (S i) p
  | None => p
  end.
Definition path_ext (p : string) : string :=
  let base := last_seg p in
  match last_index_byte "." base with
  | Some i => str_drop i base
  | None => ""
  end.

(** ** strconv and fmt *)

Definition digit_char (n : N) : ascii :=
  if (n <? 10)%N then ascii_of_N (48 + n) else ascii_of_N (87 + n).
Fixpoint digits_go (base : N) (fuel : nat) (n : N) (acc : string) : string :=
  match fuel with
  | 0 => acc
  | S fuel =>
      if (n =? 0)%N then acc
      else digits_go base fuel (n / base)%N (String (digit_char (n mod base)) acc)
  end.
(** [N.size_nat n] binary digits bound the number of digits in any base >= 2. *)
Definition digits (base n : N) : string :=
  if (n =? 0)%N then "0" else digits_go base (N.size_nat n) n "".
Fixpoint zeros (n : nat) : string :=
  match n with 0 => "" | S n => String "0" (zeros n) end.
(** fmt.Sprintf("%0{w}x", n) *)
Definition hex_pad (w : nat) (n : N) : string :=
  let d := digits 16 n in zeros (w - String.length d) +:+ d.
(** strconv.FormatInt(z, base) *)
Definition format_int (base : N) (z : Z) : string :=
  match z with
  | Zneg p => String "-" (digits base (Npos p))
  | _ => digits base (Z.to_N z)
  end.
Definition itoa : Z → string := format_int 10.

(** ** Facts about byte strings *)

Lemma str_app_assoc (a b c : string) : (a +:+ b) +:+ c = a +:+ b +:+ c.
Proof. induction a as [|x a IH]; [done|]. cbn. by rewrite IH. Qed.
Lemma str_app_nil_r (a : string) : a +:+ "" = a.
Proof. induction a as [|x a IH]; [done|]. cbn. by rewrite IH. Qed.
Lemma str_app_cons x (a b : string) : String x a +:+ b = String x (a +:+ b).
Proof. done. Qed.
Lemma str_length_app (a b : string) :
  String.length (a +:+ b) = String.length a + String.length b.
Proof. induction a as [|x a IH]; [done|]. cbn. by rewrite IH. Qed.
Lemma str_take_drop n s : str_take n s +:+ str_drop n s = s.
Proof. revert s. induction n as [|n IH]; intros [|c s]; cbn; [done..|]. by rewrite IH. Qed.
Lemma str_drop_app (a b : string) : str_drop (String.length a) (a +:+ b) = b.
Proof. induction a as [|x a IH]; [by destruct b|]. cbn. done. Qed.
Lemma str_drop_app_cons a c b : str_drop (String.length a + 1) (a +:+ String c b) = b.
Proof. induction a as [|x a IH]; [by destruct b|]. cbn. done. Qed.
Lemma str_take_app (a b : string) : str_take (String.length a) (a +:+ b) = a.
Proof. induction a as [|x a IH]; [by destruct b|]. cbn. by rewrite IH. Qed.
Lemma str_length_drop n s : String.length (str_drop n s) = String.length s - n.
Proof. revert s. induction n as [|n IH]; intros [|c s]; cbn; auto. Qed.
Lemma str_length_take n s : String.length (str_take n s) = n `min` String.length s.
Proof. revert s. induction n as [|n IH]; intros [|c s]; cbn; auto. Qed.
Lemma str_app_eq_nil (a b : string) : a +:+ b = "" → a = "" ∧ b = "".
Proof. by destruct a, b. Qed.

Lemma str_snoc_inj a b x y : a +:+ String x "" = b +:+ String y "" → a = b ∧ x = y.
Proof.
  revert b. induction a as [|c a IH]; intros [|d b]; simpl; intros Heq.
  - by simplify_eq.
  - injection Heq as <- Heq. symmetry in Heq. by apply str_app_eq_nil in Heq as [_ ?].
  - injection Heq as -> Heq. by apply str_app_eq_nil in Heq as [_ ?].
  - injection Heq as -> Heq. apply IH in Heq as [-> ->]. done.
Qed.

Lemma str_forall_app p a b : str_forall p (a +:+ b) = str_forall p a && str_forall p b.
Proof. induction a as [|x a IH]; [done|]. cbn. by rewrite IH, andb_assoc. Qed.
Lemma str_forall_impl (p q : ascii → bool) s :
  (∀ c, p c = true → q c = true) → str_forall p s = true → str_forall q s = true.
Proof. intros Hpq. induction s as [|c s IH]; cbn; [done|]. intros [? ?]%andb_true_iff. by rewrite Hpq, IH. Qed.

Lemma has_prefix_app p s : has_prefix p (p +:+ s) = true.
Proof. induction p as [|c p IH]; [done|]. cbn. by rewrite Ascii.eqb_refl. Qed.
Lemma has_prefix_spec p s : has_prefix p s = true ↔ ∃ r, s = p +:+ r.
Proof.
  split; [|intros [r ->]; apply has_prefix_app].
  revert s. induction p as [|c p IH]; intros s; cbn; [by exists s|].
  destruct s as [|d s]; [done|]. intros [->%Ascii.eqb_eq [r ->]%IH]%andb_true_iff.
  by exists r.
Qed.
Lemma has_suffix_spec suf s : has_suffix suf s = true ↔ ∃ r, s = r +:+ suf.
Proof.
  unfold has_suffix. split.
  - intros [_ H%String.eqb_eq]%andb_true_iff.
    exists (str_take (String.length s - String.length suf) s).
    rewrite <-(str_take_drop (String.length s - String.length suf) s) at 1. by f_equal.
  - intros [r ->]. rewrite str_length_app.
    replace (String.length r + String.length suf - String.length suf)
      with (String.length r) by lia.
    rewrite str_drop_app, String.eqb_refl, andb_true_r. apply Nat.leb_le. lia.
Qed.

Lemma trim_prefix_app p s : trim_prefix p (p +:+ s) = s.
Proof. unfold trim_prefix. by rewrite has_prefix_app, str_drop_app. Qed.
Lemma trim_suffix_app a suf : trim_suffix suf (a +:+ suf) = a.
Proof.
  unfold trim_suffix. assert (has_suffix suf (a +:+ suf) = true) as -> by (apply has_suffix_spec; by exists a).
  rewrite str_length_app. replace (_ - _) with (String.length a) by lia. apply str_take_app.
Qed.
(** A suffix is trimmed at most once. *)
Lemma trim_suffix_cases suf s : s = trim_suffix suf s ∨ s = trim_suffix suf s +:+ suf.
Proof.
  destruct (has_suffix suf s) eqn:Hs; [right|left; unfold trim_suffix; by rewrite Hs].
  apply has_suffix_spec in Hs as [r ->]. by rewrite trim_suffix_app.
Qed.

Lemma index_Some sub s i :
  index sub s = Some i → s = str_take i s +:+ sub +:+ str_drop (i + String.length sub) s.
Proof.
  revert i. induction s as [|c s IH]; intros i H.
  - cbn in H. destruct sub; cbn in H; simplify_eq. done.
  - cbn [index] in H. destruct (has_prefix sub (String c s)) eqn:Hp.
    + simplify_eq. apply has_prefix_spec in Hp as [r Hr]. cbn [str_take].
      rewrite Hr at 1. change (0 + String.length sub) with (String.length sub).
      by rewrite Hr, str_drop_app.
    + apply fmap_Some in H as (j & Hj & ->). cbn. f_equal. by apply IH.
Qed.
Lemma contains_spec sub s : contains sub s = true ↔ ∃ a b, s = a +:+ sub +:+ b.
Proof.
  unfold contains. split.
  - destruct (index sub s) as [i|] eqn:Hi; [|done]. intros _.
    eexists _, _. by apply index_Some.
  - intros (a & b & ->). induction a as [|c a IH].
    + change ("" +:+ sub +:+ b) with (sub +:+ b).
      destruct (sub +:+ b) as [|e r] eqn:Hsb; cbn [index];
        rewrite <-Hsb; by rewrite has_prefix_app.
    + cbn. destruct (has_prefix _ _); [done|].
      by destruct (index sub (a +:+ sub +:+ b)).
Qed.
Lemma contains_app_false sub a b :
  contains sub (a +:+ b) = false → contains sub a = false ∧ contains sub b = false.
Proof.
  intros H. split; apply not_true_iff_false; intros (x & y & ->)%contains_spec;
    apply not_true_iff_false in H; apply H, contains_spec.
  - exists x, (y +:+ b). by rewrite !str_app_assoc.
  - exists (a +:+ x), y. by rewrite !str_app_assoc.
Qed.

(** *** Splitting and joining *)

Definition no_char (c : ascii) : string → bool := str_forall (λ d, negb (c =? d)%char).

Lemma no_char_app c a b : no_char c (a +:+ b) = no_char c a && no_char c b.
Proof. apply str_forall_app. Qed.
Lemma split_not_nil c s : split c s ≠ [].
Proof. destruct s as [|d s]; cbn; [done|]. by destruct (c =? d)%char, (split c s). Qed.

Lemma split_no_char c s : Forall (λ x, no_char c x = true) (split c s).
Proof.
  induction s as [|d s IH]; cbn; [by repeat constructor|].
  destruct (c =? d)%char eqn:E; [by constructor|].
  destruct (split c s) as [|x xs]; [by repeat constructor; cbn; rewrite E|].
  inversion IH; subst. constructor; [|done]. unfold no_char in *. cbn. by rewrite E.
Qed.

Lemma split_single c s : no_char c s = true → split c s = [s].
Proof.
  unfold no_char. induction s as [|d s IH]; cbn; [done|].
  intros [H1%negb_true_iff H2]%andb_true_iff. by rewrite H1, IH.
Qed.

Lemma split_app c a s : no_char c a = true → split c (a +:+ String c s) = a :: split c s.
Proof.
  unfold no_char. induction a as [|d a IH]; cbn.
  - intros _. by rewrite Ascii.eqb_refl.
  - intros [H1%negb_true_iff H2]%andb_true_iff. by rewrite H1, IH.
Qed.

Lemma split_app_gen c a b : split c (a +:+ String c b) = split c a ++ split c b.
Proof.
  induction a as [|d a IH]; simpl; [by rewrite Ascii.eqb_refl|].
  destruct (c =? d)%char; [by rewrite IH|]. rewrite IH.
  pose proof (split_not_nil c a). by destruct (split c a).
Qed.
Lemma split_app_last c a b : no_char c b = true → split c (a +:+ String c b) = split c a ++ [b].
Proof. intros Hb. by rewrite split_app_gen, (split_single c b). Qed.

Lemma split_join c l :
  l ≠ [] → Forall (λ x, no_char c x = true) l → split c (join (String c "") l) = l.
Proof.
  intros Hne Hl. induction Hl as [|x l Hx Hl IH]; [done|].
  destruct l as [|y l]; [by apply split_single|].
  change (join (String c "") (x :: y :: l)) with
    (x +:+ String c (join (String c "") (y :: l))).
  by rewrite split_app, IH.
Qed.

Lemma join_cons sep x l : l ≠ [] → join sep (x :: l) = x +:+ sep +:+ join sep l.
Proof. by destruct l. Qed.

Lemma join_split c s : join (String c "") (split c s) = s.
Proof.
  induction s as [|d s IH]; [done|]. cbn [split].
  pose proof (split_not_nil c s) as Hne.
  destruct (c =? d)%char eqn:E.
  - apply Ascii.eqb_eq in E as ->. rewrite join_cons by done. by rewrite IH.
  - destruct (split c s) as [|x xs]; [done|].
    rewrite <-IH. by destruct xs.
Qed.

Lemma split_inj c s t : split c s = split c t → s = t.
Proof. intros H. by rewrite <-(join_split c s), H, join_split. Qed.

Lemma no_char_contains_char c s : no_char c s = negb (contains_char c s).
Proof. unfold contains_char, str_exists, no_char. by rewrite negb_involutive. Qed.

(** *** Cleaned paths *)

Definition normal_seg (s : string) : Prop := s ≠ "" ∧ s ≠ "." ∧ s ≠ "..".
#[export] Instance normal_seg_dec s : Decision (normal_seg s).
Proof. unfold normal_seg. apply _. Defined.

Lemma clean_step_normal r out s : normal_seg s → clean_step r out s = s :: out.
Proof.
  intros (H1 & H2 & H3). unfold clean_step.
  apply String.eqb_neq in H1, H2, H3. by rewrite H1, H2, H3.
Qed.
Lemma clean_step_cases r out s :
  (clean_step r out s = out ∧ (s = "" ∨ s = ".")) ∨
  (normal_seg s ∧ clean_step r out s = s :: out) ∨
  (s = ".." ∧ clean_step r out s =
     match out with
     | [] => if r then [] else [".."]
     | top :: out' => if (top =? "..")%string then ".." :: out else out'
     end).
Proof.
  destruct (decide (normal_seg s)) as [Hn|Hn].
  { right; left. split; [done|]. by apply clean_step_normal. }
  unfold clean_step.
  destruct (String.eqb_spec s "") as [->|]; [by left; eauto|].
  destruct (String.eqb_spec s ".") as [->|]; [by left; eauto|].
  destruct (String.eqb_spec s "..") as [->|]; [by right; right|].
  destruct Hn. done.
Qed.

Lemma foldl_clean_rooted segs out :
  Forall normal_seg out → Forall normal_seg (foldl (clean_step true) out segs).
Proof.
  revert out. induction segs as [|s segs IH]; intros out Hout; [done|]. simpl. apply IH.
  destruct (clean_step_cases true out s) as [(-> & _)|[(Hs & ->)|(-> & ->)]]; [done|by constructor|].
  destruct Hout as [|t out Ht Hout]; [done|].
  destruct (String.eqb_spec t "..") as [->|]; [|done]. by destruct Ht as (_ & _ & []).
Qed.
Lemma clean_segs_rooted segs : Forall normal_seg (clean_segs true segs).
Proof. apply Forall_rev, foldl_clean_rooted. constructor. Qed.

Lemma foldl_clean_relative segs k l :
  Forall normal_seg l →
  ∃ k' l', foldl (clean_step false) (l ++ replicate k "..") segs = l' ++ replicate k' ".."
           ∧ Forall normal_seg l'.
Proof.
  revert k l. induction segs as [|s segs IH]; intros k l Hl; [by eauto|]. simpl.
  destruct (clean_step_cases false (l ++ replicate k "..") s)
    as [(-> & _)|[(Hs & ->)|(-> & ->)]].
  - by apply IH.
  - apply (IH k (s :: l)). by constructor.
  - destruct Hl as [|t l Ht Hl]; simpl.
    + destruct k as [|k]; [apply (IH 1 [])|apply (IH (S (S k)) [])]; constructor.
    + destruct (String.eqb_spec t "..") as [->|]; [by destruct Ht as (_ & _ & [])|].
      by apply IH.
Qed.
Lemma clean_segs_relative segs :
  ∃ k l, clean_segs false segs = replicate k ".." ++ l ∧ Forall normal_seg l.
Proof.
  destruct (foldl_clean_relative segs 0 []) as (k & l & Hf & Hl); [constructor|].
  unfold clean_segs. simpl in Hf. rewrite Hf. exists k, (rev l).
  rewrite rev_app_distr. split; [|by apply Forall_rev]. f_equal.
  clear. induction k as [|k IH]; [done|]. simpl. rewrite IH.
  by rewrite <-replicate_cons_app.
Qed.

Lemma foldl_clean_normals r l out :
  Forall normal_seg l → foldl (clean_step r) out l = rev l ++ out.
Proof.
  intros Hl. revert out. induction Hl as [|s l Hs Hl IH]; intros out; [done|]. simpl.
  rewrite clean_step_normal by done. rewrite IH, <-(assoc_L (++)). done.
Qed.
Lemma clean_segs_normals r l : Forall normal_seg l → clean_segs r l = l.
Proof.
  intros Hl. unfold clean_segs. by rewrite foldl_clean_normals, app_nil_r, rev_involutive.
Qed.

Lemma clean_segs_no_char c r segs :
  c ≠ "."%char →
  Forall (λ x, no_char c x = true) segs →
  Forall (λ x, no_char c x = true) (clean_segs r segs).
Proof.
  intros Hc Hs. apply Forall_rev. assert (Forall (λ x, no_char c x = true) []) as Ho by constructor.
  assert (no_char c ".." = true) as Hdd.
  { unfold no_char. simpl. by destruct (Ascii.eqb_spec c "."). }
  revert Ho. generalize (@nil string). induction Hs as [|s segs Hx Hs IH]; intros out Ho; [done|].
  simpl. apply IH.
  destruct (clean_step_cases r out s) as [(-> & _)|[(? & ->)|(-> & ->)]]; [done|by constructor|].
  destruct Ho as [|t out ? Ho]; [destruct r; by repeat constructor|].
  destruct (t =? "..")%string; by repeat constructor.
Qed.
Lemma clean_segs_no_slash r segs :
  Forall (λ x, no_char slash x = true) segs →
  Forall (λ x, no_char slash x = true) (clean_segs r segs).
Proof. by apply clean_segs_no_char. Qed.

Lemma split_keeps_no_char d c s : no_char d s = true → Forall (λ x, no_char d x = true) (split c s).
Proof.
  unfold no_char. induction s as [|e s IH]; simpl; [by repeat constructor|].
  intros [He Hs]%andb_true_iff. apply IH in Hs. destruct (c =? e)%char; [by constructor|].
  destruct (split c s) as [|x xs]; constructor; simpl; rewrite ?He; try done.
  - by apply Forall_cons in Hs as [? _].
  - by apply Forall_cons in Hs as [_ ?].
Qed.
Lemma join_no_char d sep l :
  no_char d sep = true → Forall (λ x, no_char d x = true) l → no_char d (join sep l) = true.
Proof.
  intros Hsep. induction 1 as [|x l Hx Hl IH]; [done|]. destruct l as [|y l]; [done|].
  rewrite join_cons by done. unfold no_char in *. by rewrite !str_forall_app, Hx, Hsep, IH.
Qed.
Lemma path_clean_no_char c p :
  c ≠ "."%char → c ≠ slash → no_char c p = true → no_char c (path_clean p) = true.
Proof.
  intros Hc Hsl Hp. unfold path_clean.
  assert (no_char c "/" = true) as Hsep.
  { unfold no_char. simpl. by destruct (Ascii.eqb_spec c "/"). }
  assert (no_char c (join "/" (clean_segs (has_prefix "/" p) (split slash p))) = true) as Hj.
  { apply join_no_char, clean_segs_no_char, split_keeps_no_char; done. }
  destruct (has_prefix "/" p).
  - unfold no_char in *. by rewrite str_forall_app, Hsep, Hj.
  - destruct (_ =? _)%string; [|done]. unfold no_char. simpl. by destruct (Ascii.eqb_spec c ".").
Qed.

(** The elements of a path accepted by [is_local], once cleaned, are all
    ordinary names: nothing climbs out of the root. *)
Lemma is_local_segs p :
  is_local p = true →
  has_prefix "/" p = false ∧ Forall normal_seg (clean_segs false (split slash p)).
Proof.
  unfold is_local. destruct (has_prefix "/" p) eqn:Hr; [done|]. simpl.
  destruct (p =? "")%string; [done|].
  destruct (existsb _ _) eqn:Hd; intros Hl; (split; [done|]).
  - destruct (clean_segs_relative (split slash p)) as (k & l & Hc & Hnl).
    destruct k as [|k]; [by rewrite Hc|]. exfalso.
    unfold path_clean in Hl. rewrite Hr, Hc in Hl. simpl in Hl.
    destruct (replicate k ".." ++ l) as [|y r]; [done|].
    by rewrite join_cons in Hl.
  - apply Forall_rev.
    assert (Forall (λ s, s = "" ∨ normal_seg s) (split slash p)) as Hs.
    { apply Forall_forall. intros s Hin.
      destruct (decide (s = "")); [by left|right].
      split_and!; [done|intros ->|intros ->];
        apply not_true_iff_false in Hd; apply Hd, existsb_exists;
        eexists; by rewrite <-list_elem_of_In. }
    clear Hd Hl. assert (Forall normal_seg []) as Ho by constructor. revert Ho.
    generalize (@nil string). induction Hs as [|s segs Hx Hs IH]; intros out Ho; [done|].
    simpl. apply IH. destruct Hx as [->|Hx]; [done|]. rewrite clean_step_normal by done.
    by constructor.
Qed.

(** path.Clean of a local path is "." or the slash-joined ordinary names. *)
Lemma path_clean_local p :
  is_local p = true →
  ∃ l, Forall normal_seg l ∧ Forall (λ x, no_char slash x = true) l ∧
       path_clean p = (if decide (l = []) then "." else join "/" l) ∧
       split slash (path_clean p) = (if decide (l = []) then ["."] else l).
Proof.
  intros [Hr Hn]%is_local_segs. exists (clean_segs false (split slash p)).
  pose proof (clean_segs_no_slash false _ (split_no_char slash p)) as Hs.
  split_and!; [done..| |]; unfold path_clean; rewrite Hr;
    generalize dependent (clean_segs false (split slash p)); intros l Hn Hs.
  - destruct l as [|x l]; [done|]. rewrite decide_False by done.
    destruct (String.eqb_spec (join "/" (x :: l)) "") as [E|]; [|done].
    apply Forall_cons_1 in Hn as [(? & _) _].
    destruct l; [done|]. rewrite join_cons in E by done. by apply str_app_eq_nil in E as [??].
  - destruct l as [|x l]; [done|]. rewrite decide_False by done.
    destruct (String.eqb_spec (join "/" (x :: l)) "") as [E|].
    + apply Forall_cons_1 in Hn as [(? & _) _].
      destruct l; [done|]. rewrite join_cons in E by done. by apply str_app_eq_nil in E as [??].
    + by apply split_join.
Qed.

Lemma path_clean_rooted p :
  has_prefix "/" p = true →
  ∃ l, Forall normal_seg l ∧ Forall (λ x, no_char slash x = true) l ∧
       path_clean p = "/" +:+ join "/" l.
Proof.
  intros Hr. exists (clean_segs true (split slash p)). split_and!.
  - apply clean_segs_rooted.
  - apply clean_segs_no_slash, split_no_char.
  - unfold path_clean. by rewrite Hr.
Qed.

(** *** Trimming and searching what is not there *)

Lemma trim_left_none p s : str_forall (λ c, negb (p c)) s = true → trim_left p s = s.
Proof. destruct s as [|c s]; simpl; [done|]. by intros [->%negb_true_iff _]%andb_true_iff. Qed.
Lemma trim_right_none p s : str_forall (λ c, negb (p c)) s = true → trim_right p s = s.
Proof.
  induction s as [|c s IH]; simpl; [done|]. intros [Hc%negb_true_iff Hs]%andb_true_iff.
  rewrite IH by done. destruct s; [by rewrite Hc|done].
Qed.
Lemma trim_with_none p s : str_forall (λ c, negb (p c)) s = true → trim_with p s = s.
Proof. intros Hs. unfold trim_with. by rewrite trim_left_none, trim_right_none. Qed.
Lemma index_byte_app c a b : no_char c a = true → index_byte c (a +:+ String c b) = Some (String.length a).
Proof.
  unfold no_char. induction a as [|d a IH]; simpl; [by rewrite Ascii.eqb_refl|].
  intros [Hd%negb_true_iff Ha]%andb_true_iff. by rewrite Hd, IH.
Qed.
Lemma index_byte_Some c s i : index_byte c s = Some i →
  s = str_take i s +:+ String c (str_drop (S i) s) ∧ no_char c (str_take i s) = true.
Proof.
  unfold no_char. revert i. induction s as [|d s IH]; intros i Hi; simpl in Hi; [done|].
  destruct (Ascii.eqb_spec c d) as [->|Hne]; [by injection Hi as <-|].
  apply fmap_Some in Hi as (j & Hj & ->). apply IH in Hj as [Hs Hn]. split.
  - cbn [str_take str_drop String.append]. by f_equal.
  - cbn [str_take str_forall]. rewrite Hn, andb_true_r. apply negb_true_iff. by apply Ascii.eqb_neq.
Qed.
Lemma cut_app c a b : no_char c a = true → cut c (a +:+ String c b) = (a, b, true).
Proof.
  intros Ha. unfold cut. rewrite index_byte_app by done.
  replace (S (String.length a)) with (String.length a + 1) by lia. by rewrite str_take_app, str_drop_app_cons.
Qed.
Lemma split_n_cons c a b n : no_char c a = true → split_n c (a +:+ String c b) (S (S n)) = a :: split_n c b (S n).
Proof.
  intros Ha. cbn [split_n]. rewrite index_byte_app by done.
  replace (S (String.length a)) with (String.length a + 1) by lia. by rewrite str_take_app, str_drop_app_cons.
Qed.
Lemma index_byte_none c s : no_char c s = true → index_byte c s = None.
Proof.
  unfold no_char. induction s as [|d s IH]; simpl; [done|].
  intros [Hd%negb_true_iff Hs]%andb_true_iff. by rewrite Hd, IH.
Qed.

Lemma str_map_id f s : str_forall (λ c, bool_decide (f c = c)) s = true → str_map f s = s.
Proof.
  induction s as [|c s IH]; simpl; [done|]. intros [Hc%bool_decide_eq_true Hs]%andb_true_iff.
  by rewrite Hc, IH.
Qed.
Lemma last_index_none c s : no_char c s = true → last_index_byte c s = None.
Proof.
  unfold no_char. induction s as [|d s IH]; simpl; [done|].
  intros [Hd%negb_true_iff Hs]%andb_true_iff. by rewrite IH, Hd.
Qed.
Lemma last_index_None c s : last_index_byte c s = None → no_char c s = true.
Proof.
  unfold no_char. induction s as [|d s IH]; cbn; [done|].
  destruct (last_index_byte c s); [done|]. destruct (c =? d)%char; [done|]. intros _. by apply IH.
Qed.
Lemma last_index_app c a b :
  no_char c b = true → last_index_byte c (a +:+ String c b) = Some (String.length a).
Proof.
  intros Hb. induction a as [|d a IH]; simpl.
  - by rewrite last_index_none, Ascii.eqb_refl.
  - by rewrite IH.
Qed.

Lemma last_index_Some c s i :
  last_index_byte c s = Some i →
  s = str_take i s +:+ String c (str_drop (i + 1) s) ∧ no_char c (str_drop (i + 1) s) = true.
Proof.
  revert i. induction s as [|d s IH]; intros i; simpl; [done|].
  destruct (last_index_byte c s) as [j|] eqn:E.
  - intros [= <-]. destruct (IH j eq_refl) as [Hs Hn]. simpl. split; [|done]. by f_equal.
  - destruct (Ascii.eqb_spec c d) as [->|]; [|done]. intros [= <-].
    replace (str_drop (0 + 1) (String d s)) with s by (by destruct s).
    split; [done|]. clear IH. revert E. unfold no_char.
    induction s as [|e s IH]; simpl; [done|]. destruct (last_index_byte d s); [done|].
    destruct (d =? e)%char; [done|]. by intros _; apply IH.
Qed.

(** *** Number formatting *)

Definition digit_val (c : ascii) : N :=
  let n := N_of_ascii c in if (n <? 58)%N then n - 48 else n - 87.
Fixpoint digits_val (base : N) (acc : N) (s : string) : N :=
  match s with
  | EmptyString => acc
  | String c s => digits_val base (acc * base + digit_val c) s
  end.

Lemma digit_val_char n : (n < 36)%N → digit_val (digit_char n) = n.
Proof.
  intros Hn. unfold digit_val, digit_char.
  destruct (N.ltb_spec n 10); rewrite N_ascii_embedding by lia.
  - destruct (N.ltb_spec (48 + n) 58); lia.
  - destruct (N.ltb_spec (87 + n) 58); lia.
Qed.

Lemma size_nat_div base n k :
  (2 ≤ base)%N → n ≠ 0%N → (n < 2 ^ N.of_nat (S k))%N → (n / base < 2 ^ N.of_nat k)%N.
Proof.
  intros Hb Hn Hk. rewrite Nat2N.inj_succ, N.pow_succ_r' in Hk.
  apply N.Div0.div_lt_upper_bound. nia.
Qed.

Lemma digits_val_go base fuel n acc a :
  (2 ≤ base ≤ 36)%N → (n < 2 ^ N.of_nat fuel)%N →
  digits_val base a (digits_go base fuel n acc) =
  digits_val base (a * base ^ N.of_nat (String.length (digits_go base fuel n "")) + n) acc.
Proof.
  intros Hb. revert n acc a. induction fuel as [|fuel IH]; intros n acc a Hn.
  { assert (n = 0%N) as -> by (simpl in Hn; lia). simpl. f_equal. lia. }
  cbn [digits_go]. destruct (N.eqb_spec n 0) as [->|Hn0].
  { simpl. f_equal. lia. }
  assert (n / base < 2 ^ N.of_nat fuel)%N as Hn' by (apply size_nat_div; lia).
  rewrite IH by done. cbn [digits_val].
  rewrite digit_val_char by (pose proof (N.mod_upper_bound n base); lia).
  f_equal.
  assert (∀ fuel n acc, String.length (digits_go base fuel n acc) =
                        String.length (digits_go base fuel n "") + String.length acc) as Hlen.
  { clear. induction fuel as [|fuel IH]; intros n acc; [done|]. cbn [digits_go].
    destruct (n =? 0)%N; [done|]. rewrite IH, (IH _ (String _ "")). simpl. lia. }
  rewrite (Hlen _ _ (String _ "")). cbn [String.length].
  rewrite Nat2N.inj_add, N.pow_add_r. change (N.of_nat 1) with 1%N. rewrite N.pow_1_r.
  pose proof (N.div_mod' n base). nia.
Qed.

Lemma N_size_nat_bound n : (n < 2 ^ N.of_nat (N.size_nat n))%N.
Proof.
  destruct n as [|p]; [done|]. cbn [N.size_nat].
  induction p as [p IH|p IH|]; cbn [Pos.size_nat]; [| |done];
    rewrite Nat2N.inj_succ, N.pow_succ_r'; lia.
Qed.

Lemma digits_val_digits base n :
  (2 ≤ base ≤ 36)%N → digits_val base 0 (digits base n) = n.
Proof.
  intros Hb. unfold digits. destruct (N.eqb_spec n 0) as [->|Hn]; [done|].
  rewrite digits_val_go by (done || apply N_size_nat_bound). simpl. lia.
Qed.

Lemma digits_val_zeros base k s : digits_val base 0 (zeros k +:+ s) = digits_val base 0 s.
Proof. induction k as [|k IH]; [done|]. cbn. done. Qed.

Lemma hex_pad_inj w n m : hex_pad w n = hex_pad w m → n = m.
Proof.
  unfold hex_pad. intros H%(f_equal (digits_val 16 0)).
  rewrite !digits_val_zeros, !digits_val_digits in H; done.
Qed.
