(* ===== verification/Regexp.v ===== *)
(** * The fragment of Go's regexp package the source uses

    Fully anchored expressions built from character classes, concatenation,
    [?] and bounded repetition of a class.  [re_match] computes the set of
    remainders an expression can leave; [re_match_spec] states that it decides
    the usual language of the expression. *)

From S2P Require Import Prelude GoStrings.

Inductive re : Type :=
| RCls (p : ascii → bool)                    (* [a-z0-9] *)
| RLit (c : ascii)
| RCat (a b : re)
| ROpt (a : re)                              (* (a)? *)
| RRep (lo hi : nat) (p : ascii → bool).     (* [..]{lo,hi} *)

Fixpoint lang (r : re) (s : string) : Prop :=
  match r with
  | RCls p => ∃ c, s = String c "" ∧ p c = true
  | RLit c => s = String c ""
  | RCat a b => ∃ s1 s2, s = s1 +:+ s2 ∧ lang a s1 ∧ lang b s2
  | ROpt a => s = "" ∨ lang a s
  | RRep lo hi p => lo ≤ String.length s ≤ hi ∧ str_forall p s = true
  end.

Fixpoint rep_run (lo hi : nat) (p : ascii → bool) (s : string) : list string :=
  (if (lo =? 0)%nat then [s] else []) ++
  match hi, s with
  | S hi, String c s' => if p c then rep_run (pred lo) hi p s' else []
  | _, _ => []
  end.

Fixpoint run (r : re) (s : string) : list string :=
  match r with
  | RCls p => match s with String c s' => if p c then [s'] else [] | _ => [] end
  | RLit c => match s with String d s' => if (c =? d)%char then [s'] else [] | _ => [] end
  | RCat a b => flat_map (run b) (run a s)
  | ROpt a => s :: run a s
  | RRep lo hi p => rep_run lo hi p s
  end.
Definition re_match (r : re) (s : string) : bool :=
  existsb (λ t, (t =? "")%string) (run r s).

Lemma rep_run_spec lo hi p s t :
  lo ≤ hi →
  In t (rep_run lo hi p s) ↔
  ∃ a, s = a +:+ t ∧ lo ≤ String.length a ≤ hi ∧ str_forall p a = true.
Proof.
  intros Hle.
  assert (∀ lo hi s, In t (rep_run lo hi p s) →
    ∃ a, s = a +:+ t ∧ lo ≤ String.length a ≤ hi ∧ str_forall p a = true) as Hsound.
  { clear. intros lo hi. revert lo. induction hi as [|hi IH]; intros lo s Hin; cbn in Hin.
    - rewrite app_nil_r in Hin. destruct lo as [|lo]; [|done].
      destruct Hin as [->|[]]. exists "". simpl. auto with lia.
    - apply in_app_or in Hin as [Hin|Hin].
      { destruct lo as [|lo]; [|done]. destruct Hin as [->|[]]. exists "". simpl. auto with lia. }
      destruct s as [|c s]; [done|]. destruct (p c) eqn:Hc; [|done].
      apply IH in Hin as (a & -> & Hl & Ha). exists (String c a). simpl.
      rewrite Hc, Ha. split_and!; [done|lia|lia|done]. }
  split; [apply Hsound|]. intros (a & -> & Hl & Ha). clear Hle Hsound.
  revert lo hi Hl. induction a as [|c a IH]; intros lo hi Hl.
  - simpl in *. destruct lo; [|lia]. destruct hi; by left.
  - simpl in Ha, Hl. apply andb_true_iff in Ha as [Hc Ha].
    destruct hi as [|hi]; [lia|]. cbn. apply in_or_app. right. rewrite Hc.
    apply IH; [done|lia].
Qed.

(** Every repetition of an expression has [lo <= hi]. *)
Fixpoint re_wf (r : re) : Prop :=
  match r with
  | RCat a b => re_wf a ∧ re_wf b
  | ROpt a => re_wf a
  | RRep lo hi _ => lo ≤ hi
  | _ => True
  end.

Lemma run_spec r s t :
  re_wf r → In t (run r s) ↔ ∃ a, s = a +:+ t ∧ lang r a.
Proof.
  revert s t. induction r as [p|c|a IHa b IHb|a IHa|lo hi p]; intros s t Hwf; simpl.
  - destruct s as [|c s]; [split; [done|]; by intros (? & ? & ? & -> & ?)|].
    destruct (p c) eqn:Hc; split.
    + intros [->|[]]. exists (String c ""). eauto.
    + intros (? & H & d & -> & ?). simpl in H. injection H as -> ->. by left.
    + done.
    + intros (? & H & d & -> & ?). simpl in H. injection H as -> ->. congruence.
  - destruct s as [|d s]; [split; [done|]; by intros (? & ? & ->)|].
    destruct (Ascii.eqb_spec c d) as [->|Hc]; split.
    + intros [->|[]]. by exists (String d "").
    + intros (? & H & ->). simpl in H. injection H as ->. by left.
    + done.
    + intros (? & H & ->). simpl in H. injection H as -> ->. congruence.
  - destruct Hwf as [Hwa Hwb]. rewrite in_flat_map. split.
    + intros (u & (a1 & -> & Ha)%IHa & (b1 & -> & Hb)%IHb); [|done..].
      exists (a1 +:+ b1). rewrite str_app_assoc. split; [done|]. by exists a1, b1.
    + intros (w & -> & a1 & b1 & -> & Ha & Hb). exists (b1 +:+ t).
      rewrite IHa, IHb, str_app_assoc by done. split; [by exists a1|by exists b1].
  - rewrite IHa by done. split.
    + intros [->|(a1 & -> & Ha)]; [by exists ""; eauto|]. exists a1. auto.
    + intros (a1 & -> & [->|Ha]); [by left|right]. by exists a1.
  - by apply rep_run_spec.
Qed.

Lemma re_match_spec r s : re_wf r → re_match r s = true ↔ lang r s.
Proof.
  intros Hwf. unfold re_match. rewrite existsb_exists. split.
  - intros (t & (a & -> & Ha)%run_spec & ->%String.eqb_eq); [|done].
    by rewrite str_app_nil_r.
  - intros Hl. exists "". rewrite String.eqb_refl. split; [|done].
    apply run_spec; [done|]. exists s. by rewrite str_app_nil_r.
Qed.
