(* ===== verification/SiteErrors.v ===== *)
(** * Error taxonomy of the site service (backend/internal/site/errors.go)

    [sentinel] lists the package's sentinel errors, [err] the error values its
    operations return.  [errors_is] is Go's [errors.Is] on them: the struct
    errors have an [Is] method naming their category, and [EWrap s d] is
    [fmt.Errorf("%w: ...", s)], which unwraps to [s] only. *)

From S2P Require Import Prelude GoStrings.

Inductive sentinel : Type :=
| ErrNotFound | ErrValidation | ErrReservedHandle | ErrHandleTaken
| ErrConflict | ErrPublishConflict | ErrBranchExists | ErrNothingToCommit
| ErrForbidden
| ErrZipSlip | ErrZipTooLarge | ErrZipTooManyFiles | ErrZipBadType
| ErrQuotaExceeded
| ErrGit.

#[export] Instance sentinel_eq_dec : EqDecision sentinel.
Proof. solve_decision. Defined.

Inductive err : Type :=
| ESentinel (s : sentinel)
| ValidationError (Field Reason : string)
| ConflictError (Branch Expected Actual : string) (ChangedPaths : list string)
| PublishConflictError (Paths : list string)
| GitError (Args : list string) (ExitCode : Z) (Stderr : string)
| EWrap (s : sentinel) (detail : string)
| ECanceled                       (* context.Canceled / DeadlineExceeded *)
| EOther (msg : string).

#[export] Instance err_eq_dec : EqDecision err.
Proof. solve_decision. Defined.

Definition errors_is (e : err) (t : sentinel) : bool :=
  match e with
  | ESentinel s | EWrap s _ => bool_decide (s = t)
  | ValidationError _ _ => bool_decide (t = ErrValidation)
  | ConflictError _ _ _ _ => bool_decide (t = ErrConflict)
  | PublishConflictError _ => bool_decide (t = ErrPublishConflict)
  | GitError _ _ _ => bool_decide (t = ErrGit)
  | ECanceled | EOther _ => false
  end.

(** errors.go:89 [statusFor]: one switch, first match wins *)
Definition statusFor (o : option err) : Z :=
  match o with
  | None => 200
  | Some e =>
    if errors_is e ErrNotFound then 404
    else if errors_is e ErrForbidden then 403
    else if errors_is e ErrConflict || errors_is e ErrHandleTaken
         || errors_is e ErrPublishConflict || errors_is e ErrBranchExists
         || errors_is e ErrNothingToCommit then 409
    else if errors_is e ErrZipTooLarge || errors_is e ErrZipTooManyFiles
         || errors_is e ErrQuotaExceeded then 413
    else if errors_is e ErrZipBadType then 415
    else if errors_is e ErrZipSlip then 400
    else if errors_is e ErrValidation || errors_is e ErrReservedHandle then 422
    else 500
  end%Z.

(** The category of an error value, if it has one. *)
Definition category (e : err) : option sentinel :=
  match e with
  | ESentinel s | EWrap s _ => Some s
  | ValidationError _ _ => Some ErrValidation
  | ConflictError _ _ _ _ => Some ErrConflict
  | PublishConflictError _ => Some ErrPublishConflict
  | GitError _ _ _ => Some ErrGit
  | ECanceled | EOther _ => None
  end.

Lemma errors_is_category e t : errors_is e t = bool_decide (category e = Some t).
Proof.
  destruct e; simpl; unfold bool_decide; repeat case_decide; congruence.
Qed.

(** wrapGit (git_helpers.go:542): every error that is neither a cancellation
    nor already in the ErrGit category is wrapped in it. *)
Definition sentinel_text (s : sentinel) : string :=
  match s with
  | ErrNotFound => "site: not found"
  | ErrValidation => "site: validation failed"
  | ErrReservedHandle => "site: reserved handle"
  | ErrHandleTaken => "site: handle already taken"
  | ErrConflict => "site: stale base sha"
  | ErrPublishConflict => "site: publish merge conflict"
  | ErrBranchExists => "site: branch already exists"
  | ErrNothingToCommit => "site: nothing to commit"
  | ErrForbidden => "site: forbidden"
  | ErrZipSlip => "site: zip path traversal"
  | ErrZipTooLarge => "site: zip too large"
  | ErrZipTooManyFiles => "site: zip too many files"
  | ErrZipBadType => "site: zip disallowed file type"
  | ErrQuotaExceeded => "site: per-site disk quota exceeded"
  | ErrGit => "site: git operation failed"
  end.
Definition err_text (e : err) : string :=
  match e with
  | ESentinel s => sentinel_text s
  | EWrap s d => sentinel_text s +:+ ": " +:+ d
  | ValidationError f r => "site: validation: " +:+ f +:+ ": " +:+ r
  | ConflictError b x a _ =>
      "site: stale base sha on " +:+ b +:+ ": expected " +:+ x +:+ " got " +:+ a
  | PublishConflictError _ => "site: publish merge conflict"
  | GitError a _ s => "site: git " +:+ join " " a +:+ ": " +:+ s
  | ECanceled => "context canceled"
  | EOther m => m
  end.
Definition wrapGit (e : err) : err :=
  match e with
  | ECanceled => e
  | _ => if errors_is e ErrGit then e else EWrap ErrGit (err_text e)
  end.

(** An error reaches the wire as a 500 exactly when it is in the
    ErrGit category or in none; every other category has its own 4xx status,
    whichever way the error was built. *)
Theorem statusFor_internal (e : err) :
  statusFor (Some e) = 500%Z ↔ category e = Some ErrGit ∨ category e = None.
Proof.
  unfold statusFor. rewrite !errors_is_category.
  destruct (category e) as [[]|]; vm_compute; naive_solver.
Qed.
