(* ===== verification/Handle.v ===== *)
(** * Handles, branch names and preview labels (backend/internal/site/handle.go)

    The create-time and resolver-time handle validators, the branch-name
    validator and the ["--"] label rule.  [label_lang_spec] gives the regular
    expression of handle.go a direct reading; [label_no_dash_end] is the fact
    that makes the first ["--"] of a preview label the separator. *)

From S2P Require Import Prelude GoStrings Regexp SiteErrors.

Definition BranchPublished : string := "published".
Definition BranchDraft : string := "draft".

Definition HandleMinLen : nat := 3.
Definition HandleMaxLen : nat := 63.
Definition HandleResolverMinLen : nat := 1.

Definition label_char (c : ascii) : bool := is_lower c || is_digit c || (c =? "-")%char.
Definition alnum (c : ascii) : bool := is_lower c || is_digit c.

(** [^[a-z0-9]([a-z0-9-]{0,61}[a-z0-9])?$] *)
Definition handleRe : re := RCat (RCls alnum) (ROpt (RCat (RRep 0 61 label_char) (RCls alnum))).
Definition branchRe : re := handleRe.

Definition doubleHyphen : string := "--".

Definition ReservedHandles : list string :=
  ["draft"; "preview"; "published"; "www"; "api"; "internal";
   "host"; "admin"; "app"; "static"; "assets"; "mcp"].

Section handle.
Context `{GoUnicode}.

Definition IsReservedHandle (h : string) : bool :=
  existsb (λ r, (r =? to_lower h)%string) ReservedHandles.

Definition validateHandleLen (h : string) (minLen : nat) : Res err unit :=
  if (h =? "")%string then Err (ValidationError "handle" "must not be empty")
  else if negb (h =? to_lower h)%string then
    Err (ValidationError "handle" "must be lowercase")
  else if (String.length h <? minLen) then
    Err (ValidationError "handle" ("must be at least " +:+ itoa (Z.of_nat minLen) +:+ " characters"))
  else if (HandleMaxLen <? String.length h) then
    Err (ValidationError "handle" ("must be at most " +:+ itoa (Z.of_nat HandleMaxLen) +:+ " characters"))
  else if contains doubleHyphen h then
    Err (ValidationError "handle" ("must not contain " +:+ quoted doubleHyphen +:+ " (reserved preview separator)"))
  else if negb (re_match handleRe h) then
    Err (ValidationError "handle" "must match ^[a-z0-9]([a-z0-9-]*[a-z0-9])?$")
  else if IsReservedHandle h then Err (ESentinel ErrReservedHandle)
  else Ok tt.

Definition ValidateHandle (h : string) : Res err unit := validateHandleLen h HandleMinLen.
Definition ValidateHandleForResolver (h : string) : Res err unit :=
  validateHandleLen h HandleResolverMinLen.

Definition validateBranchName (name : string) : Res err unit :=
  if (name =? "")%string then Err (ValidationError "branch" "must not be empty")
  else if negb (name =? to_lower name)%string then
    Err (ValidationError "branch" "must be lowercase")
  else if (HandleMaxLen <? String.length name) then
    Err (ValidationError "branch" ("must be at most " +:+ itoa (Z.of_nat HandleMaxLen) +:+ " characters"))
  else if contains doubleHyphen name then
    Err (ValidationError "branch" ("must not contain " +:+ quoted doubleHyphen))
  else if negb (re_match branchRe name) then
    Err (ValidationError "branch" "must match ^[a-z0-9]([a-z0-9-]*[a-z0-9])?$")
  else Ok tt.
Definition ValidateBranchName (name : string) : Res err unit := validateBranchName name.
End handle.

Definition previewSubdomain (h branch : string) : string :=
  if (branch =? BranchPublished)%string then h else h +:+ doubleHyphen +:+ branch.

Definition splitLabel (label : string) : string * string :=
  match index doubleHyphen label with
  | Some i => (str_take i label, str_drop (i + String.length doubleHyphen) label)
  | None => (label, BranchPublished)
  end.

(** ** The grammar *)

Definition valid_label (s : string) : Prop :=
  1 ≤ String.length s ≤ 63 ∧ str_forall label_char s = true ∧
  (∃ c r, s = String c r ∧ alnum c = true) ∧
  (∃ r c, s = r +:+ String c "" ∧ alnum c = true).

Lemma alnum_label c : alnum c = true → label_char c = true.
Proof. unfold alnum, label_char. by intros ->. Qed.

Lemma label_char_lower c : label_char c = true → is_ascii c = true ∧ lower_char c = c.
Proof. destruct c as [[] [] [] [] [] [] [] []]; vm_compute; by intros. Qed.

Lemma handleRe_wf : re_wf handleRe.
Proof. simpl. repeat split; lia. Qed.

Lemma handleRe_spec s : re_match handleRe s = true ↔ valid_label s.
Proof.
  rewrite re_match_spec by apply handleRe_wf. unfold valid_label. cbn [handleRe lang]. split.
  - intros (s1 & s2 & -> & (c & -> & Hc) & [->|(m & t & -> & [Hl Hm] & (d & -> & Hd))]).
    + simpl. rewrite (alnum_label _ Hc). split_and!; [lia|lia|done|by eexists _, _|].
      exists "", c. done.
    + simpl. rewrite str_length_app, str_forall_app, (alnum_label _ Hc), Hm. simpl.
      rewrite (alnum_label _ Hd). split_and!; [lia|lia|done|by eexists _, _|].
      by exists (String c m), d.
  - intros (Hl & Ha & (c & r & -> & Hc) & (r' & d & Hr & Hd)).
    exists (String c ""), r. split; [done|]. split; [by exists c|].
    destruct r' as [|c' m]; simpl in Hr; injection Hr as <- Hr; [by left|right].
    exists m, (String d ""). split; [done|]. rewrite Hr in Hl, Ha. simpl in Hl, Ha.
    rewrite str_length_app in Hl. rewrite str_forall_app in Ha. simpl in Hl.
    apply andb_true_iff in Ha as [_ [Ha _]%andb_true_iff].
    split; [split; [lia|done]|by exists d].
Qed.

Lemma label_no_dash_end s r : valid_label s → s ≠ r +:+ "-".
Proof.
  intros (_ & _ & _ & (r' & c & -> & Hc)) [_ ->]%str_snoc_inj. by vm_compute in Hc.
Qed.

Lemma label_char_facts c :
  label_char c = true →
  is_ascii c = true ∧ is_space c = false ∧ (":" =? c)%char = false ∧ ("." =? c)%char = false ∧
  ("/" =? c)%char = false.
Proof. destruct c as [[] [] [] [] [] [] [] []]; vm_compute; by intros. Qed.

Lemma preview_chars h b :
  str_forall label_char h = true → str_forall label_char b = true →
  str_forall label_char (previewSubdomain h b) = true.
Proof.
  intros Hh Hb. unfold previewSubdomain. destruct (_ =? _)%string; [done|].
  by rewrite !str_forall_app, Hh, Hb.
Qed.

(** The first ["--"] of [h ++ "--" ++ b] is the one after [h]. *)
Lemma index_after_label h b :
  contains doubleHyphen h = false → (∀ r, h ≠ r +:+ "-") →
  index doubleHyphen (h +:+ doubleHyphen +:+ b) = Some (String.length h).
Proof.
  unfold doubleHyphen. induction h as [|c h IH]; intros Hc Hr; [done|].
  change (String c h +:+ "--" +:+ b) with (String c (h +:+ "--" +:+ b)). cbn [index].
  assert (has_prefix "--" (String c (h +:+ "--" +:+ b)) = false) as ->.
  { apply not_true_iff_false. intros [r Hp]%has_prefix_spec. injection Hp as -> Hp.
    destruct h as [|d h]; [by apply (Hr "")|]. injection Hp as -> _.
    apply not_true_iff_false in Hc. apply Hc, contains_spec. by exists "", h. }
  rewrite IH; [done| |].
  - unfold contains in *. cbn [index] in Hc. destruct (has_prefix _ _); [done|].
    by destruct (index _ h).
  - intros r ->. by apply (Hr (String c r)).
Qed.

Section handle_facts.
Context `{GoUnicode}.

Lemma label_is_lower s : str_forall label_char s = true → to_lower s = s.
Proof.
  intros Hs. unfold to_lower, all_ascii.
  rewrite (str_forall_impl label_char is_ascii) by (done || by intros ? [? _]%label_char_lower).
  induction s as [|c s IH]; [done|]. simpl in *. apply andb_true_iff in Hs as [Hc Hs].
  rewrite IH by done. by apply label_char_lower in Hc as [_ ->].
Qed.

Lemma reserved_label h :
  to_lower h = h → IsReservedHandle h = bool_decide (h ∈ ReservedHandles).
Proof.
  intros Hh. unfold IsReservedHandle. rewrite Hh. apply eq_true_iff_eq.
  rewrite bool_decide_eq_true, existsb_exists, list_elem_of_In. split.
  - by intros (r & Hin & ->%String.eqb_eq).
  - intros Hin. exists h. by rewrite String.eqb_refl.
Qed.

(** The checks of [validateHandleLen], whatever the minimum length. *)
Lemma validateHandleLen_ok h n :
  validateHandleLen h n = Ok tt ↔
  n ≤ String.length h ∧ valid_label h ∧ contains doubleHyphen h = false ∧ h ∉ ReservedHandles.
Proof.
  rewrite <-handleRe_spec. unfold validateHandleLen. split.
  - intros Hv. case_hyp Hv. bool_hyps. rewrite reserved_label in * by done. bool_hyps.
    split_and!; done || lia.
  - intros (Hn & Hre & Hd & Hr).
    pose proof (proj1 (handleRe_spec h) Hre) as (Hl & Hc & _).
    assert (to_lower h = h) as Hlow by (by apply label_is_lower).
    rewrite Hlow, Hd, Hre, (reserved_label h Hlow), bool_decide_eq_false_2, String.eqb_refl
      by done. simpl.
    rewrite (proj2 (Nat.ltb_ge _ _)) by lia.
    rewrite (proj2 (Nat.ltb_ge HandleMaxLen _)) by (unfold HandleMaxLen; lia).
    destruct (String.eqb_spec h "") as [->|]; [simpl in Hl; lia|done].
Qed.
Lemma validateBranchName_ok b :
  validateBranchName b = Ok tt ↔ valid_label b ∧ contains doubleHyphen b = false.
Proof.
  rewrite <-handleRe_spec. unfold validateBranchName, branchRe. split.
  - intros Hv. case_hyp Hv. bool_hyps. done.
  - intros (Hre & Hd).
    pose proof (proj1 (handleRe_spec b) Hre) as (Hl & Hc & _).
    rewrite Hd, Hre, label_is_lower, String.eqb_refl by done. simpl.
    rewrite (proj2 (Nat.ltb_ge HandleMaxLen _)) by (unfold HandleMaxLen; lia).
    destruct (String.eqb_spec b "") as [->|]; [simpl in Hl; lia|done].
Qed.

Lemma splitLabel_preview h b :
  valid_label h → contains doubleHyphen h = false →
  splitLabel (previewSubdomain h b) = (h, b).
Proof.
  intros Hh Hd. unfold splitLabel, previewSubdomain.
  destruct (String.eqb_spec b BranchPublished) as [->|_].
  - unfold contains in Hd. by destruct (index doubleHyphen h).
  - rewrite index_after_label by (done || intros r; by apply label_no_dash_end).
    rewrite str_take_app. f_equal.
    rewrite <-str_length_app, <-str_app_assoc. apply str_drop_app.
Qed.

(** The create-time handle gate is exactly the documented
  grammar, for every input and whatever the Unicode tables say: 3 to 63
  characters of [a-z0-9-], alphanumeric at both ends, without the reserved
  separator, and outside the reserved list. *)
Theorem ValidateHandle_iff (h : string) :
  ValidateHandle h = Ok tt ↔
  3 ≤ String.length h ∧ valid_label h ∧ contains doubleHyphen h = false ∧ h ∉ ReservedHandles.
Proof. apply validateHandleLen_ok. Qed.

(** The label a site is served under names that site and
  branch again: for every handle and branch the create-time validators let
  through, [splitLabel] undoes [previewSubdomain], so two (site, branch)
  pairs never share a label. *)
Theorem previewSubdomain_roundtrip (h b : string) :
  ValidateHandle h = Ok tt → ValidateBranchName b = Ok tt →
  splitLabel (previewSubdomain h b) = (h, b) ∧
  (∀ h' b', ValidateHandle h' = Ok tt → ValidateBranchName b' = Ok tt →
     previewSubdomain h' b' = previewSubdomain h b → h' = h ∧ b' = b).
Proof.
  intros (_ & Hh & Hd & _)%validateHandleLen_ok _. split; [by apply splitLabel_preview|].
  intros h' b' (_ & Hh' & Hd' & _)%validateHandleLen_ok _ Heq%(f_equal splitLabel).
  rewrite !splitLabel_preview in Heq by done. by simplify_eq.
Qed.
End handle_facts.

Lemma previewSubdomain_roundtrip_witness :
  let _ := ascii_only_unicode in
  ValidateHandle "my-site" = Ok tt ∧ ValidateBranchName "draft" = Ok tt ∧
  splitLabel (previewSubdomain "my-site" "draft") = ("my-site", "draft").
Proof.
  split_and!; [vm_compute; reflexivity..|].
  apply (@previewSubdomain_roundtrip ascii_only_unicode "my-site" "draft"); vm_compute; reflexivity.
Defined.
