(* ===== verification/SitePath.v ===== *)
(** * Repo-relative paths and the served-content table (site/path.go, mime.go)

    The path gate every read and write of the site service goes through, with
    its three variants, the directory filter, the NUL-byte heuristic and the
    MIME table that doubles as the upload allowlist. *)

From S2P Require Import Prelude GoStrings SiteErrors.

Definition gitDirSegment : string := ".git".

Definition MIMEByExt : list (string * string) :=
  [ (".html", "text/html; charset=utf-8");
    (".htm", "text/html; charset=utf-8");
    (".css", "text/css; charset=utf-8");
    (".js", "text/javascript; charset=utf-8");
    (".mjs", "text/javascript; charset=utf-8");
    (".json", "application/json; charset=utf-8");
    (".map", "application/json; charset=utf-8");
    (".svg", "image/svg+xml");
    (".png", "image/png");
    (".jpg", "image/jpeg");
    (".jpeg", "image/jpeg");
    (".gif", "image/gif");
    (".webp", "image/webp");
    (".avif", "image/avif");
    (".ico", "image/x-icon");
    (".woff", "font/woff");
    (".woff2", "font/woff2");
    (".ttf", "font/ttf");
    (".otf", "font/otf");
    (".txt", "text/plain; charset=utf-8");
    (".xml", "application/xml; charset=utf-8");
    (".webmanifest", "application/manifest+json");
    (".manifest", "application/manifest+json");
    (".pdf", "application/pdf");
    (".wasm", "application/wasm");
    (".mp4", "video/mp4");
    (".webm", "video/webm");
    (".mp3", "audio/mpeg");
    (".wav", "audio/wav");
    (".csv", "text/csv; charset=utf-8") ].
Definition mcpWriteDenied : list string := [".mp4"; ".webm"; ".mp3"; ".wav"; ".pdf"].

(** Lookup in a map literal (its keys are distinct). *)
Fixpoint assoc {A} (k : string) (l : list (string * A)) : option A :=
  match l with
  | [] => None
  | (x, v) :: l => if (x =? k)%string then Some v else assoc k l
  end.

(** [for i := 0; i < n; i++ { if content[i] == 0 { return true } }] *)
Definition sniffLen : nat := 8000.
Definition isBinaryContent (content : bytes) : bool :=
  contains_char NUL (str_take sniffLen content).

(** The per-segment switch of the path gate: the first offending segment. *)
Fixpoint checkSegs (segs : list string) : Res err unit :=
  match segs with
  | [] => Ok tt
  | seg :: segs =>
      if (seg =? "..")%string then
        Err (ValidationError "path" ("must not contain " +:+ quoted ".." +:+ " segments"))
      else if (seg =? gitDirSegment)%string then
        Err (ValidationError "path" ("must not reference the " +:+ quoted ".git" +:+ " directory"))
      else if has_prefix "-" seg then
        Err (ValidationError "path" "path segments must not begin with a dash")
      else checkSegs segs
  end.

Definition validatePathWith (p : string) (extOK : option (string → bool)) : Res err unit :=
  if (p =? "")%string then Err (ValidationError "path" "must not be empty")
  else if contains_char NUL p then Err (ValidationError "path" "must not contain NUL bytes")
  else if contains_char "\" p then Err (ValidationError "path" "must use forward slashes")
  else if has_prefix "/" p then
    Err (ValidationError "path" "must be repo-relative (no leading slash)")
  else if negb (is_local p) then
    Err (ValidationError "path" "must not escape the repo root")
  else
    let clean := path_clean p in
    if (clean =? ".")%string || (clean =? "")%string then
      Err (ValidationError "path" "must reference a file, not the root")
    else
      check! checkSegs (split slash clean) in
      match extOK with
      | Some f => if f clean then Ok tt
                  else Err (ValidationError "path" "file extension is not allowed")
      | None => Ok tt
      end.

Section path.
Context `{GoUnicode}.

Definition ContentTypeFor (p : string) : string :=
  default "" (assoc (to_lower (path_ext p)) MIMEByExt).
Definition extAllowedForUpload (p : string) : bool :=
  match assoc (to_lower (path_ext p)) MIMEByExt with Some _ => true | None => false end.
Definition extAllowedForMCPWrite (p : string) : bool :=
  let ext := to_lower (path_ext p) in
  match assoc ext MIMEByExt with
  | None => false
  | Some _ => negb (existsb (λ d, (d =? ext)%string) mcpWriteDenied)
  end.

Definition validatePath (p : string) : Res err unit :=
  validatePathWith p (Some extAllowedForUpload).
Definition validateMCPWritePath (p : string) : Res err unit :=
  validatePathWith p (Some extAllowedForMCPWrite).
End path.

Definition validateReadPath (p : string) : Res err unit := validatePathWith p None.
Definition validateDir (dir : string) : Res err unit :=
  if (dir =? "")%string then Ok tt else validatePathWith dir None.

(** ** What the gate accepts *)

(** A segment the gate lets through. *)
Definition safe_seg (s : string) : Prop :=
  normal_seg s ∧ s ≠ gitDirSegment ∧ has_prefix "-" s = false ∧ no_char slash s = true.
Definition ext_ok (extOK : option (string → bool)) (p : string) : Prop :=
  match extOK with Some f => f p = true | None => True end.

Lemma checkSegs_ok segs :
  checkSegs segs = Ok tt ↔
  Forall (λ s, s ≠ ".." ∧ s ≠ gitDirSegment ∧ has_prefix "-" s = false) segs.
Proof.
  induction segs as [|s segs IH]; [by split; constructor|]. cbn [checkSegs].
  rewrite Forall_cons, <-IH.
  destruct (String.eqb_spec s ".."); [split; [discriminate|tauto]|].
  destruct (String.eqb_spec s gitDirSegment); [split; [discriminate|tauto]|].
  destruct (has_prefix "-" s); [split; [discriminate|intros [(_ & _ & ?) _]; discriminate]|].
  tauto.
Qed.

Lemma local_clean_segs p :
  is_local p = true → path_clean p ≠ "." →
  ∃ l, l ≠ [] ∧ Forall normal_seg l ∧ Forall (λ x, no_char slash x = true) l ∧
       path_clean p = join "/" l ∧ split slash (path_clean p) = l.
Proof.
  intros Hl Hne. destruct (path_clean_local p Hl) as (l & Hn & Hs & Hc & Hsp).
  destruct (decide (l = [])) as [->|Hl0]; [done|]. by exists l.
Qed.

Lemma join_normal_ne l : Forall normal_seg l → l ≠ [] → join "/" l ≠ "" ∧ join "/" l ≠ ".".
Proof.
  intros Hn Hl. destruct l as [|x l]; [done|]. apply Forall_cons in Hn as [(H1 & H2 & _) _].
  destruct l as [|y l]; [done|]. rewrite join_cons by done. split.
  - intros E. by apply str_app_eq_nil in E as [??].
  - destruct x as [|c x]; [done|]. intros E. injection E as -> E.
    by apply str_app_eq_nil in E as [_ ?].
Qed.

Lemma validatePathWith_inv p extOK :
  validatePathWith p extOK = Ok tt ↔
  no_char NUL p = true ∧ no_char "\" p = true ∧ is_local p = true ∧
  ∃ l, l ≠ [] ∧ Forall safe_seg l ∧ path_clean p = join "/" l ∧ ext_ok extOK (path_clean p).
Proof.
  rewrite !no_char_contains_char. unfold validatePathWith, res_bind. split.
  - destruct (p =? "")%string; [done|].
    destruct (contains_char NUL p); [done|]. destruct (contains_char "\" p); [done|].
    destruct (has_prefix "/" p); [done|]. destruct (is_local p) eqn:Hloc; [|done]. simpl.
    destruct (String.eqb_spec (path_clean p) ".") as [|Hne]; [done|].
    destruct (path_clean p =? "")%string; [done|]. simpl.
    destruct (local_clean_segs p Hloc Hne) as (l & Hl0 & Hn & Hsl & Hcl & Hsp). rewrite Hsp.
    destruct (checkSegs l) as [[]|] eqn:Hck; [|done]. apply checkSegs_ok in Hck. intros Hext.
    split_and!; [done..|]. exists l. split_and!; [done| |done|].
    + apply Forall_forall. intros s Hs. rewrite !Forall_forall in *.
      specialize (Hn s Hs). specialize (Hsl s Hs). specialize (Hck s Hs). by destruct Hck as (? & ? & ?).
    + destruct extOK as [f|]; simpl; [by destruct (f _)|done].
  - intros (Hnul%negb_true_iff & Hbs%negb_true_iff & Hloc & l & Hl0 & Hl & Hcl & Hext).
    rewrite Hnul, Hbs, Hloc. pose proof (is_local_segs _ Hloc) as [-> _].
    assert (Forall normal_seg l) as Hn by (apply (Forall_impl _ _ _ Hl); by intros ? [??]).
    assert (split slash (path_clean p) = l) as ->.
    { rewrite Hcl. apply split_join; [done|]. apply (Forall_impl _ _ _ Hl).
      by intros ? (_ & _ & _ & ?). }
    destruct (join_normal_ne l Hn Hl0) as [Hne1 Hne2]. rewrite <-Hcl in Hne1, Hne2.
    apply String.eqb_neq in Hne1, Hne2. rewrite Hne1, Hne2.
    destruct (String.eqb_spec p "") as [->|]; [done|]. simpl.
    rewrite (proj2 (checkSegs_ok l)).
    + destruct extOK; simpl in *; [by rewrite Hext|done].
    + apply (Forall_impl _ _ _ Hl). by intros ? ((_ & _ & ?) & ? & ? & _).
Qed.

(** Ordinary names joined by slashes form a path that has them as elements,
    which [path.Clean] and [filepath.IsLocal] leave alone and accept. *)
Section normal_paths.
Context (l : list string) (Hl : l ≠ []).
Context (Hn : Forall normal_seg l) (Hs : Forall (λ x, no_char slash x = true) l).

Lemma split_normal : split slash (join "/" l) = l.
Proof using Hl Hs. by apply split_join. Qed.

Lemma join_no_prefix x : ¬ normal_seg x → no_char slash x = true →
  has_prefix (x +:+ "/") (join "/" l) = false.
Proof using Hl Hn Hs.
  intros Hx Hns. apply not_true_iff_false. intros [r Hr]%has_prefix_spec.
  pose proof split_normal as Hsp. rewrite Hr, str_app_assoc in Hsp.
  change ("/" +:+ r) with (String slash r) in Hsp. rewrite split_app in Hsp by done.
  rewrite <-Hsp, Forall_cons in Hn. by destruct Hn.
Qed.
Lemma join_ne x : ¬ normal_seg x → no_char slash x = true → join "/" l ≠ x.
Proof using Hl Hn Hs.
  intros Hx Hns Hj. pose proof split_normal as Hsp. rewrite Hj, split_single in Hsp by done.
  rewrite <-Hsp, Forall_cons in Hn. by destruct Hn.
Qed.

Lemma path_clean_normal : path_clean (join "/" l) = join "/" l.
Proof using Hl Hn Hs.
  unfold path_clean.
  assert (has_prefix "/" (join "/" l) = false) as ->
    by (apply (join_no_prefix ""); [by intros (? & _)|done]).
  rewrite split_normal, clean_segs_normals by done.
  assert (join "/" l ≠ "") as ->%String.eqb_neq by (by apply join_ne; [intros (? & _)|]).
  done.
Qed.

Lemma is_local_normal : is_local (join "/" l) = true.
Proof using Hl Hn Hs.
  unfold is_local. rewrite split_normal.
  assert (existsb (λ s, (s =? ".")%string || (s =? "..")%string) l = false) as ->.
  { apply not_true_iff_false. intros (s & Hin & Hs')%existsb_exists.
    apply list_elem_of_In in Hin. rewrite Forall_forall in Hn.
    destruct (Hn s Hin) as (_ & ? & ?).
    apply orb_true_iff in Hs' as [?%String.eqb_eq|?%String.eqb_eq]; done. }
  assert (has_prefix "/" (join "/" l) = false) as ->
    by (apply (join_no_prefix ""); [by intros (? & _)|done]).
  assert (has_prefix "../" (join "/" l) = false) as ->
    by (apply (join_no_prefix ".."); [by intros (_ & _ & ?)|done]).
  assert (join "/" l ≠ "") as ->%String.eqb_neq by (by apply join_ne; [intros (? & _)|]).
  assert (join "/" l ≠ "..") as ->%String.eqb_neq by (by apply join_ne; [intros (_ & _ & ?)|]).
  done.
Qed.
End normal_paths.

(** The gate accepts the cleaned form of what it accepts. *)
Lemma validatePathWith_clean p extOK :
  validatePathWith p extOK = Ok tt →
  validatePathWith (path_clean p) extOK = Ok tt ∧ path_clean (path_clean p) = path_clean p.
Proof.
  rewrite !validatePathWith_inv. intros (Hnul & Hbs & Hloc & l & Hl0 & Hl & Hcl & Hext).
  assert (Forall normal_seg l) as Hn by (apply (Forall_impl _ _ _ Hl); by intros ? [??]).
  assert (Forall (λ x, no_char slash x = true) l) as Hs
    by (apply (Forall_impl _ _ _ Hl); by intros ? (_ & _ & _ & ?)).
  assert (path_clean (path_clean p) = path_clean p) as Hcc
    by (rewrite Hcl; by apply path_clean_normal).
  split; [|done]. split_and!; [by apply path_clean_no_char..| |].
  - rewrite Hcl. by apply is_local_normal.
  - exists l. by rewrite Hcc.
Qed.
Lemma validatePathWith_weaken p f g :
  (∀ q, ext_ok f q → ext_ok g q) →
  validatePathWith p f = Ok tt → validatePathWith p g = Ok tt.
Proof.
  rewrite !validatePathWith_inv. intros Hfg (? & ? & ? & l & ? & ? & ? & ?).
  split_and!; [done..|]. exists l. auto.
Qed.

(** C9 (safety): what the path gate lets through, exactly.  A path is accepted
    when it has no NUL byte and no backslash, [filepath.IsLocal] holds of it,
    and its cleaned form is a non-empty sequence of ordinary names (none empty,
    ["."] or [".."]), none of them [".git"] or beginning with a dash, that
    satisfies the variant's extension predicate.  So no accepted path leaves the
    repository, names its metadata or can be read as a git option. *)
Theorem validatePathWith_iff (p : string) (extOK : option (string → bool)) :
  validatePathWith p extOK = Ok tt ↔
  no_char NUL p = true ∧ no_char "\" p = true ∧ is_local p = true ∧
  ∃ l, l ≠ [] ∧ Forall safe_seg l ∧ path_clean p = join "/" l ∧ ext_ok extOK (path_clean p).
Proof. apply validatePathWith_inv. Qed.

Section path_facts.
Context `{GoUnicode}.

Lemma mcp_ext_upload q : extAllowedForMCPWrite q = true → extAllowedForUpload q = true.
Proof. unfold extAllowedForMCPWrite, extAllowedForUpload. by destruct (assoc _ _). Qed.
Lemma upload_ext_typed q : extAllowedForUpload q = true → ContentTypeFor q ≠ "".
Proof.
  unfold extAllowedForUpload, ContentTypeFor. generalize (to_lower (path_ext q)). intros e.
  destruct (assoc e MIMEByExt) as [v|] eqn:Ha; [|done]. intros _ Hv. simpl in Hv. subst v.
  revert Ha. unfold MIMEByExt. cbn [assoc].
  repeat (destruct (_ =? e)%string; [by intros [=]|]). done.
Qed.

(** The gates are nested and agree with the serving table.  A
  path writable over MCP is writable by upload; a path writable by upload is
  readable and its cleaned form has a Content-Type, so nothing can be stored
  that the serve layer has no type for; and the cleaned form of an accepted
  path is accepted by the same gate and is its own cleaned form, so writing
  under either spelling names one file. *)
Theorem path_gates_nested (p : string) :
  (validateMCPWritePath p = Ok tt → validatePath p = Ok tt) ∧
  (validatePath p = Ok tt →
     validateReadPath p = Ok tt ∧ ContentTypeFor (path_clean p) ≠ "" ∧
     validatePath (path_clean p) = Ok tt ∧ path_clean (path_clean p) = path_clean p).
Proof.
  split.
  - apply validatePathWith_weaken. simpl. auto using mcp_ext_upload.
  - intros Hv. split_and!.
    + by revert Hv; apply validatePathWith_weaken.
    + apply validatePathWith_inv in Hv as (_ & _ & _ & l & _ & _ & _ & Hext).
      by apply upload_ext_typed.
    + by apply validatePathWith_clean.
    + by apply validatePathWith_clean in Hv as [_ ?].
Qed.
End path_facts.

Lemma path_gates_nested_witness :
  let _ := ascii_only_unicode in
  validateMCPWritePath "a/./b/index.HTML" = Ok tt ∧
  validatePath "a/./b/index.HTML" = Ok tt ∧
  ContentTypeFor (path_clean "a/./b/index.HTML") ≠ "".
Proof.
  pose proof (@path_gates_nested ascii_only_unicode "a/./b/index.HTML") as [H1 H2].
  assert (@validateMCPWritePath ascii_only_unicode "a/./b/index.HTML" = Ok tt) as H0
    by (vm_compute; reflexivity).
  split_and!; [exact H0|exact (H1 H0)|]. apply (H2 (H1 H0)).
Defined.
