(* ===== verification/Zip.v ===== *)
(** * Uploaded archives (site/zip.go)

    The guards an uploaded zip goes through before anything is written:
    declared size, central directory, entry count, and for every entry the
    ZipSlip, type and bomb checks of [validateAndReadZip].  An archive is what
    archive/zip presents of it: the entries of the central directory, each with
    its declared name, mode and sizes and the stream its [Open] yields. *)

From S2P Require Import Prelude GoStrings SiteErrors SitePath.

(** The stream of an opened entry: the bytes it delivers, and whether it then
    fails (bad checksum, truncated data) instead of ending. *)
Record zip_stream := { zs_data : bytes; zs_fails : bool }.
Record zip_file := {
  zf_Name : string;
  zf_Mode : Z;                       (* os.FileMode bits *)
  zf_UncompressedSize64 : Z;
  zf_CompressedSize64 : Z;
  zf_Open : option zip_stream;       (* None: Open returned an error *)
}.
(** [ZipSource]: [zsrc_Reader = None] is a nil reader, [Some None] a reader
    zip.NewReader rejects, [Some (Some files)] one it accepts. *)
Record ZipSource := {
  zsrc_Reader : option (option (list zip_file));
  zsrc_Size : Z;
  zsrc_Filename : string;
}.

Record ZipConfig := {
  MaxUploadBytes : Z;
  MaxUncompressedBytes : Z;
  MaxEntries : Z;
  MaxEntryUncompressed : Z;
  MaxCompressionRatio : Z;
  AllowedExt : list string;
}.

Definition DefaultMaxZipBytes : Z := 52428800.
Definition DefaultMaxUncompressedBytes : Z := 209715200.
Definition DefaultMaxZipEntries : Z := 2000.
Definition DefaultMaxEntryUncompressed : Z := 52428800.
Definition DefaultMaxCompressionRatio : Z := 100.

(** The zip part of [GitConfig.withDefaults]: a zero limit takes its default. *)
Definition or_default (d z : Z) : Z := if (z =? 0)%Z then d else z.
Definition zipWithDefaults (c : ZipConfig) : ZipConfig := {|
  MaxUploadBytes := or_default DefaultMaxZipBytes (MaxUploadBytes c);
  MaxUncompressedBytes := or_default DefaultMaxUncompressedBytes (MaxUncompressedBytes c);
  MaxEntries := or_default DefaultMaxZipEntries (MaxEntries c);
  MaxEntryUncompressed := or_default DefaultMaxEntryUncompressed (MaxEntryUncompressed c);
  MaxCompressionRatio := or_default DefaultMaxCompressionRatio (MaxCompressionRatio c);
  AllowedExt := AllowedExt c;
|}.

(** os.FileMode *)
Definition ModeDir : Z := Z.shiftl 1 31.
Definition ModeSymlink : Z := Z.shiftl 1 27.
Definition ModeType : Z :=
  (ModeDir + ModeSymlink + Z.shiftl 1 25 + Z.shiftl 1 24 + Z.shiftl 1 26
   + Z.shiftl 1 21 + Z.shiftl 1 19)%Z.
Definition has_mode (m bits : Z) : bool := negb (Z.land m bits =? 0)%Z.
Definition IsRegular (m : Z) : bool := (Z.land m ModeType =? 0)%Z.

(** A Go [len] and a read bounded by an [int64]. *)
Definition slen (s : string) : Z := Z.of_nat (String.length s).
Fixpoint str_takeZ (n : Z) (s : string) : string :=
  match s with
  | String c s => if (n <=? 0)%Z then "" else String c (str_takeZ (n - 1) s)
  | EmptyString => ""
  end.
(** [io.ReadAll(io.LimitReader(rc, n))]: a failure of the stream is seen only if
    the limit is not reached first. *)
Definition read_limited (st : zip_stream) (n : Z) : option bytes :=
  if zs_fails st && (slen (zs_data st) <? n)%Z then None
  else Some (str_takeZ n (zs_data st)).

Record zipEntry := { ze_path : string; ze_content : bytes }.

Definition zipEntriesBytes (entries : list zipEntry) : Z :=
  foldl (λ n e, wrap_i64 (n + slen (ze_content e))) 0%Z entries.

Section zip.
Context `{GoUnicode}.
Context (cfg : ZipConfig).

Definition zipExtAllowed (p : string) : bool :=
  match AllowedExt cfg with
  | [] => extAllowedForUpload p
  | l => let ext := to_lower (path_ext p) in existsb (λ a, equal_fold a ext) l
  end.

(** The checks of one entry that do not read it: structure and ZipSlip, then
  type, then the declared sizes. *)
Definition checkEntryHeader (f : zip_file) : Res err string :=
  let name := zf_Name f in
  if has_mode (zf_Mode f) ModeSymlink then Err (ESentinel ErrZipSlip)
  else if negb (IsRegular (zf_Mode f)) then Err (ESentinel ErrZipSlip)
  else if negb (is_local name) then Err (ESentinel ErrZipSlip)
  else
    let clean := path_clean name in
    if (clean =? ".")%string || has_prefix "../" clean || contains "/../" clean
    then Err (ESentinel ErrZipSlip)
    else if existsb (λ seg, (seg =? "..")%string || (seg =? gitDirSegment)%string)
              (split slash clean) then Err (ESentinel ErrZipSlip)
    else if negb (zipExtAllowed clean) then Err (ESentinel ErrZipBadType)
    else if (wrap_u64 (MaxEntryUncompressed cfg) <? zf_UncompressedSize64 f)%Z
    then Err (ESentinel ErrZipTooLarge)
    else if (0 <? zf_CompressedSize64 f)%Z then
      if (wrap_u64 (MaxCompressionRatio cfg) <?
            zf_UncompressedSize64 f / zf_CompressedSize64 f)%Z
      then Err (ESentinel ErrZipTooLarge) else Ok clean
    else if (wrap_u64 (MaxCompressionRatio cfg) <? zf_UncompressedSize64 f)%Z
    then Err (ESentinel ErrZipTooLarge) else Ok clean.

(** Reading one entry: [totalUncompressed] is the running total. *)
Definition readEntry (f : zip_file) (clean : string) (totalUncompressed : Z) :
    Res err (zipEntry * Z) :=
  let name := zf_Name f in
  match zf_Open f with
  | None => Err (ValidationError "zip" ("cannot open entry " +:+ name))
  | Some rc =>
      match read_limited rc (wrap_i64 (MaxEntryUncompressed cfg + 1)) with
      | None => Err (ValidationError "zip" ("cannot read entry " +:+ name))
      | Some content =>
          if (MaxEntryUncompressed cfg <? slen content)%Z then Err (ESentinel ErrZipTooLarge)
          else
            let total := wrap_i64 (totalUncompressed + slen content) in
            if (MaxUncompressedBytes cfg <? total)%Z then Err (ESentinel ErrZipTooLarge)
            else Ok ({| ze_path := clean; ze_content := content |}, total)
      end
  end.

Definition skipEntry (f : zip_file) : bool :=
  has_suffix "/" (zf_Name f) || has_mode (zf_Mode f) ModeDir.

Fixpoint validateEntries (fs : list zip_file) (total : Z) : Res err (list zipEntry) :=
  match fs with
  | [] => Ok []
  | f :: fs =>
      if skipEntry f then validateEntries fs total
      else
        try! clean := checkEntryHeader f in
        try! r := readEntry f clean total in
        let '(e, total) := r in
        try! es := validateEntries fs total in
        Ok (e :: es)
  end.
Definition validateAndReadZip (zr : list zip_file) : Res err (list zipEntry) :=
  try! entries := validateEntries zr 0 in
  match entries with
  | [] => Err (ValidationError "zip" "archive contains no allowable files")
  | _ => Ok entries
  end.

(** Steps 1-4 of ImportZip, shared with [extractZipToWorktree]. *)
Definition openAndValidateZip (src : ZipSource) : Res err (list zipEntry) :=
  if (MaxUploadBytes cfg <? zsrc_Size src)%Z then Err (ESentinel ErrZipTooLarge)
  else match zsrc_Reader src with
  | None => Err (ValidationError "zip" "no archive reader")
  | Some None => Err (ValidationError "zip" "not a valid zip archive")
  | Some (Some zr) =>
      if (MaxEntries cfg <? Z.of_nat (length zr))%Z then Err (ESentinel ErrZipTooManyFiles)
      else validateAndReadZip zr
  end.
End zip.

(** ** Facts *)

Lemma slen_nonneg s : (0 ≤ slen s)%Z.
Proof. unfold slen. lia. Qed.

Definition total_bytes (es : list zipEntry) : Z :=
  foldr (λ e n, slen (ze_content e) + n)%Z 0%Z es.
Lemma total_bytes_nonneg es : (0 ≤ total_bytes es)%Z.
Proof. induction es as [|e es IH]; simpl; [lia|]. pose proof (slen_nonneg (ze_content e)). lia. Qed.

Lemma zipEntriesBytes_exact es :
  (total_bytes es < 2 ^ 63)%Z → zipEntriesBytes es = total_bytes es.
Proof.
  unfold zipEntriesBytes. intros Hb.
  assert (∀ n, (0 ≤ n)%Z → (n + total_bytes es < 2 ^ 63)%Z →
    foldl (λ n e, wrap_i64 (n + slen (ze_content e))) n es = (n + total_bytes es)%Z) as Hgen.
  { clear Hb. induction es as [|e es IH]; intros n Hn Hb; simpl in *; [lia|].
    pose proof (slen_nonneg (ze_content e)). pose proof (total_bytes_nonneg es).
    rewrite wrap_i64_id by (unfold in_i64; lia). rewrite IH; lia. }
  rewrite Hgen; lia.
Qed.

Section zip_facts.
Context `{GoUnicode}.
Context (cfg : ZipConfig).

(** What every accepted entry satisfies. *)
Definition safe_entry (e : zipEntry) : Prop :=
  (∃ l, l ≠ [] ∧ Forall normal_seg l ∧ Forall (λ s, s ≠ gitDirSegment) l ∧
        Forall (λ s, no_char slash s = true) l ∧ ze_path e = join "/" l) ∧
  zipExtAllowed cfg (ze_path e) = true ∧
  (slen (ze_content e) ≤ MaxEntryUncompressed cfg)%Z.

Lemma checkEntryHeader_ok f clean :
  checkEntryHeader cfg f = Ok clean →
  (∃ l, l ≠ [] ∧ Forall normal_seg l ∧ Forall (λ s, s ≠ gitDirSegment) l ∧
        Forall (λ s, no_char slash s = true) l ∧ clean = join "/" l) ∧
  zipExtAllowed cfg clean = true.
Proof.
  unfold checkEntryHeader.
  destruct (has_mode _ _); [done|]. destruct (IsRegular _); [|done]. simpl.
  destruct (is_local _) eqn:Hloc; [|done]. simpl.
  destruct (String.eqb_spec (path_clean (zf_Name f)) ".") as [|Hne]; [done|]. simpl.
  destruct (_ || _); [done|]. destruct (existsb _ _) eqn:Hseg; [done|].
  destruct (zipExtAllowed _ _) eqn:Hext; [|done]. simpl.
  destruct (local_clean_segs _ Hloc Hne) as (l & Hl0 & Hn & Hs & Hcl & Hsp).
  rewrite Hsp in Hseg. intros Hok.
  assert (clean = path_clean (zf_Name f)) as -> by (case_hyp Hok; by simplify_eq).
  split; [|done]. exists l. split_and!; [done..| |done|done].
  apply Forall_forall. intros s Hin ->. apply not_true_iff_false in Hseg. apply Hseg.
  apply existsb_exists. exists gitDirSegment. by rewrite <-list_elem_of_In.
Qed.

Lemma readEntry_ok f clean t e t' :
  readEntry cfg f clean t = Ok (e, t') →
  ze_path e = clean ∧ (slen (ze_content e) ≤ MaxEntryUncompressed cfg)%Z ∧
  t' = wrap_i64 (t + slen (ze_content e)) ∧ (t' ≤ MaxUncompressedBytes cfg)%Z.
Proof.
  unfold readEntry. intros Hr. destruct (zf_Open f) as [rc|]; [|done].
  destruct (read_limited _ _) as [c|]; [|done].
  destruct (MaxEntryUncompressed cfg <? slen c)%Z eqn:Hc; [done|].
  destruct (MaxUncompressedBytes cfg <? _)%Z eqn:Ht; [done|]. simplify_eq. simpl.
  bool_hyps. done.
Qed.

Lemma validateEntries_ok fs t es :
  (0 ≤ t)%Z → (0 ≤ MaxEntryUncompressed cfg)%Z →
  (MaxUncompressedBytes cfg + MaxEntryUncompressed cfg < 2 ^ 63)%Z →
  (t ≤ MaxUncompressedBytes cfg)%Z →
  validateEntries cfg fs t = Ok es →
  Forall safe_entry es ∧ (t + total_bytes es ≤ MaxUncompressedBytes cfg)%Z ∧
  length es ≤ length fs.
Proof.
  intros Ht0 Hm Hb. revert t es Ht0. induction fs as [|f fs IH]; intros t es Ht0 Ht Hv; simpl in Hv.
  { simplify_eq. simpl. split_and!; [constructor|lia|lia]. }
  destruct (skipEntry f).
  { apply IH in Hv as (? & ? & ?); [|done..]. simpl. auto with lia. }
  unfold res_bind in Hv.
  destruct (checkEntryHeader cfg f) as [clean|] eqn:Hc; [|done].
  destruct (readEntry cfg f clean t) as [[e t']|] eqn:Hr; [|done].
  destruct (validateEntries cfg fs t') as [es'|] eqn:Hes; [|done]. simplify_eq.
  apply checkEntryHeader_ok in Hc as [Hp Hx].
  apply readEntry_ok in Hr as (<- & Hsz & Ht' & Htm).
  pose proof (slen_nonneg (ze_content e)).
  rewrite wrap_i64_id in Ht' by (unfold in_i64; lia).
  destruct (IH t' es') as (IH1 & IH2 & IH3); [lia|done|done|].
  simpl. split_and!; [|lia|lia]. constructor; [|done]. done.
Qed.

Lemma openAndValidateZip_inv src es :
  openAndValidateZip cfg src = Ok es →
  (zsrc_Size src ≤ MaxUploadBytes cfg)%Z ∧
  ∃ zr, zsrc_Reader src = Some (Some zr) ∧ (Z.of_nat (length zr) ≤ MaxEntries cfg)%Z ∧
        es ≠ [] ∧ validateEntries cfg zr 0 = Ok es.
Proof.
  unfold openAndValidateZip, validateAndReadZip, res_bind.
  destruct (_ <? zsrc_Size src)%Z eqn:Hs; [done|].
  destruct (zsrc_Reader src) as [[zr|]|]; [|done..].
  destruct (_ <? Z.of_nat (length zr))%Z eqn:Hn; [done|]. bool_hyps.
  destruct (validateEntries cfg zr 0) as [[|e l]|] eqn:Hv; [done| |done].
  intros [= <-]. split; [done|]. by exists zr.
Qed.

(** C10 (safety, bounds): what an accepted archive contains.  Whatever its
  headers declare, every file taken from it has a path made of ordinary
  names outside the repository's metadata, an allowed type and at most the
  per-entry size; the files together stay within the total cap, there are
  between one and [MaxEntries] of them, and the quota delta computed from
  them in 64-bit arithmetic is their true size.  The side conditions bound
  the configuration, which must not make the caps themselves overflow. *)
Theorem zip_accepted_is_safe (src : ZipSource) (es : list zipEntry)
    (Hcap0 : (0 ≤ MaxEntryUncompressed cfg)%Z) (Htot0 : (0 ≤ MaxUncompressedBytes cfg)%Z)
    (Hcap : (MaxUncompressedBytes cfg + MaxEntryUncompressed cfg < 2 ^ 63)%Z) :
  openAndValidateZip cfg src = Ok es →
  (zsrc_Size src ≤ MaxUploadBytes cfg)%Z ∧
  Forall safe_entry es ∧
  (1 ≤ Z.of_nat (length es) ≤ MaxEntries cfg)%Z ∧
  zipEntriesBytes es = total_bytes es ∧ (total_bytes es ≤ MaxUncompressedBytes cfg)%Z.
Proof.
  intros (Hs & zr & _ & Hn & Hne & Hv)%openAndValidateZip_inv.
  apply validateEntries_ok in Hv as (H1 & H2 & H3); [|lia..].
  assert (1 ≤ length es) by (destruct es; [done|simpl; lia]).
  rewrite zipEntriesBytes_exact by lia. split_and!; [done|done|lia|lia|done|lia].
Qed.

(** An entry whose declared size or ratio is above its cap is
  refused, for every 64-bit declared size (no cast makes a size above 2^63
  look small), and so is an entry that declares bytes against a compressed
  size of zero beyond the ratio; so the bomb guard has no ratio-unknown or
  wrapped-sign gap. *)
Theorem zip_declared_bomb_refused (f : zip_file) (fs : list zip_file) (t : Z)
    (Hu : (0 ≤ zf_UncompressedSize64 f < 2 ^ 64)%Z)
    (Hc : (0 ≤ zf_CompressedSize64 f < 2 ^ 64)%Z)
    (Hcap : (0 ≤ MaxEntryUncompressed cfg < 2 ^ 63)%Z)
    (Hratio : (0 ≤ MaxCompressionRatio cfg < 2 ^ 63)%Z) :
  skipEntry f = false →
  (MaxEntryUncompressed cfg < zf_UncompressedSize64 f ∨
   (MaxCompressionRatio cfg + 1) * Z.max 1 (zf_CompressedSize64 f) ≤ zf_UncompressedSize64 f)%Z →
  ∃ s, validateEntries cfg (f :: fs) t = Err (ESentinel s) ∧
       s ∈ [ErrZipSlip; ErrZipBadType; ErrZipTooLarge].
Proof.
  intros Hsk Hbig. simpl. rewrite Hsk. unfold checkEntryHeader.
  rewrite (wrap_u64_id (MaxEntryUncompressed cfg)), (wrap_u64_id (MaxCompressionRatio cfg)) by lia.
  destruct (has_mode _ _); [eexists; split; [done|set_solver]|].
  destruct (IsRegular _); [|eexists; split; [done|set_solver]]. simpl.
  destruct (is_local _); [|eexists; split; [done|set_solver]]. simpl.
  destruct (_ || _); [eexists; split; [done|set_solver]|].
  destruct (existsb _ _); [eexists; split; [done|set_solver]|].
  destruct (zipExtAllowed _ _); [|eexists; split; [done|set_solver]]. simpl.
  exists ErrZipTooLarge. split; [|set_solver].
  destruct (Z.ltb_spec (MaxEntryUncompressed cfg) (zf_UncompressedSize64 f)); [done|].
  destruct Hbig as [|Hbig]; [lia|].
  destruct (Z.ltb_spec 0 (zf_CompressedSize64 f)) as [Hpos|Hz].
  - rewrite Z.max_r in Hbig by lia.
    destruct (Z.ltb_spec (MaxCompressionRatio cfg)
      (zf_UncompressedSize64 f / zf_CompressedSize64 f)) as [|Hle]; [done|].
    exfalso. pose proof (Z.div_le_lower_bound (zf_UncompressedSize64 f) (zf_CompressedSize64 f)
      (MaxCompressionRatio cfg + 1)). lia.
  - destruct (Z.ltb_spec (MaxCompressionRatio cfg) (zf_UncompressedSize64 f)); [done|lia].
Qed.
End zip_facts.

Definition default_zip_config : ZipConfig := zipWithDefaults {|
  MaxUploadBytes := 0; MaxUncompressedBytes := 0; MaxEntries := 0;
  MaxEntryUncompressed := 0; MaxCompressionRatio := 0; AllowedExt := [];
|}.
Definition sample_zip : ZipSource := {|
  zsrc_Reader := Some (Some [
    {| zf_Name := "css/"; zf_Mode := 2147484141; zf_UncompressedSize64 := 0;
       zf_CompressedSize64 := 0; zf_Open := None |};
    {| zf_Name := "./css/a.css"; zf_Mode := 420; zf_UncompressedSize64 := 4;
       zf_CompressedSize64 := 4; zf_Open := Some {| zs_data := "p{}."; zs_fails := false |} |}]);
  zsrc_Size := 300; zsrc_Filename := "site.zip";
|}.

Lemma zip_accepted_is_safe_witness :
  Forall (@safe_entry ascii_only_unicode default_zip_config)
    [{| ze_path := "css/a.css"; ze_content := "p{}." |}].
Proof.
  refine (proj1 (proj2 (@zip_accepted_is_safe ascii_only_unicode default_zip_config sample_zip
    _ _ _ _ _))); vm_compute; (reflexivity || discriminate).
Defined.

Lemma zip_declared_bomb_refused_witness :
  ∃ s, @validateEntries ascii_only_unicode default_zip_config
    [{| zf_Name := "a.css"; zf_Mode := 420; zf_UncompressedSize64 := 2 ^ 63 + 5;
        zf_CompressedSize64 := 0; zf_Open := None |}] 0 = Err (ESentinel s) ∧
    s ∈ [ErrZipSlip; ErrZipBadType; ErrZipTooLarge].
Proof.
  apply (@zip_declared_bomb_refused ascii_only_unicode default_zip_config);
    try (vm_compute; split; congruence).
  left. vm_compute. reflexivity.
Defined.
