(* ===== verification/SiteTypes.v ===== *)
(** * Domain types of the site service (site/service.go, store.go)

    The structs exchanged through [site.Service], the persisted [SiteRecord] and
    its projection [toSite], and the actor defaults shared by both
    implementations.  An instant is its number of nanoseconds, a uuid its
    128-bit value; the text of a uuid comes from the uuid package and is a
    parameter ([UUIDText]). *)

From S2P Require Import Prelude GoStrings SiteErrors Handle Zip.

Definition time := Z.
Definition uuid := N.
Definition uuid_Nil : uuid := 0%N.
Class UUIDText := { uuid_String : uuid → string }.

Definition SourceUpload : string := "upload".
Definition SourceEditor : string := "editor".
Definition SourceMCP : string := "mcp".
Definition SourceSystem : string := "system".

Record Actor := {
  UserID : uuid;
  Name : string;
  Email : string;
  Via : string;
  TokenID : option uuid;
}.

Record Site := {
  site_ID : uuid; site_Handle : string; site_OwnerID : uuid; site_Visibility : string;
  site_DefaultBranch : string; site_GitHubRepo : string; site_PublishMode : string;
  site_WebRoot : string; site_HasPublished : bool; site_PublishedSHA : string;
  site_PublishedAt : option time; site_CacheVersion : Z; site_Description : string;
  site_CreatedAt : time; site_UpdatedAt : time;
}.

Record CommitInfo := {
  ci_SHA : string; ci_ShortSHA : string; ci_Message : string; ci_AuthorName : string;
  ci_AuthorEmail : string; ci_Committed : time; ci_Parents : list string; ci_Via : string;
}.

Record Branch := {
  br_Name : string; br_HeadSHA : string; br_IsPublished : bool; br_LastCommit : CommitInfo;
  br_PreviewSubdomain : string;
}.

Record FileEntry := {
  fe_Path : string; fe_Name : string; fe_IsDir : bool; fe_Size : Z; fe_Mode : string;
}.

Record FileContent := {
  fct_Path : string; fct_Content : bytes; fct_SHA : string; fct_BlobSHA : string;
  fct_Size : Z; fct_IsBinary : bool;
}.

Record FileDiff := {
  fd_Path : string; fd_OldPath : string; fd_Status : string; fd_Additions : Z;
  fd_Deletions : Z; fd_IsBinary : bool; fd_UnifiedPatch : string;
}.
Record DiffResult := { dr_FromSHA : string; dr_ToSHA : string; dr_Files : list FileDiff }.

Record ServeTarget := {
  st_SiteID : uuid; st_Handle : string; st_Branch : string; st_Root : string; st_HeadSHA : string;
}.
Record TreeHandle := {
  th_Root : string; th_CommitSHA : string; th_CommitTime : time; th_Exists : bool;
}.

Record WriteFileInput := {
  wf_SiteID : uuid; wf_Branch : string; wf_Path : string; wf_Content : bytes;
  wf_BaseSHA : string; wf_Commit : bool; wf_Message : string; wf_Actor : Actor;
}.
Record CommitInput := {
  cm_SiteID : uuid; cm_Branch : string; cm_Message : string; cm_BaseSHA : string;
  cm_Actor : Actor;
}.
Record ListFilesInput := {
  lf_SiteID : uuid; lf_Branch : string; lf_Dir : string; lf_Ref : string; lf_Recursive : bool;
}.
Record PublishInput := {
  pb_SiteID : uuid; pb_From : string; pb_BaseSHA : string; pb_Message : string; pb_Actor : Actor;
}.
Record DiffOptions := {
  df_SiteID : uuid; df_From : string; df_To : string; df_Path : string;
  df_ContextLines : Z; df_NameStatus : bool;
}.
Record LogOptions := {
  lo_SiteID : uuid; lo_Branch : string; lo_Limit : Z; lo_Before : string; lo_Path : string;
}.

Record CreateSiteInput := {
  cs_Handle : string; cs_OwnerID : uuid; cs_Visibility : string; cs_PublishMode : string;
  cs_Description : string; cs_Zip : option ZipSource; cs_GitHubRepo : string; cs_Actor : Actor;
}.

(** The persisted row; nullable columns are options. *)
Record SiteRecord := {
  rec_ID : uuid; rec_Handle : string; rec_OwnerID : uuid; rec_Visibility : string;
  rec_DefaultBranch : string; rec_PublishedSHA : option string; rec_PublishedAt : option time;
  rec_PublishMode : string; rec_GitHubRepo : option string; rec_WebRoot : string;
  rec_Description : string; rec_CacheVersion : Z; rec_DeletedAt : option time;
  rec_CreatedAt : time; rec_UpdatedAt : time;
}.

Definition toSite (r : SiteRecord) : Site :=
  let published := match rec_PublishedSHA r with
                   | Some sha => if (sha =? "")%string then None else Some sha
                   | None => None
                   end in
  {| site_ID := rec_ID r;
     site_Handle := rec_Handle r;
     site_OwnerID := rec_OwnerID r;
     site_Visibility := rec_Visibility r;
     site_DefaultBranch := rec_DefaultBranch r;
     site_GitHubRepo := default "" (rec_GitHubRepo r);
     site_PublishMode := rec_PublishMode r;
     site_WebRoot := rec_WebRoot r;
     site_HasPublished := match published with Some _ => true | None => false end;
     site_PublishedSHA := default "" published;
     site_PublishedAt := rec_PublishedAt r;
     site_CacheVersion := rec_CacheVersion r;
     site_Description := rec_Description r;
     site_CreatedAt := rec_CreatedAt r;
     site_UpdatedAt := rec_UpdatedAt r |}.

(** Field updates of a record, as the code assigns them. *)
Definition set_handle (h : string) (at_ : time) (r : SiteRecord) : SiteRecord := {|
  rec_ID := rec_ID r; rec_Handle := h; rec_OwnerID := rec_OwnerID r;
  rec_Visibility := rec_Visibility r; rec_DefaultBranch := rec_DefaultBranch r;
  rec_PublishedSHA := rec_PublishedSHA r; rec_PublishedAt := rec_PublishedAt r;
  rec_PublishMode := rec_PublishMode r; rec_GitHubRepo := rec_GitHubRepo r;
  rec_WebRoot := rec_WebRoot r; rec_Description := rec_Description r;
  rec_CacheVersion := rec_CacheVersion r; rec_DeletedAt := rec_DeletedAt r;
  rec_CreatedAt := rec_CreatedAt r; rec_UpdatedAt := at_;
|}.
Definition set_deleted (at_ : time) (r : SiteRecord) : SiteRecord := {|
  rec_ID := rec_ID r; rec_Handle := rec_Handle r; rec_OwnerID := rec_OwnerID r;
  rec_Visibility := rec_Visibility r; rec_DefaultBranch := rec_DefaultBranch r;
  rec_PublishedSHA := rec_PublishedSHA r; rec_PublishedAt := rec_PublishedAt r;
  rec_PublishMode := rec_PublishMode r; rec_GitHubRepo := rec_GitHubRepo r;
  rec_WebRoot := rec_WebRoot r; rec_Description := rec_Description r;
  rec_CacheVersion := rec_CacheVersion r; rec_DeletedAt := Some at_;
  rec_CreatedAt := rec_CreatedAt r; rec_UpdatedAt := at_;
|}.
Definition set_updated (at_ : time) (r : SiteRecord) : SiteRecord :=
  set_handle (rec_Handle r) at_ r.
Definition set_published (sha : string) (at_ : time) (r : SiteRecord) : SiteRecord := {|
  rec_ID := rec_ID r; rec_Handle := rec_Handle r; rec_OwnerID := rec_OwnerID r;
  rec_Visibility := rec_Visibility r; rec_DefaultBranch := rec_DefaultBranch r;
  rec_PublishedSHA := Some sha; rec_PublishedAt := Some at_;
  rec_PublishMode := rec_PublishMode r; rec_GitHubRepo := rec_GitHubRepo r;
  rec_WebRoot := rec_WebRoot r; rec_Description := rec_Description r;
  rec_CacheVersion := rec_CacheVersion r; rec_DeletedAt := rec_DeletedAt r;
  rec_CreatedAt := rec_CreatedAt r; rec_UpdatedAt := at_;
|}.
Definition set_repo (repo : option string) (r : SiteRecord) : SiteRecord := {|
  rec_ID := rec_ID r; rec_Handle := rec_Handle r; rec_OwnerID := rec_OwnerID r;
  rec_Visibility := rec_Visibility r; rec_DefaultBranch := rec_DefaultBranch r;
  rec_PublishedSHA := rec_PublishedSHA r; rec_PublishedAt := rec_PublishedAt r;
  rec_PublishMode := rec_PublishMode r; rec_GitHubRepo := repo;
  rec_WebRoot := rec_WebRoot r; rec_Description := rec_Description r;
  rec_CacheVersion := rec_CacheVersion r; rec_DeletedAt := rec_DeletedAt r;
  rec_CreatedAt := rec_CreatedAt r; rec_UpdatedAt := rec_UpdatedAt r;
|}.

Definition emptyToNil (s : string) : option string :=
  if (s =? "")%string then None else Some s.

(** [if len(short) > 7 { short = short[:7] }] *)
Definition shortSHA (sha : string) : string :=
  if (7 <? String.length sha) then str_take 7 sha else sha.

(** The author fields a commit is stamped with, and their fallbacks. *)
Definition actorName (a : Actor) : string := if (Name a =? "")%string then "kotoji" else Name a.
Definition actorVia (a : Actor) : string := if (Via a =? "")%string then SourceSystem else Via a.
Definition actorEmail `{UUIDText} (a : Actor) : string :=
  if (Email a =? "")%string then uuid_String (UserID a) +:+ "@kotoji.local" else Email a.

(** [refuseProtectedBranch]: only Publish moves the published ref. *)
Definition refuseProtectedBranch (branch : string) : Res err unit :=
  if (branch =? "published")%string then
    Err (ValidationError "branch" "cannot write directly to the published branch")
  else if (branch =? "")%string then Err (ValidationError "branch" "required")
  else Ok tt.

Definition defaultLogLimit : Z := 50.
Definition defaultMaxLogLimit : Z := 500.
Definition emptyTreeSHA : string := "4b825dc642cb6eb9a060e54bf8d69288fbee4904".

(** htmlEscape: one pass, byte by byte. *)
Definition html_char (c : ascii) : string :=
  if (c =? "&")%char then "&amp;"
  else if (c =? "<")%char then "&lt;"
  else if (c =? ">")%char then "&gt;"
  else if (c =? "034")%char then "&quot;"
  else String c "".
Fixpoint htmlEscape (s : string) : string :=
  match s with
  | EmptyString => ""
  | String c s => html_char c +:+ htmlEscape s
  end.
Definition newline : string := String "010" "".
Definition defaultIndexHTML (handle : string) : bytes :=
  "<!doctype html>" +:+ newline +:+ "<html lang=" +:+ quoted "en" +:+ ">" +:+ newline
  +:+ "<head>" +:+ newline +:+ "<meta charset=" +:+ quoted "utf-8" +:+ ">" +:+ newline
  +:+ "<meta name=" +:+ quoted "viewport" +:+ " content="
  +:+ quoted "width=device-width, initial-scale=1" +:+ ">" +:+ newline
  +:+ "<title>" +:+ htmlEscape handle +:+ "</title>" +:+ newline +:+ "</head>" +:+ newline
  +:+ "<body>" +:+ newline
  +:+ "<main><h1>" +:+ htmlEscape handle +:+ "</h1>" +:+ newline
  +:+ "<p>This kotoji site is ready. Edit <code>index.html</code> to begin.</p></main>" +:+ newline
  +:+ "</body>" +:+ newline +:+ "</html>" +:+ newline.

(** parseHostOrPath: the project label of a Host value or of a /host/ path. *)
Definition before_char (c : ascii) (s : string) : string :=
  match index_byte c s with Some i => str_take i s | None => s end.
Definition hostLabel (s : string) : string :=
  if has_prefix "/host/" s then
    before_char slash (trim_prefix "/" (trim_prefix "/host/" s))
  else before_char "." (before_char ":" s).

Section routing.
Context `{GoUnicode}.

Definition parseHostOrPath (hostOrPath : string) : Res err (string * string) :=
  let s := to_lower (trim_space hostOrPath) in
  if (s =? "")%string then Err (ValidationError "host" "empty host/path")
  else
    let label := hostLabel s in
    if (label =? "")%string then Err (ValidationError "host" "no project label")
    else Ok (splitLabel label).

(** The checks of ResolveForServing, shared by both implementations. *)
Definition resolveServing (hostOrPath : string) : Res err (string * string) :=
  try! hb := parseHostOrPath hostOrPath in
  let '(handle, branch) := hb in
  if (branch =? BranchPublished)%string && contains doubleHyphen hostOrPath then
    Err (ValidationError "branch" "published is not addressable via --")
  else
    check! ValidateHandleForResolver handle in
    if (branch =? BranchPublished)%string then Ok (handle, branch)
    else check! validateBranchName branch in Ok (handle, branch).
End routing.
