(* ===== verification/SiteTree.v ===== *)
(** * Tree snapshots and their algorithms (site/fake_helpers.go)

    A commit's tree is a map from paths to contents.  The listing, diff, merge
    and history helpers of the in-memory service are pure functions of such
    maps; each is translated as written (the maps it builds while iterating are
    folds over the tree) and then related to what it computes. *)

From S2P Require Import Prelude GoStrings SiteTypes SitePath.

Abbreviation tree := (gmap string bytes).

Record fakeCommit := {
  fc_sha : string;
  fc_parents : list string;
  fc_message : string;
  fc_author : string;
  fc_email : string;
  fc_via : string;
  fc_when : time;
  fc_tree : tree;
}.
(** A branch is its append-only log, oldest commit first. *)
Abbreviation fakeBranch := (list fakeCommit).

Definition tip (b : fakeBranch) : option fakeCommit := last b.

Definition toCommitInfo (c : fakeCommit) : CommitInfo := {|
  ci_SHA := fc_sha c;
  ci_ShortSHA := shortSHA (fc_sha c);
  ci_Message := fc_message c;
  ci_AuthorName := fc_author c;
  ci_AuthorEmail := fc_email c;
  ci_Committed := fc_when c;
  ci_Parents := fc_parents c;
  ci_Via := fc_via c;
|}.

Definition lastSegment : string → string := last_seg.

(** sort.Strings, and sort.Slice by [Path] *)
Definition sort_strings : list string → list string := merge_sort String.le.
Definition by_path {A} (path : A → string) (x y : A) : Prop := String.le (path x) (path y).
#[export] Instance by_path_dec {A} (path : A → string) : RelDecision (by_path path).
Proof. intros x y. unfold by_path. apply _. Defined.
#[export] Instance by_path_total {A} (path : A → string) : Total (by_path path).
Proof. intros x y. unfold by_path. apply (total String.le). Qed.
Definition sort_by_path {A} (path : A → string) : list A → list A := merge_sort (by_path path).

(** ** Listing *)

(** One iteration of listTree's loop over the tree: the regular files and the
    directory names in scope so far. *)
Definition listTree_step (prefix : string) (recursive : bool) (path : string) (content : bytes)
    (acc : gmap string Z * gset string) : gmap string Z * gset string :=
  let '(files, dirs) := acc in
  if negb (prefix =? "")%string && negb (has_prefix prefix path) then acc
  else
    let rel := trim_prefix prefix path in
    if (rel =? "")%string then acc
    else if recursive then
      let segs := split slash rel in
      (<[path := Z.of_nat (String.length content)]> files,
       list_to_set ((λ i, prefix +:+ join "/" (take (S i) segs)) <$> seq 0 (length segs - 1)) ∪ dirs)
    else match index_byte slash rel with
    | Some i => (files, {[ prefix +:+ str_take i rel ]} ∪ dirs)
    | None => (<[path := Z.of_nat (String.length content)]> files, dirs)
    end.

Definition listTree (t : tree) (dir : string) (recursive : bool) : list FileEntry :=
  let prefix := if (dir =? "")%string then "" else trim_suffix "/" dir +:+ "/" in
  let '(files, dirs) := map_fold (listTree_step prefix recursive) (∅, ∅) t in
  let fentries := (λ '(path, size), {|
    fe_Path := path; fe_Name := lastSegment path; fe_IsDir := false;
    fe_Size := size; fe_Mode := "100644" |}) <$> map_to_list files in
  let dentries := (λ path, {|
    fe_Path := path; fe_Name := lastSegment path; fe_IsDir := true;
    fe_Size := 0; fe_Mode := "040000" |}) <$> elements dirs in
  sort_by_path fe_Path (fentries ++ dentries).

(** ** History *)

(** The commits of [b] up to and including [sha]: the inner loop of commitsUpTo. *)
Fixpoint upTo (b : fakeBranch) (sha : string) : option fakeBranch :=
  match b with
  | [] => None
  | c :: b =>
      if (fc_sha c =? sha)%string then Some [c]
      else (c ::.) <$> upTo b sha
  end.
(** commitsUpTo over the branches in an iteration order of the branch map. *)
Fixpoint commitsUpTo_in (order : list fakeBranch) (sha : string) : fakeBranch :=
  match order with
  | [] => []
  | b :: order =>
      match upTo b sha with
      | Some cs => cs
      | None => commitsUpTo_in order sha
      end
  end.
Definition findCommit (b : fakeBranch) (sha : string) : option fakeCommit :=
  List.find (λ c, (fc_sha c =? sha)%string) b.
Definition isAncestor (b : fakeBranch) (sha : string) : bool :=
  existsb (λ c, (fc_sha c =? sha)%string) b.

(** mergeBaseTree: [pubSet] maps every published sha to its tree (the last one
    wins), the source is walked newest first. *)
Definition pubSet (pub : fakeBranch) : gmap string tree :=
  foldl (λ m c, <[fc_sha c := fc_tree c]> m) ∅ pub.
Fixpoint firstIn (m : gmap string tree) (cs : list fakeCommit) : tree :=
  match cs with
  | [] => ∅
  | c :: cs => match m !! fc_sha c with Some t => t | None => firstIn m cs end
  end.
Definition mergeBaseTree (pub : option fakeBranch) (src : fakeBranch) : tree :=
  firstIn (pubSet (default [] pub)) (rev src).

(** ** Merging *)

(** The [consider] closure: does [path] conflict? *)
Definition changed (a b : option bytes) : bool := bool_decide (a ≠ b).
Definition conflictAt (pub src base : tree) (path : string) : bool :=
  let baseV := base !! path in let pubV := pub !! path in let srcV := src !! path in
  if changed pubV baseV && changed srcV baseV then
    match pubV, srcV with
    | Some p, Some s => negb (p =? s)%string
    | _, _ => true
    end
  else false.
Definition conflictingPaths (pub src base : tree) : list string :=
  sort_strings (List.filter (conflictAt pub src base) (elements (dom pub ∪ dom src))).

Definition mergeTrees (pub src : tree) : tree :=
  map_fold (λ k v out, <[k := v]> out) pub src.

Definition treesEqual (a b : tree) : bool :=
  (size a =? size b)%nat &&
  forallb (λ '(k, va), match b !! k with Some vb => (va =? vb)%string | None => false end)
    (map_to_list a).

(** ** Diffs *)

Definition lineCount (b : bytes) : Z :=
  if (b =? "")%string then 0
  else
    let n := Z.of_nat (count_char "010" b) in
    if has_suffix newline b then n else (n + 1)%Z.
Definition splitLines (b : bytes) : list string :=
  if (b =? "")%string then [] else split "010" (trim_right (λ c, (c =? "010")%char) b).
Definition synthPatch (path : string) (from to : bytes) : string :=
  if isBinaryContent from || isBinaryContent to then ""
  else
    trim_right (λ c, (c =? "010")%char)
      ("--- a/" +:+ path +:+ newline +:+ "+++ b/" +:+ path +:+ newline
       +:+ foldr (λ l acc, "-" +:+ l +:+ newline +:+ acc) "" (splitLines from)
       +:+ foldr (λ l acc, "+" +:+ l +:+ newline +:+ acc) "" (splitLines to)).

Definition diffTo (from : tree) (p : string) (toV : bytes) : option FileDiff :=
  match from !! p with
  | None => Some {|
      fd_Path := p; fd_OldPath := ""; fd_Status := "added"; fd_Additions := lineCount toV;
      fd_Deletions := 0; fd_IsBinary := isBinaryContent toV; fd_UnifiedPatch := synthPatch p "" toV |}
  | Some fromV =>
      if (fromV =? toV)%string then None
      else Some {|
        fd_Path := p; fd_OldPath := ""; fd_Status := "modified"; fd_Additions := lineCount toV;
        fd_Deletions := lineCount fromV; fd_IsBinary := isBinaryContent fromV || isBinaryContent toV;
        fd_UnifiedPatch := synthPatch p fromV toV |}
  end.
Definition diffFrom (to : tree) (p : string) (fromV : bytes) : option FileDiff :=
  match to !! p with
  | Some _ => None
  | None => Some {|
      fd_Path := p; fd_OldPath := ""; fd_Status := "deleted"; fd_Additions := 0;
      fd_Deletions := lineCount fromV; fd_IsBinary := isBinaryContent fromV;
      fd_UnifiedPatch := synthPatch p fromV "" |}
  end.
Definition inScope (pathFilter p : string) : bool :=
  (pathFilter =? "")%string || (p =? pathFilter)%string.
Definition diffTrees (from to : tree) (pathFilter : string) : list FileDiff :=
  let added := omap (λ '(p, toV), if inScope pathFilter p then diffTo from p toV else None)
                 (map_to_list to) in
  let deleted := omap (λ '(p, fromV), if inScope pathFilter p then diffFrom to p fromV else None)
                   (map_to_list from) in
  sort_by_path fd_Path (added ++ deleted).

(** changedBetween scans the whole log; the last commit with a sha counts. *)
Definition lastTree (b : fakeBranch) (sha : string) : option tree :=
  foldl (λ acc c, if (fc_sha c =? sha)%string then Some (fc_tree c) else acc) None b.
Definition changedBetween (commits : fakeBranch) (baseSHA tipSHA : string) : list string :=
  match lastTree commits baseSHA, lastTree commits tipSHA with
  | Some baseTree, Some tipTree => fd_Path <$> diffTrees baseTree tipTree ""
  | _, _ => []
  end.

(** commitTouchedPath: the commit against the one before it in the log. *)
Fixpoint touchedIn (parent : tree) (commits : fakeBranch) (sha path : string) : bool :=
  match commits with
  | [] => false
  | c :: commits =>
      if (fc_sha c =? sha)%string then changed (fc_tree c !! path) (parent !! path)
      else touchedIn (fc_tree c) commits sha path
  end.
Definition commitTouchedPath (commits : fakeBranch) (sha path : string) : bool :=
  touchedIn ∅ commits sha path.

Definition publishMergeMessage (from srcSHA override : string) : string :=
  if (override =? "")%string then "publish: " +:+ from +:+ "@" +:+ shortSHA srcSHA else override.

(** ** What the helpers compute *)

Lemma treesEqual_spec (a b : tree) : treesEqual a b = true ↔ a = b.
Proof.
  unfold treesEqual. rewrite andb_true_iff, Nat.eqb_eq, forallb_forall. split.
  - intros [Hsz Hall]. assert (a ⊆ b) as Hsub.
    { apply map_subseteq_spec. intros k v Hk.
      specialize (Hall (k, v)). rewrite <-list_elem_of_In, elem_of_map_to_list in Hall.
      specialize (Hall Hk). simpl in Hall. destruct (b !! k); [|done].
      by apply String.eqb_eq in Hall as ->. }
    by apply map_subseteq_size_eq; [|lia].
  - intros ->. split; [done|]. intros [k v]. rewrite <-list_elem_of_In, elem_of_map_to_list.
    intros ->. apply String.eqb_refl.
Qed.

Lemma mergeTrees_union (pub src : tree) : mergeTrees pub src = src ∪ pub.
Proof.
  unfold mergeTrees. revert src. apply (map_fold_weak_ind (λ r src, r = src ∪ pub)).
  - by rewrite (left_id_L ∅ (∪)).
  - intros k v m r _ ->. by rewrite insert_union_l.
Qed.

Lemma changed_spec (x y : option bytes) : changed x y = true ↔ x ≠ y.
Proof. apply bool_decide_eq_true. Qed.

Lemma elem_of_sort_strings x l : x ∈ sort_strings l ↔ x ∈ l.
Proof. unfold sort_strings. by rewrite merge_sort_Permutation. Qed.
Lemma elem_of_sort_by_path {A} (path : A → string) x l : x ∈ sort_by_path path l ↔ x ∈ l.
Proof. unfold sort_by_path. by rewrite merge_sort_Permutation. Qed.

(** A path conflicts when both sides changed it, and not to the same thing. *)
Lemma conflictingPaths_spec pub src base p :
  p ∈ conflictingPaths pub src base ↔
  pub !! p ≠ base !! p ∧ src !! p ≠ base !! p ∧ pub !! p ≠ src !! p.
Proof.
  unfold conflictingPaths. rewrite elem_of_sort_strings, list_elem_of_In, filter_In, <-list_elem_of_In.
  rewrite elem_of_elements, elem_of_union, !elem_of_dom. unfold conflictAt.
  pose proof (changed_spec (pub !! p) (base !! p)) as Hp.
  pose proof (changed_spec (src !! p) (base !! p)) as Hs.
  destruct (changed (pub !! p) (base !! p)), (changed (src !! p) (base !! p)); simpl.
  2-4: split; [by intros [_ ?]|intros (H1%Hp & H2%Hs & _); done].
  destruct (pub !! p) as [v|], (src !! p) as [w|]; try destruct (String.eqb_spec v w); naive_solver.
Qed.

Lemma diffTo_path from p v d : diffTo from p v = Some d → fd_Path d = p.
Proof. unfold diffTo. intros H. case_hyp H; by simplify_eq. Qed.
Lemma diffFrom_path to p v d : diffFrom to p v = Some d → fd_Path d = p.
Proof. unfold diffFrom. intros H. case_hyp H; by simplify_eq. Qed.

(** The paths of a diff are those at which the trees differ. *)
Lemma diffTrees_paths from to pf p :
  p ∈ fd_Path <$> diffTrees from to pf ↔ inScope pf p = true ∧ from !! p ≠ to !! p.
Proof.
  rewrite list_elem_of_fmap. unfold diffTrees. setoid_rewrite elem_of_sort_by_path.
  setoid_rewrite elem_of_app. setoid_rewrite list_elem_of_omap.
  split.
  - intros (d & -> & [([q v] & Hq%elem_of_map_to_list & Hd)|([q v] & Hq%elem_of_map_to_list & Hd)]);
      destruct (inScope pf q) eqn:Hs; try done.
    + assert (fd_Path d = q) as -> by (by eapply diffTo_path). split; [done|].
      rewrite Hq. unfold diffTo in Hd. destruct (from !! q) as [w|]; [|done].
      destruct (String.eqb_spec w v); [done|congruence].
    + assert (fd_Path d = q) as -> by (by eapply diffFrom_path). split; [done|].
      rewrite Hq. unfold diffFrom in Hd. by destruct (to !! q).
  - intros [Hs Hne]. destruct (to !! p) as [v|] eqn:Hto.
    + destruct (diffTo from p v) as [d|] eqn:Hd.
      * exists d. split; [symmetry; by eapply diffTo_path|]. left. exists (p, v).
        by rewrite elem_of_map_to_list, Hs.
      * exfalso. unfold diffTo in Hd. destruct (from !! p) as [w|]; [|done].
        destruct (String.eqb_spec w v); [congruence|done].
    + destruct (from !! p) as [v|] eqn:Hf; [|done].
      destruct (diffFrom to p v) as [d|] eqn:Hd.
      * exists d. split; [symmetry; by eapply diffFrom_path|]. right. exists (p, v).
        by rewrite elem_of_map_to_list, Hs.
      * exfalso. unfold diffFrom in Hd. by rewrite Hto in Hd.
Qed.

Lemma upTo_prefix b sha cs : upTo b sha = Some cs → cs `prefix_of` b.
Proof.
  revert cs. induction b as [|c b IH]; intros cs; simpl; [done|].
  destruct (fc_sha c =? sha)%string.
  - intros [= <-]. by exists b.
  - intros (cs' & Hcs & ->)%fmap_Some. by apply prefix_cons, IH.
Qed.
Lemma upTo_last b sha cs : upTo b sha = Some cs → ∃ c, last cs = Some c ∧ fc_sha c = sha.
Proof.
  revert cs. induction b as [|c b IH]; intros cs; simpl; [done|].
  destruct (String.eqb_spec (fc_sha c) sha).
  - intros [= <-]. by exists c.
  - intros (cs' & Hcs & ->)%fmap_Some. destruct (IH cs' Hcs) as (d & Hd & ?).
    exists d. split; [|done]. destruct cs'; [done|]. by rewrite last_cons_cons.
Qed.
Lemma upTo_is_Some b sha : is_Some (upTo b sha) ↔ sha ∈ fc_sha <$> b.
Proof.
  induction b as [|c b IH]; simpl; [by split; [intros [??]|intros ?%not_elem_of_nil]|].
  rewrite elem_of_cons. destruct (String.eqb_spec (fc_sha c) sha) as [<-|].
  - split; [by left|by eexists].
  - rewrite fmap_is_Some, IH. naive_solver.
Qed.
Lemma isAncestor_spec b sha : isAncestor b sha = true ↔ sha ∈ fc_sha <$> b.
Proof.
  unfold isAncestor. rewrite existsb_exists, list_elem_of_fmap.
  setoid_rewrite list_elem_of_In. setoid_rewrite String.eqb_eq. naive_solver.
Qed.
