(* ===== verification/FakeService.v ===== *)
(** * The in-memory site service (site/fake.go): state and operations

    [FakeService] is the whole state under the mutex, one definition per method,
    in the state-and-error monad: every method takes the lock for its whole
    duration, so a call is one step of the state.  Trees are cloned before they
    are stored and never mutated afterwards, and branch slices are copied when
    shared, so both are values here.  [clock] is read once per tick; [newID] is
    the uuid that uuid.New returns in CreateSite.  Iterating over a Go map is
    reading [map_to_list]; the facts file shows where that order cannot matter. *)

From S2P Require Import Prelude GoStrings SiteErrors SiteTypes Handle SitePath Zip SiteTree.

Record fakeSite := {
  fs_rec : SiteRecord;
  fs_branches : gmap string fakeBranch;
  fs_remote : string;
}.
Record FakeService := {
  sites : gmap uuid fakeSite;
  redirects : gmap string uuid;
  seqno : N;
  ticks : nat;
  FailNext : gmap string err;
}.
Definition NewFakeService : FakeService := {|
  sites := ∅; redirects := ∅; seqno := 0; ticks := 0; FailNext := ∅;
|}.

Definition with_sites (g : gmap uuid fakeSite → gmap uuid fakeSite) (f : FakeService) : FakeService :=
  {| sites := g (sites f); redirects := redirects f; seqno := seqno f; ticks := ticks f;
     FailNext := FailNext f |}.
Definition with_redirects (g : gmap string uuid → gmap string uuid) (f : FakeService) : FakeService :=
  {| sites := sites f; redirects := g (redirects f); seqno := seqno f; ticks := ticks f;
     FailNext := FailNext f |}.
(** Assignments through the [*fakeSite] pointer of a site. *)
Definition set_rec (g : SiteRecord → SiteRecord) (s : fakeSite) : fakeSite :=
  {| fs_rec := g (fs_rec s); fs_branches := fs_branches s; fs_remote := fs_remote s |}.
Definition set_branches (g : gmap string fakeBranch → gmap string fakeBranch) (s : fakeSite) : fakeSite :=
  {| fs_rec := fs_rec s; fs_branches := g (fs_branches s); fs_remote := fs_remote s |}.
Definition set_remote (url : string) (s : fakeSite) : fakeSite :=
  {| fs_rec := fs_rec s; fs_branches := fs_branches s; fs_remote := url |}.

Section fake.
Context `{GoUnicode} `{UUIDText}.
Context (clock : nat → time).

Abbreviation F := (M FakeService err).

Definition failOnce (method : string) : F unit := λ f,
  match FailNext f !! method with
  | Some e => ({| sites := sites f; redirects := redirects f; seqno := seqno f;
                  ticks := ticks f; FailNext := delete method (FailNext f) |}, Err e)
  | None => (f, Ok tt)
  end.
Definition now : F time := λ f,
  ({| sites := sites f; redirects := redirects f; seqno := seqno f; ticks := S (ticks f);
      FailNext := FailNext f |}, Ok (clock (ticks f))).
Definition nextSHA : F string := λ f,
  let n := (seqno f + 1)%N in
  ({| sites := sites f; redirects := redirects f; seqno := n; ticks := ticks f;
      FailNext := FailNext f |}, Ok (hex_pad 40 n)).
(** Write through a site pointer. *)
Definition updSite (id : uuid) (g : fakeSite → fakeSite) : F unit :=
  modify (with_sites (alter g id)).
Definition putBranch (id : uuid) (name : string) (b : fakeBranch) : F unit :=
  updSite id (set_branches <[name := b]>).
(** [s.rec.UpdatedAt = f.clock().UTC()] *)
Definition touch (id : uuid) : F unit :=
  let! t := now in updSite id (set_rec (set_updated t)).

(** [commit]: the new commit on top of [b], as the caller stores it. *)
Definition commit (b : fakeBranch) (t : tree) (actor : Actor) (msg : string) :
    F (fakeBranch * CommitInfo) :=
  let! sha := nextSHA in
  let! w := now in
  let c := {|
    fc_sha := sha;
    fc_parents := match tip b with Some p => [fc_sha p] | None => [] end;
    fc_message := msg;
    fc_author := actorName actor;
    fc_email := actorEmail actor;
    fc_via := actorVia actor;
    fc_when := w;
    fc_tree := t |} in
  ok (b ++ [c], toCommitInfo c).

Definition isLive (s : fakeSite) : bool :=
  match rec_DeletedAt (fs_rec s) with None => true | Some _ => false end.
Definition liveSite (id : uuid) : F fakeSite := λ f,
  match sites f !! id with
  | Some s => if isLive s then (f, Ok s) else (f, Err (ESentinel ErrNotFound))
  | None => (f, Err (ESentinel ErrNotFound))
  end.

(** [for _, s := range f.sites { if live && s.rec.Handle == h ... }] *)
Definition liveWithHandle (h : string) (s : fakeSite) : bool :=
  isLive s && (rec_Handle (fs_rec s) =? h)%string.
Definition findLive (h : string) : F (option fakeSite) := λ f,
  (f, Ok (List.find (liveWithHandle h) (map_to_list (sites f)).*2)).

(** checkBaseSHA, commitForRefOrBranch, resolveRef and resolveAnyRef *)
Definition checkBaseSHA (b : fakeBranch) (branch baseSHA : string) (hint : list string) :
    Res err unit :=
  match tip b with
  | None => Err (ESentinel ErrNotFound)
  | Some t =>
      if (fc_sha t =? baseSHA)%string then Ok tt
      else
        let changed := changedBetween b baseSHA (fc_sha t) in
        Err (ConflictError branch baseSHA (fc_sha t)
               (match changed with [] => hint | _ => changed end))
  end.
Definition branchOrder (s : fakeSite) : list fakeBranch := (map_to_list (fs_branches s)).*2.
Definition resolveAnyRef (s : fakeSite) (ref : string) : option fakeCommit :=
  match fs_branches s !! ref with
  | Some b => tip b
  | None => List.find (λ c, (fc_sha c =? ref)%string) (concat (branchOrder s))
  end.
Definition commitForRefOrBranch (s : fakeSite) (ref branch : string) : option fakeCommit :=
  if (ref =? "")%string then fs_branches s !! branch ≫= tip
  else resolveAnyRef s ref.
Definition resolveRef (s : fakeSite) (name : string) : option fakeCommit :=
  fs_branches s !! name ≫= tip.
Definition commitsUpTo (s : fakeSite) (sha : string) : fakeBranch :=
  commitsUpTo_in (branchOrder s) sha.

Definition readZip (src : ZipSource) : Res err (list zipEntry) :=
  openAndValidateZip default_zip_config src.
(** [for _, e := range entries { tree[e.path] = e.content }] *)
Definition entriesTree (es : list zipEntry) : tree :=
  foldl (λ t e, <[ze_path e := ze_content e]> t) ∅ es.

(** ** Site lifecycle *)

Definition newRecord (id : uuid) (lower : string) (in_ : CreateSiteInput) (at_ : time) : SiteRecord := {|
  rec_ID := id;
  rec_Handle := lower;
  rec_OwnerID := cs_OwnerID in_;
  rec_Visibility := if (cs_Visibility in_ =? "")%string then "private" else cs_Visibility in_;
  rec_DefaultBranch := BranchDraft;
  rec_PublishedSHA := None;
  rec_PublishedAt := None;
  rec_PublishMode := if (cs_PublishMode in_ =? "")%string then "direct" else cs_PublishMode in_;
  rec_GitHubRepo := emptyToNil (cs_GitHubRepo in_);
  rec_WebRoot := "";
  rec_Description := cs_Description in_;
  rec_CacheVersion := 0;
  rec_DeletedAt := None;
  rec_CreatedAt := at_;
  rec_UpdatedAt := at_;
  |}.

Definition CreateSite (newID : uuid) (in_ : CreateSiteInput) : F Site :=
  lift (ValidateHandle (cs_Handle in_)) ;!
  failOnce "CreateSite" ;!
  let lower := to_lower (cs_Handle in_) in
  let! taken := findLive lower in
  guard_not (bool_decide (is_Some taken)) (ESentinel ErrHandleTaken) ;!
  let! f := get in
  guard_not (bool_decide (is_Some (redirects f !! lower))) (ESentinel ErrHandleTaken) ;!
  let! t := now in
  let rec := newRecord newID lower in_ t in
  let! tree := match cs_Zip in_ with
               | Some z => let! es := lift (readZip z) in ok (entriesTree es)
               | None => ok {[ "index.html" := defaultIndexHTML (cs_Handle in_) ]}
               end in
  let msg := match cs_Zip in_ with
             | Some z => if (zsrc_Filename z =? "")%string then "Initial commit"
                         else "Import " +:+ zsrc_Filename z
             | None => "Initial commit"
             end in
  let! draft := commit [] tree (cs_Actor in_) msg in
  modify (with_sites <[newID := {|
    fs_rec := rec;
    fs_branches := {[ BranchDraft := draft.1 ]};
    fs_remote := cs_GitHubRepo in_ |}]>) ;!
  ok (toSite rec).

Definition GetSite (id : uuid) : F Site :=
  let! s := liveSite id in ok (toSite (fs_rec s)).

Definition GetSiteByHandle (h : string) : F Site :=
  let! r := findLive (to_lower h) in
  let! s := want r (ESentinel ErrNotFound) in
  ok (toSite (fs_rec s)).

(** sort.Slice by UpdatedAt, newest first (it does not fix the order of ties). *)
Definition newer (a b : Site) : Prop := (site_UpdatedAt b ≤ site_UpdatedAt a)%Z.
#[export] Instance newer_dec : RelDecision newer.
Proof. intros a b. unfold newer. apply _. Defined.
Definition ListSites (ownerID : uuid) : F (list Site) :=
  let! f := get in
  let visible s := isLive s && ((ownerID =? uuid_Nil)%N || (rec_OwnerID (fs_rec s) =? ownerID)%N) in
  ok (merge_sort newer
        ((λ s, toSite (fs_rec s)) <$> List.filter visible (map_to_list (sites f)).*2)).

Definition RenameHandle (id : uuid) (newHandle : string) : F Site :=
  lift (ValidateHandle newHandle) ;!
  let! s := liveSite id in
  let lower := to_lower newHandle in
  if (lower =? rec_Handle (fs_rec s))%string then ok (toSite (fs_rec s))
  else
    let! taken := findLive lower in
    guard_not (bool_decide (is_Some taken)) (ESentinel ErrHandleTaken) ;!
    let! f := get in
    guard_not (match redirects f !! lower with
               | Some owner => negb (owner =? id)%N | None => false end)
      (ESentinel ErrHandleTaken) ;!
    modify (with_redirects (λ r, <[rec_Handle (fs_rec s) := id]> (delete lower r))) ;!
    let! t := now in
    updSite id (set_rec (set_handle lower t)) ;!
    ok (toSite (set_handle lower t (fs_rec s))).

Definition DeleteSite (id : uuid) (actor : Actor) : F unit :=
  liveSite id ;!
  let! t := now in
  updSite id (set_rec (set_deleted t)).

(** ** Branches *)

Definition toBranch (s : fakeSite) (n : string) (c : fakeCommit) (published : bool) : Branch := {|
  br_Name := n;
  br_HeadSHA := fc_sha c;
  br_IsPublished := published;
  br_LastCommit := toCommitInfo c;
  br_PreviewSubdomain := previewSubdomain (rec_Handle (fs_rec s)) n;
  |}.

Definition ListBranches (id : uuid) : F (list Branch) :=
  let! s := liveSite id in
  let names := sort_strings (map_to_list (fs_branches s)).*1 in
  ok (omap (λ n, (λ c, toBranch s n c (n =? BranchPublished)%string) <$> resolveRef s n) names).

Definition CreateBranch (id : uuid) (name from : string) : F Branch :=
  lift (validateBranchName name) ;!
  guard_not ((name =? BranchPublished)%string || (name =? BranchDraft)%string)
    (ValidationError "branch" "reserved branch name") ;!
  let! s := liveSite id in
  guard_not (bool_decide (is_Some (fs_branches s !! name))) (ESentinel ErrBranchExists) ;!
  let fromBranch := if (from =? "")%string then BranchDraft else from in
  let! c := want (resolveRef s fromBranch) (ESentinel ErrNotFound) in
  putBranch id name (commitsUpTo s (fc_sha c)) ;!
  ok (toBranch s name c false).

Definition DeleteBranch (id : uuid) (name : string) : F unit :=
  guard_not ((name =? BranchPublished)%string || (name =? BranchDraft)%string)
    (ValidationError "branch" "cannot delete the published or draft branch") ;!
  let! s := liveSite id in
  want (fs_branches s !! name) (ESentinel ErrNotFound) ;!
  updSite id (set_branches (delete name)).

(** ** Reading *)

Definition ListFiles (in_ : ListFilesInput) : F (list FileEntry * string) :=
  lift (validateDir (lf_Dir in_)) ;!
  let! s := liveSite (lf_SiteID in_) in
  let! c := want (commitForRefOrBranch s (lf_Ref in_) (lf_Branch in_)) (ESentinel ErrNotFound) in
  ok (listTree (fc_tree c) (lf_Dir in_) (lf_Recursive in_), fc_sha c).

Definition ReadFile (id : uuid) (branch ref path : string) : F FileContent :=
  lift (validateReadPath path) ;!
  let! s := liveSite id in
  let! c := want (commitForRefOrBranch s ref branch) (ESentinel ErrNotFound) in
  let! content := want (fc_tree c !! path) (ESentinel ErrNotFound) in
  ok {| fct_Path := path;
        fct_Content := content;
        fct_SHA := fc_sha c;
        fct_BlobSHA := hex_pad 40 (N.of_nat (String.length content));
        fct_Size := Z.of_nat (String.length content);
        fct_IsBinary := isBinaryContent content |}.

(** ** Writing *)

Definition needBaseSHA (baseSHA reason : string) : F unit :=
  guard_not (baseSHA =? "")%string (ValidationError "baseSha" reason).
Definition requiredNeverForce : string := "required (never treated as force)".

(** [ci := f.commit(b, tree, ...); s.rec.UpdatedAt = ...] on a stored branch *)
Definition commitOn (id : uuid) (branch : string) (b : fakeBranch) (t : tree) (actor : Actor)
    (msg : string) : F CommitInfo :=
  let! r := commit b t actor msg in
  putBranch id branch r.1 ;!
  touch id ;!
  ok r.2.

Definition tipTree (b : fakeBranch) : tree :=
  match tip b with Some c => fc_tree c | None => ∅ end.

Definition WriteFile (in_ : WriteFileInput) : F CommitInfo :=
  lift (refuseProtectedBranch (wf_Branch in_)) ;!
  lift (if (Via (wf_Actor in_) =? SourceMCP)%string then validateMCPWritePath (wf_Path in_)
        else validatePath (wf_Path in_)) ;!
  needBaseSHA (wf_BaseSHA in_) requiredNeverForce ;!
  let! s := liveSite (wf_SiteID in_) in
  let! b := want (fs_branches s !! wf_Branch in_) (ESentinel ErrNotFound) in
  lift (checkBaseSHA b (wf_Branch in_) (wf_BaseSHA in_) [wf_Path in_]) ;!
  let tree := <[wf_Path in_ := wf_Content in_]> (tipTree b) in
  let msg := if (wf_Message in_ =? "")%string then "Update " +:+ wf_Path in_ else wf_Message in_ in
  commitOn (wf_SiteID in_) (wf_Branch in_) b tree (wf_Actor in_) msg.

Definition DeleteFile (id : uuid) (branch path baseSHA : string) (actor : Actor) : F CommitInfo :=
  lift (refuseProtectedBranch branch) ;!
  lift (validateReadPath path) ;!
  needBaseSHA baseSHA requiredNeverForce ;!
  let! s := liveSite id in
  let! b := want (fs_branches s !! branch) (ESentinel ErrNotFound) in
  lift (checkBaseSHA b branch baseSHA [path]) ;!
  want (tipTree b !! path) (ESentinel ErrNotFound) ;!
  commitOn id branch b (delete path (tipTree b)) actor ("Delete " +:+ path).

Definition Commit (in_ : CommitInput) : F CommitInfo :=
  lift (refuseProtectedBranch (cm_Branch in_)) ;!
  needBaseSHA (cm_BaseSHA in_) requiredNeverForce ;!
  let! s := liveSite (cm_SiteID in_) in
  let! b := want (fs_branches s !! cm_Branch in_) (ESentinel ErrNotFound) in
  lift (checkBaseSHA b (cm_Branch in_) (cm_BaseSHA in_) []) ;!
  fail (ESentinel ErrNothingToCommit).

Definition ImportZip (id : uuid) (branch : string) (src : ZipSource) (baseSHA : string)
    (actor : Actor) : F CommitInfo :=
  lift (refuseProtectedBranch branch) ;!
  let! entries := lift (readZip src) in
  let! s := liveSite id in
  let! b := match fs_branches s !! branch with
            | Some b =>
                needBaseSHA baseSHA "required for an existing branch" ;!
                lift (checkBaseSHA b branch baseSHA []) ;!
                ok b
            | None => putBranch id branch [] ;! ok []
            end in
  let tree := entriesTree entries in
  guard_not (match tip b with Some t => treesEqual (fc_tree t) tree | None => false end)
    (ESentinel ErrNothingToCommit) ;!
  let msg := if (zsrc_Filename src =? "")%string then "Import archive"
             else "Import " +:+ zsrc_Filename src in
  commitOn id branch b tree actor msg.

(** ** Publish *)

Definition setPublished (id : uuid) (c : fakeCommit) : F unit :=
  let! t := now in updSite id (set_rec (set_published (fc_sha c) t)).

Definition Publish (in_ : PublishInput) : F CommitInfo :=
  let from := if (pb_From in_ =? "")%string then BranchDraft else pb_From in_ in
  let id := pb_SiteID in_ in
  guard_not (from =? BranchPublished)%string
    (ValidationError "from" "cannot publish from the published branch") ;!
  needBaseSHA (pb_BaseSHA in_) "required (tip of the source branch)" ;!
  let! s := liveSite id in
  let! srcBranch := want (fs_branches s !! from) (ESentinel ErrNotFound) in
  let! srcTip := want (tip srcBranch) (ESentinel ErrNotFound) in
  guard_not (negb (fc_sha srcTip =? pb_BaseSHA in_)%string)
    (ConflictError from (pb_BaseSHA in_) (fc_sha srcTip) []) ;!
  match fs_branches s !! BranchPublished with
  | None =>
      putBranch id BranchPublished srcBranch ;!
      setPublished id srcTip ;!
      ok (toCommitInfo srcTip)
  | Some pub =>
      let pubSHA := match tip pub with Some c => fc_sha c | None => "" end in
      if (pubSHA =? fc_sha srcTip)%string then
        ok (match tip pub with Some c => toCommitInfo c | None => toCommitInfo srcTip end)
      else if isAncestor srcBranch pubSHA then
        putBranch id BranchPublished srcBranch ;!
        setPublished id srcTip ;!
        ok (toCommitInfo srcTip)
      else
        let conflicts := conflictingPaths (tipTree pub) (fc_tree srcTip)
                           (mergeBaseTree (Some pub) srcBranch) in
        guard_not (match conflicts with [] => false | _ => true end)
          (PublishConflictError conflicts) ;!
        let! sha := nextSHA in
        let! w := now in
        let mc := {|
          fc_sha := sha;
          fc_parents := [pubSHA; fc_sha srcTip];
          fc_message := publishMergeMessage from (fc_sha srcTip) (pb_Message in_);
          fc_author := actorName (pb_Actor in_);
          fc_email := actorEmail (pb_Actor in_);
          fc_via := actorVia (pb_Actor in_);
          fc_when := w;
          fc_tree := mergeTrees (tipTree pub) (fc_tree srcTip) |} in
        putBranch id BranchPublished (pub ++ [mc]) ;!
        setPublished id mc ;!
        ok (toCommitInfo mc)
  end.

(** ** History *)

Definition GetDiff (in_ : DiffOptions) : F DiffResult :=
  let! s := liveSite (df_SiteID in_) in
  let! from := want (resolveAnyRef s (df_From in_)) (ESentinel ErrNotFound) in
  let '(toTree, toSHA) :=
    if (df_To in_ =? "")%string then (fc_tree from, "")
    else match resolveAnyRef s (df_To in_) with
         | Some c => (fc_tree c, fc_sha c)
         | None => (∅, emptyTreeSHA)
         end in
  ok {| dr_FromSHA := fc_sha from; dr_ToSHA := toSHA;
        dr_Files := diffTrees (fc_tree from) toTree (df_Path in_) |}.

(** The commits strictly older than [before] in a newest-first log; an unknown
  cursor starts from the newest. *)
Fixpoint afterCursor (all : list fakeCommit) (before : string) : option (list fakeCommit) :=
  match all with
  | [] => None
  | c :: all => if (fc_sha c =? before)%string then Some all else afterCursor all before
  end.
Definition clampLimit (l : Z) : Z :=
  let limit := if (l <=? 0)%Z then defaultLogLimit else l in
  if (defaultMaxLogLimit <? limit)%Z then defaultMaxLogLimit else limit.
Definition GetLog (in_ : LogOptions) : F (list CommitInfo) :=
  let limit := clampLimit (lo_Limit in_) in
  let! s := liveSite (lo_SiteID in_) in
  let! b := want (fs_branches s !! lo_Branch in_) (ESentinel ErrNotFound) in
  let all := rev b in
  let older := if (lo_Before in_ =? "")%string then all
               else default all (afterCursor all (lo_Before in_)) in
  let touched c := (lo_Path in_ =? "")%string || commitTouchedPath b (fc_sha c) (lo_Path in_) in
  ok (toCommitInfo <$> take (Z.to_nat limit) (List.filter touched older)).

Definition Rollback (id : uuid) (branch toSHA baseSHA : string) (actor : Actor) : F CommitInfo :=
  lift (refuseProtectedBranch branch) ;!
  needBaseSHA baseSHA "required" ;!
  guard_not (toSHA =? "")%string (ValidationError "toSha" "required") ;!
  let! s := liveSite id in
  let! b := want (fs_branches s !! branch) (ESentinel ErrNotFound) in
  lift (checkBaseSHA b branch baseSHA []) ;!
  let! target := want (findCommit b toSHA) (ESentinel ErrNotFound) in
  commitOn id branch b (fc_tree target) actor ("Rollback to " +:+ shortSHA toSHA).

(** ** Data plane and mirror *)

Definition ServedTree (id : uuid) (branch : string) : F TreeHandle :=
  let! s := liveSite id in
  let! c := want (resolveRef s branch) (ESentinel ErrNotFound) in
  ok {| th_Root := ""; th_CommitSHA := fc_sha c; th_CommitTime := fc_when c; th_Exists := true |}.

Definition ResolveForServing (hostOrPath : string) : F ServeTarget :=
  let! hb := lift (resolveServing hostOrPath) in
  let lower := to_lower hb.1 in
  let! direct := findLive lower in
  let! f := get in
  let target := match direct with
                | Some s => Some s
                | None => redirects f !! lower ≫= λ owner, sites f !! owner
                end in
  let! s := want target (ESentinel ErrNotFound) in
  guard_not (negb (isLive s)) (ESentinel ErrNotFound) ;!
  let! c := want (resolveRef s hb.2) (ESentinel ErrNotFound) in
  ok {| st_SiteID := rec_ID (fs_rec s); st_Handle := rec_Handle (fs_rec s); st_Branch := hb.2;
        st_Root := ""; st_HeadSHA := fc_sha c |}.

Definition SetRemote (id : uuid) (url : string) : F unit :=
  liveSite id ;!
  updSite id (λ s, set_rec (set_repo (emptyToNil url)) (set_remote url s)).

Definition MirrorPush (id : uuid) (branches : list string) : F unit :=
  liveSite id ;! failOnce "MirrorPush".

Definition FetchAndUpdate (id : uuid) (branch : string) : F CommitInfo :=
  let! s := liveSite id in
  let! c := want (resolveRef s branch) (ESentinel ErrNotFound) in
  ok (toCommitInfo c).
End fake.
