(* ===== verification/FakeEvents.v ===== *)
(** * The in-memory site service as an abstract transition system

    [Core] is the part of the service's state its contract is about: sites,
    redirects and the commit counter (not the clock ticks nor the queued test
    errors).  [ev] lists what a call may do to it, with the guard [ev_ok] under
    which it may and the effect [apply_ev]; [call] is a call of the interface
    and [exec] runs it.  [does] fixes, for a call and a state, the event the call
    performs when it succeeds.  FakeRuns relates the two: every call, whatever its
    arguments and outcome, is exactly one event, a successful one the event of
    [does], a failing one the empty event, and it fails only where [does] has none. *)

From S2P Require Import Prelude GoStrings SiteErrors SiteTypes Handle SitePath Zip SiteTree.
From S2P Require Import FakeService.

Record Core := mkCore {
  c_sites : gmap uuid fakeSite;
  c_redirects : gmap string uuid;
  c_seq : N;
}.
Definition core (f : FakeService) : Core := mkCore (sites f) (redirects f) (seqno f).

(** ** Calls *)

Inductive call : Type :=
| CCreateSite (newID : uuid) (in_ : CreateSiteInput)
| CGetSite (id : uuid)
| CGetSiteByHandle (h : string)
| CListSites (ownerID : uuid)
| CRenameHandle (id : uuid) (newHandle : string)
| CDeleteSite (id : uuid) (actor : Actor)
| CListBranches (id : uuid)
| CCreateBranch (id : uuid) (name from : string)
| CDeleteBranch (id : uuid) (name : string)
| CListFiles (in_ : ListFilesInput)
| CReadFile (id : uuid) (branch ref path : string)
| CWriteFile (in_ : WriteFileInput)
| CDeleteFile (id : uuid) (branch path baseSHA : string) (actor : Actor)
| CCommit (in_ : CommitInput)
| CImportZip (id : uuid) (branch : string) (src : ZipSource) (baseSHA : string) (actor : Actor)
| CPublish (in_ : PublishInput)
| CGetDiff (in_ : DiffOptions)
| CGetLog (in_ : LogOptions)
| CRollback (id : uuid) (branch toSHA baseSHA : string) (actor : Actor)
| CServedTree (id : uuid) (branch : string)
| CResolveForServing (hostOrPath : string)
| CSetRemote (id : uuid) (url : string)
| CMirrorPush (id : uuid) (branches : list string)
| CFetchAndUpdate (id : uuid) (branch : string).

Definition discard {S E A} (m : M S E A) : M S E unit := let! _ := m in ok tt.

Section exec.
Context `{GoUnicode} `{UUIDText}.
Context (clock : nat → time).

Definition exec (c : call) : M FakeService err unit :=
  match c with
  | CCreateSite newID in_ => discard (CreateSite clock newID in_)
  | CGetSite id => discard (GetSite id)
  | CGetSiteByHandle h => discard (GetSiteByHandle h)
  | CListSites o => discard (ListSites o)
  | CRenameHandle id h => discard (RenameHandle clock id h)
  | CDeleteSite id a => DeleteSite clock id a
  | CListBranches id => discard (ListBranches id)
  | CCreateBranch id n from => discard (CreateBranch id n from)
  | CDeleteBranch id n => DeleteBranch id n
  | CListFiles in_ => discard (ListFiles in_)
  | CReadFile id b r p => discard (ReadFile id b r p)
  | CWriteFile in_ => discard (WriteFile clock in_)
  | CDeleteFile id b p base a => discard (DeleteFile clock id b p base a)
  | CCommit in_ => discard (Commit in_)
  | CImportZip id b src base a => discard (ImportZip clock id b src base a)
  | CPublish in_ => discard (Publish clock in_)
  | CGetDiff in_ => discard (GetDiff in_)
  | CGetLog in_ => discard (GetLog in_)
  | CRollback id b to base a => discard (Rollback clock id b to base a)
  | CServedTree id b => discard (ServedTree id b)
  | CResolveForServing h => discard (ResolveForServing h)
  | CSetRemote id url => SetRemote id url
  | CMirrorPush id bs => MirrorPush id bs
  | CFetchAndUpdate id b => discard (FetchAndUpdate id b)
  end.
End exec.

(** ** Events *)

Inductive ev : Type :=
| EvNone
| EvCreate (id : uuid) (s : fakeSite)
| EvRename (id : uuid) (h : string) (t : time)
| EvDelete (id : uuid) (t : time)
| EvBranch (id : uuid) (name : string) (b : fakeBranch)
| EvDropBranch (id : uuid) (name : string)
| EvAppend (id : uuid) (name : string) (b : fakeBranch) (c : fakeCommit) (t : time)
| EvForward (id : uuid) (from : string) (b : fakeBranch) (c : fakeCommit) (t : time)
| EvMerge (id : uuid) (b : fakeBranch) (c : fakeCommit) (t : time)
| EvRemote (id : uuid) (url : string).

Definition upd (id : uuid) (g : fakeSite → fakeSite) (c : Core) : Core :=
  mkCore (alter g id (c_sites c)) (c_redirects c) (c_seq c).
Definition bump (c : Core) : Core := mkCore (c_sites c) (c_redirects c) (c_seq c + 1).
Definition put (name : string) (b : fakeBranch) (g : SiteRecord → SiteRecord) (s : fakeSite) : fakeSite :=
  set_rec g (set_branches <[name := b]> s).

Definition apply_ev (e : ev) (c : Core) : Core :=
  match e with
  | EvNone => c
  | EvCreate id s => bump (mkCore (<[id := s]> (c_sites c)) (c_redirects c) (c_seq c))
  | EvRename id h t =>
      match c_sites c !! id with
      | Some s => upd id (set_rec (set_handle h t))
                    (mkCore (c_sites c)
                       (<[rec_Handle (fs_rec s) := id]> (delete h (c_redirects c))) (c_seq c))
      | None => c
      end
  | EvDelete id t => upd id (set_rec (set_deleted t)) c
  | EvBranch id name b => upd id (set_branches <[name := b]>) c
  | EvDropBranch id name => upd id (set_branches (delete name)) c
  | EvAppend id name b x t => bump (upd id (put name (b ++ [x]) (set_updated t)) c)
  | EvForward id from b x t => upd id (put BranchPublished b (set_published (fc_sha x) t)) c
  | EvMerge id b x t => bump (upd id (put BranchPublished (b ++ [x]) (set_published (fc_sha x) t)) c)
  | EvRemote id url => upd id (λ s, set_rec (set_repo (emptyToNil url)) (set_remote url s)) c
  end.

(** The sha the next commit gets. *)
Definition nextsha (c : Core) : string := hex_pad 40 (c_seq c + 1).

Definition live (c : Core) (id : uuid) (s : fakeSite) : Prop :=
  c_sites c !! id = Some s ∧ isLive s = true.
Definition handleFree (c : Core) (h : string) : Prop :=
  ∀ id s, live c id s → rec_Handle (fs_rec s) ≠ h.
Definition parentsOf (b : fakeBranch) : list string :=
  match tip b with Some p => [fc_sha p] | None => [] end.

Section events.
Context `{GoUnicode}.

Definition ev_ok (e : ev) (c : Core) : Prop :=
  match e with
  | EvNone => True
  | EvCreate id s =>
      c_sites c !! id = None ∧ isLive s = true ∧ rec_ID (fs_rec s) = id ∧
      ValidateHandle (rec_Handle (fs_rec s)) = Ok tt ∧
      handleFree c (rec_Handle (fs_rec s)) ∧
      c_redirects c !! rec_Handle (fs_rec s) = None ∧
      rec_PublishedSHA (fs_rec s) = None ∧
      ∃ x, fs_branches s = {[ BranchDraft := [x] ]} ∧ fc_sha x = nextsha c ∧ fc_parents x = []
  | EvRename id h t =>
      ∃ s, live c id s ∧ ValidateHandle h = Ok tt ∧ h ≠ rec_Handle (fs_rec s) ∧
           handleFree c h ∧ (∀ o, c_redirects c !! h = Some o → o = id)
  | EvDelete id t => ∃ s, live c id s
  | EvBranch id name b =>
      ∃ s b0 x, live c id s ∧ fs_branches s !! name = None ∧
        name ≠ BranchPublished ∧ name ≠ BranchDraft ∧ validateBranchName name = Ok tt ∧
        b0 ∈ map_to_list (fs_branches s) ∧ tip b0.2 = Some x ∧ b = commitsUpTo s (fc_sha x)
  | EvDropBranch id name =>
      ∃ s, live c id s ∧ is_Some (fs_branches s !! name) ∧
           name ≠ BranchPublished ∧ name ≠ BranchDraft
  | EvAppend id name b x t =>
      ∃ s, live c id s ∧ name ≠ BranchPublished ∧ name ≠ "" ∧
           b = default [] (fs_branches s !! name) ∧
           fc_sha x = nextsha c ∧ fc_parents x = parentsOf b
  | EvForward id from b x t =>
      ∃ s, live c id s ∧ from ≠ BranchPublished ∧ fs_branches s !! from = Some b ∧
           tip b = Some x ∧
           (∀ pub, fs_branches s !! BranchPublished = Some pub →
              isAncestor b (match tip pub with Some p => fc_sha p | None => "" end) = true)
  | EvMerge id b x t =>
      ∃ s, live c id s ∧ fs_branches s !! BranchPublished = Some b ∧ fc_sha x = nextsha c
  | EvRemote id url => ∃ s, live c id s
  end.

(** Which events a call may be: a failing or reading call is [EvNone]. *)
Definition allowed (k : call) (e : ev) : Prop :=
  match e with
  | EvNone => True
  | EvCreate id s => ∃ in_, k = CCreateSite id in_
  | EvRename id h t => ∃ h0, k = CRenameHandle id h0
  | EvDelete id t => ∃ a, k = CDeleteSite id a
  | EvBranch id name b => ∃ from, k = CCreateBranch id name from
  | EvDropBranch id name => k = CDeleteBranch id name
  | EvAppend id name b x t =>
      (∃ in_, k = CWriteFile in_ ∧ wf_SiteID in_ = id ∧ wf_Branch in_ = name) ∨
      (∃ p base a, k = CDeleteFile id name p base a) ∨
      (∃ src base a, k = CImportZip id name src base a) ∨
      (∃ to base a, k = CRollback id name to base a)
  | EvForward id from b x t => ∃ in_, k = CPublish in_ ∧ pb_SiteID in_ = id
  | EvMerge id b x t => ∃ in_, k = CPublish in_ ∧ pb_SiteID in_ = id
  | EvRemote id url => k = CSetRemote id url
  end.
End events.

(** ** What each call does

    [does k c e]: in state [c] the call [k] succeeds by performing exactly the
    event [e].  Nothing of the event is left open but the readings of the clock:
    the tree of a new commit, its parent, message and author, and the check of
    the base and of the path, are all fixed by the arguments and the state. *)

(** The commit made on [b] at time [w]. *)
Definition authored `{UUIDText} (c : Core) (b : fakeBranch) (t : tree) (actor : Actor) (msg : string) (w : time) :
    fakeCommit := {|
  fc_sha := nextsha c; fc_parents := parentsOf b; fc_message := msg;
  fc_author := actorName actor; fc_email := actorEmail actor; fc_via := actorVia actor;
  fc_when := w; fc_tree := t |}.

(** The branch is live, exists, and its tip is the base the caller named. *)
Definition basedOn (c : Core) (id : uuid) (n : string) (b : fakeBranch) (base : string) : Prop :=
  ∃ s x, live c id s ∧ fs_branches s !! n = Some b ∧ tip b = Some x ∧ fc_sha x = base ∧
         n ≠ BranchPublished ∧ n ≠ "" ∧ base ≠ "".
(** A branch an import may create: it takes no base. *)
Definition newBranch (c : Core) (id : uuid) (n : string) (b : fakeBranch) : Prop :=
  ∃ s, live c id s ∧ fs_branches s !! n = None ∧ n ≠ BranchPublished ∧ n ≠ "" ∧ b = [].
(** An archive that is in the branch already is no commit. *)
Definition sameTree (b : fakeBranch) (t : tree) : Prop := ∃ x, tip b = Some x ∧ fc_tree x = t.

Definition orDraft (from : string) : string := if (from =? "")%string then BranchDraft else from.
Definition tipSHA (b : fakeBranch) : string := match tip b with Some p => fc_sha p | None => "" end.

Section does.
Context `{GoUnicode} `{UUIDText}.

Definition writeGate (in_ : WriteFileInput) : Res err unit :=
  if (Via (wf_Actor in_) =? SourceMCP)%string then validateMCPWritePath (wf_Path in_)
  else validatePath (wf_Path in_).
Definition writeMessage (in_ : WriteFileInput) : string :=
  if (wf_Message in_ =? "")%string then "Update " +:+ wf_Path in_ else wf_Message in_.
Definition importMessage (src : ZipSource) : string :=
  if (zsrc_Filename src =? "")%string then "Import archive" else "Import " +:+ zsrc_Filename src.
Definition initialTree (in_ : CreateSiteInput) : Res err tree :=
  match cs_Zip in_ with
  | Some z => match readZip z with Ok es => Ok (entriesTree es) | Err e => Err e end
  | None => Ok {[ "index.html" := defaultIndexHTML (cs_Handle in_) ]}
  end.
Definition initialMessage (in_ : CreateSiteInput) : string :=
  match cs_Zip in_ with
  | Some z => if (zsrc_Filename z =? "")%string then "Initial commit" else "Import " +:+ zsrc_Filename z
  | None => "Initial commit"
  end.
Definition initialSite (c : Core) (id : uuid) (in_ : CreateSiteInput) (tr : tree) (t w : time) : fakeSite := {|
  fs_rec := newRecord id (to_lower (cs_Handle in_)) in_ t;
  fs_branches := {[ BranchDraft := [authored c [] tr (cs_Actor in_) (initialMessage in_) w] ]};
  fs_remote := cs_GitHubRepo in_ |}.
(** The merge of the tip [x] of [from] into the published branch. *)
Definition mergeCommit (c : Core) (in_ : PublishInput) (pub : fakeBranch) (x : fakeCommit) (w : time) :
    fakeCommit := {|
  fc_sha := nextsha c; fc_parents := [tipSHA pub; fc_sha x];
  fc_message := publishMergeMessage (orDraft (pb_From in_)) (fc_sha x) (pb_Message in_);
  fc_author := actorName (pb_Actor in_); fc_email := actorEmail (pb_Actor in_);
  fc_via := actorVia (pb_Actor in_); fc_when := w;
  fc_tree := mergeTrees (tipTree pub) (fc_tree x) |}.

(** Publishing [src], whose tip is [x], over what is published now. *)
Definition publishes (c : Core) (in_ : PublishInput) (s : fakeSite) (src : fakeBranch) (x : fakeCommit)
    (e : ev) : Prop :=
  match fs_branches s !! BranchPublished with
  | None => ∃ t, e = EvForward (pb_SiteID in_) (orDraft (pb_From in_)) src x t
  | Some pub =>
      if decide (tipSHA pub = fc_sha x) then e = EvNone
      else if isAncestor src (tipSHA pub)
      then ∃ t, e = EvForward (pb_SiteID in_) (orDraft (pb_From in_)) src x t
      else conflictingPaths (tipTree pub) (fc_tree x) (mergeBaseTree (Some pub) src) = [] ∧
           ∃ w t, e = EvMerge (pb_SiteID in_) pub (mergeCommit c in_ pub x w) t
  end.

Definition does (k : call) (c : Core) (e : ev) : Prop :=
  match k with
  | CCreateSite id in_ =>
      ValidateHandle (cs_Handle in_) = Ok tt ∧ handleFree c (to_lower (cs_Handle in_)) ∧
      c_redirects c !! to_lower (cs_Handle in_) = None ∧
      ∃ tr t w, initialTree in_ = Ok tr ∧ e = EvCreate id (initialSite c id in_ tr t w)
  | CRenameHandle id h =>
      ∃ s, live c id s ∧ ValidateHandle h = Ok tt ∧
        ((to_lower h = rec_Handle (fs_rec s) ∧ e = EvNone) ∨
         (to_lower h ≠ rec_Handle (fs_rec s) ∧ handleFree c (to_lower h) ∧
          (∀ o, c_redirects c !! to_lower h = Some o → o = id) ∧ ∃ t, e = EvRename id (to_lower h) t))
  | CDeleteSite id _ => ∃ s t, live c id s ∧ e = EvDelete id t
  | CCreateBranch id n from =>
      ∃ s src x, live c id s ∧ validateBranchName n = Ok tt ∧ n ≠ BranchPublished ∧ n ≠ BranchDraft ∧
        fs_branches s !! n = None ∧ fs_branches s !! orDraft from = Some src ∧ tip src = Some x ∧
        e = EvBranch id n (commitsUpTo s (fc_sha x))
  | CDeleteBranch id n =>
      ∃ s, live c id s ∧ is_Some (fs_branches s !! n) ∧ n ≠ BranchPublished ∧ n ≠ BranchDraft ∧
        e = EvDropBranch id n
  | CWriteFile in_ =>
      ∃ b w t, basedOn c (wf_SiteID in_) (wf_Branch in_) b (wf_BaseSHA in_) ∧ writeGate in_ = Ok tt ∧
        e = EvAppend (wf_SiteID in_) (wf_Branch in_) b
              (authored c b (<[wf_Path in_ := wf_Content in_]> (tipTree b)) (wf_Actor in_) (writeMessage in_) w) t
  | CDeleteFile id n p base a =>
      ∃ b w t, basedOn c id n b base ∧ validateReadPath p = Ok tt ∧ is_Some (tipTree b !! p) ∧
        e = EvAppend id n b (authored c b (delete p (tipTree b)) a ("Delete " +:+ p) w) t
  | CImportZip id n src base a =>
      ∃ es b w t, readZip src = Ok es ∧ (newBranch c id n b ∨ basedOn c id n b base) ∧
        ¬ sameTree b (entriesTree es) ∧
        e = EvAppend id n b (authored c b (entriesTree es) a (importMessage src) w) t
  | CRollback id n to base a =>
      ∃ b target w t, basedOn c id n b base ∧ to ≠ "" ∧ findCommit b to = Some target ∧
        e = EvAppend id n b (authored c b (fc_tree target) a ("Rollback to " +:+ shortSHA to) w) t
  | CPublish in_ =>
      ∃ s src x, live c (pb_SiteID in_) s ∧ orDraft (pb_From in_) ≠ BranchPublished ∧
        fs_branches s !! orDraft (pb_From in_) = Some src ∧ tip src = Some x ∧
        fc_sha x = pb_BaseSHA in_ ∧ pb_BaseSHA in_ ≠ "" ∧ publishes c in_ s src x e
  | CSetRemote id url => ∃ s, live c id s ∧ e = EvRemote id url
  | CCommit _ => False
  | _ => e = EvNone
  end.

(** The calls that may change the state; the others only read it. *)
Definition mutates (k : call) : bool :=
  match k with
  | CCreateSite _ _ | CRenameHandle _ _ | CDeleteSite _ _ | CCreateBranch _ _ _ | CDeleteBranch _ _
  | CWriteFile _ | CDeleteFile _ _ _ _ _ | CCommit _ | CImportZip _ _ _ _ _ | CPublish _
  | CRollback _ _ _ _ _ | CSetRemote _ _ => true
  | _ => false
  end.
End does.

(** ** Running the methods *)

Section running.
Context {S E : Type}.
Lemma lift_ok {A} (r : Res E A) (s s' : S) a : lift r s = (s', Ok a) → s' = s ∧ r = Ok a.
Proof. unfold lift. naive_solver. Qed.
Lemma want_ok {A} (o : option A) (e : E) (s s' : S) a :
  want o e s = (s', Ok a) → s' = s ∧ o = Some a.
Proof. unfold want. destruct o; naive_solver. Qed.
Lemma guard_ok b (e : E) (s s' : S) a : guard_not b e s = (s', Ok a) → s' = s ∧ b = false.
Proof. unfold guard_not. destruct b; naive_solver. Qed.
Lemma get_ok (s s' : S) a : @get S E s = (s', Ok a) → s' = s ∧ a = s.
Proof. unfold get. naive_solver. Qed.
Lemma ok_ok {A} (x a : A) (s s' : S) : @ok S E A x s = (s', Ok a) → s' = s ∧ a = x.
Proof. unfold ok. naive_solver. Qed.
Lemma modify_ok g (s s' : S) a : @modify S E g s = (s', Ok a) → s' = g s.
Proof. unfold modify. naive_solver. Qed.
End running.

Section fake_running.
Context `{GoUnicode} `{UUIDText}.
Context (clock : nat → time).

Lemma liveSite_ok id f f' s : liveSite id f = (f', Ok s) → f' = f ∧ live (core f) id s.
Proof.
  unfold liveSite, live. simpl. destruct (sites f !! id) as [t|]; [|naive_solver].
  destruct (isLive t) eqn:Ht; [|naive_solver]. intros [= <- <-]. done.
Qed.
Lemma liveSite_err id f f' e :
  liveSite id f = (f', Err e) → f' = f ∧ e = ESentinel ErrNotFound ∧ ∀ s, ¬ live (core f) id s.
Proof.
  unfold liveSite, live. simpl. destruct (sites f !! id) as [t|]; [|naive_solver].
  destruct (isLive t) eqn:Ht; naive_solver congruence.
Qed.
Lemma liveSite_live id f s : live (core f) id s → liveSite id f = (f, Ok s).
Proof. unfold liveSite, live. simpl. by intros [-> ->]. Qed.
Lemma now_ok f f' t : now clock f = (f', Ok t) → core f' = core f ∧ t = clock (ticks f).
Proof. unfold now. naive_solver. Qed.
Lemma failOnce_ok m f f' a : failOnce m f = (f', Ok a) → f' = f.
Proof. unfold failOnce. destruct (FailNext f !! m); naive_solver. Qed.

Lemma needBase_ok base r (f f' : FakeService) a :
  needBaseSHA base r f = (f', Ok a) → f' = f ∧ base ≠ "".
Proof. intros [-> Hb]%guard_ok. split; [done|]. by apply String.eqb_neq. Qed.

Lemma liveWithHandle_spec h s :
  liveWithHandle h s = true ↔ isLive s = true ∧ rec_Handle (fs_rec s) = h.
Proof. unfold liveWithHandle. by rewrite andb_true_iff, String.eqb_eq. Qed.
Lemma findLive_ok h f f' r :
  findLive h f = (f', Ok r) →
  f' = f ∧ match r with
           | Some s => ∃ id, live (core f) id s ∧ rec_Handle (fs_rec s) = h
           | None => handleFree (core f) h
           end.
Proof.
  unfold findLive. intros [= <- <-]. split; [done|].
  destruct (List.find _ _) as [s|] eqn:Hf.
  - apply find_some in Hf as [Hin [Hl Hh]%liveWithHandle_spec].
    apply list_elem_of_In, list_elem_of_fmap in Hin as ([id s'] & -> & Hin%elem_of_map_to_list).
    exists id. done.
  - intros id s [Hs Hl] Hh. simpl in Hs.
    assert (liveWithHandle h s = false) as Hno; [|by rewrite (proj2 (liveWithHandle_spec h s)) in Hno].
    apply (find_none _ _ Hf), list_elem_of_In, list_elem_of_fmap.
    exists (id, s). by rewrite elem_of_map_to_list.
Qed.
Lemma checkBaseSHA_ok b n base hint :
  checkBaseSHA b n base hint = Ok tt ↔ ∃ x, tip b = Some x ∧ fc_sha x = base.
Proof.
  unfold checkBaseSHA. destruct (tip b) as [x|]; [|naive_solver].
  destruct (String.eqb_spec (fc_sha x) base); naive_solver.
Qed.

(** The commit [commit] makes on [b] in state [f]. *)
Definition newCommit (f : FakeService) (b : fakeBranch) (t : tree) (actor : Actor) (msg : string) :
    fakeCommit := authored (core f) b t actor msg (clock (ticks f)).

Lemma commitOn_run id n b t a msg f :
  ∃ f' w, commitOn clock id n b t a msg f = (f', Ok (toCommitInfo (newCommit f b t a msg))) ∧
    core f' = apply_ev (EvAppend id n b (newCommit f b t a msg) w) (core f).
Proof.
  eexists _, _. split; [reflexivity|].
  unfold core; simpl. unfold bump, upd, core; simpl. f_equal.
  rewrite alter_alter_eq. by apply alter_ext.
Qed.
Lemma commitOn_ok id n b t a msg f f' ci :
  commitOn clock id n b t a msg f = (f', Ok ci) →
  ci = toCommitInfo (newCommit f b t a msg) ∧
  ∃ w, core f' = apply_ev (EvAppend id n b (newCommit f b t a msg) w) (core f).
Proof.
  destruct (commitOn_run id n b t a msg f) as (f1 & w & -> & Hc). intros [= <- <-]. eauto.
Qed.
Lemma commitOn_err id n b t a msg f f' e : commitOn clock id n b t a msg f ≠ (f', Err e).
Proof. destruct (commitOn_run id n b t a msg f) as (f1 & w & -> & _). done. Qed.
End fake_running.

(** Split a successful run into its primitive steps. *)
Ltac ok_step H :=
  lazymatch type of H with
  | bindM _ _ _ = (_, Ok _) =>
      let f1 := fresh "f" in let a := fresh "a" in let Hs := fresh "Hs" in
      apply bindM_ok_inv in H as (f1 & a & Hs & H); ok_prim Hs; cbv beta in H
  end
with ok_prim Hs :=
  lazymatch type of Hs with
  | lift _ _ = _ => apply lift_ok in Hs as [-> Hs]
  | want _ _ _ = _ => apply want_ok in Hs as [-> Hs]
  | guard_not _ _ _ = _ => apply guard_ok in Hs as [-> Hs]
  | needBaseSHA _ _ _ = _ => apply needBase_ok in Hs as [-> Hs]
  | get _ = _ => apply get_ok in Hs as [-> ->]
  | ok _ _ = _ => apply ok_ok in Hs as [-> ->]
  | liveSite _ _ = _ => apply liveSite_ok in Hs as [-> Hs]
  | findLive _ _ = _ => apply findLive_ok in Hs as [-> Hs]
  | failOnce _ _ = _ => apply failOnce_ok in Hs as ->
  | _ => idtac
  end.
Ltac ok_run H := repeat ok_step H.
