(* ===== verification/FakeRuns.v ===== *)
(** * Successful and failing runs of the in-memory service's methods

    One lemma per mutating method: what a successful run found in the state and
    the event it performed; and, for all methods, that a failing run changes
    nothing of the [core]. *)

From S2P Require Import Prelude GoStrings SiteErrors SiteTypes Handle SitePath Zip SiteTree.
From S2P Require Import FakeService FakeEvents.

(** A run that leaves the core alone, and one that does so when it fails. *)
Definition keeps {A} (m : M FakeService err A) : Prop := respects (λ f f', core f' = core f) m.
Definition fails_clean {A} (m : M FakeService err A) : Prop :=
  ∀ f f' e, m f = (f', Err e) → core f' = core f.

Create HintDb fake.

Section clean.
Lemma keeps_readonly {A} (m : M FakeService err A) : readonly m → keeps m.
Proof. intros Hm f f' r Hr. by apply Hm in Hr as ->. Qed.
Lemma keeps_bind {A B} (m : M FakeService err A) (k : A → M FakeService err B) :
  keeps m → (∀ a, keeps (k a)) → keeps (bindM m k).
Proof. intros Hm Hk. apply respects_bind; [|done|done]. by intros f g h -> ->. Qed.
Lemma clean_keeps {A} (m : M FakeService err A) : keeps m → fails_clean m.
Proof. intros Hm f f' e Hr. by eapply Hm. Qed.
Lemma clean_infallible {A} (m : M FakeService err A) : infallible m → fails_clean m.
Proof. intros Hm f f' e Hr. by destruct (Hm _ _ _ Hr). Qed.
Lemma clean_bind {A B} (m : M FakeService err A) (k : A → M FakeService err B) :
  keeps m → (∀ a, fails_clean (k a)) → fails_clean (bindM m k).
Proof.
  intros Hm Hk f f' e [Hr|(f1 & a & H1 & H2)]%bindM_err_inv.
  - by eapply Hm.
  - apply Hk in H2 as ->. by eapply Hm.
Qed.
Lemma clean_discard {A} (m : M FakeService err A) : fails_clean m → fails_clean (discard m).
Proof. intros Hm f f' e [Hr|(f1 & a & H1 & H2)]%bindM_err_inv; [by eapply Hm|done]. Qed.
Lemma keeps_discard {A} (m : M FakeService err A) : keeps m → keeps (discard m).
Proof. intros Hm. apply keeps_bind; [done|]. intros a. apply keeps_readonly, readonly_ok. Qed.
End clean.

Section prims.
Context `{GoUnicode} `{UUIDText}.
Context (clock : nat → time).

Lemma keeps_now : keeps (now clock).
Proof. intros f f' r [= <- <-]. done. Qed.
Lemma keeps_failOnce m : keeps (failOnce m).
Proof. intros f f' r. unfold failOnce. by destruct (FailNext f !! m); intros [= <- <-]. Qed.
Lemma readonly_liveSite id : readonly (liveSite id).
Proof.
  intros f f' r. unfold liveSite. destruct (sites f !! id) as [s|]; [destruct (isLive s)|]; naive_solver.
Qed.
Lemma readonly_findLive h : readonly (findLive h).
Proof. intros f f' r. unfold findLive. naive_solver. Qed.
Lemma readonly_needBase b r : readonly (needBaseSHA b r).
Proof. apply readonly_guard. Qed.
Lemma infallible_now : infallible (now clock).
Proof. by intros f f' e. Qed.
Lemma infallible_sha : infallible nextSHA.
Proof. by intros f f' e. Qed.
Lemma infallible_upd id g : infallible (updSite id g).
Proof. by intros f f' e. Qed.
Lemma infallible_putBranch id n b : infallible (putBranch id n b).
Proof. by intros f f' e. Qed.
Lemma infallible_commit b t a msg : infallible (commit clock b t a msg).
Proof. by intros f f' e. Qed.
Lemma infallible_setPublished id c : infallible (setPublished clock id c).
Proof. by intros f f' e. Qed.
Lemma infallible_commitOn id n b t a msg : infallible (commitOn clock id n b t a msg).
Proof. intros f f' e. apply commitOn_err. Qed.
End prims.

#[export] Hint Resolve keeps_now keeps_failOnce readonly_liveSite readonly_findLive readonly_needBase
  infallible_now infallible_sha infallible_upd infallible_putBranch infallible_commit
  infallible_setPublished infallible_commitOn : fake.
#[export] Hint Resolve readonly_ok readonly_fail readonly_get readonly_lift readonly_want
  readonly_guard readonly_bind infallible_ok infallible_get infallible_modify infallible_bind : fake.

(** Failing runs: peel off the steps that keep the core. *)
Ltac clean_step :=
  match goal with
  | |- fails_clean (discard _) => apply clean_discard
  | |- fails_clean _ => apply clean_infallible; solve [eauto 12 with fake]
  | |- fails_clean (bindM _ _) => apply clean_bind; [|intros ?]
  | |- fails_clean (match ?x with _ => _ end) => destruct x
  | |- fails_clean _ => apply clean_keeps
  | |- keeps _ => first [solve [auto with fake] | apply keeps_readonly; solve [eauto with fake]]
  | |- keeps (match ?x with _ => _ end) => destruct x
  end.
Ltac clean := repeat clean_step.

Section runs.
Context `{GoUnicode} `{UUIDText}.
Context (clock : nat → time).

Lemma ImportZip_clean id n src base a : fails_clean (ImportZip clock id n src base a).
Proof.
  unfold ImportZip. do 3 (apply clean_bind; [clean|intros ?]).
  destruct (fs_branches _ !! n) as [b|] eqn:Hb.
  - apply clean_bind; [clean|intros b']. clean.
  - apply clean_infallible. intros f f' e Hr. discriminate Hr.
Qed.

(** A failing call leaves the core as it was. *)
Lemma exec_clean k : fails_clean (exec clock k).
Proof.
  destruct k; simpl exec.
  - unfold CreateSite. clean.
  - unfold GetSite. clean.
  - unfold GetSiteByHandle. clean.
  - unfold ListSites. clean.
  - unfold RenameHandle. clean.
  - unfold DeleteSite. clean.
  - unfold ListBranches. clean.
  - unfold CreateBranch. clean.
  - unfold DeleteBranch. clean.
  - unfold ListFiles. clean.
  - unfold ReadFile. clean.
  - unfold WriteFile. clean.
  - unfold DeleteFile. clean.
  - unfold Commit. clean.
  - apply clean_discard, ImportZip_clean.
  - unfold Publish. clean.
  - unfold GetDiff. clean.
  - unfold GetLog. clean.
  - unfold Rollback. clean.
  - unfold ServedTree. clean.
  - unfold ResolveForServing. clean.
  - unfold SetRemote. clean.
  - unfold MirrorPush. clean.
  - unfold FetchAndUpdate. clean.
Qed.
End runs.

(** ** Successful runs *)

Section ok_runs.
Context `{GoUnicode} `{UUIDText}.
Context (clock : nat → time).

Lemma refuse_ok n : refuseProtectedBranch n = Ok tt → n ≠ BranchPublished ∧ n ≠ "".
Proof.
  unfold refuseProtectedBranch. destruct (String.eqb_spec n "published"); [done|].
  destruct (String.eqb_spec n ""); done.
Qed.

(** [ci] is the commit made on top of [b], now the history of branch [n]. *)
Definition appends (f f' : FakeService) (id : uuid) (n : string) (b : fakeBranch) (t : tree)
    (a : Actor) (msg : string) (ci : CommitInfo) : Prop :=
  ci = toCommitInfo (newCommit clock f b t a msg) ∧
  ∃ w, core f' = apply_ev (EvAppend id n b (newCommit clock f b t a msg) w) (core f).

Definition onBase (f : FakeService) (id : uuid) (n : string) (b : fakeBranch) (base : string) : Prop :=
  basedOn (core f) id n b base.

Lemma WriteFile_ok in_ f f' ci :
  WriteFile clock in_ f = (f', Ok ci) →
  ∃ b, onBase f (wf_SiteID in_) (wf_Branch in_) b (wf_BaseSHA in_) ∧ writeGate in_ = Ok tt ∧
    appends f f' (wf_SiteID in_) (wf_Branch in_) b (<[wf_Path in_ := wf_Content in_]> (tipTree b))
      (wf_Actor in_) (writeMessage in_) ci.
Proof.
  unfold WriteFile. intros Hr. ok_run Hr. destruct a.
  apply refuse_ok in Hs as [??]. destruct a0.
  destruct a4. apply checkBaseSHA_ok in Hs4 as (x & ? & ?).
  apply commitOn_ok in Hr as (-> & w & Hc).
  eexists. split; [by exists a2, x|]. split; [done|]. split; [done|]. by exists w.
Qed.

Lemma DeleteFile_ok id n p base a f f' ci :
  DeleteFile clock id n p base a f = (f', Ok ci) →
  ∃ b, onBase f id n b base ∧ validateReadPath p = Ok tt ∧ is_Some (tipTree b !! p) ∧
    appends f f' id n b (delete p (tipTree b)) a ("Delete " +:+ p) ci.
Proof.
  unfold DeleteFile. intros Hr. ok_run Hr. destruct a0.
  apply refuse_ok in Hs as [??]. destruct a1.
  destruct a5. apply checkBaseSHA_ok in Hs4 as (x & ? & ?).
  apply commitOn_ok in Hr as (-> & w & Hc).
  eexists. split; [by exists a3, x|]. split; [done|]. split; [by eexists|]. split; [done|]. by exists w.
Qed.

Lemma Rollback_ok id n to base a f f' ci :
  Rollback clock id n to base a f = (f', Ok ci) →
  ∃ b target, onBase f id n b base ∧ to ≠ "" ∧ findCommit b to = Some target ∧
    appends f f' id n b (fc_tree target) a ("Rollback to " +:+ shortSHA to) ci.
Proof.
  unfold Rollback. intros Hr. ok_run Hr. destruct a0.
  apply refuse_ok in Hs as [??].
  destruct a5. apply checkBaseSHA_ok in Hs4 as (x & ? & ?).
  apply commitOn_ok in Hr as (-> & w & Hc).
  apply String.eqb_neq in Hs1.
  eexists _, _. split; [by exists a3, x|]. split; [done|]. split; [done|]. split; [done|]. by exists w.
Qed.

Lemma ImportZip_ok id n src base a f f' ci :
ImportZip clock id n src base a f = (f', Ok ci) →
  ∃ s es b, live (core f) id s ∧ n ≠ BranchPublished ∧ n ≠ "" ∧ readZip src = Ok es ∧
    b = default [] (fs_branches s !! n) ∧
    (fs_branches s !! n = None ∨ onBase f id n b base) ∧
    (∀ x, tip b = Some x → fc_tree x ≠ entriesTree es) ∧
    appends f f' id n b (entriesTree es) a (importMessage src) ci.
Proof.
  unfold ImportZip. intros Hr. ok_step Hr. destruct a0. apply refuse_ok in Hs as [??].
  do 2 ok_step Hr. destruct (fs_branches a1 !! n) as [b|] eqn:Hb; ok_step Hr.
  - ok_run Hs1. ok_prim Hs1. destruct a4. apply checkBaseSHA_ok in Hs3 as (x & Hx & ?).
    ok_step Hr. apply commitOn_ok in Hr as (-> & w & Hc).
    exists a1, a0, b. split_and!; [done..|by rewrite Hb|right; by exists a1, x| |].
    + intros y Hy Heq. rewrite Hy in Hs1. apply not_true_iff_false in Hs1.
      by apply Hs1, treesEqual_spec.
    + split; [done|]. by exists w.
  - ok_step Hs1. injection Hs2 as <- <-. ok_prim Hs1. ok_step Hr.
    apply commitOn_ok in Hr as (-> & w & Hc).
    exists a1, a0, []. rewrite Hb. split_and!; [done..|by left|done|].
    split; [done|]. exists w. rewrite Hc. unfold apply_ev, bump, upd, core; simpl. f_equal.
    rewrite alter_alter_eq. apply alter_ext. intros s' Hs'. unfold put, set_branches, set_rec. simpl.
    by rewrite insert_insert_eq.
Qed.

(** What a successful publish of [src] (tip [x]) did. *)
Inductive publish_outcome (f f' : FakeService) (in_ : PublishInput) (s : fakeSite) (from : string)
  (src : fakeBranch) (x : fakeCommit) (ci : CommitInfo) : Prop :=
| PubIdempotent pub y :
  fs_branches s !! BranchPublished = Some pub → tip pub = Some y → fc_sha y = fc_sha x →
  ci = toCommitInfo y → core f' = core f → publish_outcome f f' in_ s from src x ci
| PubForward t :
  (∀ pub, fs_branches s !! BranchPublished = Some pub → tipSHA pub ≠ fc_sha x) →
  (∀ pub, fs_branches s !! BranchPublished = Some pub →
     isAncestor src (tipSHA pub) = true) →
  ci = toCommitInfo x → core f' = apply_ev (EvForward (pb_SiteID in_) from src x t) (core f) →
  publish_outcome f f' in_ s from src x ci
| PubMerge pub mc t :
  fs_branches s !! BranchPublished = Some pub → tipSHA pub ≠ fc_sha x →
  isAncestor src (tipSHA pub) = false →
  conflictingPaths (tipTree pub) (fc_tree x) (mergeBaseTree (Some pub) src) = [] →
  (∃ w, mc = mergeCommit (core f) in_ pub x w) →
  ci = toCommitInfo mc → core f' = apply_ev (EvMerge (pb_SiteID in_) pub mc t) (core f) →
  publish_outcome f f' in_ s from src x ci.

Lemma forward_run id from b x f :
  ∃ f' t, bindM (putBranch id BranchPublished b) (λ _, bindM (setPublished clock id x)
            (λ _, ok (toCommitInfo x))) f = (f', Ok (toCommitInfo x)) ∧
          core f' = apply_ev (EvForward id from b x t) (core f).
Proof.
  eexists _, _. split; [reflexivity|]. unfold apply_ev, upd, core. simpl. f_equal.
  rewrite alter_alter_eq. by apply alter_ext.
Qed.

Lemma Publish_ok in_ f f' ci :
  Publish clock in_ f = (f', Ok ci) →
  ∃ s src x, live (core f) (pb_SiteID in_) s ∧
    (let from := if (pb_From in_ =? "")%string then BranchDraft else pb_From in_ in
     from ≠ BranchPublished ∧ fs_branches s !! from = Some src ∧ tip src = Some x ∧
     fc_sha x = pb_BaseSHA in_ ∧ pb_BaseSHA in_ ≠ "" ∧
     publish_outcome f f' in_ s from src x ci).
Proof.
  unfold Publish. set (from := if (pb_From in_ =? "")%string then BranchDraft else pb_From in_).
  intros Hr. do 6 ok_step Hr. apply String.eqb_neq in Hs.
  apply negb_false_iff, String.eqb_eq in Hs4. exists a1, a2, a3. simpl. split_and!; try done.
  assert (∀ f0, bindM (putBranch (pb_SiteID in_) BranchPublished a2)
    (λ _, bindM (setPublished clock (pb_SiteID in_) a3) (λ _, ok (toCommitInfo a3))) f0 = (f', Ok ci) →
    ci = toCommitInfo a3 ∧
    ∃ t, core f' = apply_ev (EvForward (pb_SiteID in_) from a2 a3 t) (core f0)) as Hfwd.
  { intros f0 Hr0. destruct (forward_run (pb_SiteID in_) from a2 a3 f0) as (f1 & t & Hrun & Hc).
    rewrite Hrun in Hr0. simplify_eq. eauto. }
  destruct (fs_branches a1 !! BranchPublished) as [pub|] eqn:Hpub.
  2: { apply Hfwd in Hr as [-> [t Hc]]. by eapply PubForward; [rewrite Hpub..| |]. }
  destruct (String.eqb_spec (match tip pub with Some c => fc_sha c | None => "" end) (fc_sha a3))
    as [Heq|Hne].
  { destruct (tip pub) as [y|] eqn:Hy; [|by rewrite <-Hs4, <-Heq in Hs0].
    ok_prim Hr. by eapply PubIdempotent. }
  destruct (isAncestor a2 _) eqn:Hanc.
  { apply Hfwd in Hr as [-> [t Hc]]. eapply PubForward; [| |done|done]; by rewrite Hpub; intros ? [= <-]. }
  ok_step Hr. destruct (conflictingPaths _ _ _) eqn:Hconf; [|done].
  do 2 ok_step Hr. injection Hs6 as <- <-. injection Hs7 as <- <-. clear Hfwd.
  match type of Hr with context [putBranch _ _ (pub ++ [?c])] => set (mc := c) in Hr end.
  injection Hr as <- <-.
  apply (PubMerge f _ in_ a1 from a2 a3 _ pub mc (clock (S (ticks f)))); try done; [by eexists|].
  unfold apply_ev, bump, upd, core. simpl. f_equal. rewrite alter_alter_eq. by apply alter_ext.
Qed.

Lemma CreateSite_ok newID in_ f f' r :
  CreateSite clock newID in_ f = (f', Ok r) →
  ∃ tr t w, ValidateHandle (cs_Handle in_) = Ok tt ∧
    handleFree (core f) (to_lower (cs_Handle in_)) ∧
    redirects f !! to_lower (cs_Handle in_) = None ∧
    initialTree in_ = Ok tr ∧
    r = toSite (newRecord newID (to_lower (cs_Handle in_)) in_ t) ∧
    core f' = apply_ev (EvCreate newID (initialSite (core f) newID in_ tr t w)) (core f).
Proof.
  unfold CreateSite. intros Hr. do 6 ok_step Hr. destruct a.
  apply bool_decide_eq_false in Hs1. apply bool_decide_eq_false in Hs2.
  apply eq_None_not_Some in Hs2. destruct a1 as [?|]; [by destruct Hs1|].
  ok_step Hr. apply now_ok in Hs3 as [Hcore ->].
  match type of Hcore with core ?g = _ => rename g into f0 end.
  apply bindM_ok_inv in Hr as (f9 & tr & Ht & Hr).
  assert (f9 = f0 ∧ initialTree in_ = Ok tr) as [-> Htr].
  { unfold initialTree. destruct (cs_Zip in_); [ok_run Ht|]; ok_prim Ht; [by rewrite Hs3|done]. }
  injection Hr as <- <-. assert (seqno f0 = seqno f) as Hseq by (by injection Hcore).
  assert (sites f0 = sites f) as Hsites by (by injection Hcore).
  assert (redirects f0 = redirects f) as Hred by (by injection Hcore).
  eexists tr, (clock (ticks f)), (clock (ticks f0)). split_and!; try done.
  unfold core, bump, initialSite, authored, nextsha. simpl. by rewrite Hsites, Hred, Hseq.
Qed.

Lemma RenameHandle_ok id h f f' r :
  RenameHandle clock id h f = (f', Ok r) →
  ∃ s, live (core f) id s ∧ ValidateHandle h = Ok tt ∧
    ((to_lower h = rec_Handle (fs_rec s) ∧ core f' = core f ∧ r = toSite (fs_rec s)) ∨
     ∃ t, to_lower h ≠ rec_Handle (fs_rec s) ∧ handleFree (core f) (to_lower h) ∧
       (∀ o, redirects f !! to_lower h = Some o → o = id) ∧
       core f' = apply_ev (EvRename id (to_lower h) t) (core f) ∧
       r = toSite (set_handle (to_lower h) t (fs_rec s))).
Proof.
  unfold RenameHandle. intros Hr. do 2 ok_step Hr. destruct a. exists a0. split; [done|]. split; [done|].
  destruct (String.eqb_spec (to_lower h) (rec_Handle (fs_rec a0))).
  { ok_prim Hr. by left. }
  right. do 4 ok_step Hr. apply bool_decide_eq_false in Hs2.
  ok_step Hr. injection Hs4 as <- <-. injection Hr as <- <-.
  exists (clock (ticks f)). split_and!; [done| | | |done].
  - destruct a; [by destruct Hs2|done].
  - intros o Ho. destruct (redirects f !! to_lower h) as [o'|] eqn:Ho'; [|done].
    injection Ho as ->. by apply negb_false_iff, N.eqb_eq in Hs3.
  - destruct Hs0 as [Hl _]. simpl in Hl. unfold core, apply_ev. simpl. by rewrite Hl.
Qed.

Lemma CreateBranch_ok id name from f f' br :
CreateBranch id name from f = (f', Ok br) →
  ∃ s src x, live (core f) id s ∧ validateBranchName name = Ok tt ∧ name ≠ BranchPublished ∧
    name ≠ BranchDraft ∧ fs_branches s !! name = None ∧
    fs_branches s !! (if (from =? "")%string then BranchDraft else from) = Some src ∧
    tip src = Some x ∧ br = toBranch s name x false ∧
    core f' = apply_ev (EvBranch id name (commitsUpTo s (fc_sha x))) (core f).
Proof.
  unfold CreateBranch. intros Hr. do 5 ok_step Hr. destruct a. ok_step Hr. injection Hs4 as <- <-.
  ok_prim Hr. apply orb_false_iff in Hs0 as [H1%String.eqb_neq H2%String.eqb_neq].
  apply bool_decide_eq_false in Hs2. apply eq_None_not_Some in Hs2.
  unfold resolveRef in Hs3. apply bind_Some in Hs3 as (src & Hsrc & Hx).
  by exists a1, src, a3.
Qed.
End ok_runs.

(** ** Every call is one event *)

Section refines.
Context `{GoUnicode} `{UUIDText}.
Context (clock : nat → time).

(** uuid.New does not return an id in use. *)
Definition fresh_call (k : call) (f : FakeService) : Prop :=
  match k with CCreateSite newID _ => sites f !! newID = None | _ => True end.

Lemma ValidateHandle_lower h : ValidateHandle h = Ok tt → to_lower h = h.
Proof. intros (_ & (_ & Hc & _) & _)%validateHandleLen_ok. by apply label_is_lower. Qed.

Lemma discard_ok {A} (m : M FakeService err A) f f' u :
  discard m f = (f', Ok u) → ∃ a, m f = (f', Ok a).
Proof. unfold discard. intros Hr. ok_step Hr. ok_prim Hr. eauto. Qed.

Definition refined (k : call) (f f' : FakeService) : Prop :=
  ∃ e, allowed k e ∧ ev_ok e (core f) ∧ does k (core f) e ∧ core f' = apply_ev e (core f).

Lemma refined_none k f f' : does k (core f) EvNone → core f' = core f → refined k f f'.
Proof. intros Hd Hc. by exists EvNone. Qed.

Lemma refined_append k f f' id n b t a msg ci :
  (∀ x w, allowed k (EvAppend id n b x w)) →
  newBranch (core f) id n b ∨ (∃ base, basedOn (core f) id n b base) →
  (∀ w t', does k (core f) (EvAppend id n b (authored (core f) b t a msg w) t')) →
  appends clock f f' id n b t a msg ci → refined k f f'.
Proof.
  intros Hk Hb Hd (_ & w & Hc). eexists. split_and!; [apply Hk| |apply Hd|exact Hc].
  destruct Hb as [(s & ? & Hn & ? & ? & ->)|(base & s & x & ? & Hn & ? & ? & ? & ? & ?)];
    exists s; by rewrite Hn.
Qed.

Lemma create_refines id in_ f f' :
  sites f !! id = None → (∃ r, CreateSite clock id in_ f = (f', Ok r)) →
  refined (CCreateSite id in_) f f'.
Proof.
  intros Hfresh (r & (tr & t & w & Hv & Hfree & Hred & Htr & _ & Hc)%CreateSite_ok).
  eexists. split; [|split; [|split; [|exact Hc]]]; [by exists in_| |].
  - pose proof (ValidateHandle_lower _ Hv) as Hl. simpl. rewrite Hl in *. split_and!; try done. by eexists.
  - split_and!; [done..|]. by exists tr, t, w.
Qed.
Lemma rename_refines id h f f' :
  (∃ r, RenameHandle clock id h f = (f', Ok r)) → refined (CRenameHandle id h) f f'.
Proof.
  intros (r & (s & Hs & Hv & [(Heq & Hc & _)|(t & Hne & Hfree & Hred & Hc & _)])%RenameHandle_ok).
  { apply refined_none; [|done]. exists s. split_and!; [done..|by left]. }
  exists (EvRename id (to_lower h) t). split; [by exists h|]. split; [|split; [|done]]; exists s.
  - by rewrite (ValidateHandle_lower _ Hv) in *.
  - split_and!; [done..|right]. split_and!; [done..|by eexists].
Qed.
Lemma publish_refines in_ f f' :
  (∃ ci, Publish clock in_ f = (f', Ok ci)) → refined (CPublish in_) f f'.
Proof.
  intros (ci & (s & src & x & Hs & Hne & Hsrc & Htip & Hsha & Hbase & Hout)%Publish_ok).
  assert (∀ e, publishes (core f) in_ s src x e → does (CPublish in_) (core f) e) as Hdoes.
  { intros e He. by exists s, src, x. }
  unfold publishes in Hdoes.
  destruct Hout as [pub y Hpub Hy Heq ? Hc|t Hne' Hanc ? Hc|pub mc t Hpub Hne' Hanc Hcf [w ->] ? Hc].
  - apply refined_none; [|done]. apply Hdoes. rewrite Hpub, decide_True; [done|]. unfold tipSHA. by rewrite Hy.
  - eexists. split; [|split; [|split; [|exact Hc]]]; [by exists in_|by exists s|apply Hdoes].
    destruct (fs_branches s !! BranchPublished) as [pub|]; [|by eexists].
    rewrite decide_False, (Hanc pub) by auto. by eexists.
  - eexists. split; [|split; [|split; [|exact Hc]]]; [by exists in_|by exists s|apply Hdoes].
    rewrite Hpub, decide_False, Hanc by done. split; [done|]. by eexists _, _.
Qed.
Lemma branch_refines id n from f f' :
  (∃ br, CreateBranch id n from f = (f', Ok br)) → refined (CCreateBranch id n from) f f'.
Proof.
  intros (br & (s & src & x & Hs & Hv & Hn1 & Hn2 & Hn & Hsrc & Hx & _ & Hc)%CreateBranch_ok).
  eexists. split; [|split; [|split; [|exact Hc]]]; [by exists from| |by exists s, src, x].
  exists s, (orDraft from, src), x. by rewrite elem_of_map_to_list.
Qed.
Lemma import_refines id n src base a f f' :
  (∃ ci, ImportZip clock id n src base a f = (f', Ok ci)) → refined (CImportZip id n src base a) f f'.
Proof.
  intros (ci & (s & es & b & Hs & Hn & Hn' & Hz & Hb & Hon & Hne & Ha)%ImportZip_ok).
  assert (newBranch (core f) id n b ∨ basedOn (core f) id n b base) as Hbr.
  { destruct Hon as [Hnone|Hon]; [left|by right]. exists s. by rewrite Hb, Hnone. }
  eapply refined_append; [| | |exact Ha].
  - intros x w. do 2 right; left. by eexists _, _, _.
  - destruct Hbr; [by left|right; by eexists].
  - intros w t. exists es, b, w, t. split_and!; [done..| |done]. intros (x & Hx & Heq). by eapply Hne.
Qed.

(** A successful call did what its arguments and the state say. *)
Lemma exec_does k f f' :
  fresh_call k f → exec clock k f = (f', Ok tt) → refined k f f'.
Proof.
  intros Hfresh Hr. destruct k; simpl in Hr;
    try (apply discard_ok in Hr);
    try (destruct Hr as [a Hr]; apply refined_none; [reflexivity|];
         match type of Hr with ?m _ = _ => assert (keeps m) as Hk; [|by eapply Hk] end;
         unfold GetSite, GetSiteByHandle, ListSites, ListBranches, ListFiles, ReadFile, GetDiff,
           GetLog, ServedTree, ResolveForServing, FetchAndUpdate;
         apply keeps_readonly; repeat (apply readonly_bind; [solve [auto with fake]|intros ?]);
         try (match goal with |- readonly (match ?x with _ => _ end) => destruct x end);
         solve [auto with fake]).
  - by apply create_refines.
  - by apply rename_refines.
  - unfold DeleteSite in Hr. do 2 ok_step Hr. apply now_ok in Hs0 as [Hc _].
    injection Hr as <-. eexists (EvDelete id _). split; [by eexists|]. split; [by eexists|].
    split; [by eexists _, _|]. unfold core, upd in *. injection Hc as Hc1 Hc2 Hc3. simpl. by rewrite Hc1, Hc2, Hc3.
  - by apply branch_refines.
  - unfold DeleteBranch in Hr. do 3 ok_step Hr. injection Hr as <-.
    apply orb_false_iff in Hs as [H1%String.eqb_neq H2%String.eqb_neq].
    exists (EvDropBranch id name). split; [done|]. split; [by exists a0|]. split; [|done]. by exists a0.
  - destruct Hr as (ci & (b & Hb & Hg & Ha)%WriteFile_ok). eapply refined_append; [|right; by eexists| |done].
    + intros x w. left. by exists in_.
    + intros w t. by exists b, w, t.
  - destruct Hr as (ci & (b & Hb & Hg & Hin & Ha)%DeleteFile_ok). eapply refined_append; [|right; by eexists| |done].
    + intros x w. right; left. by eexists _, _, _.
    + intros w t. by exists b, w, t.
  - destruct Hr as (ci & Hr). unfold Commit in Hr. ok_run Hr. discriminate Hr.
  - by apply import_refines.
  - by apply publish_refines.
  - destruct Hr as (ci & (b & x & Hb & Hto & Hx & Ha)%Rollback_ok). eapply refined_append; [|right; by eexists| |done].
    + intros y w. do 3 right. by eexists _, _, _.
    + intros w t. by exists b, x, w, t.
  - unfold SetRemote in Hr. ok_step Hr. injection Hr as <-. exists (EvRemote id url).
    split; [done|]. split; [by eexists|]. split; [by eexists|done].
  - apply refined_none; [done|]. unfold MirrorPush in Hr. ok_step Hr. ok_prim Hr. done.
Qed.

Lemma exec_refines k f f' r :
  fresh_call k f → exec clock k f = (f', r) →
  ∃ e, allowed k e ∧ ev_ok e (core f) ∧ core f' = apply_ev e (core f).
Proof.
  intros Hfresh Hr. destruct r as [[]|e]; [|apply exec_clean in Hr; by exists EvNone].
  apply exec_does in Hr as (e & ? & ? & _ & ?); [by exists e|done].
Qed.

(** *** Refusals

    The other direction: a call whose step exists is not refused. *)

Ltac commits :=
  match goal with |- context [commitOn ?c ?i ?n ?b ?t ?a ?m ?f] =>
    by destruct (commitOn_run c i n b t a m f) as (? & ? & -> & _) end.
Ltac enter := unfold discard, needBaseSHA, bindM, lift, guard_not, want, get, ok.

Lemma refuse_no n : n ≠ BranchPublished → n ≠ "" → refuseProtectedBranch n = Ok tt.
Proof. unfold refuseProtectedBranch, BranchPublished. by intros ->%String.eqb_neq ->%String.eqb_neq. Qed.
Lemma findLive_free f h : handleFree (core f) h → findLive h f = (f, Ok None).
Proof.
  intros Hfree. destruct (findLive h f) as [f1 [[s|]|e]] eqn:Hf; [|by apply findLive_ok in Hf as [-> _]|done].
  apply findLive_ok in Hf as [_ (id & Hs & Hh)]. by destruct (Hfree id s Hs).
Qed.
Lemma basedOn_steps f id n b base :
  basedOn (core f) id n b base →
  ∃ s, refuseProtectedBranch n = Ok tt ∧ (base =? "")%string = false ∧ liveSite id f = (f, Ok s) ∧
       fs_branches s !! n = Some b ∧ ∀ hint, checkBaseSHA b n base hint = Ok tt.
Proof.
  intros (s & x & Hs & Hb & Hx & Hsha & Hn & Hn' & Hbase). exists s.
  split_and!; [by apply refuse_no|by apply String.eqb_neq|by apply liveSite_live|done|].
  intros hint. apply checkBaseSHA_ok. by exists x.
Qed.

(** The call succeeds in [f]. *)
Definition accepted (k : call) (f : FakeService) : Prop := snd (exec clock k f) = Ok tt.

Lemma write_accepted in_ f e : does (CWriteFile in_) (core f) e → accepted (CWriteFile in_) f.
Proof.
  intros (b & w & t & (s & Hr & Hb & Hl & Hs & Hc)%basedOn_steps & Hg & _).
  unfold accepted. simpl. unfold WriteFile. fold (writeGate in_). enter. rewrite Hr, Hg, Hb, Hl, Hs, Hc.
  commits.
Qed.
Lemma delete_accepted id n p base a f e :
  does (CDeleteFile id n p base a) (core f) e → accepted (CDeleteFile id n p base a) f.
Proof.
  intros (b & w & t & (s & Hr & Hb & Hl & Hs & Hc)%basedOn_steps & Hg & [v Hv] & _).
  unfold accepted. simpl. unfold DeleteFile. enter. rewrite Hr, Hg, Hb, Hl, Hs, Hc, Hv.
  commits.
Qed.
Lemma rollback_accepted id n to base a f e :
  does (CRollback id n to base a) (core f) e → accepted (CRollback id n to base a) f.
Proof.
  intros (b & x & w & t & (s & Hr & Hb & Hl & Hs & Hc)%basedOn_steps & Hto%String.eqb_neq & Hx & _).
  unfold accepted. simpl. unfold Rollback. enter. rewrite Hr, Hb, Hto, Hl, Hs, Hc, Hx.
  commits.
Qed.
Lemma not_sameTree b t :
  ¬ sameTree b t → match tip b with Some x => treesEqual (fc_tree x) t | None => false end = false.
Proof.
  intros Hne. destruct (tip b) as [x|] eqn:Hx; [|done]. apply not_true_iff_false.
  intros Heq%treesEqual_spec. destruct Hne. by exists x.
Qed.
Lemma import_accepted id n src base a f e :
  does (CImportZip id n src base a) (core f) e → accepted (CImportZip id n src base a) f.
Proof.
  intros (es & b & w & t & Hz & Hb & Hne%not_sameTree & _). unfold accepted. simpl. unfold ImportZip.
  destruct Hb as [(s & Hl%liveSite_live & Hs & Hn & Hn' & ->)|(s & Hr & Hb & Hl & Hs & Hc)%basedOn_steps]; enter.
  - rewrite (refuse_no n), Hz, Hl, Hs by done. reflexivity.
  - rewrite Hr, Hz, Hl, Hs, Hb, Hc, Hne.
    commits.
Qed.
Lemma publish_accepted in_ f e : does (CPublish in_) (core f) e → accepted (CPublish in_) f.
Proof.
  intros (s & src & x & Hl%liveSite_live & Hfrom & Hsrc & Hx & Hsha & Hbase%String.eqb_neq & Hp).
  unfold accepted. simpl. unfold Publish. cbv zeta. fold (orDraft (pb_From in_)).
  apply String.eqb_neq in Hfrom. enter. rewrite Hfrom, Hbase, Hl, Hsrc, Hx, Hsha, String.eqb_refl. simpl.
  unfold publishes in Hp. destruct (fs_branches s !! BranchPublished) as [pub|]; [|done].
  fold (tipSHA pub). destruct (decide (tipSHA pub = fc_sha x)) as [Heq|Hne].
  - by rewrite <-Hsha, Heq, String.eqb_refl.
  - rewrite <-Hsha. apply String.eqb_neq in Hne. rewrite Hne. destruct (isAncestor src (tipSHA pub)); [done|].
    destruct Hp as [-> _]. done.
Qed.
Lemma create_accepted id in_ f e :
  FailNext f !! "CreateSite" = None → does (CCreateSite id in_) (core f) e → accepted (CCreateSite id in_) f.
Proof.
  intros Hq (Hv & Hfree & Hred & tr & t & w & Htr & _). unfold accepted. simpl. unfold CreateSite, failOnce.
  enter. simpl in Hred. rewrite Hv, Hq, (findLive_free _ _ Hfree). simpl. rewrite Hred. simpl.
  unfold initialTree in Htr. destruct (cs_Zip in_) as [z|]; [|done]. by destruct (readZip z).
Qed.
Lemma rename_accepted id h f e : does (CRenameHandle id h) (core f) e → accepted (CRenameHandle id h) f.
Proof.
  intros (s & Hl%liveSite_live & Hv & Hcase). unfold accepted. simpl. unfold RenameHandle. enter. rewrite Hv, Hl.
  destruct Hcase as [[-> _]|(Hne%String.eqb_neq & Hfree & Hred & _)]; [by rewrite String.eqb_refl|].
  rewrite Hne, (findLive_free _ _ Hfree). simpl. simpl in Hred.
  destruct (redirects f !! to_lower h) as [o|]; [|done]. rewrite (Hred o) by done. by rewrite N.eqb_refl.
Qed.
Lemma branch_accepted id n from f e :
  does (CCreateBranch id n from) (core f) e → accepted (CCreateBranch id n from) f.
Proof.
  intros (s & src & x & Hl%liveSite_live & Hv & Hn1%String.eqb_neq & Hn2%String.eqb_neq & Hn & Hsrc & Hx & _).
  unfold accepted. simpl. unfold CreateBranch. cbv zeta. fold (orDraft from). enter. rewrite Hv, Hn1, Hn2, Hl, Hn. simpl.
  unfold resolveRef. rewrite Hsrc. simpl. by rewrite Hx.
Qed.

Lemma does_accepted k f e :
  mutates k = true → FailNext f !! "CreateSite" = None → does k (core f) e → accepted k f.
Proof.
  destruct k; try done; intros _ Hq.
  - by apply create_accepted.
  - by apply rename_accepted.
  - intros (s & t & Hl%liveSite_live & _). unfold accepted. simpl. unfold DeleteSite. enter. by rewrite Hl.
  - by apply branch_accepted.
  - intros (s & Hl%liveSite_live & [b Hb] & Hn1%String.eqb_neq & Hn2%String.eqb_neq & _).
    unfold accepted. simpl. unfold DeleteBranch. enter. by rewrite Hn1, Hn2, Hl, Hb.
  - by apply write_accepted.
  - by apply delete_accepted.
  - by apply import_accepted.
  - by apply publish_accepted.
  - by apply rollback_accepted.
  - intros (s & Hl%liveSite_live & _). unfold accepted. simpl. unfold SetRemote. enter. by rewrite Hl.
Qed.
End refines.
