(* ===== verification/FakeFacts.v ===== *)
(** * What the in-memory site service guarantees

    The invariant [wf] of every reachable state, proved once for the events of
    FakeEvents.v, and what follows: histories are append-only and only Publish
    moves the published branch, no update is lost, what is written is read
    back, publishing and rolling back do what they say, and the places where
    Go's map iteration order could show do not. *)

From S2P Require Import Prelude GoStrings SiteErrors SiteTypes Handle SitePath Zip SiteTree.
From S2P Require Import FakeService FakeEvents FakeRuns.

(** ** The invariant *)

(** A sha occurring in two logs of a site has the same history in both. *)
Definition prefix_consistent (m : gmap string fakeBranch) : Prop :=
  ∀ n1 n2 b1 b2 i j x y,
    m !! n1 = Some b1 → m !! n2 = Some b2 → b1 !! i = Some x → b2 !! j = Some y →
    fc_sha x = fc_sha y → take (S i) b1 = take (S j) b2.
Definition shas_upto (k : N) (b : fakeBranch) : Prop :=
  ∀ x, x ∈ b → ∃ n, (n ≤ k)%N ∧ fc_sha x = hex_pad 40 n.

Record wf_site (k : N) (id : uuid) (s : fakeSite) : Prop := {
  ws_id : rec_ID (fs_rec s) = id;
  ws_sha : ∀ n b, fs_branches s !! n = Some b → b ≠ [] ∧ shas_upto k b;
  ws_prefix : prefix_consistent (fs_branches s);
  ws_draft : is_Some (fs_branches s !! BranchDraft);
  ws_pub : rec_PublishedSHA (fs_rec s) = fc_sha <$> (fs_branches s !! BranchPublished ≫= tip);
}.

Section wf.
Context `{GoUnicode}.

Record wf (c : Core) : Prop := {
  wf_sites : ∀ id s, c_sites c !! id = Some s → wf_site (c_seq c) id s;
  wf_handles : ∀ id s, live c id s → ValidateHandle (rec_Handle (fs_rec s)) = Ok tt;
  wf_unique : ∀ i j s t, live c i s → live c j t →
    rec_Handle (fs_rec s) = rec_Handle (fs_rec t) → i = j;
  wf_redirects : ∀ h id, c_redirects c !! h = Some id →
    is_Some (c_sites c !! id) ∧ handleFree c h;
  }.
End wf.

(** *** Logs *)

Lemma shas_upto_le k k' b : (k ≤ k')%N → shas_upto k b → shas_upto k' b.
Proof. intros Hk Hb x (n & ? & ?)%Hb. exists n. split; [lia|done]. Qed.
Lemma shas_upto_fresh k b x : shas_upto k b → x ∈ b → fc_sha x ≠ hex_pad 40 (k + 1).
Proof. intros Hb (n & ? & ->)%Hb ?%hex_pad_inj. lia. Qed.
Lemma tip_lookup b x : tip b = Some x ↔ b !! (length b - 1) = Some x ∧ b ≠ [].
Proof.
  unfold tip. rewrite last_lookup, Nat.sub_1_r. split; [|by intros [? _]].
  intros Hx. split; [done|]. by intros ->.
Qed.
Lemma tip_elem b x : tip b = Some x → x ∈ b.
Proof. intros [Hx _]%tip_lookup. by eapply list_elem_of_lookup_2. Qed.
Lemma tip_app b x : tip (b ++ [x]) = Some x.
Proof. apply last_snoc. Qed.

Lemma prefix_NoDup m n b :
  prefix_consistent m → m !! n = Some b → NoDup (fc_sha <$> b).
Proof.
  intros Hm Hb. apply NoDup_alt. intros i j sha Hi Hj.
  apply list_lookup_fmap_Some in Hi as (x & -> & Hi).
  apply list_lookup_fmap_Some in Hj as (y & Hs & Hj).
  pose proof (Hm n n b b i j x y Hb Hb Hi Hj Hs) as Ht%(f_equal length).
  rewrite !length_take in Ht. apply lookup_lt_Some in Hi, Hj. lia.
Qed.

(** The shared history of two logs at a commit. *)
Lemma prefix_consistent_upTo m n1 n2 b1 b2 sha p q :
  prefix_consistent m → m !! n1 = Some b1 → m !! n2 = Some b2 →
  upTo b1 sha = Some p → upTo b2 sha = Some q → p = q.
Proof.
  intros Hm H1 H2 Hp Hq.
  assert (∀ b p, upTo b sha = Some p → ∃ i x, b !! i = Some x ∧ fc_sha x = sha ∧ p = take (S i) b) as Hup.
  { clear. intros b. induction b as [|c b IH]; intros p; simpl; [done|].
    destruct (String.eqb_spec (fc_sha c) sha).
    - intros [= <-]. by exists 0, c.
    - intros (p' & (i & x & ? & ? & ->)%IH & ->)%fmap_Some. by exists (S i), x. }
  apply Hup in Hp as (i & x & Hi & Hx & ->). apply Hup in Hq as (j & y & Hj & Hy & ->).
  eapply Hm; [done..|congruence].
Qed.

(** Adding a log that shares its history, or extending one by a new commit. *)
Lemma prefix_consistent_insert m n b :
  prefix_consistent m →
  (∀ n2 b2 i j x y, m !! n2 = Some b2 → b !! i = Some x → b2 !! j = Some y →
     fc_sha x = fc_sha y → take (S i) b = take (S j) b2) →
  (∀ i j x y, b !! i = Some x → b !! j = Some y → fc_sha x = fc_sha y → take (S i) b = take (S j) b) →
  prefix_consistent (<[n := b]> m).
Proof.
  intros Hm Hb Hself n1 n2 b1 b2 i j x y H1 H2 Hi Hj Hs.
  apply lookup_insert_Some in H1 as [[<- <-]|[Hn1 H1]];
    apply lookup_insert_Some in H2 as [[<- <-]|[Hn2 H2]].
  - by eapply Hself.
  - by eapply Hb.
  - symmetry. by eapply Hb.
  - by eapply Hm.
Qed.
Lemma prefix_consistent_share m n n0 b0 b :
  prefix_consistent m → m !! n0 = Some b0 → b `prefix_of` b0 → prefix_consistent (<[n := b]> m).
Proof.
  intros Hm H0 [r ->]. apply prefix_consistent_insert; [done| |].
  - intros n2 b2 i j x y H2 Hi Hj Hs.
    pose proof (Hm n0 n2 _ _ i j x y H0 H2 (lookup_app_l_Some _ _ _ _ Hi) Hj Hs) as <-.
    apply lookup_lt_Some in Hi. by rewrite take_app_le by lia.
  - intros i j x y Hi Hj Hs.
    pose proof (Hm n0 n0 _ _ i j x y H0 H0 (lookup_app_l_Some _ _ _ _ Hi) (lookup_app_l_Some _ _ _ _ Hj) Hs).
    apply lookup_lt_Some in Hi, Hj. by rewrite !take_app_le in * by lia.
Qed.
Lemma lookup_snoc_inv {A} (l : list A) (x y : A) i :
  (l ++ [x]) !! i = Some y → (l !! i = Some y ∧ i < length l) ∨ (i = length l ∧ y = x).
Proof.
  intros Hi. pose proof (lookup_lt_Some _ _ _ Hi) as Hlt. rewrite length_app in Hlt. simpl in Hlt.
  destruct (decide (i < length l)).
  - left. split; [|done]. by rewrite lookup_app_l in Hi.
  - right. assert (i = length l) as -> by lia. by rewrite list_lookup_middle in Hi by done; simplify_eq.
Qed.
Lemma prefix_consistent_append m n b x :
  prefix_consistent m → (m !! n = Some b ∨ b = []) →
  (∀ n2 b2 y, m !! n2 = Some b2 → y ∈ b2 → fc_sha y ≠ fc_sha x) →
  prefix_consistent (<[n := b ++ [x]]> m).
Proof.
  intros Hm Hb Hf.
  assert (∀ y, y ∈ b → fc_sha y ≠ fc_sha x) as Hfb
    by (destruct Hb as [Hb| ->]; [by intros ? ?; eapply Hf|by intros ? ?%not_elem_of_nil]).
  apply prefix_consistent_insert; [done| |].
  - intros n2 b2 i j y z H2 [[Hi Hlt]|[-> ->]]%lookup_snoc_inv Hj Hs.
    + destruct Hb as [Hb| ->]; [|done]. rewrite take_app_le by lia. by eapply Hm.
    + destruct (Hf n2 b2 z); [done| |done]. by eapply list_elem_of_lookup_2.
  - intros i j y z [[Hi Hlt]|[-> ->]]%lookup_snoc_inv [[Hj Hlt']|[-> ->]]%lookup_snoc_inv Hs; [| | |done].
    + destruct Hb as [Hb| ->]; [|done]. rewrite !take_app_le by lia. by eapply Hm.
    + destruct (Hfb y); [by eapply list_elem_of_lookup_2|done].
    + destruct (Hfb z); [by eapply list_elem_of_lookup_2|done].
Qed.

(** *** Events preserve the invariant *)

Lemma wf_site_le k k' id s : (k ≤ k')%N → wf_site k id s → wf_site k' id s.
Proof.
  intros Hk []. constructor; try done. intros n b Hb. destruct (ws_sha0 n b Hb). split; [done|].
  by eapply shas_upto_le.
Qed.

Section wf_events.
Context `{GoUnicode}.

Lemma wf_alter c id s g k :
  wf c → live c id s → (c_seq c ≤ k)%N → wf_site k id (g s) →
  rec_Handle (fs_rec (g s)) = rec_Handle (fs_rec s) →
  wf (mkCore (alter g id (c_sites c)) (c_redirects c) k).
Proof.
  intros Hwf Hs Hk Hg Hh.
  assert (∀ j t, live (mkCore (alter g id (c_sites c)) (c_redirects c) k) j t →
    ∃ t0, live c j t0 ∧ rec_Handle (fs_rec t) = rec_Handle (fs_rec t0)) as Hlive.
  { intros j t [Ht Hl]. simpl in Ht. apply lookup_alter_Some in Ht as [(<- & t0 & Ht0 & ->)|[_ Ht]].
    - exists s. destruct Hs as [Hs ?]. rewrite Hs in Ht0. injection Ht0 as <-. done.
    - by exists t. }
  destruct Hwf as [W1 W2 W3 W4]. constructor; simpl.
  - intros j t Ht. apply lookup_alter_Some in Ht as [(<- & t0 & Ht0 & ->)|[_ Ht]].
    + destruct Hs as [Hs _]. rewrite Hs in Ht0. by injection Ht0 as <-.
    + eapply wf_site_le; [done|]. by apply W1.
  - intros j t (t0 & ? & ->)%Hlive. by eapply W2.
  - intros i j t u (t0 & ? & ->)%Hlive (u0 & ? & ->)%Hlive. by eapply W3.
  - intros h j Hr. destruct (W4 h j Hr) as [Hj Hf]. split; [by apply lookup_alter_is_Some|].
    intros i t (t0 & ? & ->)%Hlive. by eapply Hf.
Qed.

(** Storing a history under a branch. *)
Lemma wf_site_put k k' id s n b g :
  wf_site k id s → (k ≤ k')%N → b ≠ [] → shas_upto k' b →
  prefix_consistent (<[n := b]> (fs_branches s)) →
  rec_ID (g (fs_rec s)) = rec_ID (fs_rec s) →
  rec_PublishedSHA (g (fs_rec s)) =
    (if decide (n = BranchPublished) then fc_sha <$> tip b else rec_PublishedSHA (fs_rec s)) →
  wf_site k' id (put n b g s).
Proof.
  intros [W1 W2 W3 W4 W5] Hk Hb Hsha Hp Hid Hpub. constructor; simpl.
  - congruence.
  - intros m b' [[<- <-]|[_ Hm]]%lookup_insert_Some; [done|].
    destruct (W2 m b' Hm). split; [done|]. by eapply shas_upto_le.
  - done.
  - rewrite lookup_insert_is_Some'. by right.
  - rewrite Hpub. case_decide as Hn; [subst n; by rewrite lookup_insert_eq|].
    by rewrite lookup_insert_ne.
Qed.

Lemma wf_fresh_sha c id s n b x :
  wf c → c_sites c !! id = Some s → fs_branches s !! n = Some b → x ∈ b → fc_sha x ≠ nextsha c.
Proof. intros Hwf Hs Hb Hx. eapply shas_upto_fresh; [|done]. by eapply ws_sha; [apply Hwf|]. Qed.
Lemma shas_upto_snoc k b x :
  shas_upto k b → fc_sha x = hex_pad 40 (k + 1) → shas_upto (k + 1) (b ++ [x]).
Proof.
  intros Hb Hx y [Hy| ->%list_elem_of_singleton]%elem_of_app.
  - destruct (Hb y Hy) as (m & ? & ?). exists m. split; [lia|done].
  - by exists (k + 1)%N.
Qed.

Lemma commitsUpTo_prefix s sha b0 :
  (∃ n, fs_branches s !! n = Some b0) → is_Some (upTo b0 sha) →
  ∃ n b, fs_branches s !! n = Some b ∧ upTo b sha = Some (commitsUpTo s sha).
Proof.
  intros [n Hn] Hup. unfold commitsUpTo, branchOrder.
  assert (∀ l, (∀ p, p ∈ l → fs_branches s !! p.1 = Some p.2) → (∃ p, p ∈ l ∧ is_Some (upTo p.2 sha)) →
    ∃ n b, fs_branches s !! n = Some b ∧ upTo b sha = Some (commitsUpTo_in l.*2 sha)) as Hgen.
  { clear. induction l as [|p l IH]; intros Hl (q & Hq & Hs); [by apply not_elem_of_nil in Hq|].
    simpl. destruct (upTo p.2 sha) as [cs|] eqn:Hcs.
    - exists p.1, p.2. split; [|done]. apply Hl. by left.
    - apply IH; [intros; apply Hl; by right|].
      apply elem_of_cons in Hq as [->|Hq]; [by rewrite Hcs in Hs; destruct Hs|by exists q]. }
  apply Hgen.
  - intros [m b] Hin. by apply elem_of_map_to_list.
  - exists (n, b0). by rewrite elem_of_map_to_list.
Qed.

Lemma tip_upTo b x : tip b = Some x → is_Some (upTo b (fc_sha x)).
Proof. intros Hx%tip_elem. apply upTo_is_Some. by apply list_elem_of_fmap_2. Qed.

Lemma upTo_nonempty b sha p : upTo b sha = Some p → p ≠ [].
Proof. intros (c & ? & _)%upTo_last. by intros ->. Qed.

Lemma wf_branch c id name b : wf c → ev_ok (EvBranch id name b) c → wf (apply_ev (EvBranch id name b) c).
Proof.
  intros Hwf (s & [n0 b0] & x & Hs & Hn & Hp & Hd & _ & Hin%elem_of_map_to_list & Hx & ->).
  simpl in *. destruct (commitsUpTo_prefix s (fc_sha x) b0) as (n1 & b1 & Hb1 & Hup);
    [by exists n0|by apply tip_upTo|].
  pose proof (wf_sites _ Hwf id s (proj1 Hs)) as Hws.
  pose proof (upTo_prefix _ _ _ Hup) as Hpre.
  unfold apply_ev, upd; simpl. apply (wf_alter c id s); [done|done|done| |done].
  apply (wf_site_put (c_seq c) _ id s name _ (λ r, r)); [done|done| | | |done|].
  - by eapply upTo_nonempty.
  - intros y Hy. destruct Hpre as [r Hr]. destruct (ws_sha _ _ _ Hws n1 b1 Hb1) as [_ Hsh].
    apply Hsh. rewrite Hr. apply elem_of_app. by left.
  - by eapply prefix_consistent_share; [apply Hws| |].
  - by rewrite decide_False.
Qed.

Lemma wf_append c id n b x t : wf c → ev_ok (EvAppend id n b x t) c → wf (apply_ev (EvAppend id n b x t) c).
Proof.
  intros Hwf (s & Hs & Hp & _ & -> & Hx & _). pose proof (wf_sites _ Hwf id s (proj1 Hs)) as Hws.
  unfold apply_ev, bump, upd; simpl. apply (wf_alter c id s); [done|done|lia| |done]. simpl.
  apply (wf_site_put (c_seq c)); [done|lia|by intros [_ ?]%app_nil| | |done|].
  - apply shas_upto_snoc; [|done]. destruct (fs_branches s !! n) as [b|] eqn:Hb; simpl.
    + by eapply ws_sha.
    + by intros ? ?%not_elem_of_nil.
  - apply prefix_consistent_append; [apply Hws| |].
    + destruct (fs_branches s !! n); [by left|by right].
    + intros m b2 y Hm Hy. rewrite Hx. by eapply wf_fresh_sha; [|apply Hs| |].
  - by rewrite decide_False.
Qed.

Lemma wf_forward c id from b x t : wf c → ev_ok (EvForward id from b x t) c → wf (apply_ev (EvForward id from b x t) c).
Proof.
  intros Hwf (s & Hs & Hp & Hb & Hx & _). pose proof (wf_sites _ Hwf id s (proj1 Hs)) as Hws.
  unfold apply_ev, upd; simpl. apply (wf_alter c id s); [done|done|done| |done].
  destruct (ws_sha _ _ _ Hws from b Hb).
  apply (wf_site_put (c_seq c)); [done..| |done|].
  - by eapply prefix_consistent_share; [apply Hws|exact Hb|done].
  - rewrite decide_True by done. by rewrite Hx.
Qed.

Lemma wf_merge c id b x t : wf c → ev_ok (EvMerge id b x t) c → wf (apply_ev (EvMerge id b x t) c).
Proof.
  intros Hwf (s & Hs & Hb & Hx). pose proof (wf_sites _ Hwf id s (proj1 Hs)) as Hws.
  unfold apply_ev, bump, upd; simpl. apply (wf_alter c id s); [done|done|lia| |done]. simpl.
  destruct (ws_sha _ _ _ Hws BranchPublished b Hb).
  apply (wf_site_put (c_seq c)); [done|lia|by intros [_ ?]%app_nil| | |done|].
  - by apply shas_upto_snoc.
  - apply prefix_consistent_append; [apply Hws|by left|].
    intros m b2 y Hm Hy. rewrite Hx. by eapply wf_fresh_sha; [|apply Hs| |].
  - by rewrite decide_True, tip_app.
Qed.
End wf_events.

Section wf_more.
Context `{GoUnicode}.

Lemma wf_create c id s : wf c → ev_ok (EvCreate id s) c → wf (apply_ev (EvCreate id s) c).
Proof.
  intros [W1 W2 W3 W4] (Hn & Hl & Hid & Hv & Hfree & Hred & Hpub & x & Hb & Hx & _).
  assert (∀ j t, live (apply_ev (EvCreate id s) c) j t → (j = id ∧ t = s) ∨ (j ≠ id ∧ live c j t)) as Hlive.
  { intros j t [Ht Hlt]. simpl in Ht. apply lookup_insert_Some in Ht as [[<- <-]|[? Ht]]; [by left|by right]. }
  constructor; simpl.
  - intros j t [[<- <-]|[_ Ht]]%lookup_insert_Some.
    + constructor; rewrite ?Hb; [done| | | |].
      * intros n b [<- <-]%lookup_singleton_Some. split; [done|].
        intros y ->%list_elem_of_singleton. exists (c_seq c + 1)%N. by rewrite Hx.
      * intros n1 n2 b1 b2 i k y z [<- <-]%lookup_singleton_Some [<- <-]%lookup_singleton_Some.
        intros [-> ->]%list_lookup_singleton_Some [-> ->]%list_lookup_singleton_Some. done.
      * by rewrite lookup_singleton_eq.
      * by rewrite lookup_singleton_ne.
    + eapply wf_site_le; [|by apply W1]. lia.
  - intros j t [[-> ->]|[_ Ht]]%Hlive; [done|by eapply W2].
  - intros i j t u [[-> ->]|[Hi Ht]]%Hlive [[-> ->]|[Hj Hu]]%Hlive Hh; [done| | |by eapply W3].
    + by destruct (Hfree j u Hu).
    + by destruct (Hfree i t Ht).
  - intros h j Hr. destruct (W4 h j Hr) as [Hj Hf]. split.
    + rewrite lookup_insert_is_Some'. by right.
    + intros i t [[-> ->]|[_ Ht]]%Hlive; [congruence|by eapply Hf].
Qed.

Lemma wf_rename c id h t : wf c → ev_ok (EvRename id h t) c → wf (apply_ev (EvRename id h t) c).
Proof.
  intros Hwf (s & Hs & Hv & Hne & Hfree & Hred). destruct (Hwf) as [W1 W2 W3 W4].
  unfold apply_ev. rewrite (proj1 Hs). unfold upd. simpl.
  set (c' := mkCore _ _ _).
  assert (∀ j u, live c' j u → (j = id ∧ u = set_rec (set_handle h t) s) ∨ (j ≠ id ∧ live c j u)) as Hlive.
  { intros j u [Hu Hl]. simpl in Hu. apply lookup_alter_Some in Hu as [(<- & s0 & Hs0 & ->)|[? Hu]].
    - left. destruct Hs as [Hs _]. rewrite Hs in Hs0. by injection Hs0 as <-.
    - right. done. }
  constructor; simpl.
  - intros j u Hu. apply lookup_alter_Some in Hu as [(<- & s0 & Hs0 & ->)|[_ Hu]]; [|by apply W1].
    by destruct (W1 _ _ Hs0).
  - intros j u [[-> ->]|[_ Hu]]%Hlive; [done|by eapply W2].
  - intros i j u v [[-> ->]|[Hi Hu]]%Hlive [[-> ->]|[Hj Hv']]%Hlive Hh; [done| | |by eapply W3].
    + by destruct (Hfree j v Hv').
    + by destruct (Hfree i u Hu).
  - intros h' j [[<- <-]|[Hh' Hr]]%lookup_insert_Some.
    + split; [apply lookup_alter_is_Some; by rewrite (proj1 Hs)|].
      intros i u [[-> ->]|[Hi Hu]]%Hlive; [done|]. intros Heq. by destruct Hi; eapply W3.
    + apply lookup_delete_Some in Hr as [Hhh Hr]. destruct (W4 h' j Hr) as [Hj Hf].
      split; [by apply lookup_alter_is_Some|].
      intros i u [[-> ->]|[_ Hu]]%Hlive; [done|by eapply Hf].
Qed.

Lemma wf_delete c id t : wf c → ev_ok (EvDelete id t) c → wf (apply_ev (EvDelete id t) c).
Proof.
  intros [W1 W2 W3 W4] (s & Hs). unfold apply_ev, upd. set (c' := mkCore _ _ _).
  assert (∀ j u, live c' j u → live c j u) as Hlive.
  { intros j u [Hu Hl]. simpl in Hu. apply lookup_alter_Some in Hu as [(<- & s0 & Hs0 & ->)|[? Hu]]; [|done].
    by unfold isLive in Hl. }
  constructor; simpl.
  - intros j u Hu. apply lookup_alter_Some in Hu as [(<- & s0 & Hs0 & ->)|[_ Hu]]; [|by apply W1].
    by destruct (W1 _ _ Hs0).
  - intros j u Hu%Hlive. by eapply W2.
  - intros i j u v Hu%Hlive Hv%Hlive. by eapply W3.
  - intros h j Hr. destruct (W4 h j Hr) as [Hj Hf]. split; [by apply lookup_alter_is_Some|].
    intros i u Hu%Hlive. by eapply Hf.
Qed.

Lemma wf_drop c id n : wf c → ev_ok (EvDropBranch id n) c → wf (apply_ev (EvDropBranch id n) c).
Proof.
  intros Hwf (s & Hs & _ & Hp & Hd). destruct (wf_sites _ Hwf id s (proj1 Hs)) as [X1 X2 X3 X4 X5].
  unfold apply_ev, upd; simpl. apply (wf_alter c id s); [done|done|done| |done].
  constructor; simpl; [done| | | |].
  - intros m b [_ Hm]%lookup_delete_Some. by eapply X2.
  - intros n1 n2 b1 b2 i j x y [_ H1]%lookup_delete_Some [_ H2]%lookup_delete_Some. by eapply X3.
  - by rewrite lookup_delete_ne.
  - by rewrite lookup_delete_ne.
Qed.

Lemma wf_remote c id url : wf c → ev_ok (EvRemote id url) c → wf (apply_ev (EvRemote id url) c).
Proof.
  intros Hwf (s & Hs). destruct (wf_sites _ Hwf id s (proj1 Hs)).
  unfold apply_ev, upd; simpl. by apply (wf_alter c id s).
Qed.

Lemma wf_ev e c : wf c → ev_ok e c → wf (apply_ev e c).
Proof.
  destruct e; intros Hwf Hok; eauto using wf_create, wf_rename, wf_delete, wf_branch, wf_drop,
    wf_append, wf_forward, wf_merge, wf_remote.
Qed.
Lemma wf_init : wf (core NewFakeService).
Proof.
  assert (∀ id s, c_sites (core NewFakeService) !! id ≠ Some s) as Hno
    by (intros id s; apply lookup_empty_Some).
  constructor.
  - by intros id s ?%Hno.
  - by intros id s [?%Hno _].
  - by intros i j s t [?%Hno _].
  - intros h id Hr. simpl in Hr. by apply lookup_empty_Some in Hr.
Qed.
End wf_more.

(** ** Reachable states *)

Section reach.
Context `{GoUnicode} `{UUIDText}.
Context (clock : nat → time).

(** A state the service can be in: calls in any order with any outcome, and
  tests queueing errors in [FailNext] between them. *)
Inductive reachable : FakeService → Prop :=
| reach_new : reachable NewFakeService
| reach_call f f' k r : reachable f → fresh_call k f → exec clock k f = (f', r) → reachable f'
| reach_fail f m e : reachable f →
  reachable {| sites := sites f; redirects := redirects f; seqno := seqno f; ticks := ticks f;
               FailNext := <[m := e]> (FailNext f) |}.

Lemma exec_wf k f f' r : wf (core f) → fresh_call k f → exec clock k f = (f', r) → wf (core f').
Proof.
  intros Hwf Hk (e & _ & Hok & ->)%exec_refines; [|done]. by apply wf_ev.
Qed.
Lemma reachable_is_wf f : reachable f → wf (core f).
Proof.
  induction 1 as [|f f' k r Hf IH Hk Hr|f m e Hf IH]; [apply wf_init|by eapply exec_wf|done].
Qed.
End reach.
