(* ===== verification/FakeGuarantees.v ===== *)
(** * The site service's contract, on the in-memory implementation

    The properties a client of [site.Service] relies on, stated on runs of the
    methods from reachable states. *)

From S2P Require Import Prelude GoStrings SiteErrors SiteTypes Handle SitePath Zip SiteTree.
From S2P Require Import FakeService FakeEvents FakeRuns FakeFacts.

(** ** Histories under events *)

Definition branchOf (c : Core) (id : uuid) (n : string) : option fakeBranch :=
  c_sites c !! id ≫= λ s, fs_branches s !! n.

Lemma branchOf_Some c id n b :
  branchOf c id n = Some b ↔ ∃ s, c_sites c !! id = Some s ∧ fs_branches s !! n = Some b.
Proof. unfold branchOf. by rewrite bind_Some. Qed.

Lemma branchOf_upd c id g r k id' n :
  branchOf (mkCore (alter g id (c_sites c)) r k) id' n =
  if decide (id = id') then c_sites c !! id ≫= λ s, fs_branches (g s) !! n else branchOf c id' n.
Proof.
  unfold branchOf. simpl. case_decide as Hid.
  - subst id'. rewrite lookup_alter_eq. by destruct (c_sites c !! id).
  - by rewrite lookup_alter_ne.
Qed.

(** The histories of all sites after an event. *)
Definition hist_of (e : ev) (c : Core) (id : uuid) (n : string) : option fakeBranch :=
  match e with
  | EvCreate i s => if decide (i = id) then fs_branches s !! n else branchOf c id n
  | EvBranch i m b => if decide (i = id ∧ m = n) then Some b else branchOf c id n
  | EvDropBranch i m => if decide (i = id ∧ m = n) then None else branchOf c id n
  | EvAppend i m b x _ => if decide (i = id ∧ m = n) then Some (b ++ [x]) else branchOf c id n
  | EvForward i _ b _ _ =>
      if decide (i = id ∧ BranchPublished = n) then Some b else branchOf c id n
  | EvMerge i b x _ =>
      if decide (i = id ∧ BranchPublished = n) then Some (b ++ [x]) else branchOf c id n
  | _ => branchOf c id n
  end.

Section histories.
Context `{GoUnicode}.

Lemma hist_put c i s m b g r k id n :
  live c i s →
  branchOf (mkCore (alter (put m b g) i (c_sites c)) r k) id n =
  if decide (i = id ∧ m = n) then Some b else branchOf c id n.
Proof.
  intros [Hs _]. rewrite branchOf_upd. destruct (decide (i = id)) as [<-|Hi].
  - unfold branchOf. rewrite Hs. simpl. destruct (decide (m = n)) as [<-|Hn].
    + rewrite lookup_insert_eq, decide_True by done. done.
    + rewrite lookup_insert_ne, decide_False by naive_solver. done.
  - by rewrite decide_False by naive_solver.
Qed.

Lemma hist_same c i g r k id n :
  (∀ s, fs_branches (g s) = fs_branches s) →
  branchOf (mkCore (alter g i (c_sites c)) r k) id n = branchOf c id n.
Proof.
  intros Hg. rewrite branchOf_upd. case_decide as Hi; [|done]. subst. unfold branchOf.
  destruct (c_sites c !! id); simpl; [by rewrite Hg|done].
Qed.

Lemma branchOf_apply e c id n : ev_ok e c → branchOf (apply_ev e c) id n = hist_of e c id n.
Proof.
  destruct e as [|i s|i h t|i t|i m b|i m|i m b x t|i fr b x t|i b x t|i url]; intros Hok; simpl in *.
  - done.
  - unfold branchOf. simpl. destruct (decide (i = id)) as [<-|]; [by rewrite lookup_insert_eq|].
    by rewrite lookup_insert_ne.
  - destruct Hok as (s & [Hs _] & _). rewrite Hs. unfold upd. simpl. by apply (hist_same c).
  - by apply (hist_same c).
  - destruct Hok as (s & b0 & x & Hs & _).
    by rewrite <-(hist_put c i s m b (λ r, r) (c_redirects c) (c_seq c) id n Hs).
  - destruct Hok as (s & [Hs _] & _). unfold upd. rewrite branchOf_upd.
    destruct (decide (i = id)) as [<-|Hi]; [|by rewrite decide_False by naive_solver].
    unfold branchOf. rewrite Hs. simpl. destruct (decide (m = n)) as [<-|Hn].
    + by rewrite lookup_delete_eq, decide_True.
    + by rewrite lookup_delete_ne, decide_False by naive_solver.
  - destruct Hok as (s & Hs & _). by eapply hist_put.
  - destruct Hok as (s & Hs & _). by eapply hist_put.
  - destruct Hok as (s & Hs & _). by eapply hist_put.
  - by apply (hist_same c).
Qed.

(** A fast-forward extends the published history it replaces. *)
Lemma forward_extends c id from b x t pub :
  wf c → ev_ok (EvForward id from b x t) c → branchOf c id BranchPublished = Some pub →
  pub `prefix_of` b.
Proof.
  intros Hwf (s & Hs & Hne & Hb & Hx & Hanc) (s' & Hs' & Hpub)%branchOf_Some.
  rewrite (proj1 Hs) in Hs'. injection Hs' as <-. specialize (Hanc pub Hpub).
  pose proof (wf_sites _ Hwf id s (proj1 Hs)) as Hws.
  destruct (ws_sha _ _ _ Hws _ _ Hpub) as [Hpne _].
  destruct (tip pub) as [p|] eqn:Hp; [|by apply last_None in Hp].
  pose proof (tip_upTo _ _ Hp) as [h Hh]. apply isAncestor_spec, upTo_is_Some in Hanc as [h' Hh'].
  assert (h = h') as <-.
  { eapply (prefix_consistent_upTo (fs_branches s)); [apply Hws|exact Hpub|exact Hb|done|done]. }
  apply upTo_prefix in Hh'. replace pub with h; [done|].
  destruct (upTo_last _ _ _ Hh) as (q & Hq & Hqs). apply upTo_prefix in Hh as Hpre.
  pose proof (prefix_NoDup _ _ _ (ws_prefix _ _ _ Hws) Hpub) as Hnd.
  destruct Hpre as [r Hr]. destruct r as [|y r _] using rev_ind; [by rewrite app_nil_r in Hr|].
  exfalso. rewrite Hr, (assoc_L (++)) in Hp. rewrite tip_app in Hp. injection Hp as ->.
  rewrite Hr, !fmap_app in Hnd. apply NoDup_app in Hnd as (_ & Hd & _).
  apply (Hd (fc_sha p)); [rewrite <-Hqs; apply list_elem_of_fmap_2; by apply tip_elem|].
  apply elem_of_app. right. simpl. by left.
Qed.

(** What an event can do to an existing history. *)
Lemma ev_history e c id n b :
  wf c → ev_ok e c → branchOf c id n = Some b →
  match branchOf (apply_ev e c) id n with
  | None => e = EvDropBranch id n
  | Some b' => b `prefix_of` b' ∧
      (b' = b ∨ (∃ x t, e = EvAppend id n b x t ∧ b' = b ++ [x]) ∨
       (n = BranchPublished ∧ ((∃ fr x t, e = EvForward id fr b' x t) ∨ ∃ x t, e = EvMerge id b x t)))
  end.
Proof.
  intros Hwf Hok Hb. rewrite branchOf_apply by done. pose proof Hok as Hok'.
  destruct e as [|i s|i h t|i t|i m b1|i m|i m b1 x t|i fr b1 x t|i b1 x t|i url]; simpl in *;
    rewrite ?Hb; try (split; [done|by left]).
  - destruct Hok as (Hn & _). rewrite decide_False; [by split; [|left]|]. intros <-.
    apply branchOf_Some in Hb as (s' & Hs' & _). congruence.
  - destruct Hok as (s & b0 & x & [Hs _] & Hn & _). rewrite decide_False; [by split; [|left]|].
    intros [<- <-]. apply branchOf_Some in Hb as (s' & Hs' & ?). rewrite Hs in Hs'. naive_solver congruence.
  - case_decide as Hd; [by destruct Hd as [-> ->]|by split; [|left]].
  - case_decide as Hd; [|by split; [|left]]. destruct Hd as [-> ->].
    destruct Hok as (s & [Hs _] & _ & _ & -> & _). apply branchOf_Some in Hb as (s' & Hs' & Hb).
    rewrite Hs in Hs'. injection Hs' as <-. rewrite Hb. simpl. split; [by apply prefix_app_r|]. right; left. by exists x, t.
  - case_decide as Hd; [|by split; [|left]]. destruct Hd as [-> <-].
    split; [by eapply (forward_extends c id fr b1 x t)|]. right; right. split; [done|]. left. by exists fr, x, t.
  - case_decide as Hd; [|by split; [|left]]. destruct Hd as [-> <-].
    destruct Hok as (s & [Hs _] & Hp & _). apply branchOf_Some in Hb as (s' & Hs' & Hb).
    rewrite Hs in Hs'. injection Hs' as <-. rewrite Hp in Hb. injection Hb as <-.
    split; [by apply prefix_app_r|]. right; right. split; [done|]. right. by exists x, t.
Qed.
End histories.

(** ** Contract *)

Section contract.
Context `{GoUnicode} `{UUIDText}.
Context (clock : nat → time).

Definition history (f : FakeService) : uuid → string → option fakeBranch := branchOf (core f).

(** The branch and base of a write. *)
Definition write_target (k : call) : option (uuid * string * string) :=
  match k with
  | CWriteFile in_ => Some (wf_SiteID in_, wf_Branch in_, wf_BaseSHA in_)
  | CDeleteFile id n _ base _ => Some (id, n, base)
  | CImportZip id n _ base _ => Some (id, n, base)
  | CRollback id n _ base _ => Some (id, n, base)
  | _ => None
  end.

Lemma allowed_append k id n b x t :
  allowed k (EvAppend id n b x t) → ∃ base, write_target k = Some (id, n, base).
Proof.
  intros [(in_ & -> & <- & <-)|[(p & base & a & ->)|[(src & base & a & ->)|(to & base & a & ->)]]];
    by eexists.
Qed.

(** What a call may do to a history that existed before it. *)
Definition call_extends (k : call) (id : uuid) (n : string) (b : fakeBranch) (b' : option fakeBranch) : Prop :=
  match b' with
  | None => k = CDeleteBranch id n
  | Some b' => b `prefix_of` b' ∧
      (b' = b ∨
       (n ≠ BranchPublished ∧ (∃ x, b' = b ++ [x]) ∧ ∃ base, write_target k = Some (id, n, base)) ∨
       (n = BranchPublished ∧ ∃ in_, k = CPublish in_ ∧ pb_SiteID in_ = id))
  end.

Lemma exec_history k f f' r id n b :
  wf (core f) → fresh_call k f → exec clock k f = (f', r) → history f id n = Some b →
  call_extends k id n b (history f' id n).
Proof.
  intros Hwf Hk (e & Hal & Hok & Hc)%exec_refines Hb; [|done].
  pose proof (ev_history e _ id n b Hwf Hok Hb) as Hev. unfold history. rewrite Hc.
  destruct (branchOf (apply_ev e (core f)) id n) as [b'|]; [|by subst e].
  destruct Hev as [Hpre Hev]. split; [done|].
  destruct Hev as [->|[(x & t & -> & ->)|[-> [(fr & x & t & ->)|(x & t & ->)]]]]; [by left| | |].
  - right; left. destruct Hok as (s & _ & Hn & _). split; [done|]. split; [by exists x|by eapply allowed_append].
  - by right; right.
  - by right; right.
Qed.

(** A sequence of calls; each CreateSite gets an unused id. *)
Fixpoint runs (ks : list call) (f : FakeService) : FakeService :=
  match ks with
  | [] => f
  | k :: ks => runs ks (fst (exec clock k f))
  end.
Fixpoint fresh_runs (ks : list call) (f : FakeService) : Prop :=
  match ks with
  | [] => True
  | k :: ks => fresh_call k f ∧ fresh_runs ks (fst (exec clock k f))
  end.

Lemma runs_wf ks f : wf (core f) → fresh_runs ks f → wf (core (runs ks f)).
Proof.
  revert f. induction ks as [|k ks IH]; intros f Hwf; [done|]. intros [Hk Hks]. simpl. apply IH; [|done].
  destruct (exec clock k f) as [f' r] eqn:Hr. by eapply exec_wf.
Qed.
Lemma runs_history ks f id n b :
  wf (core f) → fresh_runs ks f → CDeleteBranch id n ∉ ks → history f id n = Some b →
  ∃ b', history (runs ks f) id n = Some b' ∧ b `prefix_of` b'.
Proof.
  revert f b. induction ks as [|k ks IH]; intros f b Hwf Hks Hdel Hb; [by exists b|].
  destruct Hks as [Hk Hks]. simpl. destruct (exec clock k f) as [f' r] eqn:Hr. simpl in *.
  pose proof (exec_history k f f' r id n b Hwf Hk Hr Hb) as He.
  destruct (history f' id n) as [b1|] eqn:Hb1.
  - destruct He as [Hpre _]. destruct (IH f' b1) as (b' & Hb' & Hpre').
    + by eapply exec_wf.
    + done.
    + set_solver.
    + done.
    + exists b'. split; [done|]. by etrans.
  - simpl in He. subst k. destruct Hdel. by left.
Qed.

Lemma write_ok k id n base f f' b :
  write_target k = Some (id, n, base) → exec clock k f = (f', Ok tt) →
  history f id n = Some b →
  ∃ x c t, tip b = Some x ∧ fc_sha x = base ∧ fc_sha c = nextsha (core f) ∧ fc_parents c = [base] ∧
    core f' = apply_ev (EvAppend id n b c t) (core f) ∧ ev_ok (EvAppend id n b c t) (core f).
Proof.
  intros Hk Hr (s0 & Hs0 & Hb)%branchOf_Some.
  assert (∀ t a msg ci b1, onBase f id n b1 base → appends clock f f' id n b1 t a msg ci →
    ∃ x c t, tip b = Some x ∧ fc_sha x = base ∧ fc_sha c = nextsha (core f) ∧ fc_parents c = [base] ∧
    core f' = apply_ev (EvAppend id n b c t) (core f) ∧ ev_ok (EvAppend id n b c t) (core f)) as Hgen.
  { intros t a msg ci b1 (s & x & Hs & Hb1 & Hx & Hsha & Hn & Hn' & _) (_ & w & Hc).
    rewrite (proj1 Hs) in Hs0. injection Hs0 as <-. rewrite Hb in Hb1. injection Hb1 as <-.
    exists x, (newCommit clock f b t a msg), w. split_and!; [done|done|done| |done|].
    - unfold newCommit, authored, parentsOf. simpl. by rewrite Hx, Hsha.
    - exists s. rewrite Hb. done. }
  destruct k; simplify_eq Hk; simpl in Hr; apply discard_ok in Hr as [ci Hr].
  - intros <- <- <-. apply WriteFile_ok in Hr as (b1 & ? & _ & ?). by eapply Hgen.
  - intros -> -> ->. apply DeleteFile_ok in Hr as (b1 & ? & _ & _ & ?). by eapply Hgen.
  - intros -> -> ->. apply ImportZip_ok in Hr as (s & es & b1 & [Hs _] & _ & _ & _ & _ & [Hnone|Hon] & _ & ?).
    + rewrite Hs in Hs0. injection Hs0 as <-. congruence.
    + by eapply Hgen.
  - intros -> -> ->. apply Rollback_ok in Hr as (b1 & t & ? & _ & _ & ?). by eapply Hgen.
Qed.
End contract.
