(* ===== verification/FakeTheorems.v ===== *)
(** * Properties of the in-memory site service

    The claims about [FakeService], each a few steps from the lemmas of the
    other Fake files, and the concrete runs that exercise them. *)

From S2P Require Import Prelude GoStrings SiteErrors SiteTypes Handle SitePath Zip SiteTree.
From S2P Require Import FakeService FakeEvents FakeRuns FakeFacts FakeGuarantees.

(** ** A concrete service *)

Definition sample_uuid : UUIDText := {| uuid_String := digits 16 |}.
Definition sample_clock (n : nat) : time := Z.of_nat n.
Definition sample_actor : Actor :=
  {| UserID := 3%N; Name := "ada"; Email := ""; Via := "editor"; TokenID := None |}.
Definition sample_create (h : string) : CreateSiteInput := {|
  cs_Handle := h; cs_OwnerID := 3%N; cs_Visibility := ""; cs_PublishMode := "";
  cs_Description := ""; cs_Zip := None; cs_GitHubRepo := ""; cs_Actor := sample_actor;
|}.
Definition sample_write (n path content base : string) : WriteFileInput := {|
  wf_SiteID := 7%N; wf_Branch := n; wf_Path := path; wf_Content := content; wf_BaseSHA := base;
  wf_Commit := true; wf_Message := ""; wf_Actor := sample_actor;
|}.
Definition sample_publish (from base : string) : PublishInput := {|
  pb_SiteID := 7%N; pb_From := from; pb_BaseSHA := base; pb_Message := ""; pb_Actor := sample_actor;
|}.
Definition sha (n : N) : string := hex_pad 40 n.
Abbreviation sexec := (@exec ascii_only_unicode sample_uuid sample_clock).
Abbreviation sruns := (@runs ascii_only_unicode sample_uuid sample_clock).
Definition sample_state : FakeService := sruns [CCreateSite 7%N (sample_create "my-site")] NewFakeService.

Lemma runs_reachable `{GoUnicode, UUIDText} clock ks f :
  reachable clock f → fresh_runs clock ks f → reachable clock (runs clock ks f).
Proof.
  revert f. induction ks as [|k ks IH]; intros f Hf; [done|]. intros [Hk Hks]. simpl. apply IH; [|done].
  destruct (exec clock k f) as [f' r] eqn:Hr. by eapply reach_call.
Qed.
Lemma sample_reachable : @reachable ascii_only_unicode sample_uuid sample_clock sample_state.
Proof.
  apply (@runs_reachable ascii_only_unicode sample_uuid); [apply reach_new|].
  split; [vm_compute; reflexivity|exact I].
Qed.

Section properties.
Context `{GoUnicode} `{UUIDText}.
Context (clock : nat → time).

(** In every state reachable by calls in any order, with any
  arguments and outcomes, no two live sites share a handle and every live
  handle satisfies the create-time rules; a redirect leads to a site and
  never shadows a live handle; every branch has at least one commit, every
  sha was issued by the counter, and a sha occurring in two branches of a
  site has the same history in both; the draft branch exists; and the
  published pointer of the record is the tip of the published branch. *)
Theorem reachable_wf (f : FakeService) : reachable clock f → wf (core f).
Proof. apply (reachable_is_wf clock). Qed.

(** C8 (refinement): every call refines the abstract service of FakeEvents.v.
  Its whole effect on sites, redirects and the commit counter is one event
  whose guard held.  A call that succeeds performed the very event [does]
  fixes for it, readings of the clock apart: a write, a deletion, a rollback
  or an import appends one commit to the branch, and only when the base it
  named was the tip (an import may instead start a branch), the path passed
  the gate and the branch is not the published one; the commit has the tree
  with that one path changed, of the commit rolled back to or of the archive,
  the tip as its parent, and the message and author of the call.  A publish
  named the tip of its source and moves the published branch to that source,
  or merges it without conflict.  A call that fails changes nothing, and one
  that could have changed something fails only when [does] allows it nothing,
  unless a test queued an error for CreateSite.  The id CreateSite draws is
  assumed not to be in use. *)
Theorem exec_is_event (k : call) (f f' : FakeService) (r : Res err unit) :
  fresh_call k f → exec clock k f = (f', r) →
  ∃ e, allowed k e ∧ ev_ok e (core f) ∧ core f' = apply_ev e (core f) ∧
    match r with
    | Ok _ => does k (core f) e
    | Err _ => e = EvNone ∧
        (mutates k = true → FailNext f !! "CreateSite" = None → ∀ e', ¬ does k (core f) e')
    end.
Proof.
  intros Hk Hr. destruct r as [[]|err].
  - apply exec_does in Hr as (e & ? & ? & ? & ?); [|done]. by exists e.
  - exists EvNone. split_and!; [done..|by apply exec_clean in Hr|done|].
    intros Hm Hq e Hd%(does_accepted clock); [|done..]. unfold accepted in Hd. by rewrite Hr in Hd.
Qed.

(** Histories are append-only and the published branch moves by
  Publish only.  After any call, a branch that existed still holds its whole
  history as a prefix, unless the call is the DeleteBranch naming it; if the
  history grew, then either the branch is not published, exactly one commit
  was added and the call was a write to that site and branch, or the branch
  is published and the call was a Publish of that site. *)
Theorem history_append_only (k : call) (f f' : FakeService) (r : Res err unit)
    (id : uuid) (n : string) (b : fakeBranch) :
  reachable clock f → fresh_call k f → exec clock k f = (f', r) → history f id n = Some b →
  match history f' id n with
  | None => k = CDeleteBranch id n
  | Some b' => b `prefix_of` b' ∧
      (b' = b ∨
       (n ≠ BranchPublished ∧ (∃ x, b' = b ++ [x]) ∧ ∃ base, write_target k = Some (id, n, base)) ∨
       (n = BranchPublished ∧ ∃ in_, k = CPublish in_ ∧ pb_SiteID in_ = id))
  end.
Proof.
  intros Hf Hk Hr Hb. eapply exec_history; [by apply (reachable_is_wf clock)|done..].
Qed.

(** No lost updates.  If a write to an existing branch that named
  [base] as what its author had read succeeded, then no later write to that
  branch naming the same [base] succeeds, whatever calls happened in
  between, as long as the branch was not deleted. *)
Theorem no_lost_update (k1 k2 : call) (ks : list call) (f f1 : FakeService)
    (id : uuid) (n base : string) :
  reachable clock f → is_Some (history f id n) →
  write_target k1 = Some (id, n, base) → write_target k2 = Some (id, n, base) →
  exec clock k1 f = (f1, Ok tt) →
  fresh_runs clock ks f1 → CDeleteBranch id n ∉ ks →
  ∀ f3, exec clock k2 (runs clock ks f1) ≠ (f3, Ok tt).
Proof.
  intros Hf%(reachable_is_wf clock) [b Hb] Hk1 Hk2 H1 Hks Hdel f3 H3.
  destruct (write_ok clock k1 id n base f f1 b Hk1 H1 Hb) as (x & c & t & Hx & Hsx & _ & _ & Hc & Hok).
  assert (history f1 id n = Some (b ++ [c])) as Hb1.
  { unfold history. rewrite Hc, branchOf_apply by done. simpl. by rewrite decide_True. }
  assert (wf (core f1)) as Hwf1 by (rewrite Hc; by apply wf_ev).
  destruct (runs_history clock ks f1 id n _ Hwf1 Hks Hdel Hb1) as (b2 & Hb2 & [rest ->]).
  destruct (write_ok clock k2 id n base _ f3 _ Hk2 H3 Hb2) as (y & _ & _ & Hy & Hsy & _).
  pose proof (runs_wf clock ks f1 Hwf1 Hks) as Hwf2.
  apply branchOf_Some in Hb2 as (s & Hs & Hb2).
  pose proof (prefix_NoDup _ _ _ (ws_prefix _ _ _ (wf_sites _ Hwf2 _ _ Hs)) Hb2) as Hnd.
  rewrite <-(assoc_L (++)) in Hy, Hnd. unfold tip in Hy. simpl in Hy. rewrite last_app_cons in Hy.
  apply tip_elem in Hx. apply tip_elem in Hy. rewrite fmap_app in Hnd. apply NoDup_app in Hnd as (_ & Hd & _).
  apply (Hd base).
  - rewrite <-Hsx. by apply list_elem_of_fmap_2.
  - rewrite <-Hsy. by apply list_elem_of_fmap_2.
Qed.
End properties.

Lemma reachable_wf_witness : @wf ascii_only_unicode (core sample_state).
Proof. exact (@reachable_wf ascii_only_unicode sample_uuid sample_clock sample_state sample_reachable). Defined.

Definition sample_w1 : call := CWriteFile (sample_write "draft" "a.txt" "one" (sha 1)).
Definition sample_w2 : call := CWriteFile (sample_write "draft" "a.txt" "two" (sha 1)).
Definition sample_stale : call := CWriteFile (sample_write "draft" "a.txt" "one" (sha 9)).

Lemma exec_is_event_witness :
  (∃ e, core (fst (sexec sample_w1 sample_state)) = apply_ev e (core sample_state) ∧
        @does ascii_only_unicode sample_uuid sample_w1 (core sample_state) e) ∧
  (∀ e, ¬ @does ascii_only_unicode sample_uuid sample_stale (core sample_state) e) ∧
  core (fst (sexec sample_stale sample_state)) = core sample_state.
Proof.
  destruct (@exec_is_event ascii_only_unicode sample_uuid sample_clock sample_w1 sample_state
    (fst (sexec sample_w1 sample_state)) (Ok tt)) as (e & _ & _ & Hc & Hd); [exact I|vm_compute; reflexivity|].
  destruct (@exec_is_event ascii_only_unicode sample_uuid sample_clock sample_stale sample_state
    (fst (sexec sample_stale sample_state)) (snd (sexec sample_stale sample_state)))
    as (e' & _ & _ & Hc' & Hd'); [exact I|apply surjective_pairing|].
  destruct (snd (sexec sample_stale sample_state)) as [u|x] eqn:Hs; [vm_compute in Hs; discriminate Hs|].
  destruct Hd' as [-> Hno]. split_and!; [by exists e| |exact Hc'].
  apply Hno; vm_compute; reflexivity.
Defined.

Lemma history_append_only_witness :
  ∃ b b', history sample_state 7%N "draft" = Some b ∧
    history (fst (sexec sample_w1 sample_state)) 7%N "draft" = Some b' ∧ b `prefix_of` b'.
Proof.
  pose proof (@history_append_only ascii_only_unicode sample_uuid sample_clock sample_w1 sample_state
    (fst (sexec sample_w1 sample_state)) (snd (sexec sample_w1 sample_state)) 7%N "draft"
    (default [] (history sample_state 7%N "draft")) sample_reachable) as Ht.
  destruct (history sample_state 7%N "draft") as [b|] eqn:Hb; [|vm_compute in Hb; discriminate Hb].
  destruct (history (fst (sexec sample_w1 sample_state)) 7%N "draft") as [b'|] eqn:Hb';
    [|vm_compute in Hb'; discriminate Hb'].
  exists b, b'. split_and!; [reflexivity..|]. apply Ht; [exact I|apply surjective_pairing|reflexivity].
Defined.

Lemma no_lost_update_witness :
  snd (sexec sample_w1 sample_state) = Ok tt ∧
  ∀ f3, sexec sample_w2 (fst (sexec sample_w1 sample_state)) ≠ (f3, Ok tt).
Proof.
  split; [vm_compute; reflexivity|].
  refine (@no_lost_update ascii_only_unicode sample_uuid sample_clock sample_w1 sample_w2 [] sample_state
    (fst (sexec sample_w1 sample_state)) 7%N "draft" (sha 1) sample_reachable _ _ _ _ _ _).
  - vm_compute. eexists. reflexivity.
  - reflexivity.
  - reflexivity.
  - vm_compute. reflexivity.
  - exact I.
  - apply not_elem_of_nil.
Defined.

(** ** Reading, writing, rolling back *)

Section rw.
Context `{GoUnicode} `{UUIDText}.
Context (clock : nat → time).

(** The file contents a tree shows at a path the read gate accepts. *)
Lemma ReadFile_tip id n p f s b x :
  live (core f) id s → fs_branches s !! n = Some b → tip b = Some x →
  validateReadPath p = Ok tt →
  snd (ReadFile id n "" p f) =
  match fc_tree x !! p with
  | Some v => Ok {| fct_Path := p; fct_Content := v; fct_SHA := fc_sha x;
                    fct_BlobSHA := hex_pad 40 (N.of_nat (String.length v));
                    fct_Size := slen v; fct_IsBinary := isBinaryContent v |}
  | None => Err (ESentinel ErrNotFound)
  end.
Proof.
  intros Hs Hb Hx Hp. unfold ReadFile, bindM, lift. rewrite Hp, (liveSite_live _ _ _ Hs).
  unfold commitForRefOrBranch. simpl. rewrite Hb. simpl. rewrite Hx. simpl.
  by destruct (fc_tree x !! p).
Qed.

Lemma appends_live f f' id n b t a msg ci s base :
  live (core f) id s → onBase f id n b base → appends clock f f' id n b t a msg ci →
  ∃ s', live (core f') id s' ∧
    fs_branches s' = <[n := b ++ [newCommit clock f b t a msg]]> (fs_branches s) ∧
    ci_SHA ci = fc_sha (newCommit clock f b t a msg).
Proof.
  intros [Hs Hl] _ (-> & w & Hc). rewrite Hc.
  exists (put n (b ++ [newCommit clock f b t a msg]) (set_updated w) s). split; [|done].
  unfold live. simpl in *. by rewrite lookup_alter_eq, Hs.
Qed.

Lemma validatePath_read p : validatePath p = Ok tt → validateReadPath p = Ok tt.
Proof. by apply validatePathWith_weaken. Qed.
Lemma validateMCP_read p : validateMCPWritePath p = Ok tt → validateReadPath p = Ok tt.
Proof. by apply validatePathWith_weaken. Qed.
Lemma WriteFile_path in_ f f' ci :
  WriteFile clock in_ f = (f', Ok ci) → validateReadPath (wf_Path in_) = Ok tt.
Proof.
  unfold WriteFile. intros Hr. do 2 ok_step Hr. destruct a0.
  destruct (Via _ =? SourceMCP)%string; [by apply validateMCP_read|by apply validatePath_read].
Qed.

(** What a successful WriteFile did is what readers see.
  Reading the written path at the tip returns the written bytes and, as the
  token for the next write, the sha that WriteFile returned; every other
  path of the branch reads as before; the commit's only parent is the base
  the writer named, which was the tip; and no other branch of any site
  changed its history. *)
Theorem WriteFile_read_back (in_ : WriteFileInput) (f f' : FakeService) (ci : CommitInfo) :
  WriteFile clock in_ f = (f', Ok ci) →
  let id := wf_SiteID in_ in let n := wf_Branch in_ in let p := wf_Path in_ in
  snd (ReadFile id n "" p f') = Ok {|
    fct_Path := p; fct_Content := wf_Content in_; fct_SHA := ci_SHA ci;
    fct_BlobSHA := hex_pad 40 (N.of_nat (String.length (wf_Content in_)));
    fct_Size := slen (wf_Content in_); fct_IsBinary := isBinaryContent (wf_Content in_) |} ∧
  (∀ q, q ≠ p →
    (fct_Content <$> match snd (ReadFile id n "" q f') with Ok c => Some c | Err _ => None end) =
    (fct_Content <$> match snd (ReadFile id n "" q f) with Ok c => Some c | Err _ => None end)) ∧
  ci_Parents ci = [wf_BaseSHA in_] ∧
  (∀ id' n', (id', n') ≠ (id, n) → history f' id' n' = history f id' n').
Proof.
  intros Hr. pose proof (WriteFile_path _ _ _ _ Hr) as Hp. simpl.
  apply WriteFile_ok in Hr as (b & Hon & _ & Ha). pose proof Hon as (s & x & Hs & Hb & Hx & Hsha & Hn & _).
  pose proof (appends_live _ _ _ _ _ _ _ _ _ s _ Hs Hon Ha) as (s' & Hs' & Hbr & Hci).
  pose proof Ha as (Heq & w & Hc). set (c := newCommit _ _ _ _ _ _) in *.
  assert (fs_branches s' !! wf_Branch in_ = Some (b ++ [c])) as Hb' by (rewrite Hbr; apply lookup_insert_eq).
  split_and!.
  - rewrite (ReadFile_tip _ _ _ _ s' _ c Hs' Hb' (tip_app _ _) Hp), Hci. simpl. by rewrite lookup_insert_eq.
  - intros q Hq. destruct (validateReadPath q) as [[]|e] eqn:Hvq.
    + rewrite (ReadFile_tip _ _ _ _ s' _ c Hs' Hb' (tip_app _ _) Hvq), (ReadFile_tip _ _ _ _ s _ x Hs Hb Hx Hvq).
      simpl. unfold tipTree. rewrite Hx, lookup_insert_ne by done. by destruct (fc_tree x !! q).
    + unfold ReadFile, bindM, lift. by rewrite Hvq.
  - rewrite Heq. simpl. unfold parentsOf. by rewrite Hx, Hsha.
  - intros id' n' Hne. unfold history. rewrite Hc, branchOf_apply.
    + simpl. rewrite decide_False; [done|]. intros [<- <-]. by destruct Hne.
    + exists s. rewrite Hb. split_and!; try done. by destruct Hon as (? & ? & ? & ? & ? & ? & ? & ? & ?).
Qed.

(** Rollback adds a commit and rewrites nothing.  When it
  succeeds, the target was a commit of the branch, the branch's new tip has
  exactly the target's tree, its parent is the previous tip, the whole old
  history is still there, and every readable path now reads as it did at
  the target. *)
Theorem Rollback_restores (id : uuid) (n to base : string) (a : Actor) (f f' : FakeService) (ci : CommitInfo) :
  Rollback clock id n to base a f = (f', Ok ci) →
  ∃ b target c, history f id n = Some b ∧ target ∈ b ∧ fc_sha target = to ∧
    history f' id n = Some (b ++ [c]) ∧ fc_tree c = fc_tree target ∧
    fc_sha c = ci_SHA ci ∧ fc_parents c = [base] ∧
    ∀ p, validateReadPath p = Ok tt →
      match fc_tree target !! p with
      | Some v => ∃ r, snd (ReadFile id n "" p f') = Ok r ∧ fct_Content r = v ∧ fct_SHA r = ci_SHA ci
      | None => snd (ReadFile id n "" p f') = Err (ESentinel ErrNotFound)
      end.
Proof.
  intros (b & target & Hon & _ & Hfind & Ha)%Rollback_ok.
  pose proof Hon as (s & x & Hs & Hb & Hx & Hsha & Hn & _).
  pose proof (appends_live _ _ _ _ _ _ _ _ _ s _ Hs Hon Ha) as (s' & Hs' & Hbr & Hci).
  destruct Ha as (Heq & w & Hc). set (c := newCommit _ _ _ _ _ _) in *.
  assert (fs_branches s' !! n = Some (b ++ [c])) as Hb' by (rewrite Hbr; apply lookup_insert_eq).
  apply find_some in Hfind as [Hin%list_elem_of_In Hto%String.eqb_eq].
  exists b, target, c. split_and!; try done.
  - apply branchOf_Some. exists s. by destruct Hs.
  - apply branchOf_Some. exists s'. by destruct Hs'.
  - simpl. unfold parentsOf. by rewrite Hx, Hsha.
  - intros p Hp. rewrite (ReadFile_tip _ _ _ _ s' _ c Hs' Hb' (tip_app _ _) Hp), Hci. simpl.
    destruct (fc_tree target !! p) as [v|]; [|done]. eexists. split; [reflexivity|done].
Qed.

(** The optimistic lock.  A write whose path and branch are
  acceptable but whose base is not the tip of its branch changes nothing and
  returns the conflict, naming the base it was given and the real tip; every
  path it lists differs between the two, or is the path being written. *)
Theorem WriteFile_conflict (in_ : WriteFileInput) (f : FakeService) (s : fakeSite) (b : fakeBranch)
    (x : fakeCommit) :
  live (core f) (wf_SiteID in_) s → fs_branches s !! wf_Branch in_ = Some b → tip b = Some x →
  wf_Branch in_ ≠ BranchPublished → wf_Branch in_ ≠ "" → wf_BaseSHA in_ ≠ "" →
  (if (Via (wf_Actor in_) =? SourceMCP)%string then validateMCPWritePath (wf_Path in_)
   else validatePath (wf_Path in_)) = Ok tt →
  fc_sha x ≠ wf_BaseSHA in_ →
  ∃ paths, WriteFile clock in_ f =
      (f, Err (ConflictError (wf_Branch in_) (wf_BaseSHA in_) (fc_sha x) paths)) ∧
    ∀ p, p ∈ paths → p = wf_Path in_ ∨
      ∃ tb tt, lastTree b (wf_BaseSHA in_) = Some tb ∧ lastTree b (fc_sha x) = Some tt ∧ tb !! p ≠ tt !! p.
Proof.
  intros Hs Hb Hx Hn Hn' Hbase Hpath Hne.
  unfold WriteFile, bindM, lift, needBaseSHA, guard_not, want, refuseProtectedBranch.
  unfold BranchPublished in Hn. apply String.eqb_neq in Hn, Hn', Hbase. rewrite Hn, Hn', Hpath, Hbase, (liveSite_live _ _ _ Hs), Hb.
  unfold checkBaseSHA. rewrite Hx. apply String.eqb_neq in Hne. rewrite Hne.
  eexists. split; [reflexivity|]. intros p.
  destruct (changedBetween b (wf_BaseSHA in_) (fc_sha x)) as [|q l] eqn:Hch.
  - intros ->%list_elem_of_singleton. by left.
  - intros Hp. right. rewrite <-Hch in Hp. unfold changedBetween in Hp, Hch.
    destruct (lastTree b (wf_BaseSHA in_)) as [tb|]; [|done].
    destruct (lastTree b (fc_sha x)) as [tt'|]; [|done]. apply diffTrees_paths in Hp as [_ ?]. eauto.
Qed.
End rw.

Lemma WriteFile_read_back_witness :
  ∃ f' ci, @WriteFile ascii_only_unicode sample_uuid sample_clock
      (sample_write "draft" "a.txt" "one" (sha 1)) sample_state = (f', Ok ci) ∧
    ci_Parents ci = [sha 1] ∧
    fct_Content <$> match snd (ReadFile 7%N "draft" "" "a.txt" f') with Ok c => Some c | Err _ => None end
    = Some "one".
Proof.
  destruct (@WriteFile ascii_only_unicode sample_uuid sample_clock
    (sample_write "draft" "a.txt" "one" (sha 1)) sample_state) as [f' [ci|e]] eqn:Hw;
    [|vm_compute in Hw; discriminate Hw].
  destruct (@WriteFile_read_back ascii_only_unicode sample_uuid sample_clock _ _ _ _ Hw) as (Hr & _ & Hp & _).
  exists f', ci. split; [reflexivity|]. split; [exact Hp|].
  cbn [wf_SiteID wf_Branch wf_Path wf_Content sample_write] in Hr.
  rewrite Hr. reflexivity.
Defined.

Definition sample_state2 : FakeService := sruns [sample_w1] sample_state.

Lemma Rollback_restores_witness :
  ∃ f' ci b target c, @Rollback sample_uuid sample_clock 7%N "draft" (sha 1) (sha 2)
      sample_actor sample_state2 = (f', Ok ci) ∧
    history f' 7%N "draft" = Some (b ++ [c]) ∧ fc_sha target = sha 1 ∧ fc_tree c = fc_tree target.
Proof.
  destruct (@Rollback sample_uuid sample_clock 7%N "draft" (sha 1) (sha 2)
      sample_actor sample_state2) as [f' [ci|e]] eqn:Hw; [|vm_compute in Hw; discriminate Hw].
  destruct (@Rollback_restores sample_uuid sample_clock _ _ _ _ _ _ _ _ Hw)
    as (b & target & c & _ & _ & Hto & Hh & Ht & _).
  exists f', ci, b, target, c. split; [reflexivity|]. split; [exact Hh|]. split; [exact Hto|exact Ht].
Defined.

Lemma WriteFile_conflict_witness :
  ∃ paths, @WriteFile ascii_only_unicode sample_uuid sample_clock
      (sample_write "draft" "a.txt" "two" (sha 1)) sample_state2 =
    (sample_state2, Err (ConflictError "draft" (sha 1) (sha 2) paths)).
Proof.
  destruct (sites sample_state2 !! 7%N) as [s|] eqn:Hs; [|vm_compute in Hs; discriminate Hs].
  assert (live (core sample_state2) 7%N s) as Hl.
  { split; [exact Hs|]. vm_compute in Hs. injection Hs as <-. reflexivity. }
  destruct (fs_branches s !! "draft") as [b|] eqn:Hb;
    [|vm_compute in Hs; injection Hs as <-; vm_compute in Hb; discriminate Hb].
  destruct (tip b) as [x|] eqn:Hx;
    [|vm_compute in Hs; injection Hs as <-; vm_compute in Hb; injection Hb as <-; discriminate Hx].
  assert (fc_sha x = sha 2) as Hsx.
  { vm_compute in Hs. injection Hs as <-. vm_compute in Hb. injection Hb as <-.
    vm_compute in Hx. injection Hx as <-. vm_compute. reflexivity. }
  edestruct (@WriteFile_conflict ascii_only_unicode sample_uuid sample_clock
    (sample_write "draft" "a.txt" "two" (sha 1)) sample_state2 s b x Hl Hb Hx) as (paths & Hw & _).
  - vm_compute. discriminate.
  - vm_compute. discriminate.
  - vm_compute. discriminate.
  - vm_compute. reflexivity.
  - rewrite Hsx. vm_compute. discriminate.
  - exists paths. rewrite Hsx in Hw. exact Hw.
Defined.
