(* ===== verification/FakePublish.v ===== *)
(** * Publishing, renaming, history pages and iteration order (in-memory service)

    More properties of [FakeService]: the effect and the conflicts of Publish,
    the redirects a rename leaves, the pages of GetLog, the exactness of
    GetDiff, and the independence of the results from Go's map order. *)

From S2P Require Import Prelude GoStrings SiteErrors SiteTypes Handle SitePath Zip SiteTree.
From S2P Require Import FakeService FakeEvents FakeRuns FakeFacts FakeGuarantees FakeTheorems.

(** The published tree merged from two sides and their base, path by path: the
    side that changed wins, and the sides agree where both changed. *)
Definition three_way (pub src base : tree) (p : string) : option bytes :=
  if decide (pub !! p = base !! p) then src !! p else pub !! p.

Section publish.
Context `{GoUnicode} `{UUIDText}.
Context (clock : nat → time).

(** The state a successful publish leaves, from the source's log [src] and tip [x]. *)
Definition published_state (in_ : PublishInput) (f f' : FakeService) (from : string) (src : fakeBranch)
    (x : fakeCommit) (ci : CommitInfo) : Prop :=
  ∃ s' pub y, history f' (pb_SiteID in_) from = Some src ∧
    live (core f') (pb_SiteID in_) s' ∧ fs_branches s' !! BranchPublished = Some pub ∧ tip pub = Some y ∧
    fc_sha y = ci_SHA ci ∧ rec_PublishedSHA (fs_rec s') = Some (ci_SHA ci) ∧
    (∀ old, history f (pb_SiteID in_) BranchPublished = Some old → old `prefix_of` pub) ∧
    (fc_tree y = fc_tree x ∧ fc_sha y = fc_sha x ∧
       (∃ f'', Publish clock in_ f' = (f'', Ok ci) ∧ core f'' = core f')
     ∨ fc_parents y = [match history f (pb_SiteID in_) BranchPublished ≫= tip with
                       | Some p => fc_sha p | None => "" end; fc_sha x]).

Definition from_of (in_ : PublishInput) : string :=
  if (pb_From in_ =? "")%string then BranchDraft else pb_From in_.

Lemma live_history f id s n b :
  live (core f) id s → fs_branches s !! n = Some b → history f id n = Some b.
Proof. intros [Hs _] Hb. apply branchOf_Some. by exists s. Qed.

(** Publishing a tip that is already published changes nothing. *)
Lemma Publish_again in_ f s src x pub y :
  live (core f) (pb_SiteID in_) s → from_of in_ ≠ BranchPublished → pb_BaseSHA in_ ≠ "" →
  fs_branches s !! from_of in_ = Some src → tip src = Some x → fc_sha x = pb_BaseSHA in_ →
  fs_branches s !! BranchPublished = Some pub → tip pub = Some y → fc_sha y = fc_sha x →
  Publish clock in_ f = (f, Ok (toCommitInfo y)).
Proof.
  unfold from_of. intros Hs Hne Hbn Hsrc Hx Hbase Hpub Hy Hxy.
  unfold Publish, needBaseSHA, bindM, lift, want, guard_not.
  apply String.eqb_neq in Hne, Hbn. rewrite Hne, Hbn, (liveSite_live _ _ _ Hs), Hsrc, Hx.
  rewrite Hbase, String.eqb_refl. simpl. by rewrite Hpub, Hy, Hxy, Hbase, String.eqb_refl.
Qed.

Lemma published_same in_ f f' s src x pub y ci :
  wf (core f) → live (core f) (pb_SiteID in_) s → from_of in_ ≠ BranchPublished → pb_BaseSHA in_ ≠ "" →
  fs_branches s !! from_of in_ = Some src → tip src = Some x → fc_sha x = pb_BaseSHA in_ →
  fs_branches s !! BranchPublished = Some pub → tip pub = Some y → fc_sha y = fc_sha x →
  ci = toCommitInfo y → core f' = core f → published_state in_ f f' (from_of in_) src x ci.
Proof.
  intros Hwf Hs Hne Hbn Hsrc Hx Hbase Hpub Hy Hyx -> Hc.
  assert (live (core f') (pb_SiteID in_) s) as Hs' by (by rewrite Hc).
  pose proof (wf_sites _ Hwf _ s (proj1 Hs)) as Hws.
  assert (y = x) as ->.
  { apply tip_lookup in Hy as [Hy _]. apply tip_lookup in Hx as [Hx _].
    pose proof (ws_prefix _ _ _ Hws _ _ _ _ _ _ _ _ Hpub Hsrc Hy Hx Hyx) as Ht%(f_equal last).
    rewrite !(take_S_r _ _ _ Hy), !(take_S_r _ _ _ Hx), !last_snoc in Ht. by injection Ht. }
  exists s, pub, x. split_and!; try done.
  - by eapply live_history.
  - rewrite (ws_pub _ _ _ Hws), Hpub. simpl. by rewrite Hy.
  - intros old Ho. rewrite (live_history _ _ _ _ _ Hs Hpub) in Ho. by injection Ho as <-.
  - left. split_and!; [done|done|]. exists f'. split; [|done]. by eapply Publish_again.
Qed.

Lemma live_put f f' id s n b g :
  live (core f) id s → isLive (put n b g s) = true →
  c_sites (core f') = alter (put n b g) id (c_sites (core f)) → live (core f') id (put n b g s).
Proof. intros [Hs Hl] Hl' Hc. unfold live. by rewrite Hc, lookup_alter_eq, Hs. Qed.

Lemma published_forward in_ f f' s src x t ci :
  wf (core f) → live (core f) (pb_SiteID in_) s → from_of in_ ≠ BranchPublished → pb_BaseSHA in_ ≠ "" →
  fs_branches s !! from_of in_ = Some src → tip src = Some x → fc_sha x = pb_BaseSHA in_ →
  ev_ok (EvForward (pb_SiteID in_) (from_of in_) src x t) (core f) →
  ci = toCommitInfo x → core f' = apply_ev (EvForward (pb_SiteID in_) (from_of in_) src x t) (core f) →
  published_state in_ f f' (from_of in_) src x ci.
Proof.
  intros Hwf Hs Hne Hbn Hsrc Hx Hbase Hok -> Hc.
  set (s' := put BranchPublished src (set_published (fc_sha x) t) s).
  assert (live (core f') (pb_SiteID in_) s') as Hs' by (eapply live_put; [done|apply Hs|by rewrite Hc]).
  assert (fs_branches s' !! from_of in_ = Some src) as Hfrom by (simpl; by rewrite lookup_insert_ne).
  assert (fs_branches s' !! BranchPublished = Some src) as Hpub' by apply lookup_insert_eq.
  exists s', src, x. split_and!; try done.
  - by eapply live_history.
  - intros old Ho. by eapply (forward_extends (core f) _ (from_of in_) src x t).
  - left. split_and!; [done|done|]. exists f'. split; [|done]. by eapply Publish_again.
Qed.

Lemma published_merge in_ f f' s src x pub mc t ci :
  live (core f) (pb_SiteID in_) s → from_of in_ ≠ BranchPublished →
  fs_branches s !! from_of in_ = Some src → fs_branches s !! BranchPublished = Some pub →
  fc_parents mc = [match tip pub with Some p => fc_sha p | None => "" end; fc_sha x] →
  ci = toCommitInfo mc → core f' = apply_ev (EvMerge (pb_SiteID in_) pub mc t) (core f) →
  published_state in_ f f' (from_of in_) src x ci.
Proof.
  intros Hs Hne Hsrc Hpub Hmp -> Hc.
  set (s' := put BranchPublished (pub ++ [mc]) (set_published (fc_sha mc) t) s).
  assert (live (core f') (pb_SiteID in_) s') as Hs' by (eapply live_put; [done|apply Hs|by rewrite Hc]).
  exists s', (pub ++ [mc]), mc. split_and!; try done.
  - eapply live_history; [done|]. simpl. by rewrite lookup_insert_ne.
  - apply lookup_insert_eq.
  - apply tip_app.
  - intros old Ho. rewrite (live_history _ _ _ _ _ Hs Hpub) in Ho. injection Ho as <-. by apply prefix_app_r.
  - right. by rewrite (live_history _ _ _ _ _ Hs Hpub).
Qed.

(** What a successful Publish did.  The source branch had the
  tip its caller named and is unchanged; the published branch ends in the
  returned commit, keeps its whole previous history, and is what the site's
  record points to; unless the branches had diverged, the published tree is
  the source's and publishing the same tip again changes nothing and returns
  the same commit. *)
Theorem Publish_effect (in_ : PublishInput) (f f' : FakeService) (ci : CommitInfo) :
  reachable clock f → Publish clock in_ f = (f', Ok ci) →
  let id := pb_SiteID in_ in
  let from := if (pb_From in_ =? "")%string then BranchDraft else pb_From in_ in
  ∃ src x, history f id from = Some src ∧ tip src = Some x ∧ fc_sha x = pb_BaseSHA in_ ∧
  ∃ s' pub y, history f' id from = Some src ∧
    live (core f') id s' ∧ fs_branches s' !! BranchPublished = Some pub ∧ tip pub = Some y ∧
    fc_sha y = ci_SHA ci ∧ rec_PublishedSHA (fs_rec s') = Some (ci_SHA ci) ∧
    (∀ old, history f id BranchPublished = Some old → old `prefix_of` pub) ∧
    (fc_tree y = fc_tree x ∧ fc_sha y = fc_sha x ∧
       (∃ f'', Publish clock in_ f' = (f'', Ok ci) ∧ core f'' = core f')
     ∨ fc_parents y = [match history f id BranchPublished ≫= tip with
                       | Some p => fc_sha p | None => "" end; fc_sha x]).
Proof.
  intros Hf%(reachable_is_wf clock) (s & src & x & Hs & Hne & Hsrc & Hx & Hbase & Hbn & Hout)%Publish_ok.
  change (if (pb_From in_ =? "")%string then BranchDraft else pb_From in_) with (from_of in_) in *.
  simpl. exists src, x. split_and!; [by eapply live_history|done|done|].
  change (published_state in_ f f' (from_of in_) src x ci).
  destruct Hout as [pub y Hpub Hy Hyx Hci Hc|t _ Hanc Hci Hc|pub mc t Hpub _ _ _ [w ->] Hci Hc].
  - by eapply published_same.
  - eapply (published_forward in_ f f' s src x t); try done. by exists s.
  - by eapply (published_merge in_ f f' s src x pub (mergeCommit (core f) in_ pub x w) t).
Qed.

(** When Publish reports a merge conflict, nothing changed, and
  the paths it lists are exactly those both sides changed since their merge
  base, to different things. *)
Theorem Publish_conflict_exact (in_ : PublishInput) (f f' : FakeService) (ps : list string) :
  Publish clock in_ f = (f', Err (PublishConflictError ps)) →
  f' = f ∧ ps ≠ [] ∧
  ∃ s src x pub, live (core f) (pb_SiteID in_) s ∧
    fs_branches s !! (if (pb_From in_ =? "")%string then BranchDraft else pb_From in_) = Some src ∧
    tip src = Some x ∧ fs_branches s !! BranchPublished = Some pub ∧
    ∀ p, p ∈ ps ↔ let base := mergeBaseTree (Some pub) src in
      tipTree pub !! p ≠ base !! p ∧ fc_tree x !! p ≠ base !! p ∧ tipTree pub !! p ≠ fc_tree x !! p.
Proof.
  unfold Publish. set (from := if (pb_From in_ =? "")%string then _ else _). intros Hr.
  apply bindM_err_inv in Hr as [Hr|(f1 & [] & Hs & Hr)]; [unfold guard_not in Hr; by case_match|]. ok_prim Hs.
  apply bindM_err_inv in Hr as [Hr|(f1 & [] & Hs1 & Hr)]; [unfold needBaseSHA, guard_not in Hr; by case_match|]. ok_prim Hs1.
  apply bindM_err_inv in Hr as [Hr|(f1 & s & Hs2 & Hr)]; [by apply liveSite_err in Hr as (_ & ? & _)|]. ok_prim Hs2.
  apply bindM_err_inv in Hr as [Hr|(f1 & src & Hs3 & Hr)]; [unfold want in Hr; by case_match|]. ok_prim Hs3.
  apply bindM_err_inv in Hr as [Hr|(f1 & x & Hs4 & Hr)]; [unfold want in Hr; by case_match|]. ok_prim Hs4.
  apply bindM_err_inv in Hr as [Hr|(f1 & [] & Hs5 & Hr)]; [unfold guard_not in Hr; by case_match|]. ok_prim Hs5.
  assert (∀ e, bindM (putBranch (pb_SiteID in_) BranchPublished src)
    (λ _, bindM (setPublished clock (pb_SiteID in_) x) (λ _, ok (toCommitInfo x))) f ≠ (f', Err e)) as Hfwd.
  { intros e. destruct (forward_run clock (pb_SiteID in_) from src x f) as (f2 & t & -> & _). done. }
  destruct (fs_branches s !! BranchPublished) as [pub|] eqn:Hpub; [|by apply Hfwd in Hr].
  match type of Hr with (if ?same then _ else _) _ = _ => destruct same; [done|] end.
  destruct (isAncestor _ _); [by apply Hfwd in Hr|].
  unfold bindM, guard_not in Hr.
  destruct (conflictingPaths (tipTree pub) (fc_tree x) (mergeBaseTree (Some pub) src)) as [|q l] eqn:Hc; [done|].
  injection Hr as <- <-. split_and!; [done|done|]. exists s, src, x, pub. split_and!; [done..|].
  intros p. rewrite <-Hc. apply conflictingPaths_spec.
Qed.

(** The clean merge is not a three-way merge.  Where the
  source still has a path it did not change since the merge base, the merged
  tree takes the source's version, so an edit or a removal made on the
  published side is undone although no conflict was reported; where only the
  source removed a path, the merged tree keeps it; at every other path the
  result is the three-way merge. *)
Theorem mergeTrees_vs_three_way (pub src base : tree) (p : string) :
  conflictingPaths pub src base = [] →
  mergeTrees pub src !! p =
    (if decide (src !! p = base !! p ∧ is_Some (src !! p)) then src !! p
     else if decide (pub !! p = base !! p ∧ src !! p = None) then pub !! p
     else three_way pub src base p).
Proof.
  intros Hnone. rewrite mergeTrees_union.
  assert (pub !! p = base !! p ∨ src !! p = base !! p ∨ pub !! p = src !! p) as Hp.
  { destruct (decide (pub !! p = base !! p)); [by left|].
    destruct (decide (src !! p = base !! p)); [by right; left|].
    destruct (decide (pub !! p = src !! p)); [by right; right|].
    exfalso. apply (not_elem_of_nil p). rewrite <-Hnone. by apply conflictingPaths_spec. }
  unfold three_way. destruct (src !! p) as [v|] eqn:Hsrc.
  - rewrite (lookup_union_Some_l _ _ _ _ Hsrc).
    destruct (decide (Some v = base !! p ∧ is_Some (Some v))) as [_|Hd1]; [done|].
    destruct (decide (pub !! p = base !! p ∧ Some v = None)) as [[_ ?]|_]; [done|].
    destruct (decide (pub !! p = base !! p)) as [|Hne]; [done|].
    destruct Hp as [?|[?|?]]; [done| |done]. by destruct Hd1.
  - rewrite (lookup_union_r _ _ _ Hsrc).
    destruct (decide (None = base !! p ∧ is_Some None)) as [[_ [? ?]]|_]; [done|].
    destruct (decide (pub !! p = base !! p ∧ None = None)) as [_|Hd2]; [done|].
    destruct (decide (pub !! p = base !! p)) as [|Hne]; [by destruct Hd2|done].
Qed.
End publish.

(** *** Concrete runs *)

Lemma Publish_effect_witness :
  ∃ f' ci, @Publish sample_uuid sample_clock (sample_publish "" (sha 1)) sample_state = (f', Ok ci) ∧
    ∃ s', live (core f') 7%N s' ∧ rec_PublishedSHA (fs_rec s') = Some (ci_SHA ci).
Proof.
  destruct (@Publish sample_uuid sample_clock (sample_publish "" (sha 1)) sample_state)
    as [f' [ci|e]] eqn:Hw; [|vm_compute in Hw; discriminate Hw].
  destruct (@Publish_effect ascii_only_unicode sample_uuid sample_clock _ _ _ _ sample_reachable Hw)
    as (src & x & _ & _ & _ & s' & pub & y & _ & Hs' & _ & _ & _ & Hp & _).
  exists f', ci. split; [reflexivity|]. exists s'. split; [exact Hs'|exact Hp].
Defined.

(** Two branches that changed the same file since the last publish. *)
Definition conflict_calls : list call := [
  CPublish (sample_publish "" (sha 1));
  CCreateBranch 7%N "feature" "draft";
  CWriteFile (sample_write "draft" "index.html" "from draft" (sha 1));
  CWriteFile (sample_write "feature" "index.html" "from feature" (sha 1));
  CPublish (sample_publish "draft" (sha 2)) ].
Definition conflict_state : FakeService := sruns conflict_calls sample_state.

Lemma Publish_conflict_exact_witness :
  ∃ f', @Publish sample_uuid sample_clock (sample_publish "feature" (sha 3)) conflict_state =
      (f', Err (PublishConflictError ["index.html"])) ∧ f' = conflict_state ∧ ["index.html"] ≠ [].
Proof.
  destruct (@Publish sample_uuid sample_clock (sample_publish "feature" (sha 3)) conflict_state)
    as [f' r] eqn:Hw.
  assert (r = Err (PublishConflictError ["index.html"])) as ->
    by (apply (f_equal snd) in Hw; vm_compute in Hw; symmetry; exact Hw).
  exists f'. split; [reflexivity|].
  destruct (@Publish_conflict_exact sample_uuid sample_clock _ _ _ _ Hw) as (He & Hn & _).
  split; [exact He|exact Hn].
Defined.

(** The published edit of [a.txt] is reverted by publishing a branch that never
    touched it. *)
Definition base_tree : tree := {[ "a.txt" := "old" ]}.
Definition published_tree : tree := {[ "a.txt" := "edited on published" ]}.
Definition source_tree : tree := <["b.txt" := "new file"]> base_tree.
Lemma mergeTrees_vs_three_way_witness :
  conflictingPaths published_tree source_tree base_tree = [] ∧
  mergeTrees published_tree source_tree !! "a.txt" = Some "old" ∧
  three_way published_tree source_tree base_tree "a.txt" = Some "edited on published".
Proof.
  assert (conflictingPaths published_tree source_tree base_tree = []) as Hc by (vm_compute; reflexivity).
  split_and!; [exact Hc| |vm_compute; reflexivity].
  rewrite (mergeTrees_vs_three_way _ _ _ "a.txt" Hc). vm_compute. reflexivity.
Defined.
