(* ===== verification/FakeQueries.v ===== *)
(** * Renames, history pages, diffs and iteration order (in-memory service)

    Properties of [FakeService] that concern what readers see: redirects left
    by renames, the pages of GetLog, the exactness of GetDiff, the handle that a
    deletion frees, and the independence of every lookup from the order in
    which Go iterates over its maps. *)

From S2P Require Import Prelude GoStrings SiteErrors SiteTypes Handle SitePath Zip SiteTree.
From S2P Require Import FakeService FakeEvents FakeRuns FakeFacts FakeGuarantees FakeTheorems.

(** ** Labels as request hosts *)

Section labels.
Context `{GoUnicode}.

Lemma label_host l :
  str_forall label_char l = true → to_lower (trim_space l) = l ∧ hostLabel l = l.
Proof.
  intros Hl.
  assert (∀ q : ascii → bool, (∀ c, label_char c = true → q c = true) → str_forall q l = true) as Hq
    by (intros q Hq; by eapply str_forall_impl).
  split.
  - unfold trim_space, all_ascii. rewrite (Hq is_ascii) by (by intros c [? _]%label_char_facts).
    rewrite trim_with_none; [by apply label_is_lower|].
    apply Hq. intros c (_ & -> & _)%label_char_facts. done.
  - unfold hostLabel. destruct (has_prefix "/host/" l) eqn:Hp.
    { apply has_prefix_spec in Hp as [r ->]. done. }
    unfold before_char. rewrite (index_byte_none ":"), (index_byte_none "."); [done|..];
      apply Hq; intros c (_ & _ & H1 & H2 & _)%label_char_facts; by rewrite ?H1, ?H2.
Qed.

(** A site's own label resolves to the site's handle and branch. *)
Lemma resolveServing_label h b :
  ValidateHandle h = Ok tt → ValidateBranchName b = Ok tt →
  resolveServing (previewSubdomain h b) = Ok (h, b).
Proof.
  intros Hh Hb. pose proof Hh as (Hl & Hv & Hd & Hr)%validateHandleLen_ok.
  pose proof Hb as (Hvb & Hdb)%validateBranchName_ok.
  pose proof (preview_chars h b (proj1 (proj2 Hv)) (proj1 (proj2 Hvb))) as Hc.
  destruct (label_host _ Hc) as [Hlow Hlab].
  assert (previewSubdomain h b ≠ "") as Hne.
  { unfold previewSubdomain. destruct (_ =? _)%string; destruct h; try done; simpl in Hl; lia. }
  unfold resolveServing, parseHostOrPath. rewrite Hlow, Hlab. apply String.eqb_neq in Hne.
  rewrite Hne. rewrite splitLabel_preview by done. cbn [res_bind].
  assert ((b =? BranchPublished)%string && contains doubleHyphen (previewSubdomain h b) = false) as ->.
  { unfold previewSubdomain. by destruct (b =? BranchPublished)%string. }
  assert (ValidateHandleForResolver h = Ok tt) as ->
    by (apply validateHandleLen_ok; split_and!; [unfold HandleResolverMinLen, HandleMinLen in *; lia|done..]).
  cbn [res_bind]. destruct (b =? BranchPublished)%string; [done|].
  unfold ValidateBranchName in Hb. by rewrite Hb.
Qed.
End labels.

(** ** Renames *)

Section rename.
Context `{GoUnicode} `{UUIDText}.
Context (clock : nat → time).

Lemma findLive_live f id s h :
  wf (core f) → live (core f) id s → rec_Handle (fs_rec s) = h → findLive h f = (f, Ok (Some s)).
Proof.
  intros Hwf Hs Hh. destruct (findLive h f) as [f' [r|e]] eqn:Hf; [|by unfold findLive in Hf].
  apply findLive_ok in Hf as [-> Hr]. destruct r as [s'|].
  - destruct Hr as (id' & Hs' & Hh'). assert (id' = id) as -> by (eapply wf_unique; [done..|congruence]).
    destruct Hs as [Hs _], Hs' as [Hs' _]. rewrite Hs in Hs'. by injection Hs' as <-.
  - by destruct (Hr id s Hs).
Qed.
(** A rename moves the site and leaves a redirect.  After a
  successful rename to a different handle, the new handle finds the site,
  the old one is not found by GetSiteByHandle, and the data plane serves
  the old labels, published and preview alike, exactly as the new ones. *)
Theorem RenameHandle_redirects (id : uuid) (h : string) (f f' : FakeService) (r : Site) (s : fakeSite) :
  reachable clock f → live (core f) id s → to_lower h ≠ rec_Handle (fs_rec s) →
  RenameHandle clock id h f = (f', Ok r) →
  let old := rec_Handle (fs_rec s) in
  site_ID r = id ∧ site_Handle r = h ∧
  GetSiteByHandle h f' = (f', Ok r) ∧
  GetSiteByHandle old f' = (f', Err (ESentinel ErrNotFound)) ∧
  ∀ b, ValidateBranchName b = Ok tt →
    ResolveForServing (previewSubdomain old b) f' = ResolveForServing (previewSubdomain h b) f'.
Proof.
  intros Hf Hs Hne Hr. pose proof (reachable_is_wf clock f Hf) as Hwf.
  assert (wf (core f')) as Hwf'.
  { eapply (exec_wf clock (CRenameHandle id h) f f' (Ok tt)); [done|done|]. simpl. unfold discard, bindM. by rewrite Hr. }
  pose proof Hr as (s0 & Hs0 & Hv & Hcase)%RenameHandle_ok.
  assert (s0 = s) as -> by (destruct Hs as [Hs _], Hs0 as [Hs0 _]; rewrite Hs in Hs0; by injection Hs0).
  destruct Hcase as [(? & _)|(t & _ & Hfree & Hred & Hc & ->)]; [done|]. clear Hr Hs0. simpl.
  rewrite (ValidateHandle_lower h Hv) in *.
  pose proof (wf_handles _ Hwf id s Hs) as Hold.
  set (s' := set_rec (set_handle h t) s).
  assert (sites f' = alter (set_rec (set_handle h t)) id (sites f) ∧
          redirects f' = <[rec_Handle (fs_rec s) := id]> (delete h (redirects f))) as [Hsi Hre].
  { unfold apply_ev in Hc. destruct Hs as [Hs _]. rewrite Hs in Hc. by injection Hc. }
  assert (live (core f') id s') as Hs'.
  { destruct Hs as [Hs Hl]. split; [|done]. simpl. simpl in Hs. by rewrite Hsi, lookup_alter_eq, Hs. }
  assert (handleFree (core f') (rec_Handle (fs_rec s))) as Hfree'.
  { eapply (wf_redirects _ Hwf'). simpl. rewrite Hre. by apply lookup_insert_eq. }
  assert (findLive h f' = (f', Ok (Some s'))) as Hnew by (by apply (findLive_live f' id)).
  pose proof (findLive_free f' _ Hfree') as Hgone. split_and!; [|done| | |].
  - apply (ws_id _ _ _ (wf_sites _ Hwf id s (proj1 Hs))).
  - unfold GetSiteByHandle, bindM. by rewrite (ValidateHandle_lower h Hv), Hnew.
  - unfold GetSiteByHandle, bindM. by rewrite (ValidateHandle_lower _ Hold), Hgone.
  - intros b Hb. unfold ResolveForServing, bindM, lift.
    rewrite (resolveServing_label _ b Hold Hb), (resolveServing_label h b Hv Hb).
    cbn [fst snd].
    rewrite (ValidateHandle_lower h Hv), (ValidateHandle_lower _ Hold), Hnew, Hgone. simpl.
    rewrite Hre, lookup_insert_eq. simpl. destruct Hs' as [Hs' _]. simpl in Hs'. by rewrite Hs'.
Qed.

(** Deleting a site frees its handle at once.  The contract
  says the handle stays reserved during the grace period; here, once a site
  is deleted, the very next CreateSite may take its handle. *)
Theorem DeleteSite_frees_handle (id newID : uuid) (a : Actor) (in_ : CreateSiteInput)
    (f f' : FakeService) (s : fakeSite) :
  reachable clock f → live (core f) id s → rec_Handle (fs_rec s) = cs_Handle in_ →
  cs_Zip in_ = None → FailNext f !! "CreateSite" = None → DeleteSite clock id a f = (f', Ok tt) →
  ∃ f'' r, CreateSite clock newID in_ f' = (f'', Ok r) ∧ site_Handle r = cs_Handle in_.
Proof.
  intros Hf Hs Hh Hzip Hfail Hr. pose proof (reachable_is_wf clock f Hf) as Hwf.
  pose proof (wf_handles _ Hwf id s Hs) as Hv. rewrite Hh in Hv.
  assert (f' = {| sites := alter (set_rec (set_deleted (clock (ticks f)))) id (sites f); redirects := redirects f;
                  seqno := seqno f; ticks := S (ticks f); FailNext := FailNext f |}) as ->.
  { unfold DeleteSite, bindM in Hr. rewrite (liveSite_live _ _ _ Hs) in Hr. by injection Hr as <-. }
  unfold CreateSite, bindM, lift. rewrite Hv. unfold failOnce. cbn [FailNext]. rewrite Hfail, (ValidateHandle_lower _ Hv).
  match goal with |- context [findLive ?h ?g] => rewrite (findLive_free g h) end.
  - simpl. unfold guard_not. simpl.
    rewrite bool_decide_eq_false_2.
    + rewrite Hzip. simpl. eexists _, _. split; [reflexivity|done].
    + intros [j Hj]. destruct (wf_redirects _ Hwf _ _ Hj) as [_ Hfree]. by destruct (Hfree id s Hs).
  - intros j u [Hu Hl] Hju. simpl in Hu. apply lookup_alter_Some in Hu as [(<- & s0 & Hs0 & ->)|[Hij Hu]].
    + by unfold isLive in Hl.
    + destruct Hij. symmetry. eapply (wf_unique _ Hwf j id u s); [by split|done|congruence].
Qed.
End rename.

Lemma RenameHandle_redirects_witness :
  ∃ f' r, @RenameHandle ascii_only_unicode sample_clock 7%N "new-name" sample_state = (f', Ok r) ∧
    ResolveForServing (H:=ascii_only_unicode) (previewSubdomain "my-site" "draft") f' =
    ResolveForServing (H:=ascii_only_unicode) (previewSubdomain "new-name" "draft") f'.
Proof.
  destruct (@RenameHandle ascii_only_unicode sample_clock 7%N "new-name" sample_state)
    as [f' [r|e]] eqn:Hw; [|vm_compute in Hw; discriminate Hw].
  destruct (sites sample_state !! 7%N) as [s|] eqn:Hs; [|vm_compute in Hs; discriminate Hs].
  assert (live (core sample_state) 7%N s ∧ rec_Handle (fs_rec s) = "my-site") as [Hl Hh].
  { vm_compute in Hs. injection Hs as <-. vm_compute. auto. }
  exists f', r. split; [reflexivity|]. rewrite <-Hh.
  apply (@RenameHandle_redirects ascii_only_unicode sample_uuid sample_clock 7%N "new-name" sample_state f' r s
    sample_reachable Hl); [rewrite Hh; vm_compute; discriminate|exact Hw|vm_compute; reflexivity].
Defined.

Lemma DeleteSite_frees_handle_witness :
  ∃ f' f'' r, DeleteSite sample_clock 7%N sample_actor sample_state = (f', Ok tt) ∧
    @CreateSite ascii_only_unicode sample_uuid sample_clock 8%N (sample_create "my-site") f' = (f'', Ok r) ∧
    site_Handle r = "my-site".
Proof.
  destruct (sites sample_state !! 7%N) as [s|] eqn:Hs; [|vm_compute in Hs; discriminate Hs].
  assert (live (core sample_state) 7%N s ∧ rec_Handle (fs_rec s) = "my-site") as [Hl Hh].
  { vm_compute in Hs. injection Hs as <-. vm_compute. auto. }
  destruct (DeleteSite sample_clock 7%N sample_actor sample_state) as [f' [[]|e]] eqn:Hw;
    [|apply (f_equal snd) in Hw; vm_compute in Hw; discriminate Hw].
  destruct (@DeleteSite_frees_handle ascii_only_unicode sample_uuid sample_clock 7%N 8%N sample_actor
    (sample_create "my-site") sample_state f' s sample_reachable Hl Hh) as (f'' & r & Hc & Hr);
    [reflexivity|vm_compute; reflexivity|exact Hw|].
  exists f', f'', r. split_and!; [reflexivity|exact Hc|exact Hr].
Defined.

(** ** Pages of the log *)

Section log.
Context `{GoUnicode} `{UUIDText}.
Context (clock : nat → time).

Lemma afterCursor_drop all i c :
  NoDup (fc_sha <$> all) → all !! i = Some c → afterCursor all (fc_sha c) = Some (drop (S i) all).
Proof.
  revert i. induction all as [|d all IH]; intros i Hnd Hi; [done|].
  rewrite fmap_cons, NoDup_cons in Hnd. destruct Hnd as [Hd Hnd]. simpl.
  destruct i as [|i]; simpl in Hi.
  - injection Hi as ->. by rewrite String.eqb_refl.
  - destruct (String.eqb_spec (fc_sha d) (fc_sha c)) as [Heq|]; [|by apply IH].
    destruct Hd. rewrite Heq. apply list_elem_of_fmap_2. by eapply list_elem_of_lookup_2.
Qed.
Lemma filter_all {A} (p : A → bool) l : (∀ x, p x = true) → List.filter p l = l.
Proof. intros Hp. induction l as [|x l IH]; [done|]. simpl. by rewrite Hp, IH. Qed.

(** Paging through the log visits every commit once.  With no
  path filter, the first page is the newest [L] commits of the branch and
  the page before a commit is the [L] commits that follow it in the
  newest-first history, where [L] is the clamped limit, between 1 and 500:
  so pages chained by their last sha tile the history. *)
Theorem GetLog_pages (in_ : LogOptions) (f : FakeService) (s : fakeSite) (b : fakeBranch) (i : nat)
    (c : fakeCommit) :
  reachable clock f → live (core f) (lo_SiteID in_) s → fs_branches s !! lo_Branch in_ = Some b →
  lo_Path in_ = "" → rev b !! i = Some c → fc_sha c ≠ "" →
  let L := Z.to_nat (clampLimit (lo_Limit in_)) in
  1 ≤ L ≤ 500 ∧
  (lo_Before in_ = "" → GetLog in_ f = (f, Ok (toCommitInfo <$> take L (rev b)))) ∧
  (lo_Before in_ = fc_sha c → GetLog in_ f = (f, Ok (toCommitInfo <$> take L (drop (S i) (rev b))))).
Proof.
  intros Hf Hs Hb Hp Hi Hc. cbv zeta. pose proof (reachable_is_wf clock f Hf) as Hwf.
  assert (NoDup (fc_sha <$> rev b)) as Hnd.
  { assert (fc_sha <$> rev b ≡ₚ fc_sha <$> b) as ->
      by (apply fmap_Permutation; symmetry; apply Permutation_rev).
    eapply prefix_NoDup; [|exact Hb]. apply (ws_prefix _ _ _ (wf_sites _ Hwf _ _ (proj1 Hs))). }
  assert (∀ r, (let older := if (lo_Before in_ =? "")%string then rev b
                else default (rev b) (afterCursor (rev b) (lo_Before in_)) in older = r) →
    GetLog in_ f = (f, Ok (toCommitInfo <$> take (Z.to_nat (clampLimit (lo_Limit in_))) r))) as Hrun.
  { intros r Hr. cbv zeta in Hr. unfold GetLog, bindM, want. rewrite (liveSite_live _ _ _ Hs), Hb.
    unfold ok. rewrite Hr, Hp. by rewrite filter_all. }
  split_and!.
  - unfold clampLimit, defaultLogLimit, defaultMaxLogLimit. repeat case_match; bool_hyps; lia.
  - unfold clampLimit, defaultLogLimit, defaultMaxLogLimit. repeat case_match; bool_hyps; lia.
  - intros Hbe. apply Hrun. by rewrite Hbe.
  - intros Hbe. apply Hrun. rewrite Hbe. apply String.eqb_neq in Hc. rewrite Hc.
    by rewrite (afterCursor_drop _ i c).
Qed.

(** A diff lists exactly what differs.  When GetDiff succeeds
  with two refs, a path is listed iff it is in scope and the trees the refs
  resolve to differ at it; a target that does not resolve counts as empty. *)
Theorem GetDiff_exact (in_ : DiffOptions) (f f' : FakeService) (d : DiffResult) :
  df_To in_ ≠ "" → GetDiff in_ f = (f', Ok d) →
  ∃ s from, live (core f) (df_SiteID in_) s ∧ resolveAnyRef s (df_From in_) = Some from ∧
    dr_FromSHA d = fc_sha from ∧
    dr_ToSHA d = match resolveAnyRef s (df_To in_) with Some c => fc_sha c | None => emptyTreeSHA end ∧
    ∀ p, p ∈ fd_Path <$> dr_Files d ↔
      inScope (df_Path in_) p = true ∧
      fc_tree from !! p ≠ (match resolveAnyRef s (df_To in_) with Some c => fc_tree c | None => ∅ end) !! p.
Proof.
  intros Hto Hr. unfold GetDiff in Hr. do 2 ok_step Hr. apply String.eqb_neq in Hto. rewrite Hto in Hr.
  exists a, a0. split; [done|]. split; [done|].
  destruct (resolveAnyRef a (df_To in_)) as [c|]; ok_prim Hr; simpl; split_and!; try done;
    intros p; apply diffTrees_paths.
Qed.
End log.

(** ** Iteration order *)

Lemma find_perm {A} (p : A → bool) (l l' : list A) :
  (∀ x y, x ∈ l → y ∈ l → p x = true → p y = true → x = y) →
  l ≡ₚ l' → List.find p l = List.find p l'.
Proof.
  intros Hu Hp. destruct (List.find p l) as [x|] eqn:Hx, (List.find p l') as [y|] eqn:Hy; try done.
  - apply find_some in Hx as [Hx%list_elem_of_In ?], Hy as [Hy%list_elem_of_In ?].
    f_equal. apply Hu; [done|by rewrite Hp|done|done].
  - apply find_some in Hx as [Hx%list_elem_of_In Hpx]. rewrite Hp in Hx.
    pose proof (find_none _ _ Hy x) as Hno. rewrite <-list_elem_of_In in Hno. by rewrite Hno in Hpx.
  - apply find_some in Hy as [Hy%list_elem_of_In Hpy]. rewrite <-Hp in Hy.
    pose proof (find_none _ _ Hx y) as Hno. rewrite <-list_elem_of_In in Hno. by rewrite Hno in Hpy.
Qed.

Lemma commitsUpTo_in_spec order sha :
  (∃ b, b ∈ order ∧ upTo b sha = Some (commitsUpTo_in order sha)) ∨
  ((∀ b, b ∈ order → upTo b sha = None) ∧ commitsUpTo_in order sha = []).
Proof.
  induction order as [|b order IH]; simpl.
  - right. split; [by intros ? ?%not_elem_of_nil|done].
  - destruct (upTo b sha) as [cs|] eqn:Hb.
    + left. exists b. split; [by left|done].
    + destruct IH as [(b' & ? & ?)|[Hall Hnil]].
      * left. exists b'. split; [by right|done].
      * right. split; [|done]. by intros b' [->|?]%elem_of_cons; [|apply Hall].
Qed.

Section order.
Context `{GoUnicode} `{UUIDText}.
Context (clock : nat → time).

Lemma branchOrder_elem s b : b ∈ branchOrder s ↔ ∃ n, fs_branches s !! n = Some b.
Proof.
  unfold branchOrder. rewrite list_elem_of_fmap. split.
  - intros ([n b'] & -> & Hin%elem_of_map_to_list). by exists n.
  - intros [n Hn]. exists (n, b). by rewrite elem_of_map_to_list.
Qed.

(** Two commits of a site with one sha are one commit. *)
Lemma same_sha_same_commit m n1 n2 b1 b2 x y :
  prefix_consistent m → m !! n1 = Some b1 → m !! n2 = Some b2 → x ∈ b1 → y ∈ b2 →
  fc_sha x = fc_sha y → x = y.
Proof.
  intros Hm H1 H2 [i Hi]%list_elem_of_lookup [j Hj]%list_elem_of_lookup Hs.
  pose proof (Hm _ _ _ _ _ _ _ _ H1 H2 Hi Hj Hs) as Ht%(f_equal last).
  rewrite (take_S_r _ _ _ Hi), (take_S_r _ _ _ Hj), !last_snoc in Ht. by injection Ht.
Qed.

(** Go's map iteration order never shows.  In every reachable
  state the scans that range over a map and stop at the first hit (a sha in
  any branch, the history up to a sha, a live handle) give the same answer
  for every order in which the map's elements are visited. *)
Theorem iteration_order_irrelevant (f : FakeService) (id : uuid) (s : fakeSite)
    (order : list fakeBranch) (ids : list fakeSite) (sha h : string) :
  reachable clock f → sites f !! id = Some s →
  order ≡ₚ branchOrder s → ids ≡ₚ (map_to_list (sites f)).*2 →
  List.find (λ c, (fc_sha c =? sha)%string) (concat order) =
    List.find (λ c, (fc_sha c =? sha)%string) (concat (branchOrder s)) ∧
  commitsUpTo_in order sha = commitsUpTo s sha ∧
  List.find (liveWithHandle h) ids = List.find (liveWithHandle h) (map_to_list (sites f)).*2.
Proof.
  intros Hf%reachable_is_wf Hs Hord Hids.
  pose proof (ws_prefix _ _ _ (wf_sites _ Hf id s Hs)) as Hpre. split_and!.
  - apply find_perm; [|by rewrite Hord].
    assert (∀ x, x ∈ concat order → ∃ n b, fs_branches s !! n = Some b ∧ x ∈ b) as Hin.
    { intros x (b & Hb%list_elem_of_In & Hx%list_elem_of_In)%list_elem_of_In%in_concat.
      rewrite Hord, branchOrder_elem in Hb. destruct Hb as [n Hn]. by exists n, b. }
    intros x y (n1 & b1 & Hb1 & Hx1)%Hin (n2 & b2 & Hb2 & Hy2)%Hin Hx%String.eqb_eq Hy%String.eqb_eq.
    apply (same_sha_same_commit _ n1 n2 b1 b2 x y Hpre Hb1 Hb2 Hx1 Hy2). congruence.
  - unfold commitsUpTo.
    destruct (commitsUpTo_in_spec order sha) as [(b & Hb & Hup)|[Hall ->]],
      (commitsUpTo_in_spec (branchOrder s) sha) as [(b' & Hb' & Hup')|[Hall' Hnil]].
    + rewrite Hord, branchOrder_elem in Hb. apply branchOrder_elem in Hb' as [n' Hn'].
      destruct Hb as [n Hn].
      exact (prefix_consistent_upTo _ n n' b b' sha _ _ Hpre Hn Hn' Hup Hup').
    + rewrite Hord in Hb. by rewrite (Hall' b Hb) in Hup.
    + rewrite <-Hord in Hb'. by rewrite (Hall b' Hb') in Hup'.
    + done.
  - apply find_perm; [|done]. intros x y Hx Hy [Hlx Hhx]%liveWithHandle_spec [Hly Hhy]%liveWithHandle_spec.
    rewrite Hids in Hx, Hy. apply list_elem_of_fmap in Hx as ([i x'] & -> & Hx%elem_of_map_to_list).
    apply list_elem_of_fmap in Hy as ([j y'] & -> & Hy%elem_of_map_to_list). simpl in *.
    assert (i = j) as <- by (eapply (wf_unique _ Hf i j x' y'); [done|done|congruence]).
    rewrite Hx in Hy. by injection Hy.
Qed.
End order.

Lemma iteration_order_irrelevant_witness :
  ∃ s, sites sample_state !! 7%N = Some s ∧
    commitsUpTo_in (branchOrder s) (sha 1) = commitsUpTo s (sha 1).
Proof.
  destruct (sites sample_state !! 7%N) as [s|] eqn:Hs; [|vm_compute in Hs; discriminate Hs].
  exists s. split; [reflexivity|].
  apply (@iteration_order_irrelevant ascii_only_unicode sample_uuid sample_clock sample_state 7%N s (branchOrder s)
    (map_to_list (sites sample_state)).*2 (sha 1) "x" sample_reachable Hs); reflexivity.
Defined.

Definition sample_log (before : string) : LogOptions := {|
  lo_SiteID := 7%N; lo_Branch := "draft"; lo_Limit := 1; lo_Before := before; lo_Path := "" |}.
Lemma GetLog_pages_witness :
  ∃ l, GetLog (sample_log (sha 2)) sample_state2 = (sample_state2, Ok l) ∧ ci_SHA <$> l = [sha 1].
Proof.
  destruct (sites sample_state2 !! 7%N) as [s|] eqn:Hs; [|vm_compute in Hs; discriminate Hs].
  assert (isLive s = true) as Hl by (vm_compute in Hs; injection Hs as <-; reflexivity).
  destruct (fs_branches s !! "draft") as [b|] eqn:Hb;
    [|vm_compute in Hs; injection Hs as <-; vm_compute in Hb; discriminate Hb].
  assert (∃ c d, rev b = [c; d] ∧ fc_sha c = sha 2 ∧ fc_sha d = sha 1) as (c & d & Hrev & Hc & Hd).
  { vm_compute in Hs. injection Hs as <-. vm_compute in Hb. injection Hb as <-.
    eexists _, _. split; [vm_compute; reflexivity|]. split; vm_compute; reflexivity. }
  assert (@reachable ascii_only_unicode sample_uuid sample_clock sample_state2) as Hr.
  { apply (@runs_reachable ascii_only_unicode sample_uuid); [apply sample_reachable|]. split; exact I. }
  destruct (@GetLog_pages ascii_only_unicode sample_uuid sample_clock (sample_log (sha 2)) sample_state2 s b 0 c
    Hr (conj Hs Hl) Hb) as (_ & _ & Hp).
  - reflexivity.
  - rewrite Hrev. reflexivity.
  - rewrite Hc. vm_compute. discriminate.
  - eexists. split; [apply Hp; rewrite Hc; reflexivity|]. rewrite Hrev.
    change (Z.to_nat (clampLimit (lo_Limit (sample_log (sha 2))))) with 1%nat. simpl.
    rewrite Hd. reflexivity.
Defined.

Definition sample_diff : DiffOptions := {|
  df_SiteID := 7%N; df_From := sha 1; df_To := "draft"; df_Path := ""; df_ContextLines := 3;
  df_NameStatus := false |}.
Lemma GetDiff_exact_witness :
  ∃ d, snd (GetDiff sample_diff sample_state2) = Ok d ∧ ∃ s, live (core sample_state2) 7%N s ∧
    (∀ p, p ∈ fd_Path <$> dr_Files d → inScope "" p = true).
Proof.
  destruct (GetDiff sample_diff sample_state2) as [f' [d|e]] eqn:Hd;
    [|apply (f_equal snd) in Hd; vm_compute in Hd; discriminate Hd].
  exists d. split; [reflexivity|].
  destruct (GetDiff_exact sample_diff sample_state2 f' d) as (s & from & Hs & _ & _ & _ & Hp);
    [vm_compute; discriminate|exact Hd|].
  exists s. split; [exact Hs|]. intros p Hin. apply (Hp p). exact Hin.
Defined.
