(* ===== verification/Http.v ===== *)
(** * The parts of net/http the source reads

    A request is the record of the fields the handlers look at.  Header names
    are kept in their canonical spelling, the one Header.Get looks up. *)

From S2P Require Import Prelude GoStrings.

Abbreviation Header := (gmap string (list string)) (only parsing).

(** Header.Get, Header.Values, Header.Set, Header.Del on canonical names *)
Definition hget (h : Header) (k : string) : string :=
  match h !! k with Some (v :: _) => v | _ => "" end.
Definition hvalues (h : Header) (k : string) : list string := default [] (h !! k).
Definition hset (h : Header) (k v : string) : Header := <[k := [v]]> h.
Definition hdel (h : Header) (k : string) : Header := delete k h.

Record Request := mkRequest {
  rMethod : string;
  rHost : string;
  rURLHost : string;
  rURLPath : string;
  rURLEscapedPath : string;
  rURLRawQuery : string;
  rHeader : Header;
  rRemoteAddr : string;
  rTLS : bool;
  rCookies : list (string * string);
}.

(** Request.Cookie: the first cookie of that name *)
Definition cookie (r : Request) (name : string) : option string :=
  snd <$> head (filter (λ c, c.1 = name) (rCookies r)).

Definition StatusOK : Z := 200.
Definition StatusCreated : Z := 201.
Definition StatusNoContent : Z := 204.
Definition StatusMovedPermanently : Z := 301.
Definition StatusFound : Z := 302.
Definition StatusSeeOther : Z := 303.
Definition StatusNotModified : Z := 304.
Definition StatusPermanentRedirect : Z := 308.
Definition StatusBadRequest : Z := 400.
Definition StatusUnauthorized : Z := 401.
Definition StatusForbidden : Z := 403.
Definition StatusNotFound : Z := 404.
Definition StatusMethodNotAllowed : Z := 405.
Definition StatusConflict : Z := 409.
Definition StatusRequestEntityTooLarge : Z := 413.
Definition StatusUnsupportedMediaType : Z := 415.
Definition StatusMisdirectedRequest : Z := 421.
Definition StatusUnprocessableEntity : Z := 422.
Definition StatusTooManyRequests : Z := 429.
Definition StatusInternalServerError : Z := 500.
Definition StatusServiceUnavailable : Z := 503.

Lemma hget_set h k v : hget (hset h k v) k = v.
Proof. unfold hget, hset. by rewrite lookup_insert_eq. Qed.
Lemma hget_set_ne h k k' v : k ≠ k' → hget (hset h k v) k' = hget h k'.
Proof. intros Hk. unfold hget, hset. by rewrite lookup_insert_ne. Qed.
Lemma hget_del h k : hget (hdel h k) k = "".
Proof. unfold hget, hdel. by rewrite lookup_delete_eq. Qed.
Lemma hget_del_ne h k k' : k ≠ k' → hget (hdel h k) k' = hget h k'.
Proof. intros Hk. unfold hget, hdel. by rewrite lookup_delete_ne. Qed.
Create HintDb http.
#[export] Hint Rewrite hget_set hget_del : http.

(** A request that only carries a Host header. *)
Definition host_request (h : string) : Request :=
  mkRequest "GET" h "" "/" "/" "" ∅ "" false [].

(** net.SplitHostPort; [None] is an error *)
Definition split_host_port (hp : string) : option (string * string) :=
  match last_index_byte ":" hp with
  | None => None
  | Some i =>
      let port := str_drop (i + 1) hp in
      if has_prefix "[" hp then
        match index_byte "]" hp with
        | None => None
        | Some e =>
            if negb (e + 1 =? i) then None
            else if contains_char "[" (str_drop 1 hp) || contains_char "]" (str_drop (e + 1) hp) then None
            else Some (str_drop 1 (str_take e hp), port)
        end
      else
        let host := str_take i hp in
        if contains_char ":" host || contains_char "[" hp || contains_char "]" hp then None
        else Some (host, port)
  end.

(** ** Responses

    What a handler has done to its ResponseWriter: the header map, the cookies
    added with SetCookie, the status and header snapshot of the first
    WriteHeader (later ones are ignored), and the body written so far. *)

Inductive SameSite := SameSiteDefault | SameSiteLax | SameSiteStrict | SameSiteNone.
Record Cookie := mkCookie {
  ckName : string; ckValue : string; ckPath : string; ckDomain : string;
  ckMaxAge : Z; ckSecure : bool; ckHttpOnly : bool; ckSameSite : SameSite;
}.
Record Response := mkResponse {
  wHeader : Header;
  wCookies : list Cookie;
  wSent : option (Z * Header);
  wBody : string;
}.
Definition newResponse : Response := mkResponse ∅ [] None "".

Definition set_header (k v : string) (w : Response) : Response :=
  mkResponse (hset (wHeader w) k v) (wCookies w) (wSent w) (wBody w).
Definition set_cookie (c : Cookie) (w : Response) : Response :=
  mkResponse (wHeader w) (wCookies w ++ [c]) (wSent w) (wBody w).
Definition write_header (status : Z) (w : Response) : Response :=
  mkResponse (wHeader w) (wCookies w)
    (match wSent w with Some s => Some s | None => Some (status, wHeader w) end) (wBody w).
(** Write sends status 200 when nothing was sent before. *)
Definition write_body (b : string) (w : Response) : Response :=
  let w := write_header StatusOK w in
  mkResponse (wHeader w) (wCookies w) (wSent w) (wBody w +:+ b).

Definition status_of (w : Response) : option Z := fst <$> wSent w.
(** A header as the client sees it. *)
Definition sent_header (w : Response) (k : string) : option string :=
  (λ s, hget s.2 k) <$> wSent w.

(** textproto.CanonicalMIMEHeaderKey *)
Definition token_char (c : ascii) : bool :=
  is_lower c || is_upper c || is_digit c || contains_char c "!#$%&'*+-.^_`|~".
Definition upper_char (c : ascii) : ascii :=
  if is_lower c then ascii_of_N (N_of_ascii c - 32) else c.
Fixpoint canon_go (up : bool) (s : string) : string :=
  match s with
  | EmptyString => ""
  | String c s =>
      String (if up then upper_char c else lower_char c) (canon_go (c =? "-")%char s)
  end.
Definition canonical_key (k : string) : string :=
  if str_forall token_char k then canon_go true k else k.

(** http.StatusText *)
Definition StatusText (code : Z) : string :=
  default "" (snd <$> head (filter (λ p, p.1 = code)
  [ (100, "Continue"); (101, "Switching Protocols"); (102, "Processing"); (103, "Early Hints");
    (200, "OK"); (201, "Created"); (202, "Accepted"); (203, "Non-Authoritative Information");
    (204, "No Content"); (205, "Reset Content"); (206, "Partial Content");
    (207, "Multi-Status"); (208, "Already Reported"); (226, "IM Used");
    (300, "Multiple Choices"); (301, "Moved Permanently"); (302, "Found"); (303, "See Other");
    (304, "Not Modified"); (305, "Use Proxy"); (307, "Temporary Redirect");
    (308, "Permanent Redirect"); (400, "Bad Request"); (401, "Unauthorized");
    (402, "Payment Required"); (403, "Forbidden"); (404, "Not Found");
    (405, "Method Not Allowed"); (406, "Not Acceptable");
    (407, "Proxy Authentication Required"); (408, "Request Timeout"); (409, "Conflict");
    (410, "Gone"); (411, "Length Required"); (412, "Precondition Failed");
    (413, "Request Entity Too Large"); (414, "Request URI Too Long");
    (415, "Unsupported Media Type"); (416, "Requested Range Not Satisfiable");
    (417, "Expectation Failed"); (418, "I'm a teapot"); (421, "Misdirected Request");
    (422, "Unprocessable Entity"); (423, "Locked"); (424, "Failed Dependency");
    (425, "Too Early"); (426, "Upgrade Required"); (428, "Precondition Required");
    (429, "Too Many Requests"); (431, "Request Header Fields Too Large");
    (451, "Unavailable For Legal Reasons"); (500, "Internal Server Error");
    (501, "Not Implemented"); (502, "Bad Gateway"); (503, "Service Unavailable");
    (504, "Gateway Timeout"); (505, "HTTP Version Not Supported");
    (506, "Variant Also Negotiates"); (507, "Insufficient Storage"); (508, "Loop Detected");
    (510, "Not Extended"); (511, "Network Authentication Required") ]%Z)).

(** ** http.TimeFormat

    [t.UTC().Format(http.TimeFormat)] of an instant given in nanoseconds since
    the epoch, by the usual conversion of a day number to a civil date. *)

Definition civil (days : Z) : Z * Z * Z :=
  (let z := days + 719468 in
   let era := z / 146097 in
   let doe := z mod 146097 in
   let yoe := (doe - doe / 1460 + doe / 36524 - doe / 146096) / 365 in
   let doy := doe - (365 * yoe + yoe / 4 - yoe / 100) in
   let mp := (5 * doy + 2) / 153 in
   let d := doy - (153 * mp + 2) / 5 + 1 in
   let m := if mp <? 10 then mp + 3 else mp - 9 in
   (yoe + era * 400 + (if m <=? 2 then 1 else 0), m, d))%Z.
Definition pad (w : nat) (n : Z) : string :=
  let d := itoa n in zeros (w - String.length d) +:+ d.
Definition weekdays : list string := ["Sun"; "Mon"; "Tue"; "Wed"; "Thu"; "Fri"; "Sat"].
Definition months : list string :=
  ["Jan"; "Feb"; "Mar"; "Apr"; "May"; "Jun"; "Jul"; "Aug"; "Sep"; "Oct"; "Nov"; "Dec"].
Definition http_time (ns : Z) : string :=
  (let s := ns / 1000000000 in
   let days := s / 86400 in
   let tod := s mod 86400 in
   let '(y, m, d) := civil days in
   default "" (weekdays !! Z.to_nat ((days + 4) mod 7)) +:+ ", " +:+ pad 2 d +:+ " " +:+
   default "" (months !! Z.to_nat (m - 1)) +:+ " " +:+ pad 4 y +:+ " " +:+
   pad 2 (tod / 3600) +:+ ":" +:+ pad 2 (tod mod 3600 / 60) +:+ ":" +:+ pad 2 (tod mod 60) +:+
   " GMT")%Z.
(** time.Time{}: January 1, year 1, 00:00:00 UTC *)
Definition zero_time : Z := (-62135596800 * 1000000000)%Z.

(** [t.UTC().Format("2006-01-02T15:04:05Z07:00")] *)
Definition rfc3339 (ns : Z) : string :=
  (let s := ns / 1000000000 in
   let tod := s mod 86400 in
   let '(y, m, d) := civil (s / 86400) in
   pad 4 y +:+ "-" +:+ pad 2 m +:+ "-" +:+ pad 2 d +:+ "T" +:+
   pad 2 (tod / 3600) +:+ ":" +:+ pad 2 (tod mod 3600 / 60) +:+ ":" +:+ pad 2 (tod mod 60) +:+ "Z")%Z.

Example rfc3339_sample : rfc3339 1136239445000000000 = "2006-01-02T22:04:05Z".
Proof. vm_compute. reflexivity. Qed.
Example http_time_sample : http_time 1136239445000000000 = "Mon, 02 Jan 2006 22:04:05 GMT".
Proof. vm_compute. reflexivity. Qed.
Example http_time_zero : http_time zero_time = "Mon, 01 Jan 0001 00:00:00 GMT".
Proof. vm_compute. reflexivity. Qed.
