(* ===== verification/Resolver.v ===== *)
(** * The request resolver (backend/internal/resolve/resolver.go)

    Classification of a request's host into control plane, project (handle and
    branch) or foreign.  The two validator interfaces are the class
    [Validators]; [builtinValidator] is the instance the composition root
    uses.  The theorems say that a project target is always well formed, that
    the control host never serves one, and that the host of a (handle, branch)
    pair resolves to that pair. *)

From S2P Require Import Prelude GoStrings Regexp SiteErrors Handle Http.

Inductive Source := SourceUnknown | SourceHost | SourcePath.

Record Target := mkTarget {
  tHandle : string;
  tBranch : string;
  tIsPreview : bool;
  tIsControl : bool;
  tSource : Source;
  tPathPrefix : string;
}.

Record ResolveError := mkRE { reStatus : Z; reCode : string; reMsg : string }.

Definition CodeBadHandle : string := "bad_handle".
Definition CodeBadBranch : string := "bad_branch".
Definition CodeNotProjectHost : string := "not_project_host".
Definition CodeMisdirected : string := "misdirected_request".
Definition CodeLabelTooLong : string := "label_too_long".
Definition CodeEmptyHost : string := "empty_host".

(** The [error] a validator returns: a ResolveError or any other error. *)
Inductive verr := VResolve (e : ResolveError) | VOther (msg : string).

Definition asResolveError (e : verr) (defaultCode : string) : ResolveError :=
  match e with
  | VResolve e => e
  | VOther m => mkRE StatusBadRequest defaultCode m
  end.

Class Validators := {
  vHandle : string → Res verr unit;
  vBranch : string → Res verr unit;
}.

Record Config := mkConfig {
  BaseDomain : string;
  ControlLabel : string;
  TrustForwardedHost : bool;
  BaseDomainFunc : option (Request → string);
}.

Definition labelRe : re := RCat (RCls alnum) (ROpt (RCat (RRep 0 61 label_char) (RCls alnum))).

Definition reservedHandles : list string :=
  ["draft"; "preview"; "published"; "www"; "api"; "internal";
   "host"; "admin"; "app"; "static"; "assets"; "mcp"].

Definition handleMinLen : nat := 1.
Definition labelMaxLen : nat := 63.

Definition splitLabel (label : string) : string * string * bool :=
  match index "--" label with
  | Some i => (str_take i label, str_drop (i + String.length "--") label, true)
  | None => (label, "published", false)
  end.

Definition firstHostToken `{GoUnicode} (v : string) : string :=
  trim_space (match index_byte "," v with Some i => str_take i v | None => v end).

Definition lowerStripPort `{GoUnicode} (host : string) : string :=
  let host := to_lower (trim_space host) in
  if (host =? "")%string then ""
  else if has_prefix "[" host then
    match index_byte "]" host with
    | Some e => str_take (e + 1) host
    | None => host
    end
  else match last_index_byte ":" host with
       | Some i => str_take i host
       | None => host
       end.

Definition builtin_ValidateHandle `{GoUnicode} (h : string) : Res verr unit :=
  let bad m := Err (VResolve (mkRE StatusBadRequest CodeBadHandle m)) in
  if (h =? "")%string then bad "empty handle"
  else if negb (h =? to_lower h)%string then bad "handle must be lowercase"
  else if (String.length h <? handleMinLen) || (labelMaxLen <? String.length h)
  then bad "handle length out of range"
  else if contains "--" h then bad ("handle must not contain " +:+ quoted "--")
  else if negb (re_match labelRe h) then bad "handle has invalid characters"
  else if existsb (λ r, (r =? h)%string) reservedHandles
  then Err (VResolve (mkRE StatusNotFound CodeNotProjectHost "reserved handle"))
  else Ok tt.

Definition builtin_ValidateBranch `{GoUnicode} (b : string) : Res verr unit :=
  let bad m := Err (VResolve (mkRE StatusBadRequest CodeBadBranch m)) in
  if (b =? "")%string then bad "empty branch"
  else if negb (b =? to_lower b)%string then bad "branch must be lowercase"
  else if (labelMaxLen <? String.length b) then bad "branch too long"
  else if contains "--" b then bad ("branch must not contain " +:+ quoted "--")
  else if negb (re_match labelRe b) then bad "branch has invalid characters"
  else Ok tt.

Definition builtinValidator `{GoUnicode} : Validators := {|
  vHandle := builtin_ValidateHandle;
  vBranch := builtin_ValidateBranch;
|}.

Record DefaultResolver := mkResolver { cfg : Config; baseSuffix : string }.

Inductive hostClass := hostForeign | hostControl | hostProject.

Section resolver.
Context `{GoUnicode} `{Validators}.

Definition NewResolverWith (c : Config) : DefaultResolver :=
  let b := to_lower (trim_space (BaseDomain c)) in
  let l := to_lower (trim_space (ControlLabel c)) in
  mkResolver (mkConfig b l (TrustForwardedHost c) (BaseDomainFunc c)) ("." +:+ b).

Definition effectiveHost (d : DefaultResolver) (r : Request) : string :=
  let xfh := hget (rHeader r) "X-Forwarded-Host" in
  if TrustForwardedHost (cfg d) && negb (xfh =? "")%string then firstHostToken xfh
  else if negb (rHost r =? "")%string then rHost r
  else rURLHost r.

Definition effectiveBase (d : DefaultResolver) (r : Request) : string * string :=
  match BaseDomainFunc (cfg d) with
  | None => (BaseDomain (cfg d), baseSuffix d)
  | Some f =>
      let base := to_lower (trim_space (f r)) in
      if (base =? "")%string then (BaseDomain (cfg d), baseSuffix d)
      else (base, "." +:+ base)
  end.

Definition classifyHost (d : DefaultResolver) (host base suffix : string)
    : Res ResolveError (hostClass * string) :=
  let ctl := ControlLabel (cfg d) in
  if (host =? base)%string then
    if (ctl =? "")%string then Ok (hostControl, "")
    else Err (mkRE StatusNotFound CodeNotProjectHost
                   "bare base domain is not a project (control label required)")
  else if negb (has_suffix suffix host) then Ok (hostForeign, "")
  else
    let label := str_take (String.length host - String.length suffix) host in
    if contains "." label
    then Err (mkRE StatusNotFound CodeNotProjectHost "nested subdomain is not a project host")
    else if negb (ctl =? "")%string && (label =? ctl)%string then Ok (hostControl, "")
    else Ok (hostProject, label).

Definition resolveProjectLabel (label : string) (src : Source) (pathPrefix : string)
    : Res ResolveError Target :=
  let '(handle, branch, isPreview) := splitLabel label in
  match vHandle handle with
  | Err e => Err (asResolveError e CodeBadHandle)
  | Ok _ =>
      let target := mkTarget handle branch isPreview false src pathPrefix in
      if isPreview then
        if (branch =? "published")%string
        then Err (mkRE StatusBadRequest CodeBadBranch "published is not addressable via --")
        else match vBranch branch with
             | Err e => Err (asResolveError e CodeBadBranch)
             | Ok _ =>
                 if labelMaxLen <? String.length handle + String.length "--" + String.length branch
                 then Err (mkRE StatusBadRequest CodeLabelTooLong
                                "handle--branch exceeds 63-char DNS label budget")
                 else Ok target
             end
      else Ok target
  end.

Definition Resolve (d : DefaultResolver) (r : Request) : Res ResolveError Target :=
  let host := lowerStripPort (effectiveHost d r) in
  if (host =? "")%string
  then Err (mkRE StatusBadRequest CodeEmptyHost "no host on request")
  else
    let '(base, suffix) := effectiveBase d r in
    match classifyHost d host base suffix with
    | Err e => Err e
    | Ok (hostControl, _) => Ok (mkTarget "" "" false true SourceHost "")
    | Ok (hostProject, label) => resolveProjectLabel label SourceHost ""
    | Ok (hostForeign, _) =>
        Err (mkRE StatusMisdirectedRequest CodeMisdirected "host not under base domain")
    end.
End resolver.

Section resolver_facts.
Context `{GoUnicode}.

Lemma splitLabel_site label :
  (splitLabel label).1 = Handle.splitLabel label ∧
  ((splitLabel label).2 = true ↔ contains doubleHyphen label = true).
Proof.
  unfold splitLabel, Handle.splitLabel, contains, doubleHyphen.
  by destruct (index "--" label).
Qed.

Lemma builtin_handle_ok h :
  builtin_ValidateHandle h = Ok tt ↔
  valid_label h ∧ contains doubleHyphen h = false ∧ h ∉ ReservedHandles.
Proof.
  rewrite <-handleRe_spec. unfold builtin_ValidateHandle. change labelRe with handleRe.
  assert (existsb (λ r, (r =? h)%string) reservedHandles = bool_decide (h ∈ ReservedHandles)) as ->.
  { apply eq_true_iff_eq. rewrite bool_decide_eq_true, existsb_exists, list_elem_of_In. split.
    - by intros (r & Hin & ->%String.eqb_eq).
    - intros Hin. exists h. by rewrite String.eqb_refl. }
  split.
  - intros Hv. case_hyp Hv. bool_hyps. done.
  - intros (Hre & Hd & Hr).
    pose proof (proj1 (handleRe_spec h) Hre) as (Hl & Hc & _).
    rewrite label_is_lower, String.eqb_refl by done. unfold doubleHyphen in Hd.
    rewrite Hd, Hre, bool_decide_eq_false_2 by done. simpl.
    rewrite (proj2 (Nat.ltb_ge _ _)), (proj2 (Nat.ltb_ge labelMaxLen _))
      by (unfold labelMaxLen, handleMinLen; lia).
    destruct (String.eqb_spec h "") as [->|]; [simpl in Hl; lia|done].
Qed.
Lemma builtin_branch_ok b :
  builtin_ValidateBranch b = Ok tt ↔ valid_label b ∧ contains doubleHyphen b = false.
Proof.
  rewrite <-handleRe_spec. unfold builtin_ValidateBranch. change labelRe with handleRe. split.
  - intros Hv. case_hyp Hv. bool_hyps. done.
  - intros (Hre & Hd).
    pose proof (proj1 (handleRe_spec b) Hre) as (Hl & Hc & _).
    rewrite label_is_lower, String.eqb_refl by done. unfold doubleHyphen in Hd.
    rewrite Hd, Hre. simpl.
    rewrite (proj2 (Nat.ltb_ge labelMaxLen _)) by (unfold labelMaxLen; lia).
    destruct (String.eqb_spec b "") as [->|]; [simpl in Hl; lia|done].
Qed.

(** The resolver's own copy of the grammar, kept so that it
  need not import the site package, is the site package's: the two handle
  gates, the two branch gates and the two label splitters agree on every
  string. *)
Theorem resolver_grammar_agrees (s : string) :
  (builtin_ValidateHandle s = Ok tt ↔ ValidateHandleForResolver s = Ok tt) ∧
  (builtin_ValidateBranch s = Ok tt ↔ ValidateBranchName s = Ok tt) ∧
  (splitLabel s).1 = Handle.splitLabel s.
Proof.
  rewrite builtin_handle_ok, builtin_branch_ok. unfold ValidateHandleForResolver, ValidateBranchName.
  rewrite validateHandleLen_ok, validateBranchName_ok.
  split_and!; [|done|apply splitLabel_site]. unfold HandleResolverMinLen.
  split; [|by intros (_ & ?)]. intros (Hv & Hd & Hr). split_and!; [|done..].
  by destruct Hv as ((? & _) & _).
Qed.

(** ** What a resolved target promises *)

Lemma has_suffix_take suf s :
  has_suffix suf s = true → s = str_take (String.length s - String.length suf) s +:+ suf.
Proof.
  intros (r & ->)%has_suffix_spec. rewrite str_length_app, Nat.add_sub.
  by rewrite str_take_app.
Qed.

Lemma splitLabel_inv label h b p :
  splitLabel label = (h, b, p) → b = "published" → p = false ∨ label = h +:+ "--" +:+ b.
Proof.
  unfold splitLabel. destruct (index "--" label) as [i|] eqn:Hi; intros [= <- <- <-] _; [|by left].
  right. by apply index_Some.
Qed.

(** A valid handle and branch, and the label they are served under. *)
Definition served_as (label h b : string) : Prop :=
  label = previewSubdomain h b ∧ String.length label ≤ 63 ∧
  valid_label h ∧ contains doubleHyphen h = false ∧ h ∉ ReservedHandles ∧
  valid_label b ∧ contains doubleHyphen b = false.

#[local] Existing Instance builtinValidator.

Lemma resolveProjectLabel_ok label src pp t :
  resolveProjectLabel label src pp = Ok t →
  served_as label (tHandle t) (tBranch t) ∧
  tIsControl t = false ∧ tIsPreview t = negb (tBranch t =? BranchPublished)%string ∧
  tSource t = src ∧ tPathPrefix t = pp.
Proof.
  unfold resolveProjectLabel. destruct (splitLabel label) as [[h b] p] eqn:Hs.
  cbn [vHandle vBranch builtinValidator].
  destruct (builtin_ValidateHandle h) as [[]|] eqn:Hvh; [|done].
  apply builtin_handle_ok in Hvh as (Hh & Hd & Hr).
  revert Hs. unfold splitLabel, served_as, previewSubdomain, BranchPublished.
  destruct (index "--" label) as [i|] eqn:Hi; intros [= <- <- <-].
  - apply index_Some in Hi. set (h := str_take _ _) in *. set (b := str_drop _ _) in *.
    destruct (String.eqb_spec b "published") as [|Hb]; [done|].
    destruct (builtin_ValidateBranch b) as [[]|] eqn:Hvb; [|done].
    apply builtin_branch_ok in Hvb as (Hvb & Hdb).
    destruct (Nat.ltb_spec labelMaxLen (String.length h + String.length "--" + String.length b)) as [|Hlen]; [done|].
    intros [= <-]. cbn [tHandle tBranch tIsControl tIsPreview tSource tPathPrefix].
    apply String.eqb_neq in Hb as ->.
    unfold labelMaxLen in Hlen. simpl in Hlen. split_and!; try done.
    rewrite Hi, !str_length_app. simpl. lia.
  - intros [= <-]. cbn [tHandle tBranch tIsControl tIsPreview tSource tPathPrefix].
    rewrite String.eqb_refl. destruct Hh as (? & ?).
    split_and!; try done; [lia|apply handleRe_spec; vm_compute; done].
Qed.

(** C24 (safety): what a resolved request can be.  Whatever the headers, the
  base-domain configuration and the request path, [Resolve] with the
  production validators returns either the control plane, for the control
  host exactly, or a project target whose handle and branch are valid, whose
  host is the pair's own label under the base domain in effect, whose label
  fits one DNS label and is not the control label, and whose path prefix is
  empty.  The path of the request is never part of the decision. *)
Theorem Resolve_sound (c : Config) (r : Request) (t : Target) :
  let d := NewResolverWith c in
  let host := lowerStripPort (effectiveHost d r) in
  let '(base, suffix) := effectiveBase d r in
  Resolve d r = Ok t →
  if tIsControl t
  then t = mkTarget "" "" false true SourceHost "" ∧
       (ControlLabel (cfg d) = "" ∧ host = base ∨
        ControlLabel (cfg d) ≠ "" ∧ host = ControlLabel (cfg d) +:+ suffix)
  else ∃ label,
       host = label +:+ suffix ∧ served_as label (tHandle t) (tBranch t) ∧ host ≠ base ∧
       (ControlLabel (cfg d) = "" ∨ label ≠ ControlLabel (cfg d)) ∧
       tIsPreview t = negb (tBranch t =? BranchPublished)%string ∧ tPathPrefix t = "".
Proof.
  intros d host. destruct (effectiveBase d r) as [base suffix] eqn:Hb.
  unfold Resolve. fold host. rewrite Hb. destruct (String.eqb_spec host ""); [done|].
  unfold classifyHost. set (ctl := ControlLabel (cfg d)).
  destruct (String.eqb_spec host base) as [->|Hne].
  { destruct (String.eqb_spec ctl "") as [|]; [|done]. intros [= <-]. simpl. auto. }
  destruct (has_suffix suffix host) eqn:Hsuf; [|done]. apply has_suffix_take in Hsuf.
  set (label := str_take _ host) in *. cbn [negb].
  destruct (contains "." label); [done|].
  destruct (String.eqb_spec ctl "") as [Hc|Hc]; cbn [negb andb];
    [|destruct (String.eqb_spec label ctl) as [Hl|Hl]].
  - intros (Hs & -> & ? & _ & ?)%resolveProjectLabel_ok. exists label. auto 10.
  - intros [= <-]. cbn [tIsControl]. split; [done|]. right. split; [done|]. by rewrite <-Hl.
  - intros (Hs & -> & ? & _ & ?)%resolveProjectLabel_ok. exists label. auto 10.
Qed.

(** ** The host of a pair resolves to the pair *)

Definition host_char (c : ascii) : bool := label_char c || (c =? ".")%char.

Lemma host_char_facts c :
  host_char c = true →
  is_ascii c = true ∧ is_space c = false ∧ lower_char c = c ∧ (":" =? c)%char = false ∧
  ("[" =? c)%char = false ∧ (":" =? c)%char = false.
Proof. destruct c as [[] [] [] [] [] [] [] []]; vm_compute; by intros. Qed.

(** What follows the host name: nothing, or a port. *)
Definition port_suffix (p : string) : Prop :=
  p = "" ∨ ∃ n, p = ":" +:+ n ∧ str_forall is_digit n = true.

Lemma digit_facts c :
  is_digit c = true →
  is_ascii c = true ∧ is_space c = false ∧ lower_char c = c ∧ (":" =? c)%char = false.
Proof. destruct c as [[] [] [] [] [] [] [] []]; vm_compute; by intros. Qed.

Lemma lowerStripPort_host x p :
  str_forall host_char x = true → port_suffix p → x ≠ "" → lowerStripPort (x +:+ p) = x.
Proof.
  intros Hx Hp Hne.
  assert (∀ q : ascii → bool, (∀ c, host_char c = true → q c = true) →
    (∀ c, is_digit c = true → q c = true) → q ":"%char = true → str_forall q (x +:+ p) = true) as Hq.
  { intros q Hh Hd Hc. rewrite str_forall_app, (str_forall_impl host_char q) by done. simpl.
    destruct Hp as [->|(n & -> & Hn)]; [done|]. simpl.
    by rewrite Hc, (str_forall_impl is_digit q). }
  assert (to_lower (trim_space (x +:+ p)) = x +:+ p) as Hlow.
  { assert (all_ascii (x +:+ p) = true) as Ha.
    { apply Hq; [by intros c (? & _)%host_char_facts|by intros c (? & _)%digit_facts|done]. }
    unfold to_lower, trim_space. rewrite Ha, trim_with_none, Ha.
    - apply str_map_id, Hq; [intros c (_ & _ & E & _)%host_char_facts|
        intros c (_ & _ & E & _)%digit_facts|done]; by rewrite bool_decide_eq_true.
    - apply Hq; [by intros c (_ & -> & _)%host_char_facts|
        by intros c (_ & -> & _)%digit_facts|done]. }
  unfold lowerStripPort. rewrite Hlow.
  destruct x as [|c x]; [done|]. cbn [String.append].
  assert (has_prefix "[" (String c (x +:+ p)) = false) as Hbr.
  { cbn [str_forall] in Hx. cbn [has_prefix]. apply andb_true_iff in Hx as [(_ & _ & _ & _ & -> & _)%host_char_facts _]. done. }
  rewrite Hbr. rewrite <-str_app_cons. set (y := String c x) in *.
  assert (y +:+ p ≠ "") as E by done. apply String.eqb_neq in E as ->.
  assert (no_char ":" y = true) as Hy.
  { eapply str_forall_impl, Hx. by intros d (_ & _ & _ & -> & _)%host_char_facts. }
  destruct Hp as [->|(n & -> & Hn)].
  - by rewrite str_app_nil_r, last_index_none.
  - change (":" +:+ n) with (String ":" n). rewrite last_index_app; [by apply str_take_app|].
    eapply str_forall_impl, Hn. by intros d (_ & _ & _ & ->)%digit_facts.
Qed.

Lemma label_no_dot l : str_forall label_char l = true → contains "." l = false.
Proof.
  intros Hl. apply not_true_iff_false. intros (a & b & ->)%contains_spec.
  rewrite !str_forall_app in Hl. apply andb_true_iff in Hl as [_ [Hd _]%andb_true_iff]. done.
Qed.

Lemma splitLabel_label h b :
  valid_label h → contains doubleHyphen h = false →
  splitLabel (previewSubdomain h b) = (h, b, negb (b =? BranchPublished)%string).
Proof.
  intros Hh Hd. unfold splitLabel, previewSubdomain.
  destruct (String.eqb_spec b BranchPublished) as [->|_].
  - unfold contains in Hd. fold doubleHyphen. by destruct (index doubleHyphen h).
  - fold doubleHyphen.
    rewrite index_after_label by (done || intros r; by apply label_no_dash_end).
    rewrite str_take_app, <-str_length_app, <-str_app_assoc, str_drop_app. done.
Qed.

Lemma resolveProjectLabel_served h b src :
  served_as (previewSubdomain h b) h b →
  resolveProjectLabel (previewSubdomain h b) src "" =
  Ok (mkTarget h b (negb (b =? BranchPublished)%string) false src "").
Proof.
  intros (_ & Hlen & Hh & Hd & Hr & Hb & Hdb). unfold resolveProjectLabel.
  rewrite splitLabel_label by done. cbn [vHandle vBranch builtinValidator].
  rewrite (proj2 (builtin_handle_ok h)), (proj2 (builtin_branch_ok b)) by done.
  revert Hlen. unfold previewSubdomain, BranchPublished, doubleHyphen.
  destruct (b =? "published")%string; [done|]. cbn [negb]. rewrite !str_length_app.
  intros Hlen. destruct (Nat.ltb_spec labelMaxLen (String.length h + String.length "--" + String.length b))
    as [Hlt|]; [|done]. unfold labelMaxLen in Hlt. simpl in Hlt, Hlen. lia.
Qed.

(** Every project host that exists is reachable.  Whatever
  non-project configuration is in force (forwarded or direct host, static or
  dynamic base domain, with or without a control label), a request whose
  effective host is the label of a valid (handle, branch) pair under the base
  domain, with or without a port, resolves to that pair, unless the operator
  has made that very label the control label. *)
Theorem Resolve_complete (c : Config) (r : Request) (h b base port : string) :
  let d := NewResolverWith c in
  effectiveHost d r = (previewSubdomain h b +:+ "." +:+ base) +:+ port →
  effectiveBase d r = (base, "." +:+ base) →
  str_forall host_char base = true → port_suffix port →
  ValidateHandleForResolver h = Ok tt → ValidateBranchName b = Ok tt →
  String.length (previewSubdomain h b) ≤ 63 →
  ControlLabel (cfg d) ≠ previewSubdomain h b →
  Resolve d r = Ok (mkTarget h b (negb (b =? BranchPublished)%string) false SourceHost "").
Proof.
  intros d Hhost Hbase Hbc Hport Hh Hb Hlen Hctl.
  apply validateHandleLen_ok in Hh as (_ & Hh & Hd & Hr).
  apply validateBranchName_ok in Hb as (Hb & Hdb).
  set (l := previewSubdomain h b) in *.
  assert (str_forall label_char l = true) as Hl
    by (apply preview_chars; [apply Hh|apply Hb]).
  assert (str_forall host_char (l +:+ "." +:+ base) = true) as Hc.
  { rewrite str_forall_app, (str_forall_impl label_char host_char); [done| |done].
    unfold host_char. by intros ? ->. }
  assert (l +:+ "." +:+ base ≠ "") as Hne by (by intros [_ [=]]%str_app_eq_nil).
  unfold Resolve. rewrite Hhost, lowerStripPort_host, Hbase by done.
  apply String.eqb_neq in Hne as ->. unfold classifyHost.
  assert (l +:+ "." +:+ base ≠ base) as Hnb.
  { intros E%(f_equal String.length). rewrite !str_length_app in E. simpl in E. lia. }
  apply String.eqb_neq in Hnb as ->.
  rewrite (proj2 (has_suffix_spec _ _)) by (by exists l).
  rewrite (str_length_app l), Nat.add_sub, str_take_app, label_no_dot by done. cbn [negb].
  apply not_eq_sym, String.eqb_neq in Hctl as ->. rewrite andb_false_r.
  by apply resolveProjectLabel_served.
Qed.
End resolver_facts.

Definition sample_config : Config := mkConfig "Hosting.Example.com" "app" true None.

Lemma Resolve_complete_witness :
  let _ := ascii_only_unicode in let _ := builtinValidator in
  Resolve (NewResolverWith sample_config) (host_request "expense-calc--draft.hosting.example.com:8080")
  = Ok (mkTarget "expense-calc" "draft" true false SourceHost "").
Proof.
  pose (U := ascii_only_unicode). intros ??.
  apply (@Resolve_complete U sample_config _ "expense-calc" "draft" "hosting.example.com" ":8080");
    [vm_compute; reflexivity..| | | | |vm_compute; intros [=]].
  - right. exists "8080". split; reflexivity.
  - vm_compute; reflexivity.
  - vm_compute; reflexivity.
  - vm_compute. lia.
Defined.

Lemma Resolve_sound_witness :
  let U := ascii_only_unicode in let V := builtinValidator in
  let d := NewResolverWith sample_config in
  let t := mkTarget "expense-calc" "draft" true false SourceHost "" in
  let r := host_request "expense-calc--draft.hosting.example.com" in
  Resolve d r = Ok t ∧ if tIsControl t then False else tIsPreview t = true.
Proof.
  intros U V d t r. pose proof (@Resolve_sound U sample_config r t) as Hs.
  assert (Resolve d r = Ok t) as Hr by (vm_compute; reflexivity). split; [exact Hr|].
  destruct (Hs Hr) as (_ & _ & _ & _ & _ & Hp & _). rewrite Hp. vm_compute. reflexivity.
Defined.
