(* ===== verification/ServeHeaders.v ===== *)
(** * Security headers and base-href rewriting (serve/headers.go, basehref.go)

    The Content-Security-Policy builder, the header set written on every
    data-plane response, and the path-mode HTML rewrite.  A Go map iterated with
    [range] is given as the list of its pairs in the order the run visits
    them. *)

From S2P Require Import Prelude GoStrings Http Resolver.

Definition defaultConnectSrc : string := "*".
Definition defaultReferrerPolicy : string := "strict-origin-when-cross-origin".
Definition defaultPermissionsPolicy : string :=
  "geolocation=(), microphone=(), camera=(), payment=(), usb=(), interest-cohort=()".
Definition defaultFrameAncestors : string := "'self'".
Definition defaultCrossOriginResourcePolicy : string := "same-site".
Definition serverBanner : string := "kotoji".
Definition svgCSP : string := "script-src 'none'".

Record SecurityHeaderConfig := mkSec {
  CSP : string;
  ConnectSrc : string;
  TopLevelSandbox : bool;
  ReferrerPolicy : string;
  PermissionsPolicy : string;
  FrameAncestors : string;
  FrameAncestorsControlOrigin : string;
  CrossOriginResourcePolicy : string;
  ExtraHeaders : list (string * string);
}.

Definition or_default (s d : string) : string := if (s =? "")%string then d else s.

(** [frame-ancestors] when the field is empty: itself and the control origin *)
Definition frameAncestorsOf (c : SecurityHeaderConfig) : string :=
  if (FrameAncestors c =? "")%string then
    if negb (FrameAncestorsControlOrigin c =? "")%string
    then defaultFrameAncestors +:+ " " +:+ FrameAncestorsControlOrigin c
    else defaultFrameAncestors
  else FrameAncestors c.

Definition buildCSP (c : SecurityHeaderConfig) : string :=
  let connect := or_default (ConnectSrc c) defaultConnectSrc in
  let frameAncestors := frameAncestorsOf c in
  let directives :=
    [ "default-src 'self'";
      "script-src 'self' 'unsafe-inline' 'unsafe-eval'";
      "style-src 'self' 'unsafe-inline'";
      "img-src 'self' data: blob:";
      "font-src 'self' data:";
      "connect-src " +:+ connect;
      "media-src 'self' data: blob:";
      "object-src 'none'";
      "base-uri 'self'";
      "form-action 'self'";
      "frame-ancestors " +:+ frameAncestors ] in
  let directives :=
    if TopLevelSandbox c
    then directives ++ ["sandbox allow-scripts allow-forms allow-popups allow-modals allow-downloads allow-same-origin"]
    else directives in
  join "; " directives.

Definition DefaultSecurityHeaderConfig : SecurityHeaderConfig :=
  let c := mkSec "" defaultConnectSrc false defaultReferrerPolicy defaultPermissionsPolicy
                 defaultFrameAncestors "" defaultCrossOriginResourcePolicy [] in
  mkSec (buildCSP c) defaultConnectSrc false defaultReferrerPolicy defaultPermissionsPolicy
        defaultFrameAncestors "" defaultCrossOriginResourcePolicy [].

Definition sec_normalize (c : SecurityHeaderConfig) : SecurityHeaderConfig :=
  let c' csp := mkSec csp (or_default (ConnectSrc c) defaultConnectSrc) (TopLevelSandbox c)
    (or_default (ReferrerPolicy c) defaultReferrerPolicy)
    (or_default (PermissionsPolicy c) defaultPermissionsPolicy)
    (frameAncestorsOf c) (FrameAncestorsControlOrigin c)
    (or_default (CrossOriginResourcePolicy c) defaultCrossOriginResourcePolicy)
    (ExtraHeaders c) in
  c' (if (CSP c =? "")%string then buildCSP (c' (CSP c)) else CSP c).

Definition DefaultSecurityHeaderConfigForControl (controlOrigin : string) : SecurityHeaderConfig :=
  sec_normalize (mkSec "" defaultConnectSrc false defaultReferrerPolicy defaultPermissionsPolicy
                       "" controlOrigin defaultCrossOriginResourcePolicy []).

Definition applySecurityHeaders (c : SecurityHeaderConfig) (isSVG : bool) (w : Response) : Response :=
  let csp := if isSVG then svgCSP else CSP c in
  let w := set_header "Content-Security-Policy" csp w in
  let w := set_header "X-Content-Type-Options" "nosniff" w in
  let w := set_header "Referrer-Policy" (ReferrerPolicy c) w in
  let w := set_header "Permissions-Policy" (PermissionsPolicy c) w in
  let w := set_header "Cross-Origin-Opener-Policy" "same-origin" w in
  let corp := or_default (CrossOriginResourcePolicy c) defaultCrossOriginResourcePolicy in
  let w := set_header "Cross-Origin-Resource-Policy" corp w in
  let w := set_header "Server" serverBanner w in
  foldl (λ w kv, set_header (canonical_key kv.1) kv.2 w) w (ExtraHeaders c).

(** ** basehref.go

    Every slice expression of the source is bounds-checked: [None] is a
    run-time panic.  [bytes.ToLower] may change the length of non-ASCII text, so
    the indices found in the lowercased copy need not be indices of the body. *)

Definition baseHrefScanLimit : nat := Z.to_nat (64 * 1024).

Definition isASCIISpace (c : ascii) : bool :=
  existsb (λ d, (c =? d)%char) [" "%char; "009"%char; "010"%char; "013"%char; "012"%char].

Definition metaCharsetEnd (lower : bytes) (from : nat) : option nat :=
  let rest := str_drop from lower in
  let i := from + (String.length rest - String.length (trim_left isASCIISpace rest)) in
  if negb (has_prefix "<meta" (str_drop i lower)) then None
  else match index_byte ">" (str_drop i lower) with
       | None => None
       | Some gt =>
           let metaTag := str_take (gt + 1) (str_drop i lower) in
           if contains "charset" metaTag then Some (i + gt + 1) else None
       end.

(** The byte after ["<base"] ends the tag name. *)
Definition base_boundary (lower : bytes) (after : nat) : bool :=
  match str_drop after lower with
  | EmptyString => true
  | String c _ =>
      existsb (λ d, (c =? d)%char) [" "%char; ">"%char; "009"%char; "010"%char; "013"%char; "/"%char]
  end.

Definition maybeInjectBaseHref `{GoUnicode} (body : bytes) (t : Target) (InjectBaseHref : bool)
    : option (bytes * bool) :=
  if negb (match tSource t with SourcePath => true | _ => false end) || negb InjectBaseHref
     || (tPathPrefix t =? "")%string
  then Some (body, false)
  else
    let scan := str_take baseHrefScanLimit body in
    let lower := to_lower scan in
    let has_base :=
      match index "<base" lower with
      | Some i => base_boundary lower (i + String.length "<base")
      | None => false
      end in
    if has_base then Some (body, false)
    else match index "<head" lower with
         | None => Some (body, false)
         | Some headIdx =>
             match index_byte ">" (str_drop headIdx lower) with
             | None => Some (body, false)
             | Some gt =>
                 let insertAt := headIdx + gt + 1 in
                 let insertAt :=
                   match metaCharsetEnd lower insertAt with Some e => e | None => insertAt end in
                 let tag := "<base href=" +:+ quoted (tPathPrefix t +:+ "/") +:+ ">" in
                 if String.length body <? insertAt then None
                 else Some (str_take insertAt body +:+ tag +:+ str_drop insertAt body, true)
             end
         end.
