(* ===== verification/Encoding.v ===== *)
(** * The decoders and encoders of the Go standard library the source uses

    encoding/base64, encoding/hex, strconv.ParseInt and the query half of
    net/url, with the round trips the grants, sealed secrets and cookies rely
    on. *)

From S2P Require Import Prelude GoStrings.

(** ** encoding/base64 *)

Definition b64_std : string := "ABCDEFGHIJKLMNOPQRSTUVWXYZabcdefghijklmnopqrstuvwxyz0123456789+/".
Definition b64_url : string := "ABCDEFGHIJKLMNOPQRSTUVWXYZabcdefghijklmnopqrstuvwxyz0123456789-_".

Definition sextet (al : string) (n : N) : ascii := default NUL (String.get (N.to_nat n) al).
Definition sextet_value (al : string) (c : ascii) : option N := N.of_nat <$> index_byte c al.

(** EncodeToString, with ([pad]) or without (Raw) padding *)
Fixpoint b64_encode (al : string) (pad : bool) (s : bytes) : string :=
  match s with
  | EmptyString => ""
  | String a EmptyString =>
      let n := (N_of_ascii a * 16)%N in
      String (sextet al (n / 64)) (String (sextet al (n mod 64)) (if pad then "==" else ""))
  | String a (String b EmptyString) =>
      let n := ((N_of_ascii a * 256 + N_of_ascii b) * 4)%N in
      String (sextet al (n / 4096)) (String (sextet al (n / 64 mod 64))
        (String (sextet al (n mod 64)) (if pad then "=" else "")))
  | String a (String b (String c s)) =>
      let n := (N_of_ascii a * 65536 + N_of_ascii b * 256 + N_of_ascii c)%N in
      String (sextet al (n / 262144)) (String (sextet al (n / 4096 mod 64))
        (String (sextet al (n / 64 mod 64)) (String (sextet al (n mod 64)) (b64_encode al pad s))))
  end.

Definition byte2 (v1 v2 : N) : bytes := String (ascii_of_N ((v1 * 64 + v2) / 16)) "".
Definition byte3 (v1 v2 v3 : N) : bytes :=
  let n := ((v1 * 4096 + v2 * 64 + v3) / 4)%N in
  String (ascii_of_N (n / 256)) (String (ascii_of_N (n mod 256)) "").
Definition byte4 (v1 v2 v3 v4 : N) : bytes :=
  let n := (v1 * 262144 + v2 * 4096 + v3 * 64 + v4)%N in
  String (ascii_of_N (n / 65536)) (String (ascii_of_N (n / 256 mod 256))
    (String (ascii_of_N (n mod 256)) "")).

Fixpoint b64_go (al : string) (pad : bool) (s : string) : option bytes :=
  match s with
  | EmptyString => Some ""
  | String c1 (String c2 (String c3 (String c4 r))) =>
      match sextet_value al c1, sextet_value al c2, sextet_value al c3, sextet_value al c4 with
      | Some v1, Some v2, Some v3, Some v4 => String.append (byte4 v1 v2 v3 v4) <$> b64_go al pad r
      | Some v1, Some v2, Some v3, None =>
          if pad && (c4 =? "=")%char && (r =? "")%string then Some (byte3 v1 v2 v3) else None
      | Some v1, Some v2, None, None =>
          if pad && (c3 =? "=")%char && (c4 =? "=")%char && (r =? "")%string
          then Some (byte2 v1 v2) else None
      | _, _, _, _ => None
      end
  | String c1 (String c2 (String c3 EmptyString)) =>
      match pad, sextet_value al c1, sextet_value al c2, sextet_value al c3 with
      | false, Some v1, Some v2, Some v3 => Some (byte3 v1 v2 v3)
      | _, _, _, _ => None
      end
  | String c1 (String c2 EmptyString) =>
      match pad, sextet_value al c1, sextet_value al c2 with
      | false, Some v1, Some v2 => Some (byte2 v1 v2)
      | _, _, _ => None
      end
  | String _ EmptyString => None
  end.
(** Line breaks are skipped. *)
Fixpoint str_filter (p : ascii → bool) (s : string) : string :=
  match s with
  | EmptyString => ""
  | String c s => if p c then String c (str_filter p s) else str_filter p s
  end.
Definition not_newline (c : ascii) : bool := negb ((c =? "010")%char || (c =? "013")%char).
Definition b64_decode (al : string) (pad : bool) (s : string) : option bytes :=
  b64_go al pad (str_filter not_newline s).

(** ** encoding/hex: DecodeString and EncodeToString *)

Definition hex_value (c : ascii) : option N :=
  let n := N_of_ascii c in
  if is_digit c then Some (n - 48)%N
  else if char_in "a" "f" c then Some (n - 87)%N
  else if char_in "A" "F" c then Some (n - 55)%N
  else None.
Fixpoint hex_decode (s : string) : option bytes :=
  match s with
  | EmptyString => Some ""
  | String a (String b r) =>
      match hex_value a, hex_value b with
      | Some x, Some y => String (ascii_of_N (x * 16 + y)) <$> hex_decode r
      | _, _ => None
      end
  | _ => None
  end.
Fixpoint hex_encode (s : bytes) : string :=
  match s with
  | EmptyString => ""
  | String c s =>
      String (digit_char (N_of_ascii c / 16)) (String (digit_char (N_of_ascii c mod 16)) (hex_encode s))
  end.

(** ** strconv.ParseInt(s, 10, 64) *)

Definition parse_uint (s : string) : option N :=
  if (s =? "")%string || negb (str_forall is_digit s) then None
  else Some (digits_val 10 0 s).
Definition parse_int (s : string) : option Z :=
  match s with
  | EmptyString => None
  | String c r =>
      let '(neg, body) :=
        if (c =? "+")%char then (false, r) else if (c =? "-")%char then (true, r) else (false, s) in
      match parse_uint body with
      | Some n =>
          if neg then if (2 ^ 63 <? Z.of_N n)%Z then None else Some (- Z.of_N n)%Z
          else if (2 ^ 63 <=? Z.of_N n)%Z then None else Some (Z.of_N n)
      | None => None
      end
  end.

(** ** net/url: QueryUnescape and Values.Get of Query() *)

Fixpoint query_unescape (s : string) : option string :=
  match s with
  | EmptyString => Some ""
  | String c r =>
      if (c =? "%")%char then
        match r with
        | String a (String b r) =>
            match hex_value a, hex_value b with
            | Some x, Some y => String (ascii_of_N (x * 16 + y)) <$> query_unescape r
            | _, _ => None
            end
        | _ => None
        end
      else String (if (c =? "+")%char then " "%char else c) <$> query_unescape r
  end.
(** One [&]-separated piece: pieces that hold a semicolon, are empty or do not
    unescape are dropped. *)
Definition query_pair (piece : string) : option (string * string) :=
  if contains_char ";" piece || (piece =? "")%string then None
  else
    let '(k, v, _) := cut "=" piece in
    match query_unescape k, query_unescape v with
    | Some k, Some v => Some (k, v)
    | _, _ => None
    end.
Definition parse_query (q : string) : list (string * string) := omap query_pair (split "&" q).
Definition query_get (q k : string) : string :=
  default "" (snd <$> head (filter (λ p, p.1 = k) (parse_query q))).

(** ** Facts *)

Lemma sextet_value_sextet al n :
  al = b64_std ∨ al = b64_url → (n < 64)%N → sextet_value al (sextet al n) = Some n.
Proof.
  intros Hal Hn.
  assert (forallb (λ i, bool_decide (sextet_value al (sextet al (N.of_nat i)) = Some (N.of_nat i)))
            (seq 0 64) = true) as Hall by (destruct Hal as [-> | ->]; vm_compute; done).
  rewrite forallb_forall in Hall. specialize (Hall (N.to_nat n)).
  rewrite N2Nat.id in Hall. eapply bool_decide_eq_true, Hall, in_seq. lia.
Qed.

Lemma sextet_not_newline al n :
  al = b64_std ∨ al = b64_url → (n < 64)%N →
  not_newline (sextet al n) = true ∧ (":" =? sextet al n)%char = false ∧
  (sextet al n =? "=")%char = false.
Proof.
  intros Hal Hn.
  assert (forallb (λ i, not_newline (sextet al (N.of_nat i)) &&
            negb (":" =? sextet al (N.of_nat i))%char && negb (sextet al (N.of_nat i) =? "=")%char)
            (seq 0 64) = true) as Hall by (destruct Hal as [-> | ->]; vm_compute; done).
  rewrite forallb_forall in Hall. specialize (Hall (N.to_nat n)).
  rewrite N2Nat.id in Hall. destruct (proj1 (andb_true_iff _ _) (Hall ltac:(apply in_seq; lia))) as [H1 H2].
  bool_hyps. auto.
Qed.

Lemma N_of_ascii_lt c : (N_of_ascii c < 256)%N.
Proof. apply N_ascii_bounded. Qed.

(** Strings are handled three bytes at a time. *)
Lemma string_ind3 (P : string → Prop) :
  P "" → (∀ a, P (String a "")) → (∀ a b, P (String a (String b ""))) →
  (∀ a b c s, P s → P (String a (String b (String c s)))) → ∀ s, P s.
Proof.
  intros H0 H1 H2 H3.
  assert (∀ n s, String.length s ≤ n → P s) as H; [|by intros s; eapply H].
  induction n as [|n IH]; intros [|a [|b [|c s]]]; simpl; intros Hl; auto; try lia.
  apply H3, IH. lia.
Qed.

Ltac divmod := zify; Z.to_euclidean_division_equations; lia.
Lemma ascii_eq_N c n : n = N_of_ascii c → ascii_of_N n = c.
Proof. intros ->. apply ascii_N_embedding. Qed.

Lemma byte2_ok a n : n = (N_of_ascii a * 16)%N → byte2 (n / 64) (n mod 64) = String a "".
Proof.
  intros ->. unfold byte2. f_equal. apply ascii_eq_N. pose proof (N_of_ascii_lt a). divmod.
Qed.
Lemma byte3_ok a b n :
  n = ((N_of_ascii a * 256 + N_of_ascii b) * 4)%N →
  byte3 (n / 4096) (n / 64 mod 64) (n mod 64) = String a (String b "").
Proof.
  intros ->. unfold byte3. pose proof (N_of_ascii_lt a). pose proof (N_of_ascii_lt b).
  f_equal; [|f_equal]; apply ascii_eq_N; divmod.
Qed.
Lemma sextets4 n :
  (n / 262144 * 262144 + n / 4096 mod 64 * 4096 + n / 64 mod 64 * 64 + n mod 64 = n)%N.
Proof. divmod. Qed.
Lemma byte4_ok a b c n :
  n = (N_of_ascii a * 65536 + N_of_ascii b * 256 + N_of_ascii c)%N →
  byte4 (n / 262144) (n / 4096 mod 64) (n / 64 mod 64) (n mod 64) = String a (String b (String c "")).
Proof.
  intros ->. unfold byte4. rewrite sextets4.
  pose proof (N_of_ascii_lt a). pose proof (N_of_ascii_lt b). pose proof (N_of_ascii_lt c).
  f_equal; [|f_equal; [|f_equal]]; apply ascii_eq_N; divmod.
Qed.

Section b64.
Context (al : string) (pad : bool) (Hal : al = b64_std ∨ al = b64_url).

Lemma b64_go_encode s : b64_go al pad (b64_encode al pad s) = Some s.
Proof.
  assert (∀ n, (n < 64)%N → sextet_value al (sextet al n) = Some n) as Hv
    by (intros; by apply sextet_value_sextet).
  assert (sextet_value al "=" = None) as Heq by (by destruct Hal as [-> | ->]).
  induction s as [|a|a b|a b c s IH] using string_ind3.
  - done.
  - pose proof (N_of_ascii_lt a). cbn [b64_encode].
    set (n := (N_of_ascii a * 16)%N). rewrite <-(byte2_ok a n) by done.
    destruct pad; cbn [b64_go]; rewrite !Hv by (unfold n; divmod); [by rewrite Heq|done].
  - pose proof (N_of_ascii_lt a). pose proof (N_of_ascii_lt b). cbn [b64_encode].
    set (n := ((N_of_ascii a * 256 + N_of_ascii b) * 4)%N). rewrite <-(byte3_ok a b n) by done.
    destruct pad; cbn [b64_go]; rewrite !Hv by (unfold n; divmod); [by rewrite Heq|done].
  - pose proof (N_of_ascii_lt a). pose proof (N_of_ascii_lt b). pose proof (N_of_ascii_lt c).
    cbn [b64_encode].
    set (n := (N_of_ascii a * 65536 + N_of_ascii b * 256 + N_of_ascii c)%N).
    cbn [b64_go]. rewrite !Hv by (unfold n; divmod). rewrite IH. cbn [fmap option_fmap option_map].
    by rewrite (byte4_ok a b c n).
Qed.

Lemma b64_encode_forall (q : ascii → bool) s :
  (∀ n, (n < 64)%N → q (sextet al n) = true) → (pad = true → q "="%char = true) →
  str_forall q (b64_encode al pad s) = true.
Proof.
  intros Hq Hp. induction s as [|a|a b|a b c s IH] using string_ind3.
  - done.
  - pose proof (N_of_ascii_lt a). cbn [b64_encode str_forall].
    rewrite !Hq by divmod. destruct pad; [|done]. simpl. by rewrite Hp.
  - pose proof (N_of_ascii_lt a). pose proof (N_of_ascii_lt b). cbn [b64_encode str_forall].
    rewrite !Hq by divmod. destruct pad; [|done]. simpl. by rewrite Hp.
  - pose proof (N_of_ascii_lt a). pose proof (N_of_ascii_lt b). pose proof (N_of_ascii_lt c).
    cbn [b64_encode str_forall]. by rewrite !Hq, IH by divmod.
Qed.

Lemma str_filter_all p s : str_forall p s = true → str_filter p s = s.
Proof.
  induction s as [|c s IH]; simpl; [done|]. intros [-> Hs]%andb_true_iff. by rewrite IH.
Qed.

Lemma b64_decode_encode s : b64_decode al pad (b64_encode al pad s) = Some s.
Proof.
  unfold b64_decode. rewrite str_filter_all; [apply b64_go_encode|].
  apply b64_encode_forall; [|done]. intros n Hn. by apply sextet_not_newline.
Qed.
Lemma b64_no_colon s : no_char ":" (b64_encode al pad s) = true.
Proof.
  apply b64_encode_forall; [|done]. intros n Hn.
  by destruct (sextet_not_newline al n Hal Hn) as (_ & -> & _).
Qed.
End b64.

Lemma hex_value_digit n : (n < 16)%N → hex_value (digit_char n) = Some n.
Proof.
  intros Hn.
  assert (forallb (λ i, bool_decide (hex_value (digit_char (N.of_nat i)) = Some (N.of_nat i)))
            (seq 0 16) = true) as Hall by (vm_compute; done).
  rewrite forallb_forall in Hall. specialize (Hall (N.to_nat n)).
  rewrite N2Nat.id in Hall. eapply bool_decide_eq_true, Hall, in_seq. lia.
Qed.
Lemma hex_decode_encode s : hex_decode (hex_encode s) = Some s.
Proof.
  induction s as [|c s IH]; [done|]. pose proof (N_of_ascii_lt c). cbn [hex_encode hex_decode].
  rewrite !hex_value_digit, IH by divmod. cbn [fmap option_fmap option_map]. do 2 f_equal.
  apply ascii_eq_N. divmod.
Qed.

(** Decimal text *)
Lemma digit_char_digit n : (n < 10)%N → is_digit (digit_char n) = true.
Proof.
  intros Hn.
  assert (forallb (λ i, is_digit (digit_char (N.of_nat i))) (seq 0 10) = true) as Hall
    by (vm_compute; done).
  rewrite forallb_forall in Hall. specialize (Hall (N.to_nat n)).
  rewrite N2Nat.id in Hall. apply Hall, in_seq. lia.
Qed.
Lemma digits_forall (q : ascii → bool) base n :
  (2 ≤ base)%N → (∀ d, (d < base)%N → q (digit_char d) = true) → str_forall q (digits base n) = true.
Proof.
  intros Hb Hq. unfold digits.
  assert (∀ fuel n acc, str_forall q acc = true →
    str_forall q (digits_go base fuel n acc) = true) as Hgo.
  { induction fuel as [|fuel IH]; intros m acc Ha; [done|]. cbn [digits_go].
    destruct (m =? 0)%N; [done|]. apply IH. cbn [str_forall]. rewrite Ha, Hq; [done|].
    apply N.mod_upper_bound. lia. }
  destruct (n =? 0)%N; [|by apply Hgo].
  assert (q "0"%char = true) as Hq0 by (apply (Hq 0%N); lia). cbn [str_forall]. by rewrite Hq0.
Qed.
Lemma digits_digit n : str_forall is_digit (digits 10 n) = true.
Proof. apply digits_forall; [done|]. apply digit_char_digit. Qed.
(** A decidable property of the sixteen hexadecimal digits holds all over a
    padded number. *)
Lemma hex_pad_forall (q : ascii → bool) w n :
  forallb (λ i, q (digit_char (N.of_nat i))) (seq 0 16) = true → str_forall q (hex_pad w n) = true.
Proof.
  intros Hall. rewrite forallb_forall in Hall. unfold hex_pad. rewrite str_forall_app. apply andb_true_iff.
  assert (∀ d, (d < 16)%N → q (digit_char d) = true) as Hd.
  { intros d Hd. specialize (Hall (N.to_nat d)). rewrite N2Nat.id in Hall. apply Hall, in_seq. lia. }
  split; [|by apply digits_forall].
  induction (w - _) as [|k IH]; [done|]. simpl. rewrite IH, andb_true_r. by apply (Hd 0%N).
Qed.
Lemma hex_pad_not_nil w n : hex_pad (S w) n ≠ "".
Proof.
  unfold hex_pad. intros Hn%(f_equal String.length). rewrite str_length_app in Hn. simpl in Hn.
  destruct (digits 16 n); [done|]. by destruct (zeros _).
Qed.
Lemma digits_ne n : digits 10 n ≠ "".
Proof.
  destruct (N.eqb_spec n 0) as [->|Hn]; [done|]. intros E%(f_equal (digits_val 10 0)).
  rewrite digits_val_digits in E; done.
Qed.
Lemma parse_uint_digits n : parse_uint (digits 10 n) = Some n.
Proof.
  unfold parse_uint. pose proof (digits_ne n) as Hne. apply String.eqb_neq in Hne as ->.
  rewrite digits_digit. simpl. by rewrite digits_val_digits.
Qed.
Lemma parse_int_itoa z : in_i64 z → parse_int (itoa z) = Some z.
Proof.
  intros [Hl Hu]. unfold itoa, format_int.
  assert (∀ n, (Z.of_N n < 2 ^ 63)%Z → parse_int (digits 10 n) = Some (Z.of_N n)) as Hpos.
  { intros n Hn. unfold parse_int. pose proof (digits_digit n) as Hd. pose proof (digits_ne n).
    destruct (digits 10 n) as [|c r] eqn:E; [done|].
    assert ((c =? "+")%char = false ∧ (c =? "-")%char = false) as [-> ->].
    { simpl in Hd. apply andb_true_iff in Hd as [Hd _]. clear -Hd. revert Hd.
      destruct c as [[] [] [] [] [] [] [] []]; vm_compute; by intros. }
    rewrite <-E, parse_uint_digits. destruct (Z.leb_spec (2 ^ 63) (Z.of_N n)); [lia|done]. }
  destruct z as [|p|p].
  - apply (Hpos 0%N). lia.
  - change (Z.to_N (Z.pos p)) with (N.pos p). rewrite Hpos by lia. done.
  - change (parse_int (String "-" (digits 10 (N.pos p)))) with
      (match parse_uint (digits 10 (N.pos p)) with
       | Some n => if (2 ^ 63 <? Z.of_N n)%Z then None else Some (- Z.of_N n)%Z
       | None => None
       end).
    rewrite parse_uint_digits. destruct (Z.ltb_spec (2 ^ 63) (Z.of_N (N.pos p))); [lia|done].
Qed.
Lemma itoa_no_colon z : no_char ":" (itoa z) = true.
Proof.
  assert (∀ n, no_char ":" (digits 10 n) = true) as Hd.
  { intros n. eapply str_forall_impl, digits_digit. intros c Hc. revert Hc.
    destruct c as [[] [] [] [] [] [] [] []]; vm_compute; by intros. }
  destruct z; simpl; [done|apply Hd|]. unfold no_char. simpl. apply Hd.
Qed.

Example query_get_sample : query_get "a=1&%6bpt=x+y&kpt=z" "kpt" = "x y".
Proof. vm_compute. reflexivity. Qed.
