(* ===== verification/Observability.v ===== *)
(** * Request ids, access log, panic recovery and the probes (observability/observability.go)

    A handler is what it does with its http.ResponseWriter, one call after the
    other ([prog]); a ResponseWriter is anything with the three methods (the class
    of that name): the connection, or the recorder that the access log wraps around
    it.  Middleware are functions on handlers that run on a writer. *)

From S2P Require Import Prelude GoStrings Encoding Http.

(** ** Handlers and writers *)

(** Write answers the number of bytes taken and an error; a panic ends the handler. *)
Inductive prog :=
| Done
| Panic (v : string)
| SetHeader (k v : string) (p : prog)
| WriteHeader (code : Z) (p : prog)
| Write (b : bytes) (k : nat * option string → prog).
Class ResponseWriter (S : Type) := {
  w_SetHeader : string → string → S → S;
  w_WriteHeader : Z → S → S;
  w_Write : bytes → S → S * (nat * option string);
}.
(** The request id in the context of a request, if any *)
Abbreviation Context_ := (option string) (only parsing).
Definition Handler : Type := Context_ → Request → prog.
Definition RequestIDFrom (ctx : Context_) : string := default "" ctx.

Inductive Level := LevelDebug | LevelInfo | LevelWarn | LevelError.
Inductive line :=
| HttpRequest (level : Level) (request_id method path : string) (status : Z) (bytes : nat) (duration : Z) (remote : string)
| PanicRecovered (request_id panic path : string).
(** A run: what became of the writer, the lines logged, and the panic that got out *)
Record Ran S := mkRan { ran_w : S; ran_log : list line; ran_panic : option string }.
Arguments mkRan {S}. Arguments ran_w {S}. Arguments ran_log {S}. Arguments ran_panic {S}.
Definition Served (S : Type) : Type := Context_ → Request → S → Ran S.

Fixpoint run {S} `{ResponseWriter S} (p : prog) (s : S) : S * option string :=
  match p with
  | Done => (s, None)
  | Panic v => (s, Some v)
  | SetHeader k v p => run p (w_SetHeader k v s)
  | WriteHeader code p => run p (w_WriteHeader code s)
  | Write b k => let '(s, r) := w_Write b s in run (k r) s
  end.
Definition serve_with {S} `{ResponseWriter S} (h : Handler) : Served S :=
  λ ctx r s, let '(s, o) := run (h ctx r) s in mkRan s [] o.

(** The connection of net/http: the peer may take fewer bytes than it is sent. *)
Class Peer := { accepts : Response → bytes → nat }.
#[export] Instance conn_writer `{Peer} : ResponseWriter Response := {|
  w_SetHeader := set_header;
  w_WriteHeader := write_header;
  w_Write b w :=
    let n := Nat.min (String.length b) (accepts w b) in
    (write_body (str_take n b) w, (n, if n <? String.length b then Some "write failed" else None)) |}.

(** ** Loggers *)

Section logger.
Context `{GoUnicode}.
Definition parseLevel (level : string) : Level :=
  let l := to_lower level in
  if (l =? "debug")%string then LevelDebug else if (l =? "warn")%string then LevelWarn
  else if (l =? "error")%string then LevelError else LevelInfo.
Inductive LogFormat := TextFormat | JSONFormat.
Definition NewLogger (level format : string) : Level * LogFormat :=
  (parseLevel level, if equal_fold format "text" then TextFormat else JSONFormat).
End logger.

(** ** Request ids *)

Definition requestIDHeader : string := "X-Request-Id".
(** [rng] is what crypto/rand yields, sixteen bytes or nothing. *)
Definition timestamp (now : Z) : string :=
  (let s := now / 1000000000 in
   let tod := s mod 86400 in
   let '(y, m, d) := civil (s / 86400) in
   pad 4 y +:+ pad 2 m +:+ pad 2 d +:+ pad 2 (tod / 3600) +:+ pad 2 (tod mod 3600 / 60) +:+ pad 2 (tod mod 60) +:+ "." +:+
   pad 9 (now mod 1000000000))%Z.
Definition newRequestID (rng : option bytes) (now : Z) : string :=
  match rng with
  | None => "ts-" +:+ timestamp now
  | Some b => hex_encode b
  end.
Definition id_char (c : ascii) : bool :=
  is_lower c || is_upper c || is_digit c || (c =? "-")%char || (c =? "_")%char || (c =? ".")%char.
Definition sanitizeRequestID (in_ : string) : string :=
  if (in_ =? "")%string || (128 <? String.length in_) then "" else if str_forall id_char in_ then in_ else "".
Definition request_id (rng : option bytes) (now : Z) (r : Request) : string :=
  let id := sanitizeRequestID (hget (rHeader r) requestIDHeader) in
  if (id =? "")%string then newRequestID rng now else id.
Definition RequestID {S} `{ResponseWriter S} (rng : option bytes) (now : Z) (next : Served S) : Served S :=
  λ ctx r s, let id := request_id rng now r in next (Some id) r (w_SetHeader requestIDHeader id s).

(** ** The access log *)

Record statusRecorder S := mkRec { rec_w : S; rec_status : Z; rec_bytes : nat }.
Arguments mkRec {S}. Arguments rec_w {S}. Arguments rec_status {S}. Arguments rec_bytes {S}.
#[export] Instance recorder_writer {S} `{ResponseWriter S} : ResponseWriter (statusRecorder S) := {|
  w_SetHeader k v s := mkRec (w_SetHeader k v (rec_w s)) (rec_status s) (rec_bytes s);
  w_WriteHeader code s := mkRec (w_WriteHeader code (rec_w s)) code (rec_bytes s);
  w_Write b s :=
    let status := if (rec_status s =? 0)%Z then StatusOK else rec_status s in
    let '(w, r) := w_Write b (rec_w s) in (mkRec w status (rec_bytes s + r.1), r) |}.
(** The line is written after the handler returns, so not when a panic passes. *)
Definition RequestLogger {S} (elapsed : Z) (next : Served (statusRecorder S)) : Served S := λ ctx r s,
  let x := next ctx r (mkRec s 0 0) in
  match ran_panic x with
  | Some v => mkRan (rec_w (ran_w x)) (ran_log x) (Some v)
  | None =>
      let status := if (rec_status (ran_w x) =? 0)%Z then StatusOK else rec_status (ran_w x) in
      let level := if (StatusInternalServerError <=? status)%Z then LevelError else LevelInfo in
      mkRan (rec_w (ran_w x))
        (ran_log x ++ [HttpRequest level (RequestIDFrom ctx) (rMethod r) (rURLPath r) status (rec_bytes (ran_w x)) elapsed (rRemoteAddr r)])
        None
  end.

(** ** Panics *)

Definition Recoverer {S} `{ResponseWriter S} (next : Served S) : Served S := λ ctx r s,
  let x := next ctx r s in
  match ran_panic x with
  | None => x
  | Some v => mkRan (w_WriteHeader StatusInternalServerError (ran_w x))
                (ran_log x ++ [PanicRecovered (RequestIDFrom ctx) v (rURLPath r)]) None
  end.

(** ** Probes *)

Definition writePlain (status : Z) (body : string) : prog :=
  SetHeader "Content-Type" "text/plain; charset=utf-8" (SetHeader "X-Content-Type-Options" "nosniff"
    (WriteHeader status (Write body (λ _, Done)))).
Definition Health : Handler := λ _ _, writePlain StatusOK "ok".
(** [checker] is nil, or what the dependency answers. *)
Definition Ready (checker : option (Res string unit)) : Handler := λ _ _,
  match checker with
  | Some (Err _) => writePlain StatusServiceUnavailable "not ready"
  | _ => writePlain StatusOK "ready"
  end.

(** ** The chain of both planes: id, log, recovery *)

Definition commonMiddleware {S} `{ResponseWriter S} (rng : option bytes) (now elapsed : Z) (next : Served (statusRecorder S)) : Served S :=
  RequestID rng now (RequestLogger elapsed (Recoverer next)).

(** ** Facts *)

Lemma sanitizeRequestID_safe s : sanitizeRequestID s ≠ "" →
  sanitizeRequestID s = s ∧ String.length s ≤ 128 ∧ str_forall id_char s = true.
Proof.
  unfold sanitizeRequestID. destruct (s =? "")%string; [done|]. cbn [orb].
  destruct (Nat.ltb_spec 128 (String.length s)); [done|]. by destruct (str_forall id_char s).
Qed.
Lemma digit_id n : (n < 16)%N → id_char (digit_char n) = true.
Proof. intros Hn. do 16 (destruct n as [|n] using N.peano_ind; [done|clear IHn; try lia]). Qed.
Lemma hex_id b : str_forall id_char (hex_encode b) = true.
Proof.
  induction b as [|c b IH]; [done|]. cbn [hex_encode str_forall]. rewrite IH.
  rewrite !digit_id; [done|apply N.mod_lt; lia|].
  apply N.Div0.div_lt_upper_bound. pose proof (N_of_ascii_lt c). lia.
Qed.
Lemma itoa_id z : str_forall id_char (itoa z) = true.
Proof.
  assert (∀ n, str_forall id_char (digits 10 n) = true) as Hd.
  { intros n. apply digits_forall; [lia|]. intros k Hk. apply digit_id. lia. }
  unfold itoa, format_int. destruct z; apply Hd.
Qed.
Lemma pad_id w z : str_forall id_char (pad w z) = true.
Proof. unfold pad. rewrite str_forall_app, itoa_id, andb_true_r. generalize (w - String.length (itoa z)). by induction n. Qed.
(** Every id is made of characters that are safe in a header and in the log. *)
Lemma request_id_safe rng now r : str_forall id_char (request_id rng now r) = true.
Proof.
  unfold request_id. destruct (String.eqb_spec (sanitizeRequestID (hget (rHeader r) requestIDHeader)) "") as [|Hn].
  - destruct rng as [b|]; [apply hex_id|]. unfold newRequestID, timestamp. destruct (civil _) as [[y m] d].
    rewrite !str_forall_app, !pad_id. done.
  - pose proof (sanitizeRequestID_safe _ Hn) as (-> & _ & ?). done.
Qed.

(** The recorder is transparent, and counts what the connection takes. *)
Section recorder.
Context `{Peer}.

(** A handler that sends its status once, before the body, and does not panic after it *)
Fixpoint disciplined (sent : bool) (p : prog) : Prop :=
  match p with
  | Done => True
  | Panic _ => sent = false
  | SetHeader _ _ p => disciplined sent p
  | WriteHeader code p => sent = false ∧ (200 ≤ code < 1000)%Z ∧ disciplined true p
  | Write _ k => ∀ r, disciplined true (k r)
  end.
Definition sent (w : Response) : bool := bool_decide (is_Some (wSent w)).
(** The recorder's status agrees with the connection's *)
Definition agrees (s : statusRecorder Response) : Prop :=
  rec_status s = default 0%Z (status_of (rec_w s)) ∧ ∀ code, status_of (rec_w s) = Some code → code ≠ 0%Z.

Lemma run_recorder p (s : statusRecorder Response) : rec_bytes s = String.length (wBody (rec_w s)) →
  let x := run p s in
  rec_w x.1 = (run p (rec_w s)).1 ∧ x.2 = (run p (rec_w s)).2 ∧ rec_bytes x.1 = String.length (wBody (rec_w x.1)).
Proof.
  revert s. induction p as [|v|k v p IH|code p IH|b k IH]; intros s Hb; cbn [run]; try done.
  - by apply IH.
  - by apply IH.
  - apply (IH _ (mkRec _ _ _)). cbn. rewrite str_length_app, str_length_take. lia.
Qed.
Lemma run_agrees p s : disciplined (sent (rec_w s)) p → agrees s →
  agrees (run p s).1 ∧ ((run p s).2 ≠ None → sent (rec_w (run p s).1) = false).
Proof.
  unfold sent, agrees, status_of. revert s. induction p as [|v|k v p IH|code p IH|b k IH]; intros s Hd [Ha Hz]; cbn [run]; try done.
  - by apply IH.
  - destruct Hd as (Hs & Hc & Hd). apply bool_decide_eq_false, eq_None_not_Some in Hs. apply IH; cbn; rewrite Hs; [done|].
    split; [done|]. intros ? [= <-]. lia.
  - apply (IH _ (mkRec _ _ _)); cbn; destruct (wSent (rec_w s)) as [[c h]|] eqn:Hs; try apply Hd; cbn in Ha; rewrite Ha; (split; [|naive_solver]); cbn.
    + by rewrite (proj2 (Z.eqb_neq c 0) (Hz c eq_refl)).
    + done.
Qed.
End recorder.

Section chain.
Context `{Peer} (rng : option bytes) (now elapsed : Z) (h : Handler) (r : Request).
(** The request as the handler meets it *)
Let id := request_id rng now r.
Let opened := set_header requestIDHeader id newResponse.
Let own := run (h (Some id) r) opened.

(** C40 (error): no panic gets out.  For every handler behind the middleware of both
    planes and every request, whatever the peer accepts: the connection ends up as
    the handler alone leaves it, with the request id set, but that a handler that
    panics before it has sent its status is answered 500; one access line is
    logged, after the line of the panic if there was one, with the id the handler
    saw and the client is told, made of safe characters only, and with the number
    of bytes that were sent.  The status in the line, and so its level, is the one
    on the wire if the handler sends it once and does not panic after it. *)
Theorem chain_contains :
  let x := commonMiddleware rng now elapsed (serve_with h) None r newResponse in
  ran_panic x = None ∧
  ran_w x = match own.2 with None => own.1 | Some _ => write_header StatusInternalServerError own.1 end ∧
  str_forall id_char id = true ∧
  ∃ status level,
    ran_log x = match own.2 with None => [] | Some v => [PanicRecovered id v (rURLPath r)] end ++
      [HttpRequest level id (rMethod r) (rURLPath r) status (String.length (wBody (ran_w x))) elapsed (rRemoteAddr r)] ∧
    (level = LevelError ↔ (500 ≤ status)%Z) ∧
    (disciplined false (h (Some id) r) → status = default StatusOK (status_of (ran_w x))).
Proof.
  cbv zeta. unfold commonMiddleware, RequestID, RequestLogger, Recoverer, serve_with. fold id.
  change (w_SetHeader requestIDHeader id newResponse) with opened.
  destruct (run_recorder (h (Some id) r) (mkRec opened 0 0) eq_refl) as (Hw & Ho & Hb).
  assert (agrees (mkRec opened 0 0)) as Hnew by done.
  pose proof (λ Hd, run_agrees (h (Some id) r) (mkRec opened 0 0) Hd Hnew) as Ha.
  cbn [rec_w] in Hw, Ho. fold own in Hw, Ho. destruct (run (h (Some id) r) (mkRec opened 0 0)) as [s o].
  cbn [fst snd] in *. subst o. split; [by destruct own.2|]. split; [by destruct own.2; cbn; rewrite Hw|].
  split; [apply request_id_safe|]. destruct own.2 as [v|]; cbn; rewrite <-?Hw; cbn; rewrite ?Hb; eexists _, _.
  all: split; [reflexivity|]; split; [first [done | by match goal with |- context [(?a <=? ?x)%Z] => destruct (Z.leb_spec a x) end; unfold StatusInternalServerError in *; split; intros; try lia]|].
  - intros [_ Hs]%Ha. specialize (Hs ltac:(done)). unfold sent in Hs. apply bool_decide_eq_false, eq_None_not_Some in Hs.
    unfold status_of. cbn. by rewrite Hs.
  - intros [[Hst Hz] _]%Ha. rewrite Hst. destruct (status_of (rec_w s)) as [c|]; [|done]. cbn. rewrite (proj2 (Z.eqb_neq c 0)); [done|by apply Hz].
Qed.
End chain.

(** The level follows a status that a panic after the response was sent makes up:
    the client gets the first part of the page with status 200, and the log says 500. *)
#[local] Instance sample_peer : Peer := {| accepts _ b := String.length b |}.
Definition half_page : Handler := λ _ _, WriteHeader StatusOK (Write "<html>" (λ _, Panic "index out of range")).
Definition page : Handler := λ _ _, Write "<html>" (λ _, Done).
Definition sample_request : Request :=
  mkRequest "GET" "a.example" "" "/x" "/x" "" {[ requestIDHeader := ["req-7"] ]} "10.0.0.1:99" false [].
Example half_page_logged :
  let x := commonMiddleware (Some "0123456789abcdef") 0 5 (serve_with half_page) None sample_request newResponse in
  status_of (ran_w x) = Some StatusOK ∧ wBody (ran_w x) = "<html>" ∧
  ran_log x = [PanicRecovered "req-7" "index out of range" "/x"; HttpRequest LevelError "req-7" "GET" "/x" 500 6 5 "10.0.0.1:99"].
Proof. vm_compute. done. Qed.
(** A panic outside the recovery leaves no access line; the chain puts the recovery inside. *)
Example half_page_unlogged :
  ran_log (RequestLogger 5 (serve_with (S := statusRecorder Response) half_page) None sample_request newResponse) = [].
Proof. vm_compute. done. Qed.
Example forged_id_replaced :
  request_id (Some "0123456789abcdef") 0 (mkRequest "GET" "" "" "/" "/" "" {[ requestIDHeader := ["a b"] ]} "" false [])
  = "30313233343536373839616263646566" ∧
  request_id None 1136239445000000000 sample_request = "req-7" ∧ newRequestID None 1136239445000000001 = "ts-20060102220405.000000001".
Proof. vm_compute. done. Qed.
Lemma chain_contains_witness :
  let x := commonMiddleware (Some "0123456789abcdef") 0 5 (serve_with page) None sample_request newResponse in
  ran_panic x = None ∧ ∃ level, ran_log x = [HttpRequest level "req-7" "GET" "/x" 200 6 5 "10.0.0.1:99"].
Proof.
  destruct (chain_contains (Some "0123456789abcdef") 0 5 page sample_request) as (Hp & Hw & _ & status & level & Hl & _ & Hs).
  split; [exact Hp|]. exists level. rewrite Hl, Hs; [rewrite Hw; vm_compute; reflexivity|]. intros r. exact I.
Defined.
