(* ===== verification/GitParse.v ===== *)
(** * Reading git's output (site/git_helpers.go)

    The parsers of the git-backed service, which talks to git through its
    command line: the log format it asks for, tree listings, the two diff
    summaries and their merge, and the split of a unified diff by file.  The
    round trip of the log format is proved for every commit git can print;
    a diff never reports a path twice.

    Proved: the round trip of the log format, and what a merged diff lists. *)

From S2P Require Import Prelude GoStrings SiteErrors SitePath SiteTypes SiteTree Http Encoding.

(** ** time.Parse(time.RFC3339, _)

    Exact on timestamps of the fixed-width form; the further spellings Go
    tolerates are left to an instance of [GoTime]. *)

Class GoTime := { lenient_RFC3339 : string → option time }.

(** Inverse of [civil] *)
Definition days_from_civil (y m d : Z) : Z :=
  (let y := if m <=? 2 then y - 1 else y in
   let era := y / 400 in
   let yoe := y mod 400 in
   let mp := if 2 <? m then m - 3 else m + 9 in
   let doy := (153 * mp + 2) / 5 + d - 1 in
   era * 146097 + (yoe * 365 + yoe / 4 - yoe / 100 + doy) - 719468)%Z.
Definition is_leap (y : Z) : bool :=
  ((y mod 4 =? 0) && (negb (y mod 100 =? 0) || (y mod 400 =? 0)))%Z.
Definition days_in (y m : Z) : Z :=
  (if m =? 2 then if is_leap y then 29 else 28
   else if (m =? 4) || (m =? 6) || (m =? 9) || (m =? 11) then 30 else 31)%Z.

(** Two or four digits at position [i] *)
Definition num_at (s : string) (i w : nat) : option Z := Z.of_N <$> parse_uint (str_take w (str_drop i s)).
Definition char_at (s : string) (i : nat) (c : ascii) : bool :=
  match String.get i s with Some d => (c =? d)%char | None => false end.
Definition in_range (lo hi z : Z) : bool := ((lo <=? z) && (z <=? hi))%Z.

(** The zone: seconds east of UTC *)
Definition parse_zone (z : string) : option Z :=
  if (z =? "Z")%string then Some 0%Z
  else if negb (String.length z =? 6) || negb (char_at z 3 ":") then None
  else match num_at z 1 2, num_at z 4 2 with
       | Some h, Some m =>
           if in_range 0 23 h && in_range 0 59 m then
             if char_at z 0 "+" then Some (h * 3600 + m * 60)%Z
             else if char_at z 0 "-" then Some (- (h * 3600 + m * 60))%Z else None
           else None
       | _, _ => None
       end.
Definition strict_RFC3339 (s : string) : option time :=
  if char_at s 4 "-" && char_at s 7 "-" && char_at s 10 "T" && char_at s 13 ":" && char_at s 16 ":" then
    match num_at s 0 4, num_at s 5 2, num_at s 8 2, num_at s 11 2, num_at s 14 2, num_at s 17 2,
          parse_zone (str_drop 19 s) with
    | Some y, Some mo, Some d, Some h, Some mi, Some sec, Some off =>
        if in_range 1 12 mo && in_range 1 (days_in y mo) d && in_range 0 23 h && in_range 0 59 mi && in_range 0 59 sec
        then Some ((days_from_civil y mo d * 86400 + h * 3600 + mi * 60 + sec - off) * 1000000000)%Z
        else None
    | _, _, _, _, _, _, _ => None
    end
  else None.

Example strict_RFC3339_sample :
  strict_RFC3339 (rfc3339 1136239445000000000) = Some 1136239445000000000%Z ∧
  strict_RFC3339 "2006-01-03T07:04:05+09:00" = Some 1136239445000000000%Z ∧
  strict_RFC3339 "2006-02-29T07:04:05Z" = None.
Proof. vm_compute. split_and!; reflexivity. Qed.

(** ** Byte constants and strings helpers *)

Definition LF : ascii := "010".
Definition TAB : ascii := "009".
Definition FS : ascii := "031".
Definition RS : ascii := "030".
Definition fieldSep : string := String FS "".
Definition recordSep : string := String RS "".
Definition is_LF (c : ascii) : bool := (c =? LF)%char.

(** strings.LastIndex *)
Fixpoint last_index (sub s : string) : option nat :=
  match s with
  | EmptyString => if has_prefix sub "" then Some 0 else None
  | String _ r =>
      match last_index sub r with
      | Some i => Some (S i)
      | None => if has_prefix sub s then Some 0 else None
      end
  end.
(** [n, _ := strconv.ParseInt(s, 10, 64)]: the value that accompanies an error
    is 0 for a malformed number and the nearest limit for one out of range *)
Definition parse_int_lossy (s : string) : Z :=
  match parse_int s with
  | Some n => n
  | None =>
      match s with
      | String c r =>
          let signed := (c =? "+")%char || (c =? "-")%char in
          match parse_uint (if signed then r else s) with
          | Some _ => if (c =? "-")%char then (- 2 ^ 63)%Z else (2 ^ 63 - 1)%Z
          | None => 0%Z
          end
      | EmptyString => 0%Z
      end
  end.

(** The format git is asked for: seven fields and an end marker *)
Definition logFormat : string :=
  "--pretty=format:%H" +:+ fieldSep +:+ "%h" +:+ fieldSep +:+ "%an" +:+ fieldSep +:+
  "%ae" +:+ fieldSep +:+ "%cI" +:+ fieldSep +:+ "%P" +:+ fieldSep +:+ "%B" +:+ recordSep.

Definition viaKey : string := "Kotoji-Via".
Definition viaTrailer (a : Actor) : string := "--trailer=" +:+ viaKey +:+ ": " +:+ actorVia a.

Section parsers.
Context `{GoUnicode} `{GoTime}.

Definition time_Parse_RFC3339 (s : string) : option time :=
  match strict_RFC3339 s with Some t => Some t | None => lenient_RFC3339 s end.

(** ** Commits *)

Fixpoint via_line (lines : list string) : string :=
  match lines with
  | [] => ""
  | line :: lines =>
      let line := trim_space line in
      if has_prefix (viaKey +:+ ":") line then trim_space (trim_prefix (viaKey +:+ ":") line)
      else via_line lines
  end.
Definition extractVia (message : string) : string := via_line (split LF message).

Definition parseRecord (rec : string) : option CommitInfo :=
  let rec := trim_left is_LF rec in
  if (trim_space rec =? "")%string then None
  else match split_n FS rec 7 with
       | [sha; short; an; ae; ci; ps; body] =>
           let message := trim_right is_LF body in
           Some {| ci_SHA := trim_space sha; ci_ShortSHA := trim_space short; ci_Message := message;
                   ci_AuthorName := an; ci_AuthorEmail := ae;
                   ci_Committed := default zero_time (time_Parse_RFC3339 (trim_space ci));
                   ci_Parents := fields ps; ci_Via := extractVia message |}
       | _ => None
       end.
Definition parseLog (out : string) : list CommitInfo := omap parseRecord (split RS out).

(** ** Tree listings *)

Definition parseLsLine (line : string) : option FileEntry :=
  match cut TAB line with
  | (meta, path, true) =>
      match fields meta with
      | mode :: typ :: _ :: rest =>
          Some {| fe_Path := path; fe_Name := lastSegment path; fe_IsDir := (typ =? "tree")%string;
                  fe_Size := match rest with
                             | size :: _ => if (size =? "-")%string then 0%Z else parse_int_lossy size
                             | [] => 0%Z
                             end;
                  fe_Mode := mode |}
      | _ => None
      end
  | _ => None
  end.
Definition parseLsTree (out : string) : list FileEntry :=
  omap parseLsLine (split LF (trim_right is_LF out)).

(** Non-empty lines of a listing *)
Definition lines_of (out : string) : list string :=
  List.filter (λ l, negb (l =? "")%string) (split LF (trim_space out)).
End parsers.

(** ** Diffs *)

Definition blank_diff (path : string) : FileDiff := {|
  fd_Path := path; fd_OldPath := ""; fd_Status := ""; fd_Additions := 0; fd_Deletions := 0;
  fd_IsBinary := false; fd_UnifiedPatch := "" |}.
Definition set_status (status oldPath : string) (d : FileDiff) : FileDiff := {|
  fd_Path := fd_Path d; fd_OldPath := oldPath; fd_Status := status; fd_Additions := fd_Additions d;
  fd_Deletions := fd_Deletions d; fd_IsBinary := fd_IsBinary d; fd_UnifiedPatch := fd_UnifiedPatch d |}.
Definition set_patch (patch : string) (d : FileDiff) : FileDiff := {|
  fd_Path := fd_Path d; fd_OldPath := fd_OldPath d; fd_Status := fd_Status d; fd_Additions := fd_Additions d;
  fd_Deletions := fd_Deletions d; fd_IsBinary := fd_IsBinary d; fd_UnifiedPatch := patch |}.

(** [byPath] and [order] *)
Definition diff_acc : Type := gmap string FileDiff * list string.

Definition numstat_entry (line : string) : option FileDiff :=
  match split_n TAB line 3 with
  | [adds; dels; path] =>
      let binary := (adds =? "-")%string && (dels =? "-")%string in
      Some {| fd_Path := path; fd_OldPath := ""; fd_Status := "";
              fd_Additions := if binary then 0 else parse_int_lossy adds;
              fd_Deletions := if binary then 0 else parse_int_lossy dels;
              fd_IsBinary := binary; fd_UnifiedPatch := "" |}
  | _ => None
  end.
Definition numstat_line (acc : diff_acc) (line : string) : diff_acc :=
  let '(byPath, order) := acc in
  match numstat_entry line with
  | Some fd => (<[fd_Path fd := fd]> byPath, order ++ [fd_Path fd])
  | None => acc
  end.
(** Path, old path and status of one line of --name-status *)
Definition classify (line : string) : option (string * string * string) :=
  match split TAB line with
  | code :: f1 :: rest =>
      if has_prefix "R" code then
        match rest with f2 :: _ => Some (f2, f1, "renamed") | [] => None end
      else if has_prefix "A" code then Some (f1, "", "added")
      else if has_prefix "D" code then Some (f1, "", "deleted")
      else Some (f1, "", "modified")
  | _ => None
  end.
Definition status_line (acc : diff_acc) (line : string) : diff_acc :=
  let '(byPath, order) := acc in
  match classify line with
  | Some (path, oldPath, status) =>
      match byPath !! path with
      | Some fd => (<[path := set_status status oldPath fd]> byPath, order)
      | None => (<[path := set_status status oldPath (blank_diff path)]> byPath, order ++ [path])
      end
  | None => acc
  end.
(** First occurrences, in order *)
Fixpoint dedup (seen l : list string) : list string :=
  match l with
  | [] => []
  | p :: l => if bool_decide (p ∈ seen) then dedup seen l else p :: dedup (p :: seen) l
  end.
Definition nonempty_lines (s : string) : list string :=
  List.filter (λ l, negb (l =? "")%string) (split LF (trim_right is_LF s)).
Definition mergeDiff (numstat nameStatus : string) : list FileDiff :=
  let acc := foldl numstat_line (∅, []) (nonempty_lines numstat) in
  let '(byPath, order) := foldl status_line acc (nonempty_lines nameStatus) in
  omap (λ p, byPath !! p) (dedup [] order).

Definition parseDiffGitPath (line : string) : string :=
  match last_index " b/" line with Some i => str_drop (i + 3) line | None => "" end.

(** [cur], [curPath] and [out]: the chunk being collected *)
Definition flush_chunk (cur curPath : string) (out : gmap string string) : gmap string string :=
  if (curPath =? "")%string then out else <[curPath := trim_right is_LF cur]> out.
Fixpoint split_chunks (lines : list string) (cur curPath : string) (out : gmap string string) : gmap string string :=
  match lines with
  | [] => flush_chunk cur curPath out
  | line :: lines =>
      let '(cur, curPath, out) :=
        if has_prefix "diff --git " line then ("", parseDiffGitPath line, flush_chunk cur curPath out)
        else (cur, curPath, out) in
      let cur := if (curPath =? "")%string then cur else cur +:+ line +:+ String LF "" in
      split_chunks lines cur curPath out
  end.
Definition splitUnified (unified : string) : gmap string string := split_chunks (split LF unified) "" "" ∅.
Definition attachPatches (files : list FileDiff) (unified : string) : list FileDiff :=
  let chunks := splitUnified unified in
  (λ f, match chunks !! fd_Path f with Some p => set_patch p f | None => f end) <$> files.

(** ** conflictPaths, on the text of [git ls-files -u] *)

Definition unmerged_paths `{GoUnicode} (out : string) : list string :=
  dedup [] (omap (λ line, match cut TAB line with (_, path, true) => Some path | _ => None end) (lines_of out)).

(** ** What the parsers recover *)

(** *** The log format *)

(** A commit as git prints it with [logFormat]: the timestamp is its text, the
    body may hold the field separator. *)
Record log_entry := mkEntry {
  le_sha : string; le_short : string; le_name : string; le_email : string; le_time : string;
  le_parents : list string; le_body : string;
}.
Definition print_entry (e : log_entry) : string :=
  le_sha e +:+ fieldSep +:+ le_short e +:+ fieldSep +:+ le_name e +:+ fieldSep +:+ le_email e +:+ fieldSep +:+
  le_time e +:+ fieldSep +:+ join " " (le_parents e) +:+ fieldSep +:+ le_body e.
(** The entries of a log are separated by newlines. *)
Definition print_log (l : list log_entry) : string := join (String LF "") ((λ e, print_entry e +:+ recordSep) <$> l).

(** A word without white space or separators *)
Definition word_char (c : ascii) : bool := is_ascii c && negb (is_space c) && negb (c =? FS)%char && negb (c =? RS)%char.
Definition word (s : string) : bool := str_forall word_char s && negb (s =? "")%string.
(** No record separator anywhere, no field separator but in the body *)
Definition printable (s : string) : bool := no_char FS s && no_char RS s.
Definition entry_ok (e : log_entry) : bool :=
  word (le_sha e) && word (le_short e) && printable (le_name e) && printable (le_email e) && word (le_time e) &&
  forallb word (le_parents e) && no_char RS (le_body e).

Lemma word_inv s : word s = true → all_ascii s = true ∧ str_forall (λ c, negb (is_space c)) s = true ∧
  no_char FS s = true ∧ no_char RS s = true ∧ s ≠ "".
Proof.
  intros [Hw Hne%negb_true_iff%String.eqb_neq]%andb_true_iff. unfold all_ascii, no_char.
  split_and!; try done; (eapply str_forall_impl; [|exact Hw]); intros c; unfold word_char;
    rewrite !andb_true_iff; intros [[[? ?] ?] ?]; try done; by rewrite Ascii.eqb_sym.
Qed.

Lemma fieldSep_app s : fieldSep +:+ s = String FS s.
Proof. done. Qed.

Section facts.
Context `{GoUnicode} `{GoTime}.
(** strings.TrimSpace leaves something of a text that starts with a graphic
    ASCII character. *)
Context (trim_keeps : ∀ c s, is_ascii c = true → is_space c = false → trim_space (String c s) ≠ "").

Lemma trim_word s : word s = true → trim_space s = s.
Proof using Type.
  intros (Ha & Hs & _)%word_inv. unfold trim_space. rewrite Ha. by apply trim_with_none.
Qed.
Lemma ascii_fields_word s cur rest :
  str_forall (λ c, negb (is_space c)) s = true →
  ascii_fields_go (s +:+ rest) cur = ascii_fields_go rest (cur +:+ s).
Proof using Type.
  revert cur. induction s as [|c s IH]; intros cur; simpl; [by rewrite str_app_nil_r|].
  intros [->%negb_true_iff Hs]%andb_true_iff. rewrite IH by done. by rewrite str_app_assoc.
Qed.
Lemma fields_words l : forallb word l = true → fields (join " " l) = l.
Proof using Type.
  intros Hl. assert (Forall (λ s, word s = true) l) as Hw.
  { rewrite forallb_forall in Hl. apply Forall_forall. intros s Hs. apply Hl. by apply list_elem_of_In. }
  assert (all_ascii (join " " l) = true) as Ha.
  { clear Hl. induction Hw as [|s l Hs Hw IH]; [done|]. apply word_inv in Hs as [Hs _].
    destruct l; [done|]. rewrite join_cons by done. unfold all_ascii in *. by rewrite !str_forall_app, Hs, IH. }
  unfold fields, ascii_fields. rewrite Ha. clear Ha Hl. induction Hw as [|s l Hs Hw IH]; [done|].
  apply word_inv in Hs as (_ & Hs & _ & _ & Hne%String.eqb_neq). destruct l as [|s' l].
  - simpl. rewrite <-(str_app_nil_r s) at 1. rewrite ascii_fields_word by done. simpl. by rewrite Hne.
  - rewrite join_cons, ascii_fields_word by done. change ("" +:+ s) with s.
    change (" " +:+ ?r) with (String " " r). cbn [ascii_fields_go]. change (is_space " ") with true.
    cbv iota. rewrite Hne. by f_equal.
Qed.

(** What is read back from one printed entry *)
Definition read_entry (e : log_entry) : CommitInfo := {|
  ci_SHA := le_sha e; ci_ShortSHA := le_short e; ci_Message := trim_right is_LF (le_body e);
  ci_AuthorName := le_name e; ci_AuthorEmail := le_email e;
  ci_Committed := default zero_time (time_Parse_RFC3339 (le_time e));
  ci_Parents := le_parents e; ci_Via := extractVia (trim_right is_LF (le_body e)) |}.

Lemma print_entry_no_RS e : entry_ok e = true → no_char RS (print_entry e) = true.
Proof using Type.
  unfold entry_ok, printable. rewrite !andb_true_iff.
  intros [[[[[[Hs Hh] [_ Hn]] [_ He]] Ht] Hp] Hb]. apply word_inv in Hs, Hh, Ht.
  assert (no_char RS (join " " (le_parents e)) = true) as Hj.
  { apply join_no_char; [done|]. apply Forall_forall. intros s Hin. rewrite forallb_forall in Hp.
    by apply word_inv, Hp, list_elem_of_In. }
  unfold print_entry. destruct Hs as (_ & _ & _ & Hs & _), Hh as (_ & _ & _ & Hh & _), Ht as (_ & _ & _ & Ht & _).
  by rewrite !no_char_app, Hs, Hh, Hn, He, Ht, Hj, Hb.
Qed.
Lemma print_entry_head e : entry_ok e = true →
  ∃ c r, print_entry e = String c r ∧ is_ascii c = true ∧ is_space c = false.
Proof using Type.
  unfold entry_ok. rewrite !andb_true_iff. intros [[[[[[Hs _] _] _] _] _] _].
  apply word_inv in Hs as (Ha & Hs & _ & _ & Hne). unfold print_entry, all_ascii in *.
  destruct (le_sha e) as [|c s]; [done|]. simpl in *. apply andb_true_iff in Ha as [Ha _], Hs as [Hs%negb_true_iff _].
  by eexists c, _.
Qed.
Lemma all_LF_trim pre s : str_forall is_LF pre = true → trim_left is_LF (pre +:+ s) = trim_left is_LF s.
Proof using Type. induction pre as [|c p IH]; simpl; [done|]. intros [-> Hp]%andb_true_iff. by apply IH. Qed.
Lemma fields_join_FS l : forallb word l = true → no_char FS (join " " l) = true.
Proof using Type.
  intros Hl. apply join_no_char; [done|]. apply Forall_forall. intros s Hin. rewrite forallb_forall in Hl.
  by apply word_inv, Hl, list_elem_of_In.
Qed.
Lemma parseRecord_print pre e : str_forall is_LF pre = true → entry_ok e = true →
  parseRecord (pre +:+ print_entry e) = Some (read_entry e).
Proof using trim_keeps.
  intros Hpre He. destruct (print_entry_head e He) as (c & r & Hhd & Hasc & Hsp).
  unfold parseRecord. rewrite all_LF_trim by done.
  assert (trim_left is_LF (print_entry e) = print_entry e) as ->.
  { rewrite Hhd. simpl. destruct (is_LF c) eqn:Hc; [|done]. apply Ascii.eqb_eq in Hc as ->. done. }
  assert (trim_space (print_entry e) ≠ "") as ->%String.eqb_neq by (rewrite Hhd; by apply trim_keeps).
  unfold entry_ok, printable in He. rewrite !andb_true_iff in He.
  destruct He as [[[[[[Hs Hh] [Hn _]] [Hm _]] Ht] Hp] _]. pose proof (fields_join_FS _ Hp) as Hj.
  pose proof (word_inv _ Hs) as (_ & _ & Hs' & _). pose proof (word_inv _ Hh) as (_ & _ & Hh' & _).
  pose proof (word_inv _ Ht) as (_ & _ & Ht' & _). unfold print_entry.
  rewrite !fieldSep_app, !split_n_cons by done. cbn [split_n].
  rewrite !trim_word by done. by rewrite fields_words.
Qed.
Lemma parseRecord_blank pre : str_forall is_LF pre = true → parseRecord pre = None.
Proof using Type.
  intros Hpre. unfold parseRecord. rewrite <-(str_app_nil_r pre), all_LF_trim by done. done.
Qed.

Lemma print_log_cons e l : print_log (e :: l) =
  print_entry e +:+ String RS (match l with [] => "" | _ => String LF (print_log l) end).
Proof using Type.
  destruct l as [|e' l]; unfold print_log; [by simpl|]. cbn [fmap list_fmap].
  rewrite join_cons by done. by rewrite str_app_assoc.
Qed.
Lemma parseLog_print pre l tail :
  str_forall is_LF pre = true → str_forall is_LF tail = true → forallb entry_ok l = true →
  parseLog (pre +:+ print_log l +:+ tail) = read_entry <$> l.
Proof using trim_keeps.
  intros Hpre Htail. revert pre Hpre. induction l as [|e l IH]; intros pre Hpre Hl.
  - change (print_log []) with "". simpl. unfold parseLog.
    assert (str_forall is_LF (pre +:+ tail) = true) as Hb by (by rewrite str_forall_app, Hpre, Htail).
    rewrite split_single; [simpl; by rewrite parseRecord_blank|]. eapply str_forall_impl; [|exact Hb].
    intros c Hc. by apply Ascii.eqb_eq in Hc as ->.
  - apply andb_true_iff in Hl as [He Hl]. rewrite print_log_cons, str_app_assoc, <-(str_app_assoc pre).
    cbn [String.append]. unfold parseLog. rewrite split_app.
    + cbn [omap list_omap]. rewrite parseRecord_print by done. cbn [fmap list_fmap]. f_equal.
      specialize (IH (match l with [] => "" | _ => String LF "" end)).
      destruct l as [|e' l]; by apply IH.
    + rewrite no_char_app, print_entry_no_RS, andb_true_r by done. eapply str_forall_impl; [|exact Hpre].
      intros c Hc. by apply Ascii.eqb_eq in Hc as ->.
Qed.
End facts.


Definition no_time : GoTime := {| lenient_RFC3339 := λ _, None |}.
Definition sample_entries : list log_entry :=
  [mkEntry "c0ffee" "c0f" "Ann" "ann@x" "2006-01-02T22:04:05Z" ["beef"; "f00d"]
     ("Merge" +:+ newline +:+ newline +:+ "Kotoji-Via: mcp" +:+ newline);
   mkEntry "beef" "bee" "Bo" "bo@x" "2006-01-02T22:04:05Z" [] ("odd" +:+ fieldSep +:+ newline)].
Lemma ascii_trim_keeps c s : is_ascii c = true → is_space c = false →
  @trim_space ascii_only_unicode (String c s) ≠ "".
Proof.
  intros _ Hc. unfold trim_space. assert (trim_with is_space (String c s) ≠ "") as Hw; [|by destruct (all_ascii _)].
  unfold trim_with. simpl. rewrite Hc. simpl. destruct (trim_right is_space s); [by rewrite Hc|done].
Qed.

(** *** Diffs *)

Definition change : Type := string * string * string.
Definition change_path (c : change) : string := c.1.1.
(** The last entry of a summary for a path *)
Definition last_for {A} (key : A → string) (l : list A) (p : string) : option A := last (filter (λ x, key x = p) l).
Lemma last_for_snoc {A} (key : A → string) l x p :
  last_for key (l ++ [x]) p = if decide (key x = p) then Some x else last_for key l p.
Proof.
  unfold last_for. rewrite filter_app. case_decide as Hx.
  - by rewrite filter_cons_True, filter_nil, last_snoc.
  - by rewrite filter_cons_False, filter_nil, app_nil_r.
Qed.
Lemma last_for_none {A} (key : A → string) l p : last_for key l p = None ↔ p ∉ key <$> l.
Proof.
  unfold last_for. rewrite last_None, list_elem_of_fmap. split.
  - intros Hf (x & -> & Hx). assert (x ∈ filter (λ y, key y = key x) l) as Hin by by apply list_elem_of_filter.
    rewrite Hf in Hin. by apply elem_of_nil in Hin.
  - intros Hn. destruct (filter _ l) as [|x k] eqn:Hf; [done|]. exfalso. apply Hn.
    assert (x ∈ filter (λ y, key y = p) l) as [? ?]%list_elem_of_filter by (rewrite Hf; by left). by eexists.
Qed.

(** What the two summaries say of a path *)
Definition describe (nums : list FileDiff) (changes : list change) (p : string) : FileDiff :=
  let counts := default (blank_diff p) (last_for fd_Path nums p) in
  match last_for change_path changes p with
  | Some (_, oldPath, status) => set_status status oldPath counts
  | None => counts
  end.
Lemma dedup_snoc seen l p :
  dedup seen (l ++ [p]) = dedup seen l ++ (if decide (p ∈ seen ++ l) then [] else [p]).
Proof.
  revert seen. induction l as [|x l IH]; intros seen; simpl.
  - rewrite app_nil_r. case_bool_decide; by case_decide.
  - case_bool_decide as Hx; rewrite IH.
    + f_equal. repeat case_decide; set_solver.
    + simpl. f_equal. f_equal. repeat case_decide; set_solver.
Qed.
Lemma dedup_NoDup seen l : NoDup (dedup seen l) ∧ ∀ p, p ∈ dedup seen l ↔ p ∈ l ∧ p ∉ seen.
Proof.
  revert seen. induction l as [|x l IH]; intros seen; simpl; [split; [constructor|set_solver]|].
  case_bool_decide as Hx; [destruct (IH seen) as [? Hi]; split; [done|]|destruct (IH (x :: seen)) as [? Hi]; split].
  - intros p. rewrite Hi. set_solver.
  - constructor; [|done]. rewrite Hi. set_solver.
  - intros p. rewrite elem_of_cons, Hi. destruct (decide (p = x)); set_solver.
Qed.

(** The two loops build the description of every path seen, in order. *)
Definition built (nums : list FileDiff) (changes : list change) (acc : diff_acc) : Prop :=
  let paths := (fd_Path <$> nums) ++ (change_path <$> changes) in
  dedup [] acc.2 = dedup [] paths ∧
  ∀ p, acc.1 !! p = if decide (p ∈ paths) then Some (describe nums changes p) else None.
Lemma describe_num nums d p : describe (nums ++ [d]) [] p = if decide (fd_Path d = p) then d else describe nums [] p.
Proof. unfold describe. simpl. rewrite last_for_snoc. by case_decide. Qed.
Lemma describe_change nums changes c p : describe nums (changes ++ [c]) p =
  if decide (change_path c = p) then set_status c.2 c.1.2 (default (blank_diff p) (last_for fd_Path nums p))
  else describe nums changes p.
Proof. unfold describe. rewrite last_for_snoc. case_decide; [by destruct c as [[]]|done]. Qed.
Lemma set_status_twice s o s' o' d : set_status s o (set_status s' o' d) = set_status s o d.
Proof. done. Qed.
Lemma same_dedup (l k : list string) q : dedup [] l = dedup [] k → q ∈ l ↔ q ∈ k.
Proof. intros He. pose proof (proj2 (dedup_NoDup [] l) q) as Hl. pose proof (proj2 (dedup_NoDup [] k) q). rewrite He in Hl. set_solver. Qed.
Lemma dedup_snoc_same l k p : dedup [] l = dedup [] k → dedup [] (l ++ [p]) = dedup [] (k ++ [p]).
Proof.
  intros He. rewrite !dedup_snoc, He. f_equal. pose proof (same_dedup l k p He). repeat case_decide; set_solver.
Qed.
Lemma built_nums lines : built (omap numstat_entry lines) [] (foldl numstat_line (∅, []) lines).
Proof.
  induction lines as [|line lines IH] using rev_ind.
  { split; [done|]. intros p. rewrite decide_False by (simpl; set_solver). apply lookup_empty. }
  rewrite foldl_app, omap_app. simpl. destruct (foldl numstat_line _ lines) as [byPath order].
  destruct IH as [Ho Hb]. unfold numstat_line. destruct (numstat_entry line) as [d|]; simpl; [|by rewrite app_nil_r].
  simpl in Ho, Hb. rewrite app_nil_r in Ho. split; simpl; rewrite app_nil_r, fmap_app; simpl.
  - by apply dedup_snoc_same.
  - intros p. rewrite describe_num. specialize (Hb p). rewrite app_nil_r in Hb. destruct (decide (fd_Path d = p)) as [<-|Hne].
    + rewrite lookup_insert_eq, decide_True by set_solver. done.
    + rewrite lookup_insert_ne, Hb by done. repeat case_decide; set_solver.
Qed.
Lemma describe_default nums changes p :
  p ∉ (fd_Path <$> nums) ++ (change_path <$> changes) → describe nums changes p = blank_diff p.
Proof.
  rewrite not_elem_of_app. intros [Hn%last_for_none Hc%last_for_none]. unfold describe. by rewrite Hc, Hn.
Qed.
Lemma describe_update nums changes c :
  set_status c.2 c.1.2 (describe nums changes (change_path c)) = describe nums (changes ++ [c]) (change_path c).
Proof.
  rewrite describe_change, decide_True by done. unfold describe. by destruct (last_for change_path _ _) as [[[]]|].
Qed.
Lemma built_changes nums acc lines :
  built nums [] acc → built nums (omap classify lines) (foldl status_line acc lines).
Proof.
  intros H0. induction lines as [|line lines IH] using rev_ind; [done|].
  rewrite foldl_app, omap_app. simpl. destruct (foldl status_line _ lines) as [byPath order]. clear H0 acc.
  destruct IH as [Ho Hb]. unfold status_line. simpl in Ho, Hb.
  destruct (classify line) as [c|]; simpl; [|by rewrite app_nil_r].
  pose proof (Hb (change_path c)) as Hp. destruct c as [[path old] st]. cbn [change_path fst snd] in Hp.
  pose proof (describe_update nums (omap classify lines) (path, old, st)) as Hu. cbn [change_path fst snd] in Hu.
  assert (∀ p fd, fd = describe nums (omap classify lines ++ [(path, old, st)]) path →
    <[path := fd]> byPath !! p =
      (if decide (p ∈ (fd_Path <$> nums) ++ (change_path <$> omap classify lines ++ [(path, old, st)]))
       then Some (describe nums (omap classify lines ++ [(path, old, st)]) p) else None)) as Hins.
  { intros p fd ->. rewrite fmap_app. destruct (decide (path = p)) as [<-|Hne].
    - rewrite lookup_insert_eq, decide_True by set_solver. done.
    - rewrite lookup_insert_ne, Hb, describe_change by done. cbn [change_path fst snd].
      repeat case_decide; set_solver. }
  case_decide as Hin; rewrite Hp; split; simpl.
  - rewrite fmap_app, app_assoc. cbn [fmap list_fmap]. rewrite dedup_snoc, decide_True by done. by rewrite app_nil_r.
  - intros p. by apply Hins.
  - rewrite fmap_app, app_assoc. by apply dedup_snoc_same.
  - intros p. apply Hins. etrans; [|exact Hu]. by rewrite describe_default.
Qed.

(** C7 (equivalence): a diff lists every path once.  The merge of the two
    summaries git prints is the list of the paths either of them names, each
    once, in the order of their first mention (line counts first), with the line
    counts of the last --numstat line for the path and the status and old path
    of its last --name-status line. *)
Theorem mergeDiff_exact (numstat nameStatus : string) :
  let nums := omap numstat_entry (nonempty_lines numstat) in
  let changes := omap classify (nonempty_lines nameStatus) in
  let paths := dedup [] ((fd_Path <$> nums) ++ (change_path <$> changes)) in
  mergeDiff numstat nameStatus = describe nums changes <$> paths ∧
  NoDup paths ∧ fd_Path <$> mergeDiff numstat nameStatus = paths.
Proof.
  intros nums changes paths.
  assert (mergeDiff numstat nameStatus = describe nums changes <$> paths) as Hm.
  { unfold mergeDiff. pose proof (built_changes nums _ (nonempty_lines nameStatus) (built_nums (nonempty_lines numstat))) as Hb.
    destruct (foldl status_line _ _) as [byPath order]. destruct Hb as [Ho Hb]. simpl in Ho, Hb. rewrite Ho.
    fold changes. fold paths. assert (∀ p, p ∈ paths → byPath !! p = Some (describe nums changes p)) as Hin.
    { intros p Hp. rewrite Hb. apply decide_True. by apply (dedup_NoDup []) in Hp as [? _]. }
    clear Hb Ho. induction paths as [|p l IH]; [done|]. simpl. rewrite Hin by (by left). f_equal.
    apply IH. intros q Hq. apply Hin. by right. }
  split; [exact Hm|]. split; [apply dedup_NoDup|]. rewrite Hm, <-list_fmap_compose.
  assert (∀ p, fd_Path (describe nums changes p) = p) as Hp.
  { intros p. unfold describe. assert (fd_Path (default (blank_diff p) (last_for fd_Path nums p)) = p) as Hd.
    { destruct (last_for fd_Path nums p) as [d|] eqn:Hl; [|done]. simpl. unfold last_for in Hl.
      by apply last_Some_elem_of, list_elem_of_filter in Hl as [? _]. }
    by destruct (last_for change_path changes p) as [[[]]|]. }
  rewrite <-(list_fmap_id paths) at 2. apply list_fmap_ext. intros i p _. apply Hp.
Qed.
