(* ===== verification/GoURL.v ===== *)
(** * net/url

    url.Parse as far as its callers look at the result: whether it fails, the
    scheme, whether there is user information, the host and the escaped path. *)

From S2P Require Import Prelude GoStrings Encoding.


Definition alnum_any (c : ascii) : bool := is_lower c || is_upper c || is_digit c.
Definition char_of (l : string) (c : ascii) : bool := contains_char c l.
Definition unreserved (c : ascii) : bool := alnum_any c || char_of "-_.~" c.
(** shouldEscape in a path and in a host *)
Definition esc_path (c : ascii) : bool := negb (unreserved c || char_of "$&+,/:;=@" c).
Definition esc_host (c : ascii) : bool :=
  negb (unreserved c || char_of "!$&'()*+,;=:[]<>" c || (c =? "034")%char).

(** unescape(s, encodePath) *)
Fixpoint path_unescape (s : string) : option string :=
  match s with
  | EmptyString => Some ""
  | String c r =>
      if (c =? "%")%char then
        match r with
        | String a (String b r) =>
            match hex_value a, hex_value b with
            | Some x, Some y => String (ascii_of_N (x * 16 + y)) <$> path_unescape r
            | _, _ => None
            end
        | _ => None
        end
      else String c <$> path_unescape r
  end.
(** unescape(s, encodeHost): only bytes above 0x7f may be percent-encoded,
    except the percent sign of an IPv6 zone *)
Fixpoint host_unescape (s : string) : option string :=
  match s with
  | EmptyString => Some ""
  | String c r =>
      if (c =? "%")%char then
        match r with
        | String a (String b r) =>
            match hex_value a, hex_value b with
            | Some x, Some y =>
                if (x <? 8)%N && negb ((a =? "2")%char && (b =? "5")%char) then None
                else String (ascii_of_N (x * 16 + y)) <$> host_unescape r
            | _, _ => None
            end
        | _ => None
        end
      else if is_ascii c && esc_host c then None
      else String c <$> host_unescape r
  end.
Definition upper_hex (n : N) : ascii := if (n <? 10)%N then ascii_of_N (48 + n) else ascii_of_N (55 + n).
Fixpoint path_escape (s : string) : string :=
  match s with
  | EmptyString => ""
  | String c r =>
      if esc_path c then
        String "%" (String (upper_hex (N_of_ascii c / 16)) (String (upper_hex (N_of_ascii c mod 16)) (path_escape r)))
      else String c (path_escape r)
  end.
(** validEncoded(s, encodePath) *)
Definition valid_encoded : string → bool :=
  str_forall (λ c, char_of "!$&'()*+,;=:@[]%" c || negb (esc_path c)).
(** [setPath] then [EscapedPath] *)
Definition escaped_path (p : string) : option string :=
  path ← path_unescape p;
  Some (if negb (p =? path_escape path)%string && valid_encoded p then p
        else if (path =? "*")%string then "*" else path_escape path).

Definition is_scheme_char (c : ascii) : bool := is_digit c || char_of "+-." c.
(** getScheme: the scheme and the rest; an error for a leading colon *)
Fixpoint scheme_go (first : bool) (s raw : string) : option (string * string) :=
  match s with
  | EmptyString => Some ("", raw)
  | String c r =>
      if is_lower c || is_upper c then
        x ← scheme_go false r raw;
        Some (if (x.1 =? "")%string then x else (String c x.1, x.2))
      else if is_scheme_char c then
        if first then Some ("", raw)
        else x ← scheme_go false r raw;
             Some (if (x.1 =? "")%string then x else (String c x.1, x.2))
      else if (c =? ":")%char then if first then None else Some (":", r)
      else Some ("", raw)
  end.
(** The scheme is returned with its colon, so that it is empty only when absent *)
Definition get_scheme (raw : string) : option (string * string) := scheme_go true raw raw.

Definition valid_optional_port (p : string) : bool :=
  match p with
  | EmptyString => true
  | String c r => (c =? ":")%char && str_forall is_digit r
  end.
(** The part of a host that comes before its last colon, and from it on *)
Definition split_last (c : ascii) (s : string) : option (string * string) :=
  i ← last_index_byte c s; Some (str_take i s, str_drop i s).
(** parseHost.  A host in brackets is an IPv6 address, whose grammar is not
    checked here and whose text stands for itself: every such host is accepted,
    Go accepts some. *)
Definition parse_host (host : string) : option string :=
  if has_prefix "[" host then
    match last_index_byte "]" host with
    | Some i => if valid_optional_port (str_drop (S i) host) then Some host else None
    | None => None
    end
  else match split_last ":" host with
       | Some (_, port) => if valid_optional_port port then host_unescape host else None
       | None => host_unescape host
       end.
(** URL.Hostname *)
Definition strip_port (h : string) : string :=
  match index_byte ":" h with
  | None => h
  | Some i =>
      match index_byte "]" h with
      | Some j => trim_prefix "[" (str_take j h)
      | None => str_take i h
      end
  end.
Definition is_ctl (c : ascii) : bool := (N_of_ascii c <? 32)%N || (N_of_ascii c =? 127)%N.

Definition valid_userinfo : string → bool := str_forall (λ c, alnum_any c || char_of "-._:~!$&'()*+,;=%@" c).

Record URL := mkURL { u_Scheme : string; u_User : bool; u_Host : string; u_Path : string }.
Definition parse_authority (a : string) : option (bool * string) :=
  match last_index_byte "@" a with
  | None => h ← parse_host a; Some (false, h)
  | Some i =>
      h ← parse_host (str_drop (S i) a);
      let userinfo := str_take i a in
      if valid_userinfo userinfo then _ ← path_unescape userinfo; Some (true, h) else None
  end.
(** Cut at the first slash, which stays with the second part *)
Definition cut_slash (s : string) : string * string :=
  match index_byte slash s with Some i => (str_take i s, str_drop i s) | None => (s, "") end.

Section parse.
Context `{GoUnicode}.

(** url.Parse; [u_Path] is the EscapedPath of the result *)
Definition url_Parse (raw : string) : option URL :=
  let '(body, frag, _) := cut "#" raw in
  if str_exists is_ctl body then None
  else
    s ← get_scheme body;
    let scheme := to_lower (trim_suffix ":" s.1) in
    let '(rest, _, _) := cut "?" s.2 in
    path_unescape frag ≫= λ _,
    if negb (has_prefix "/" rest) && negb (scheme =? "")%string then Some (mkURL scheme false "" "")
    else if negb (has_prefix "/" rest) && contains_char ":" (cut_slash rest).1 then None
    else if (negb (scheme =? "")%string || negb (has_prefix "///" rest)) && has_prefix "//" rest then
      let '(authority, rest) := cut_slash (str_drop 2 rest) in
      a ← parse_authority authority;
      p ← escaped_path rest;
      Some (mkURL scheme a.1 a.2 p)
    else p ← escaped_path rest; Some (mkURL scheme false "" p).
(** URL.Path: what the escaped path stands for *)
Definition url_Path (u : URL) : string := default "" (path_unescape (u_Path u)).
End parse.

Section samples.
Let A := ascii_only_unicode.
Local Existing Instance A.
Example url_Parse_samples :
  url_Parse "HTTPS://u@Example.com:8443/a%2fb?q#f" = Some (mkURL "https" true "Example.com:8443" "/a%2fb") ∧
  url_Parse "///x" = Some (mkURL "" false "" "///x") ∧ url_Parse "//h/x" = Some (mkURL "" false "h" "/x") ∧
  url_Parse "mailto:a@b" = Some (mkURL "mailto" false "" "") ∧ url_Parse "a b" = Some (mkURL "" false "" "a%20b") ∧
  url_Parse "a:80" = Some (mkURL "a" false "" "") ∧ url_Parse "1:80" = None ∧ url_Parse "*" = Some (mkURL "" false "" "*") ∧
  url_Parse "https:///x" = Some (mkURL "https" false "" "/x") ∧ url_Parse "http://a b/" = None.
Proof. vm_compute. by split_and!. Qed.
End samples.

(** ** Facts *)

Definition starts_with (cs s : string) : Prop := s = "" ∨ ∃ c r, s = String c r ∧ contains_char c cs = true.
Lemma scheme_go_split s f raw x y : scheme_go f s raw = Some (x, y) → x ≠ "" →
  ∃ a, x = a +:+ ":" ∧ s = a +:+ String ":" y.
Proof.
  assert (∀ (c : ascii) (m : option (string * string)) x y,
    (x0 ← m; Some (if (x0.1 =? "")%string then x0 else (String c x0.1, x0.2))) = Some (x, y) → x ≠ "" →
    ∃ x', m = Some (x', y) ∧ x' ≠ "" ∧ x = String c x') as Hkeep.
  { clear. intros c m x y Hm Hx. destruct m as [[x' y']|]; [|done]. simpl in Hm.
    destruct (String.eqb_spec x' "") as [->|Hne]; [by simplify_eq|]. simplify_eq. by exists x'. }
  revert f x y. induction s as [|c s IH]; intros f x y Hs Hx; simpl in Hs; [by simplify_eq|].
  destruct (is_lower c || is_upper c).
  - apply Hkeep in Hs as (x' & Hm & Hx' & ->); [|done]. apply IH in Hm as (a & -> & ->); [|done]. by exists (String c a).
  - destruct (is_scheme_char c).
    + destruct f; [by simplify_eq|]. apply Hkeep in Hs as (x' & Hm & Hx' & ->); [|done]. apply IH in Hm as (a & -> & ->); [|done].
      by exists (String c a).
    + destruct (Ascii.eqb_spec c ":") as [->|_]; [|by simplify_eq]. destruct f; [done|]. simplify_eq. by exists "".
Qed.
Lemma cut_spec c s a b f : cut c s = (a, b, f) → ∃ r, s = a +:+ r ∧ starts_with (String c "") r.
Proof.
  unfold cut. destruct (index_byte c s) as [i|] eqn:Hi; intros [= <- <- <-].
  - apply index_byte_Some in Hi as [Hs _]. exists (String c (str_drop (S i) s)). split; [done|]. right.
    eexists _, _. split; [done|]. unfold contains_char, str_exists. simpl. by rewrite Ascii.eqb_refl.
  - exists "". rewrite str_app_nil_r. split; [done|by left].
Qed.
Lemma index_byte_absent c s : index_byte c s = None → no_char c s = true.
Proof.
  unfold no_char. induction s as [|d s IH]; cbn [index_byte str_forall]; [done|].
  destruct (c =? d)%char; [done|]. intros Hn%fmap_None. by apply IH.
Qed.
Lemma cut_slash_spec s a p : cut_slash s = (a, p) →
  s = a +:+ p ∧ no_char slash a = true ∧ (p = "" ∨ ∃ q, p = String slash q).
Proof.
  unfold cut_slash. destruct (index_byte slash s) as [i|] eqn:Hi; intros [= <- <-].
  - split; [by rewrite str_take_drop|]. apply index_byte_Some in Hi as [Hs Hn]. split; [done|]. right.
    exists (str_drop (S i) s). rewrite <-(str_take_drop i s) in Hs at 1. by apply (inj (String.append _)) in Hs.
  - rewrite str_app_nil_r. split; [done|]. split; [|by left]. by apply index_byte_absent.
Qed.
Lemma no_percent_path s : no_char "%" s = true → path_unescape s = Some s.
Proof.
  unfold no_char. induction s as [|c s IH]; cbn [str_forall path_unescape]; [done|]. intros [Hc%negb_true_iff Hs]%andb_true_iff.
  rewrite Ascii.eqb_sym in Hc. rewrite Hc, IH by done. done.
Qed.
Lemma no_percent_host s h : no_char "%" s = true → host_unescape s = Some h → h = s.
Proof.
  unfold no_char. revert h. induction s as [|c s IH]; intros h; cbn [str_forall host_unescape]; [by intros _ [= <-]|].
  intros [Hc%negb_true_iff Hs]%andb_true_iff. rewrite Ascii.eqb_sym in Hc. rewrite Hc.
  destruct (is_ascii c && esc_host c); [done|]. intros (h' & Hh & ->)%fmap_Some. by rewrite (IH h').
Qed.
Lemma path_escape_id s : no_char "%" (path_escape s) = true → path_escape s = s.
Proof.
  unfold no_char. induction s as [|c s IH]; simpl; [done|]. destruct (esc_path c); simpl; [done|].
  intros [_ Hs]%andb_true_iff. by rewrite IH.
Qed.

Section facts.
Context `{GoUnicode}.

(** The text of a URL and its parts *)
Lemma url_Parse_inv raw u : url_Parse raw = Some u → ∃ body fr sch rest q,
  raw = body +:+ fr ∧ starts_with "#" fr ∧ get_scheme body = Some (sch, rest +:+ q) ∧ starts_with "?" q ∧
  u_Scheme u = to_lower (trim_suffix ":" sch) ∧
  (u_Host u = "" ∨ ∃ auth p, rest = "//" +:+ auth +:+ p ∧ cut_slash (auth +:+ p) = (auth, p) ∧
     parse_authority auth = Some (u_User u, u_Host u) ∧ escaped_path p = Some (u_Path u)).
Proof.
  unfold url_Parse. destruct (cut "#" raw) as [[body frag] fl] eqn:Hcut.
  apply cut_spec in Hcut as (fr & -> & Hfr). destruct (str_exists is_ctl body); [done|].
  destruct (get_scheme body) as [[sch tl]|] eqn:Hsch; [|done]. cbn [mbind option_bind fst snd].
  destruct (cut "?" tl) as [[rest query] ql] eqn:Hq. apply cut_spec in Hq as (q & -> & Hq).
  destruct (path_unescape frag) as [x|]; [|done]. cbn [mbind option_bind]. intros Hu.
  exists body, fr, sch, rest, q. do 4 (split; [done|]).
  destruct (negb (has_prefix "/" rest) && _); [injection Hu as <-; auto|]. destruct (negb _ && _); [done|].
  destruct (has_prefix "//" rest) eqn:Hss; [rewrite andb_true_r in Hu; destruct (negb _ || _)|rewrite andb_false_r in Hu].
  - apply (has_prefix_spec "//") in Hss as [r ->]. change (str_drop 2 ("//" +:+ r)) with r in Hu.
    destruct (cut_slash r) as [auth p] eqn:Hcs. pose proof (cut_slash_spec _ _ _ Hcs) as [-> _].
    destruct (parse_authority auth) as [[us h]|] eqn:Ha; [|done]. simpl in Hu.
    destruct (escaped_path p) as [p'|] eqn:Hp; [|done]. injection Hu as <-. split; [done|]. right. by exists auth, p.
  - destruct (escaped_path rest); [|done]. injection Hu as <-; auto.
  - destruct (escaped_path rest); [|done]. injection Hu as <-; auto.
Qed.

(** What EscapedPath yields is encoded: printable ASCII without backslash, [?] or [#]. *)
Lemma hex_upper n : (n < 16)%N → let c := upper_hex n in
  hex_value c = Some n ∧ esc_path c = false ∧ (c =? slash)%char = false.
Proof.
  intros Hn. assert (forallb (λ i, let c := upper_hex (N.of_nat i) in
    bool_decide (hex_value c = Some (N.of_nat i)) && negb (esc_path c) && negb (c =? slash)%char) (seq 0 16) = true)
    as Hall by by vm_compute.
  rewrite forallb_forall in Hall. specialize (Hall (N.to_nat n)). rewrite N2Nat.id in Hall. cbn zeta in Hall |- *.
  specialize (Hall ltac:(apply in_seq; lia)). bool_hyps. by split_and!.
Qed.
Lemma code_div c : (N_of_ascii c / 16 < 16)%N ∧ (N_of_ascii c mod 16 < 16)%N.
Proof. pose proof (N_ascii_bounded c). split; [apply N.Div0.div_lt_upper_bound; lia|by apply N.mod_lt]. Qed.
Lemma path_escape_valid s : valid_encoded (path_escape s) = true.
Proof.
  unfold valid_encoded. induction s as [|c s IH]; [done|]. cbn [path_escape]. destruct (code_div c) as [H1 H2].
  destruct (esc_path c) eqn:He; cbn [str_forall]; rewrite IH, ?He, ?orb_true_r; [|done].
  destruct (hex_upper _ H1) as (_ & -> & _), (hex_upper _ H2) as (_ & -> & _). by rewrite !orb_true_r.
Qed.
Lemma path_escape_unescape s : path_unescape (path_escape s) = Some s.
Proof.
  induction s as [|c s IH]; [done|]. cbn [path_escape]. destruct (code_div c) as [H1 H2]. destruct (esc_path c) eqn:He.
  - cbn [path_unescape]. destruct (hex_upper _ H1) as (-> & _ & _), (hex_upper _ H2) as (-> & _ & _). rewrite IH. simpl.
    assert (N_of_ascii c / 16 * 16 + N_of_ascii c mod 16 = N_of_ascii c)%N as ->.
    { pose proof (N.div_mod (N_of_ascii c) 16 ltac:(done)). lia. }
    by rewrite ascii_N_embedding.
  - cbn [path_unescape]. destruct (Ascii.eqb_spec c "%") as [->|_]; [done|]. by rewrite IH.
Qed.
Lemma escaped_path_valid p e : escaped_path p = Some e → valid_encoded e = true ∧ is_Some (path_unescape e).
Proof.
  unfold escaped_path. destruct (path_unescape p) as [x|] eqn:Hx; [|done]. simpl.
  destruct (negb _ && valid_encoded p) eqn:Hv; [intros [= <-]; bool_hyps; eauto|].
  destruct (String.eqb_spec x "*"); intros [= <-]; [done|]. rewrite path_escape_valid, path_escape_unescape. eauto.
Qed.
(** EscapedPath of an encoded path is that path. *)
Lemma escaped_path_id e : valid_encoded e = true → is_Some (path_unescape e) → e ≠ "%2A" → escaped_path e = Some e.
Proof.
  intros Hv [x Hx] He. unfold escaped_path. rewrite Hx. simpl. rewrite Hv, andb_true_r.
  destruct (String.eqb_spec e (path_escape x)) as [Heq|]; [|done]. simpl.
  destruct (String.eqb_spec x "*") as [->|]; [done|by rewrite <-Heq].
Qed.
End facts.
