(* ===== verification/GitRemote.v ===== *)
(** * The mirror remote (site/git_helpers.go: validateRemoteURL)

    A tenant names the GitHub repository a site is mirrored to; the gate below
    decides what may reach [git remote add].

    A remote that passes the gate, if it is ASCII without percent-encoding,
    names github.com and a repository there, and nothing else. *)

From S2P Require Import Prelude GoStrings Regexp SiteErrors Encoding GoURL.

Section remote.
Context `{GoUnicode}.

(** ** The gate *)

Definition owner_char (c : ascii) : bool := alnum_any c || (c =? "-")%char.
Definition repo_char (c : ascii) : bool := alnum_any c || char_of "._-" c.
Definition ownerRepoRe : re :=
  RCat (RCls alnum_any) (RCat (RRep 0 38 owner_char) (RCat (RLit slash) (RRep 1 100 repo_char))).
Definition is_owner_repo (s : string) : bool := re_match ownerRepoRe (trim_suffix ".git" s).

(** [net.ParseIP] cannot accept the one name that is allowed, so the test for
    an address decides nothing. *)
Definition isAllowedGitHubHost (host : string) : bool :=
  (trim_suffix "." (to_lower (trim_space host)) =? "github.com")%string.

Definition badRepo (reason : string) : err := ValidationError "githubRepo" reason.
Definition validateRemoteURL (raw : string) : Res err unit :=
  let repo := trim_space raw in
  if (repo =? "")%string then Err (badRepo "must not be empty")
  else if str_exists (char_of (String "000" (String "010" (String "013" (String " " (String "009" "")))))) repo
  then Err (badRepo "must not contain whitespace or control characters")
  else if has_prefix "-" repo then Err (badRepo "must not begin with a dash")
  else if has_prefix "git@" repo then
    let '(host, path, found) := cut ":" (str_drop 4 repo) in
    if negb found || negb (isAllowedGitHubHost host) then
      Err (badRepo "ssh remote must be git@github.com:owner/repo")
    else if negb (is_owner_repo path) then Err (badRepo "must match owner/repo")
    else Ok tt
  else if negb (contains "://" repo) then
    if negb (is_owner_repo repo) then Err (badRepo "must match owner/repo") else Ok tt
  else match url_Parse repo with
       | None => Err (badRepo "is not a valid URL")
       | Some u =>
           if negb (u_Scheme u =? "https")%string then Err (badRepo "only https GitHub remotes are allowed")
           else if u_User u then Err (badRepo "must not embed credentials")
           else if negb (isAllowedGitHubHost (strip_port (u_Host u))) then
             Err (badRepo "host is not an allowed GitHub host")
           else if negb (is_owner_repo (trim_prefix "/" (u_Path u))) then
             Err (badRepo "must match /owner/repo")
           else Ok tt
       end.

Definition normalizeRemoteURL (repo : string) : string :=
  if contains "://" repo || has_prefix "git@" repo then repo
  else "https://github.com/" +:+ trim_suffix ".git" repo +:+ ".git".
End remote.

Section samples.
Let A := ascii_only_unicode.
Local Existing Instance A.
Definition accepts (l : list string) : list bool := (λ r, is_ok (validateRemoteURL r)) <$> l.
Example validateRemoteURL_samples :
  accepts ["owner/repo"; "https://github.com/owner/repo.git"; "git@github.com:owner/repo.git";
           "https://GitHub.com:8443/owner/repo?x#y"; "https://github.com/owner/.."; "  https://github.com/owner/repo"]
    = [true; true; true; true; true; true] ∧
  accepts ["file:///etc"; "http://169.254.169.254/a/b"; "https://attacker.internal/o/r"; "https://u:p@github.com/o/r";
           "https://github.com.evil.com/o/r"; "https://github.com/o/r/x"; "https://github.com@evil.com/o/r"; "--x"; "";
           "ssh://github.com/o/r"; "https://github.com/o/%72"; "git@evil.com:o/r"; "ext::sh -c x"]
    = repeat false 13.
Proof. vm_compute. split; reflexivity. Qed.
End samples.

(** ** What the gate lets through *)

(** *** Shapes *)

Definition github_name (h : string) : Prop := str_map lower_char (trim_with is_space h) ∈ ["github.com"; "github.com."].
(** owner/repo, with or without .git *)
Definition owner_repo (s : string) : Prop := ∃ o r g,
  s = o +:+ "/" +:+ r +:+ g ∧ (g = "" ∨ g = ".git") ∧ 1 ≤ String.length o ≤ 39 ∧ 1 ≤ String.length r ≤ 100 ∧
  str_forall owner_char o = true ∧ str_forall repo_char r = true.
Inductive github_remote : string → Prop :=
| gr_ssh host path : github_name host → owner_repo path → github_remote ("git@" +:+ host +:+ ":" +:+ path)
| gr_https scheme bracket host port path rest :
    str_map lower_char scheme = "https" → bracket ∈ [""; "["] → github_name host → starts_with ":]" port →
    no_char "@" (host +:+ port) = true → no_char slash (host +:+ port) = true → owner_repo path → starts_with "?#" rest →
    github_remote (scheme +:+ "://" +:+ bracket +:+ host +:+ port +:+ "/" +:+ path +:+ rest).

(** *** The pieces of a URL *)

Lemma is_owner_repo_sound s : is_owner_repo s = true → owner_repo s.
Proof.
  unfold is_owner_repo. rewrite re_match_spec by (simpl; lia). cbn [ownerRepoRe lang].
  intros (o & x & Hs & (c & -> & Hc) & o' & y & -> & [Hl Ho] & ? & r & -> & -> & [Hrl Hr]).
  assert (∃ g, s = trim_suffix ".git" s +:+ g ∧ (g = "" ∨ g = ".git")) as (g & Heq & Hg).
  { destruct (trim_suffix_cases ".git" s) as [He|He]; [exists ""|exists ".git"]; auto. rewrite str_app_nil_r. auto. }
  exists (String c o'), r, g. rewrite Heq, Hs. split_and!; try (simpl; lia); try done.
  - cbn [String.append]. f_equal. by rewrite !str_app_assoc.
  - cbn [str_forall]. unfold owner_char at 1. by rewrite Hc.
Qed.
Lemma owner_repo_no_percent s : owner_repo s → no_char "%" s = true.
Proof.
  intros (o & r & g & -> & Hg & _ & _ & Ho & Hr). unfold no_char. rewrite !str_forall_app.
  assert (str_forall (λ d, negb ("%" =? d)%char) o = true) as ->.
  { eapply str_forall_impl, Ho. intros c. by destruct c as [[] [] [] [] [] [] [] []]. }
  assert (str_forall (λ d, negb ("%" =? d)%char) r = true) as ->.
  { eapply str_forall_impl, Hr. intros c. by destruct c as [[] [] [] [] [] [] [] []]. }
  by destruct Hg as [-> | ->].
Qed.

Lemma str_forall_trim q p s : str_forall q s = true → str_forall q (trim_with p s) = true.
Proof.
  intros Hs. unfold trim_with. assert (str_forall q (trim_left p s) = true) as Hl.
  { induction s as [|c s IH]; simpl in *; [done|]. apply andb_true_iff in Hs as [Hc Hs].
    destruct (p c); [by apply IH|]. simpl. by rewrite Hc, Hs. }
  revert Hl. generalize (trim_left p s). clear s Hs. intros s. induction s as [|c s IH]; simpl; [done|].
  intros [Hc Hs]%andb_true_iff. specialize (IH Hs). destruct (trim_right p s); simpl in *.
  - destruct (p c); simpl; [done|]. by rewrite Hc.
  - by rewrite Hc.
Qed.
Lemma strip_port_shape a : ∃ b port, b ∈ [""; "["] ∧ starts_with ":]" port ∧ a = b +:+ strip_port a +:+ port.
Proof.
  unfold strip_port. destruct (index_byte ":" a) as [i|] eqn:Hi.
  - destruct (index_byte "]" a) as [j|] eqn:Hj.
    + apply index_byte_Some in Hj as [Ha _].
      exists (if has_prefix "[" (str_take j a) then "[" else ""), (String "]" (str_drop (S j) a)).
      split; [by destruct (has_prefix _ _); set_solver|]. split; [right; by eexists _, _|].
      rewrite Ha at 1. destruct (has_prefix "[" (str_take j a)) eqn:Hp.
      * apply has_prefix_spec in Hp as [r Hr]. by rewrite Hr, trim_prefix_app, str_app_assoc.
      * unfold trim_prefix. by rewrite Hp.
    + apply index_byte_Some in Hi as [Ha _]. exists "", (String ":" (str_drop (S i) a)).
      split; [set_solver|]. split; [right; by eexists _, _|]. done.
  - exists "", "". split; [set_solver|]. split; [by left|]. by rewrite str_app_nil_r.
Qed.

Section gate.
Context `{GoUnicode}.

Lemma allowed_github_name h : all_ascii h = true → isAllowedGitHubHost h = true → github_name h.
Proof.
  intros Ha. unfold isAllowedGitHubHost, trim_space. rewrite Ha. unfold to_lower, all_ascii.
  rewrite str_forall_trim by done. intros Heq%String.eqb_eq. unfold github_name.
  destruct (trim_suffix_cases "." (str_map lower_char (trim_with is_space h))) as [Hs|Hs]; rewrite Heq in Hs;
    rewrite Hs; set_solver.
Qed.
Lemma parse_authority_plain a h : no_char "%" a = true → parse_authority a = Some (false, h) → h = a ∧ no_char "@" a = true.
Proof.
  intros Hp. unfold parse_authority. destruct (last_index_byte "@" a) as [i|] eqn:Hi.
  - destruct (parse_host _); simpl; [|done]. destruct (valid_userinfo _); [|done]. by destruct (path_unescape _).
  - apply last_index_None in Hi. intros Ha. split; [|done].
    assert (parse_host a = Some h) as Hh by (destruct (parse_host a); simpl in Ha; by simplify_eq). clear Ha. revert Hh.
    unfold parse_host. destruct (has_prefix "[" a).
    + destruct (last_index_byte "]" a); [|done]. by destruct (valid_optional_port _); intros; simplify_eq.
    + destruct (split_last ":" a) as [[x port]|]; [destruct (valid_optional_port port); [|done]|]; by apply no_percent_host.
Qed.
Lemma escaped_owner_repo p p' : no_char "%" p = true → escaped_path p = Some p' →
  is_owner_repo (trim_prefix "/" p') = true → p' = p.
Proof.
  intros Hp. unfold escaped_path. rewrite no_percent_path by done. simpl. intros [= <-] Ho%is_owner_repo_sound.
  destruct (negb (p =? path_escape p)%string && valid_encoded p); [done|].
  destruct (String.eqb_spec p "*") as [->|_]; [done|]. apply path_escape_id.
  apply owner_repo_no_percent in Ho. unfold trim_prefix in Ho.
  destruct (has_prefix "/" (path_escape p)) eqn:Hs; [|done]. apply has_prefix_spec in Hs as [r Hr].
  rewrite Hr in Ho |- *. by rewrite str_drop_app in Ho.
Qed.

Lemma url_gate repo u : all_ascii repo = true → no_char "%" repo = true → url_Parse repo = Some u →
  u_Scheme u = "https" → u_User u = false → isAllowedGitHubHost (strip_port (u_Host u)) = true →
  is_owner_repo (trim_prefix "/" (u_Path u)) = true → github_remote repo.
Proof.
  intros Hasc Hpct (body & fr & sch & rest & q & -> & Hfr & Hsch & Hq & Hs & Hh)%url_Parse_inv Hscheme Huser Hhost Hpath.
  rewrite Hscheme in Hs. destruct (decide (sch = "")) as [->|Hne]; [by vm_compute in Hs|].
  apply scheme_go_split in Hsch as (a & -> & ->); [|done]. rewrite trim_suffix_app in Hs.
  destruct Hh as [Hh|(auth & p & -> & Hcs & Hauth & Hp)]; [by rewrite Hh in Hhost|].
  assert (∀ f, str_forall f ((a +:+ String ":" (("//" +:+ auth +:+ p) +:+ q)) +:+ fr) = true →
    str_forall f a = true ∧ str_forall f auth = true ∧ str_forall f p = true) as Hparts.
  { intros f. change (String ":" ?r) with (":" +:+ r). rewrite !str_forall_app, !andb_true_iff. naive_solver. }
  apply Hparts in Hasc as (Ha & Hasc & _), Hpct as (_ & Hpct & Hpp). clear Hparts.
  rewrite Huser in Hauth. apply parse_authority_plain in Hauth as [Hauth Hat]; [|done]. rewrite Hauth in Hhost.
  apply escaped_owner_repo in Hp as Hu; [|done..]. rewrite Hu in Hpath. apply is_owner_repo_sound in Hpath.
  apply cut_slash_spec in Hcs as (_ & Hsl & [->|[p1 ->]]).
  { destruct Hpath as (o & r & g & Hn & _ & Ho & _). exfalso. destruct o; simpl in *; [lia|done]. }
  change (String slash p1) with ("/" +:+ p1) in *. rewrite trim_prefix_app in Hpath.
  destruct (strip_port_shape auth) as (b & port & Hb & Hport & Heq).
  assert (all_ascii (strip_port auth) = true) as Hhasc.
  { unfold all_ascii. rewrite Heq, !str_forall_app, !andb_true_iff in Hasc. tauto. }
  replace ((a +:+ _) +:+ fr) with (a +:+ "://" +:+ b +:+ strip_port auth +:+ port +:+ "/" +:+ p1 +:+ (q +:+ fr)).
  - constructor; try done.
    + unfold to_lower in Hs. unfold all_ascii in Hs. by rewrite Ha in Hs.
    + by apply allowed_github_name.
    + rewrite Heq, no_char_app in Hat. by apply andb_true_iff in Hat as [_ ?].
    + rewrite Heq in Hsl. unfold no_char in Hsl |- *. rewrite str_forall_app in Hsl. by apply andb_true_iff in Hsl as [_ ?].
    + destruct Hq as [->|(c & r & -> & Hc)].
      * destruct Hfr as [->|(c & r & -> & Hc)]; [by left|right]. exists c, r. split; [done|].
        by destruct c as [[] [] [] [] [] [] [] []].
      * right. exists c, (r +:+ fr). split; [done|]. by destruct c as [[] [] [] [] [] [] [] []].
  - rewrite Heq at 2. change (String ":" ?r) with (":" +:+ r). rewrite !str_app_assoc. done.
Qed.

Lemma gate_shape repo : all_ascii repo = true → no_char "%" repo = true → trim_space repo = repo →
  validateRemoteURL repo = Ok tt → github_remote (normalizeRemoteURL repo).
Proof.
  intros Hasc Hpct Ht. unfold validateRemoteURL. rewrite Ht. destruct (repo =? "")%string; [done|].
  destruct (str_exists _ repo); [done|]. destruct (has_prefix "-" repo); [done|]. unfold normalizeRemoteURL.
  destruct (has_prefix "git@" repo) eqn:Hg.
  { rewrite orb_true_r. apply has_prefix_spec in Hg as [r ->]. change (str_drop 4 ("git@" +:+ r)) with r.
    destruct (cut ":" r) as [[host path] found] eqn:Hcut. destruct found; [|done].
    unfold cut in Hcut. destruct (index_byte ":" r) as [i|] eqn:Hi; [|done]. apply index_byte_Some in Hi as [Hr _].
    assert (host = str_take i r ∧ path = str_drop (S i) r) as [Hhost Hpath] by by injection Hcut.
    rewrite <-Hhost, <-Hpath in Hr. clear Hcut Hhost Hpath.
    destruct (isAllowedGitHubHost host) eqn:Hh; [|done]. destruct (is_owner_repo path) eqn:Hp; [|done]. intros _.
    rewrite Hr. apply (gr_ssh host path); [|by apply is_owner_repo_sound]. apply allowed_github_name; [|done].
    unfold all_ascii in *. rewrite Hr, !str_forall_app, !andb_true_iff in Hasc. apply Hasc. }
  destruct (contains "://" repo); simpl negb; cbv iota; simpl orb; cbv iota.
  - destruct (url_Parse repo) as [u|] eqn:Hu; [|done]. destruct (String.eqb_spec (u_Scheme u) "https"); [|done].
    destruct (u_User u) eqn:Hus; [done|]. destruct (isAllowedGitHubHost _) eqn:Hh; [|done].
    destruct (is_owner_repo _) eqn:Hp; [|done]. intros _. by eapply url_gate.
  - destruct (is_owner_repo repo) eqn:Hp; [|done]. intros _.
    change ("https://github.com/" +:+ ?s) with ("https" +:+ "://" +:+ "" +:+ "github.com" +:+ "" +:+ "/" +:+ s).
    rewrite <-(str_app_nil_r (trim_suffix ".git" repo +:+ ".git")). constructor; try done; try set_solver; try (by left).
    unfold is_owner_repo in Hp. rewrite <-(trim_suffix_app (trim_suffix ".git" repo) ".git") in Hp.
    by apply is_owner_repo_sound.
Qed.
End gate.

(** A mirror is a GitHub repository.  A remote without surrounding
    blanks, written in ASCII without percent-encoding, that passes the gate is
    handed to git as the ssh or the https URL of a repository of github.com: the
    host is that name, compared without case and up to a final dot, followed at
    once by a port or the path, no user or password comes before it, and the path
    is one owner and one repository of the letters GitHub allows. *)
Theorem remote_is_github `{GoUnicode} (repo : string) :
  trim_space repo = repo → all_ascii repo = true → no_char "%" repo = true →
  validateRemoteURL repo = Ok tt → github_remote (normalizeRemoteURL repo).
Proof. intros Ht Ha Hp. by apply gate_shape. Qed.

Lemma remote_is_github_witness :
  let repo := "HTTPS://GitHub.com.:443/owner/my.repo.git?x#y" in
  @validateRemoteURL ascii_only_unicode repo = Ok tt ∧ github_remote (normalizeRemoteURL repo).
Proof.
  split; [vm_compute; reflexivity|]. apply (@remote_is_github ascii_only_unicode); vm_compute; reflexivity.
Defined.

(** Outside ASCII the comparison follows Unicode: the capital I with a dot is
    lowered to i, so a host that is not github.com passes for it. *)
Fixpoint lower_dotted (s : string) : string :=
  match s with
  | String c r =>
      match r with
      | String d r' => if (c =? "196")%char && (d =? "176")%char then String "i" (lower_dotted r')
                       else String (lower_char c) (lower_dotted r)
      | EmptyString => String (lower_char c) ""
      end
  | EmptyString => ""
  end.
Definition dotted_unicode : GoUnicode := {|
  uni_to_lower := lower_dotted; uni_trim_space := trim_with is_space;
  uni_equal_fold a b := (lower_dotted a =? lower_dotted b)%string; uni_fields := ascii_fields |}.
Example other_host_passes :
  let host := "g" +:+ String "196" (String "176" "thub.com") in
  host ≠ "github.com" ∧ @validateRemoteURL dotted_unicode ("https://" +:+ host +:+ "/owner/repo") = Ok tt.
Proof. vm_compute. done. Qed.
