(* ===== verification/GitWorld.v ===== *)
(** * What the git-backed service talks to (site/gitrunner.go, store.go, lock.go)

    The service shells out to git, keeps metadata in a store, and reads and
    writes the file system.  All of it answers from outside: a call is a
    function on the trace of what it asked so far (file Trace), and a [World]
    gives the answers, which may depend on everything asked before.  Taking and
    releasing the locks of lock.go are events of the trace too, so that what
    happens inside a critical section can be read off it. *)

From S2P Require Import Prelude Trace GoStrings SiteErrors Handle SitePath Zip SiteTypes Http.

(** A file or a directory as filepath.WalkDir finds it: a file's size, when its
    Info can be read; a directory's entries, and the error of reading it. *)
Inductive fsnode :=
| FFile (size : option Z)
| FDir (entries : list (string * fsnode)) (err : option string).

(** An entry of a tar stream, as tar.Reader.Next presents it; [TarErr] is a
    malformed header. *)
Inductive tar_kind := TypeDir | TypeReg | TypeOther.
Inductive tar_item :=
| TarEntry (name : string) (kind : tar_kind) (body : bytes)
| TarErr (e : string).
Class TarReader := { tar_read : bytes → list tar_item }.

Record StoreCreateSite := mkStoreCreate {
  sc_Handle : string; sc_OwnerID : uuid; sc_Visibility : string; sc_PublishMode : string;
  sc_GitHubRepo : option string; sc_WebRoot : string; sc_Description : string;
}.

Inductive event :=
(* lock.go: the in-process lock of a site and the flock on its lock file *)
| EvLock (id : uuid) | EvUnlock (id : uuid) | EvRLock (id : uuid) | EvRUnlock (id : uuid)
| EvFlock (path : string) (r : Res err unit) | EvFunlock (path : string)
(* gitrunner.go: [git -C dir args] with extra environment *)
| EvGit (dir : string) (env args : list string) (r : Res err string)
(* store.go *)
| EvCreateSiteWithOwner (in_ : StoreCreateSite) (r : Res err SiteRecord)
| EvGetSiteByID (id : uuid) (r : Res err (option SiteRecord))
| EvGetSiteByHandle (h : string) (r : Res err (option SiteRecord))
| EvGetSiteByRedirect (h : string) (r : Res err (option SiteRecord))
| EvListSitesForUser (id : uuid) (limit offset : Z) (r : Res err (list SiteRecord))
| EvHandleIsTaken (h : string) (r : Res err bool)
| EvRenameHandle (id : uuid) (old new : string) (r : Res err unit)
| EvSoftDeleteSite (id : uuid) (r : Res err unit)
| EvSetPublished (id : uuid) (sha : string) (r : Res err unit)
| EvSetSiteRemote (id : uuid) (repo : option string) (r : Res err unit)
(* package os *)
| EvStat (p : string) (exists_ : bool)
| EvMkdirAll (p : string) (r : Res err unit)
| EvOpenFile (p : string) (r : Res err unit)
| EvCopy (p : string) (content : bytes) (r : Res err unit)
| EvWriteFile (p : string) (content : bytes) (r : Res err unit)
| EvReadFile (p : string) (r : Res err bytes)
| EvReadDir (p : string) (r : Res err (list string))
| EvRemoveAll (p : string) (r : Res err unit)
| EvMkdirTemp (parent pattern : string) (r : Res err string)
| EvRename (old new : string) (r : Res err unit)
| EvWalk (root : string) (r : Res err fsnode).
Definition trace : Type := list event.

Class World := {
  w_now : trace → time;
  w_Flock : trace → string → Res err unit;
  w_Git : trace → string → list string → list string → Res err string;
  w_CreateSiteWithOwner : trace → StoreCreateSite → Res err SiteRecord;
  w_GetSiteByID : trace → uuid → Res err (option SiteRecord);
  w_GetSiteByHandle : trace → string → Res err (option SiteRecord);
  w_GetSiteByRedirect : trace → string → Res err (option SiteRecord);
  w_ListSitesForUser : trace → uuid → Z → Z → Res err (list SiteRecord);
  w_HandleIsTaken : trace → string → Res err bool;
  w_RenameHandle : trace → uuid → string → string → Res err unit;
  w_SoftDeleteSite : trace → uuid → Res err unit;
  w_SetPublished : trace → uuid → string → Res err unit;
  w_SetSiteRemote : trace → uuid → option string → Res err unit;
  w_Stat : trace → string → bool;
  w_MkdirAll : trace → string → Res err unit;
  w_OpenFile : trace → string → Res err unit;
  w_Copy : trace → string → bytes → Res err unit;
  w_WriteFile : trace → string → bytes → Res err unit;
  w_ReadFile : trace → string → Res err bytes;
  w_ReadDir : trace → string → Res err (list string);
  w_RemoveAll : trace → string → Res err unit;
  w_MkdirTemp : trace → string → string → Res err string;
  w_Rename : trace → string → string → Res err unit;
  w_Walk : trace → string → Res err fsnode;
}.

Abbreviation J := (@Trace.J event err).

Section primitives.
Context `{World}.

Definition now : J time := λ tr, (tr, Ok (w_now tr)).
Definition Git (dir : string) (env args : list string) : J string :=
  ask (λ tr, w_Git tr dir env args) (EvGit dir env args).
Definition CreateSiteWithOwner (i : StoreCreateSite) : J SiteRecord :=
  ask (λ tr, w_CreateSiteWithOwner tr i) (EvCreateSiteWithOwner i).
Definition GetSiteByID (id : uuid) : J (option SiteRecord) := ask (λ tr, w_GetSiteByID tr id) (EvGetSiteByID id).
Definition store_GetSiteByHandle (h : string) : J (option SiteRecord) :=
  ask (λ tr, w_GetSiteByHandle tr h) (EvGetSiteByHandle h).
Definition GetSiteByRedirect (h : string) : J (option SiteRecord) :=
  ask (λ tr, w_GetSiteByRedirect tr h) (EvGetSiteByRedirect h).
Definition ListSitesForUser (id : uuid) (limit offset : Z) : J (list SiteRecord) :=
  ask (λ tr, w_ListSitesForUser tr id limit offset) (EvListSitesForUser id limit offset).
Definition HandleIsTaken (h : string) : J bool := ask (λ tr, w_HandleIsTaken tr h) (EvHandleIsTaken h).
Definition RenameHandleWithRedirect (id : uuid) (old new : string) : J unit :=
  ask (λ tr, w_RenameHandle tr id old new) (EvRenameHandle id old new).
Definition SoftDeleteSite (id : uuid) : J unit := ask (λ tr, w_SoftDeleteSite tr id) (EvSoftDeleteSite id).
Definition SetPublished (id : uuid) (sha : string) : J unit :=
  ask (λ tr, w_SetPublished tr id sha) (EvSetPublished id sha).
Definition SetSiteRemote (id : uuid) (repo : option string) : J unit :=
  ask (λ tr, w_SetSiteRemote tr id repo) (EvSetSiteRemote id repo).

Definition Stat (p : string) : J bool := λ tr, let b := w_Stat tr p in (tr ++ [EvStat p b], Ok b).
Definition MkdirAll (p : string) : J unit := ask (λ tr, w_MkdirAll tr p) (EvMkdirAll p).
Definition OpenFile (p : string) : J unit := ask (λ tr, w_OpenFile tr p) (EvOpenFile p).
Definition Copy (p : string) (content : bytes) : J unit := ask (λ tr, w_Copy tr p content) (EvCopy p content).
Definition os_WriteFile (p : string) (content : bytes) : J unit :=
  ask (λ tr, w_WriteFile tr p content) (EvWriteFile p content).
Definition os_ReadFile (p : string) : J bytes := ask (λ tr, w_ReadFile tr p) (EvReadFile p).
Definition ReadDir (p : string) : J (list string) := ask (λ tr, w_ReadDir tr p) (EvReadDir p).
Definition RemoveAll (p : string) : J unit := ask (λ tr, w_RemoveAll tr p) (EvRemoveAll p).
Definition MkdirTemp (parent pattern : string) : J string :=
  ask (λ tr, w_MkdirTemp tr parent pattern) (EvMkdirTemp parent pattern).
Definition Rename (old new : string) : J unit := ask (λ tr, w_Rename tr old new) (EvRename old new).
Definition WalkDir (root : string) : J fsnode := ask (λ tr, w_Walk tr root) (EvWalk root).
Definition Flock (p : string) : J unit := ask (λ tr, w_Flock tr p) (EvFlock p).

(** [fmt.Errorf("%w: what: %v", ErrGit, err)] *)
Definition gitErr (what : string) (e : err) : err := EWrap ErrGit (what +:+ ": " +:+ err_text e).
Definition notFound {A} (m : J A) : J A := mapErr (λ _, ESentinel ErrNotFound) m.

(** ** Locks *)

Definition lockFilePath (gitDir : string) : string := filepath_Join [gitDir; "kotoji.lock"].
(** [%w] keeps the chain of an error the model does not tell apart: its text *)
Definition prefixed (what : string) (e : err) : err := EOther (what +:+ ": " +:+ err_text e).
Definition acquireFileLock (gitDir : string) : J unit :=
  mapErr (prefixed "site: lock mkdir") (MkdirAll gitDir) ;!
  mapErr (prefixed "site: lock open") (OpenFile (lockFilePath gitDir)) ;!
  mapErr (prefixed "site: flock") (Flock (lockFilePath gitDir)).
Definition release (gitDir : string) : J unit := note (EvFunlock (lockFilePath gitDir)).
End primitives.

(** What an error of git says: its exit code is 1, the answer is no. *)
Definition exit_1 (e : err) : bool := match e with GitError _ code _ => (code =? 1)%Z | _ => false end.

(** authorEnv (gitrunner.go): the identity a commit is made with *)
Definition authorEnv `{UUIDText} (a : Actor) (when : string) : list string :=
  ["GIT_AUTHOR_NAME=" +:+ actorName a; "GIT_AUTHOR_EMAIL=" +:+ actorEmail a;
   "GIT_COMMITTER_NAME=" +:+ actorName a; "GIT_COMMITTER_EMAIL=" +:+ actorEmail a] ++
  (if (when =? "")%string then []
   else ["GIT_AUTHOR_DATE=" +:+ when; "GIT_COMMITTER_DATE=" +:+ when]).
