(* ===== verification/GitService.v ===== *)
(** * The git-backed site service (site/git_service.go, git_helpers.go)

    The production implementation of the site service, method by method, over
    the world of GitWorld: the lifecycle of a site, its branches, reading and
    writing files, publishing, history.  GitMirror holds the methods that talk
    to the mirror remote. *)

From S2P Require Import Prelude Trace GoStrings SiteErrors Handle SitePath Zip SiteTypes Http GitParse GitRemote GitWorld.

Record Config := mkConfig {
  Root : string; GitBin : string; MirrorOn : bool; ListLimit : Z; MaxLogLimit : Z;
  GitHubToken : string; GitHubUser : string;
  MirrorToken : option (trace → string * string);   (* nil, or asked at every use *)
  MirrorEnabled : option (trace → bool);
  ZipLimits : ZipConfig; SiteQuotaBytes : Z; GitOpTimeout : Z;
}.
Definition defaultGitOpTimeout : Z := 120000000000.
Definition withDefaults (c : Config) : Config := {|
  Root := Root c;
  GitBin := if (GitBin c =? "")%string then "git" else GitBin c;
  MirrorOn := MirrorOn c;
  ListLimit := or_default defaultLogLimit (ListLimit c);
  MaxLogLimit := or_default defaultMaxLogLimit (MaxLogLimit c);
  GitHubToken := GitHubToken c; GitHubUser := GitHubUser c;
  MirrorToken := MirrorToken c; MirrorEnabled := MirrorEnabled c;
  ZipLimits := zipWithDefaults (ZipLimits c);
  SiteQuotaBytes := SiteQuotaBytes c;
  GitOpTimeout := if (GitOpTimeout c <=? 0)%Z then defaultGitOpTimeout else GitOpTimeout c |}.

Definition kotojiMetaFile : string := ".kotoji-served-sha".
Definition githubBase : string := "https://github.com".
Definition defaultGitHubUser : string := "x-access-token".

(** repoDiskSize: the sizes of the files below [root], without the served
    trees.  An entry that cannot be read counts for nothing, the root must be
    readable. *)
Fixpoint walk_size (root path : string) (n : fsnode) (total : Z) : Res err Z :=
  match n with
  | FFile size => Ok (match size with Some s => wrap_i64 (total + s) | None => total end)
  | FDir entries rerr =>
      if (path =? filepath_Join [root; "served"])%string then Ok total
      else
        let go := (fix go (l : list (string * fsnode)) (total : Z) : Res err Z :=
          match l with
          | [] => Ok total
          | (name, n) :: l => try! total := walk_size root (filepath_Join [path; name]) n total in go l total
          end) in
        match rerr with
        | Some e => if (path =? root)%string then Err (EOther e) else go entries total
        | None => go entries total
        end
  end.

Section service.
Context `{GoUnicode} `{GoTime} `{UUIDText} `{TarReader} `{World}.
Context (cfg : Config).

Definition repoDir (id : uuid) : string := filepath_Join [Root cfg; uuid_String id].
Definition gitDir (id : uuid) : string := filepath_Join [repoDir id; ".git"].
Definition servedDir (id : uuid) (branch : string) : string := filepath_Join [repoDir id; "served"; branch].

(** ** Small git wrappers *)

Definition run (id : uuid) (args : list string) : J string := Git (repoDir id) [] args.
Definition runEnv (id : uuid) (a : Actor) (args : list string) : J string :=
  let! t := now in Git (repoDir id) (authorEnv a (rfc3339 t)) args.
Definition revParse (id : uuid) (ref : string) : J string :=
  let! out := notFound (run id ["rev-parse"; "--verify"; "--quiet"; "--end-of-options"; ref +:+ "^{commit}"]) in
  let sha := trim_space out in
  guard_not (sha =? "")%string (ESentinel ErrNotFound) ;! ok sha.
Definition branchExists (id : uuid) (branch : string) : J bool :=
  let! r := try_ (run id ["show-ref"; "--verify"; "--quiet"; "refs/heads/" +:+ branch]) in
  match r with
  | Ok _ => ok true
  | Err e => if exit_1 e then ok false else fail e
  end.
Definition runGit (id : uuid) (args : list string) : J string := mapErr wrapGit (run id args).

(** ** Critical sections *)

(** The cross-process lock, taken only when there is a repository *)
Definition underFlock {A} (id : uuid) (fn : J A) : J A :=
  let! present := Stat (gitDir id) in
  if (present : bool) then
    mapErr (λ e, EWrap ErrGit (err_text e)) (acquireFileLock (gitDir id)) ;!
    finally fn (release (gitDir id))
  else fn.
Definition withWriteLock {A} (id : uuid) (fn : J A) : J A :=
  note (EvLock id) ;! finally (underFlock id fn) (note (EvUnlock id)).
Definition withReadLock {A} (id : uuid) (fn : J A) : J A :=
  note (EvRLock id) ;! finally fn (note (EvRUnlock id)).

(** ** Loading the row *)

Definition foundSite (id : uuid) : J SiteRecord :=
  let! r := mapErr (gitErr "load site") (GetSiteByID id) in
  match r with Some rec => ok rec | None => fail (ESentinel ErrNotFound) end.
Definition alive (rec : SiteRecord) : J SiteRecord :=
  match rec_DeletedAt rec with Some _ => fail (ESentinel ErrNotFound) | None => ok rec end.
Definition requireSite (id : uuid) : J SiteRecord := let! rec := foundSite id in alive rec.

(** ** Commits *)

Definition commitInfo (id : uuid) (sha : string) : J CommitInfo :=
  let! out := runGit id ["show"; "-s"; logFormat; sha] in
  match parseLog out with
  | ci :: _ => ok ci
  | [] => fail (EWrap ErrGit ("empty commit info for " +:+ sha))
  end.
Definition commitStaged (id : uuid) (branch : string) (actor : Actor) (msg : string) : J CommitInfo :=
  mapErr wrapGit (runEnv id actor ["commit"; "-m"; msg; viaTrailer actor]) ;!
  let! tip := mapErr wrapGit (revParse id branch) in
  commitInfo id tip.
Definition checkoutBranch (id : uuid) (branch : string) : J unit :=
  let! cur := try_ (run id ["symbolic-ref"; "--short"; "HEAD"]) in
  match cur with
  | Ok out => if (trim_space out =? branch)%string then ok tt else runGit id ["checkout"; branch] ;! ok tt
  | Err _ => runGit id ["checkout"; branch] ;! ok tt
  end.

(** ** The optimistic lock *)

Definition changedPaths (id : uuid) (a b : string) : J (list string) :=
  let! r := try_ (run id ["diff"; "--name-only"; "--end-of-options"; a; b]) in
  ok (match r with Ok out => lines_of out | Err _ => [] end).
Definition checkBaseSHA (id : uuid) (branch baseSHA : string) (hint : list string) : J unit :=
  let! tip := notFound (revParse id branch) in
  if (tip =? baseSHA)%string then ok tt
  else
    let! changed := changedPaths id baseSHA tip in
    fail (ConflictError branch baseSHA tip (match changed with [] => hint | _ => changed end)).

(** ** Served trees *)

Definition tar_entry (dst : string) (t : tar_item) : J unit :=
  match t with
  | TarErr e => fail (EOther ("tar read: " +:+ e))
  | TarEntry name kind body =>
      if (name =? "")%string || has_suffix "/" name then ok tt
      else if negb (is_local name) then fail (EOther ("tar entry escapes root: " +:+ name))
      else
        let full := filepath_Join [dst; path_clean name] in
        match kind with
        | TypeDir => MkdirAll full
        | TypeReg => MkdirAll (filepath_Dir full) ;! OpenFile full ;! Copy full body
        | TypeOther => ok tt
        end
  end.
Definition extractTar (tarBytes : bytes) (dst : string) : J unit := each (tar_entry dst) (tar_read tarBytes).

Definition ensureServed (id : uuid) (branch sha : string) : J unit :=
  let dst := servedDir id branch in
  let! meta := try_ (os_ReadFile (filepath_Join [dst; kotojiMetaFile])) in
  if (match meta with Ok m => (trim_space m =? sha)%string | Err _ => false end) then ok tt
  else
    let parent := filepath_Dir dst in
    mapErr (gitErr "served mkdir") (MkdirAll parent) ;!
    let! tmp := mapErr (gitErr "served tmp") (MkdirTemp parent ".tmp-served-*") in
    onError
      (let! tarBytes := runGit id ["archive"; "--format=tar"; sha] in
       mapErr (gitErr "served extract") (extractTar tarBytes tmp) ;!
       mapErr (gitErr "served meta") (os_WriteFile (filepath_Join [tmp; kotojiMetaFile]) sha) ;!
       ignore (RemoveAll dst) ;!
       mapErr (gitErr "served swap") (Rename tmp dst))
      (RemoveAll tmp).
Definition refreshServed (id : uuid) (branch : string) : J unit :=
  ignore (let! sha := revParse id branch in ensureServed id branch sha).

(** ** Mirror credentials (git_auth.go) and the best-effort push *)

Definition mirrorCreds : J (string * string) := λ tr,
  (tr, Ok (match MirrorToken cfg with Some f => f tr | None => (GitHubToken cfg, GitHubUser cfg) end)).
Definition auth_env (token user : string) : list string :=
  if (token =? "")%string then []
  else
    let user := if (user =? "")%string then defaultGitHubUser else user in
    ["GIT_CONFIG_COUNT=1"; "GIT_CONFIG_KEY_0=http." +:+ githubBase +:+ ".extraHeader";
     "GIT_CONFIG_VALUE_0=Authorization: Basic " +:+ Encoding.b64_encode Encoding.b64_std true (user +:+ ":" +:+ token)].
Definition mirrorAuthEnv : J (list string) := let! c := mirrorCreds in ok (auth_env c.1 c.2).
Definition mirrorEnabled : J bool := λ tr,
  (tr, Ok (match MirrorEnabled cfg with Some f => f tr | None => MirrorOn cfg end)).
Definition runMirror (id : uuid) (args : list string) : J string :=
  let! env := mirrorAuthEnv in Git (repoDir id) env args.
Definition bestEffortMirror (id : uuid) (branch : string) : J unit :=
  let! on := mirrorEnabled in
  if negb on then ok tt
  else
    let! r := try_ (run id ["remote"; "get-url"; "origin"]) in
    match r with
    | Err _ => ok tt
    | Ok _ => ignore (runMirror id ["push"; "--force-with-lease"; "origin"; branch])
    end.

(** ** Quota *)

Definition repoDiskSize (id : uuid) : J Z :=
  let root := repoDir id in
  mapErr (gitErr "measure repo size")
    (let! n := WalkDir root in lift (walk_size root root n 0)).
Definition enforceQuota (id : uuid) (deltaBytes : Z) : J unit :=
  let quota := SiteQuotaBytes cfg in
  if (quota <=? 0)%Z then ok tt
  else
    let! current := repoDiskSize id in
    guard_not (quota <? wrap_i64 (current + deltaBytes))%Z (ESentinel ErrQuotaExceeded).
Definition gcRepo (id : uuid) : J unit := ignore (run id ["gc"; "--auto"; "--quiet"; "--prune=now"]).
End service.
