(* ===== verification/GitOps.v ===== *)
(** * The methods of the git-backed service (site/git_service.go, zip.go, mirror.go)

    Each definition is one method of gitService, in the order of the source. *)

From S2P Require Import Prelude Trace GoStrings SiteErrors Handle SitePath Zip SiteTypes Http GitParse GitRemote.
From S2P Require Import GitWorld GitService.

(** isUniqueViolation, on the text of the error *)
Definition isUniqueViolation `{GoUnicode} (e : err) : bool :=
  contains "23505" (err_text e) || contains "unique constraint" (to_lower (err_text e)).
Definition pick (d s : string) : string := if (s =? "")%string then d else s.
Definition needBase (reason baseSHA : string) : Res err unit :=
  if (baseSHA =? "")%string then Err (ValidationError "baseSha" reason) else Ok tt.
Definition neverForce : string := "required (never treated as force)".

Section methods.
Context `{GoUnicode} `{GoTime} `{UUIDText} `{TarReader} `{World}.
Context (cfg : Config).
Abbreviation repoDir := (repoDir cfg).
Abbreviation run := (run cfg).
Abbreviation runGit := (runGit cfg).
Abbreviation revParse := (revParse cfg).
Abbreviation withWriteLock := (withWriteLock cfg).
Abbreviation commitInfo := (commitInfo cfg).
Abbreviation commitStaged := (commitStaged cfg).
Abbreviation checkoutBranch := (checkoutBranch cfg).
Abbreviation checkBaseSHA := (checkBaseSHA cfg).
Abbreviation refreshServed := (refreshServed cfg).
Abbreviation bestEffortMirror := (bestEffortMirror cfg).

(** ** Writing the worktree *)

(** [mkdir]/[write] are the texts of the two errors *)
Definition writeTo (root path : string) (content : bytes) (mkdir write : string) : J unit :=
  let full := filepath_Join [root; path] in
  mapErr (gitErr mkdir) (MkdirAll (filepath_Dir full)) ;!
  mapErr (gitErr write) (os_WriteFile full content).
Definition writeEntries (root : string) (entries : list zipEntry) : J unit :=
  each (λ e, writeTo root (ze_path e) (ze_content e) ("mkdir " +:+ ze_path e) ("write " +:+ ze_path e)) entries.
Definition kept (name : string) : bool := (name =? gitDirSegment)%string || (name =? "served")%string.
Definition replaceWorktree (id : uuid) (entries : list zipEntry) : J unit :=
  let root := repoDir id in
  let! dirents := mapErr (gitErr "read worktree") (ReadDir root) in
  each (λ name, if kept name then ok tt
                else mapErr (gitErr "clear worktree") (RemoveAll (filepath_Join [root; name]))) dirents ;!
  writeEntries root entries.
Definition extractZipToWorktree (dir : string) (src : ZipSource) : J unit :=
  let! entries := lift (openAndValidateZip (ZipLimits cfg) src) in writeEntries dir entries.

(** ** Site lifecycle *)

Definition seedMessage (in_ : CreateSiteInput) : string :=
  match cs_Zip in_ with
  | Some z => if (zsrc_Filename z =? "")%string then "Initial commit" else "Import " +:+ zsrc_Filename z
  | None => "Initial commit"
  end.
Definition initRepo (id : uuid) (in_ : CreateSiteInput) : J unit :=
  let dir := repoDir id in
  mapErr (gitErr "mkdir repo") (MkdirAll dir) ;!
  runGit id ["init"; "-b"; BranchDraft] ;!
  match cs_Zip in_ with
  | Some z => extractZipToWorktree dir z
  | None => mapErr (gitErr "seed index")
              (os_WriteFile (filepath_Join [dir; "index.html"]) (defaultIndexHTML (cs_Handle in_)))
  end ;!
  runGit id ["add"; "-A"] ;!
  mapErr wrapGit (runEnv cfg id (cs_Actor in_) ["commit"; "-m"; seedMessage in_; viaTrailer (cs_Actor in_)]) ;!
  if (cs_GitHubRepo in_ =? "")%string then ok tt
  else ignore (run id ["remote"; "add"; "origin"; normalizeRemoteURL (cs_GitHubRepo in_)]).

Definition storeCreate (in_ : CreateSiteInput) : StoreCreateSite :=
  mkStoreCreate (to_lower (cs_Handle in_)) (cs_OwnerID in_) (pick "private" (cs_Visibility in_))
    (pick "direct" (cs_PublishMode in_)) (emptyToNil (cs_GitHubRepo in_)) "" (cs_Description in_).
Definition CreateSite (in_ : CreateSiteInput) : J Site :=
  lift (ValidateHandle (cs_Handle in_)) ;!
  (if (cs_GitHubRepo in_ =? "")%string then ok tt else lift (validateRemoteURL (cs_GitHubRepo in_))) ;!
  let! taken := mapErr (gitErr "handle check") (HandleIsTaken (to_lower (cs_Handle in_))) in
  guard_not taken (ESentinel ErrHandleTaken) ;!
  let! rec := mapErr (λ e, if isUniqueViolation e then ESentinel ErrHandleTaken else gitErr "create site row" e)
                (CreateSiteWithOwner (storeCreate in_)) in
  onError (initRepo (rec_ID rec) in_)
    (ignore (RemoveAll (repoDir (rec_ID rec))) ;! ignore (SoftDeleteSite (rec_ID rec))) ;!
  ok (toSite rec).

Definition GetSite (id : uuid) : J Site :=
  let! r := mapErr (gitErr "get site") (GetSiteByID id) in
  match r with
  | Some rec => let! rec := alive rec in ok (toSite rec)
  | None => fail (ESentinel ErrNotFound)
  end.
Definition GetSiteByHandle (h : string) : J Site :=
  let! r := mapErr (gitErr "get site by handle") (store_GetSiteByHandle (to_lower h)) in
  match r with Some rec => ok (toSite rec) | None => fail (ESentinel ErrNotFound) end.
Definition ListSites (ownerID : uuid) : J (list Site) :=
  let! recs := mapErr (gitErr "list sites") (ListSitesForUser ownerID 500 0) in ok (toSite <$> recs).

Definition isOwnRedirect (id : uuid) (newLower : string) : J bool :=
  let! r := try_ (GetSiteByRedirect newLower) in
  ok (match r with Ok (Some rec) => bool_decide (rec_ID rec = id) | _ => false end).
Definition RenameHandle (id : uuid) (newHandle : string) : J Site :=
  lift (ValidateHandle newHandle) ;!
  let! rec := requireSite id in
  let newLower := to_lower newHandle in
  if (newLower =? rec_Handle rec)%string then ok (toSite rec)
  else
    let! taken := mapErr (gitErr "handle check") (HandleIsTaken newLower) in
    let! own := if (taken : bool) then isOwnRedirect id newLower else ok true in
    guard_not (negb own) (ESentinel ErrHandleTaken) ;!
    mapErr (λ e, if isUniqueViolation e then ESentinel ErrHandleTaken else gitErr "rename" e)
      (RenameHandleWithRedirect id (rec_Handle rec) newLower) ;!
    ok (toSite (set_handle newLower (rec_UpdatedAt rec) rec)).
Definition DeleteSite (id : uuid) (actor : Actor) : J unit :=
  requireSite id ;! mapErr (gitErr "soft delete") (SoftDeleteSite id).

(** ** Branches *)

Definition mkBranch (rec : SiteRecord) (name sha : string) (published : bool) (ci : CommitInfo) : Branch := {|
  br_Name := name; br_HeadSHA := sha; br_IsPublished := published; br_LastCommit := ci;
  br_PreviewSubdomain := previewSubdomain (rec_Handle rec) name |}.
Fixpoint branch_lines (rec : SiteRecord) (id : uuid) (lines : list string) : J (list Branch) :=
  match lines with
  | [] => ok []
  | line :: lines =>
      match fields line with
      | name :: sha :: _ =>
          let! ci := commitInfo id sha in
          let! rest := branch_lines rec id lines in
          ok (mkBranch rec name sha (name =? BranchPublished)%string ci :: rest)
      | _ => branch_lines rec id lines
      end
  end.
Definition ListBranches (id : uuid) : J (list Branch) :=
  let! rec := requireSite id in
  withReadLock id
    (let! out := runGit id ["for-each-ref"; "--format=%(refname:short) %(objectname)"; "refs/heads/"] in
     branch_lines rec id (split LF (trim_space out))).
Definition CreateBranch (id : uuid) (name from : string) : J Branch :=
  lift (validateBranchName name) ;!
  guard_not ((name =? BranchPublished)%string || (name =? BranchDraft)%string)
    (ValidationError "branch" "reserved branch name") ;!
  let! rec := requireSite id in
  let from := pick BranchDraft from in
  withWriteLock id
    (let! exists_ := mapErr wrapGit (branchExists cfg id name) in
     guard_not exists_ (ESentinel ErrBranchExists) ;!
     let! fromSHA := notFound (revParse id from) in
     runGit id ["branch"; name; fromSHA] ;!
     let! ci := commitInfo id fromSHA in
     ok (mkBranch rec name fromSHA false ci)).
Definition DeleteBranch (id : uuid) (name : string) : J unit :=
  guard_not ((name =? BranchPublished)%string || (name =? BranchDraft)%string)
    (ValidationError "branch" "cannot delete the published or draft branch") ;!
  foundSite id ;!
  withWriteLock id
    (let! exists_ := mapErr wrapGit (branchExists cfg id name) in
     guard_not (negb exists_) (ESentinel ErrNotFound) ;!
     runGit id ["branch"; "-D"; name] ;!
     ignore (RemoveAll (servedDir cfg id name))).

(** ** Files: reading *)

Definition ListFiles (in_ : ListFilesInput) : J (list FileEntry * string) :=
  lift (validateDir (lf_Dir in_)) ;!
  withReadLock (lf_SiteID in_)
    (let ref := pick (lf_Branch in_) (lf_Ref in_) in
     let! sha := notFound (revParse (lf_SiteID in_) ref) in
     let args := ["ls-tree"; "--long"] ++ (if lf_Recursive in_ then ["-r"] else []) ++ [sha; "--"] ++
                 (if (lf_Dir in_ =? "")%string then [] else [trim_suffix "/" (lf_Dir in_) +:+ "/"]) in
     let! out := runGit (lf_SiteID in_) args in
     ok (parseLsTree out, sha)).
Definition ReadFile (id : uuid) (branch ref path : string) : J FileContent :=
  lift (validateReadPath path) ;!
  withReadLock id
    (let! sha := notFound (revParse id (pick branch ref)) in
     let spec := sha +:+ ":" +:+ path in
     let! content := notFound (run id ["cat-file"; "-p"; spec]) in
     let! blob := try_ (run id ["rev-parse"; "--verify"; "--quiet"; spec]) in
     let blobSHA := match blob with Ok out => out | Err _ => "" end in
     ok {| fct_Path := path; fct_Content := content; fct_SHA := sha; fct_BlobSHA := trim_space blobSHA;
           fct_Size := slen content; fct_IsBinary := isBinaryContent content |}).

(** ** Files: writing *)

Definition WriteFile (in_ : WriteFileInput) : J CommitInfo :=
  let id := wf_SiteID in_ in
  lift (refuseProtectedBranch (wf_Branch in_)) ;!
  lift (if (Via (wf_Actor in_) =? SourceMCP)%string then validateMCPWritePath (wf_Path in_)
        else validatePath (wf_Path in_)) ;!
  lift (needBase neverForce (wf_BaseSHA in_)) ;!
  let! ci := withWriteLock id
    (requireSite id ;!
     checkBaseSHA id (wf_Branch in_) (wf_BaseSHA in_) [wf_Path in_] ;!
     checkoutBranch id (wf_Branch in_) ;!
     enforceQuota cfg id (slen (wf_Content in_)) ;!
     writeTo (repoDir id) (wf_Path in_) (wf_Content in_) "mkdir" "write blob" ;!
     runGit id ["add"; "--"; wf_Path in_] ;!
     commitStaged id (wf_Branch in_) (wf_Actor in_) (pick ("Update " +:+ wf_Path in_) (wf_Message in_))) in
  refreshServed id (wf_Branch in_) ;!
  bestEffortMirror id (wf_Branch in_) ;!
  ok ci.
Definition DeleteFile (id : uuid) (branch path baseSHA : string) (actor : Actor) : J CommitInfo :=
  lift (refuseProtectedBranch branch) ;!
  lift (validateReadPath path) ;!
  lift (needBase neverForce baseSHA) ;!
  let! ci := withWriteLock id
    (requireSite id ;!
     checkBaseSHA id branch baseSHA [path] ;!
     checkoutBranch id branch ;!
     notFound (run id ["rm"; "--"; path]) ;!
     commitStaged id branch actor ("Delete " +:+ path)) in
  refreshServed id branch ;! bestEffortMirror id branch ;! ok ci.
Definition Commit (in_ : CommitInput) : J CommitInfo :=
  let id := cm_SiteID in_ in
  lift (refuseProtectedBranch (cm_Branch in_)) ;!
  lift (needBase neverForce (cm_BaseSHA in_)) ;!
  let! ci := withWriteLock id
    (requireSite id ;!
     checkBaseSHA id (cm_Branch in_) (cm_BaseSHA in_) [] ;!
     checkoutBranch id (cm_Branch in_) ;!
     let! status := runGit id ["status"; "--porcelain"] in
     guard_not (trim_space status =? "")%string (ESentinel ErrNothingToCommit) ;!
     runGit id ["add"; "-A"] ;!
     commitStaged id (cm_Branch in_) (cm_Actor in_) (pick "Save" (cm_Message in_))) in
  refreshServed id (cm_Branch in_) ;! bestEffortMirror id (cm_Branch in_) ;! ok ci.
Definition ImportZip (id : uuid) (branch : string) (src : ZipSource) (baseSHA : string) (actor : Actor)
    : J CommitInfo :=
  lift (refuseProtectedBranch branch) ;!
  let! extracted := lift (openAndValidateZip (ZipLimits cfg) src) in
  let! ci := withWriteLock id
    (requireSite id ;!
     let! exists_ := mapErr wrapGit (branchExists cfg id branch) in
     (if (exists_ : bool) then
        lift (needBase "required for an existing branch" baseSHA) ;!
        checkBaseSHA id branch baseSHA [] ;!
        checkoutBranch id branch
      else ok tt) ;!
     enforceQuota cfg id (zipEntriesBytes extracted) ;!
     replaceWorktree id extracted ;!
     runGit id ["add"; "-A"] ;!
     let! status := runGit id ["status"; "--porcelain"] in
     guard_not (trim_space status =? "")%string (ESentinel ErrNothingToCommit) ;!
     let msg := if (zsrc_Filename src =? "")%string then "Import archive" else "Import " +:+ zsrc_Filename src in
     let! ci := commitStaged id branch actor msg in
     gcRepo cfg id ;!
     ok ci) in
  refreshServed id branch ;! bestEffortMirror id branch ;! ok ci.
End methods.
