(* ===== verification/GitPublish.v ===== *)
(** * Publishing, history and the mirror (site/git_service.go, git_helpers.go, mirror.go)

    The rest of gitService: moving the published branch, diffs, logs, rollback,
    the data-plane reads, and the methods that talk to the mirror remote. *)

From S2P Require Import Prelude Trace GoStrings SiteErrors Handle SitePath Zip SiteTypes Http GitParse GitRemote.
From S2P Require Import GitWorld GitService GitOps.

Section methods.
Context `{GoUnicode} `{GoTime} `{UUIDText} `{TarReader} `{World}.
Context (cfg : Config).
Abbreviation repoDir := (repoDir cfg).
Abbreviation run := (run cfg).
Abbreviation runGit := (runGit cfg).
Abbreviation revParse := (revParse cfg).
Abbreviation withWriteLock := (withWriteLock cfg).
Abbreviation commitInfo := (commitInfo cfg).
Abbreviation refreshServed := (refreshServed cfg).
Abbreviation bestEffortMirror := (bestEffortMirror cfg).

(** ** Publishing *)

Definition conflictPaths (wt : string) : J (list string) :=
  let! r := try_ (Git wt [] ["ls-files"; "-u"]) in
  ok (match r with Ok out => unmerged_paths out | Err _ => [] end).
Definition mergeMessage (from srcTip message : string) : string :=
  pick ("publish: " +:+ from +:+ "@" +:+ shortSHA srcTip) message.
(** The error comes with the conflicting paths.  The deferred calls run in the
    reverse of their order. *)
Definition mergeIntoPublished (id : uuid) (from srcTip : string) (actor : Actor) (message : string)
    : J (Res (list string * err) string) :=
  let! wt := try_ (MkdirTemp "" "kotoji-merge-*") in
  match wt with
  | Err e => ok (Err ([], gitErr "merge tmp" e))
  | Ok wt =>
      finally (finally
        (let! added := try_ (run id ["worktree"; "add"; "-f"; wt; BranchPublished]) in
         match added with
         | Err e => ok (Err ([], wrapGit e))
         | Ok _ =>
             finally
               (let! t := now in
                let! merged := try_ (Git wt (authorEnv actor (rfc3339 t))
                                       ["merge"; "--no-ff"; "-m"; mergeMessage from srcTip message; srcTip]) in
                match merged with
                | Err e =>
                    let! conflicts := conflictPaths wt in
                    ignore (Git wt [] ["merge"; "--abort"]) ;!
                    ok (Err (conflicts, wrapGit e))
                | Ok _ =>
                    let! sha := try_ (revParse id BranchPublished) in
                    ok (match sha with Ok sha => Ok sha | Err e => Err ([], e) end)
                end)
               (run id ["worktree"; "remove"; "--force"; wt])
         end)
        (run id ["worktree"; "prune"]))
        (RemoveAll wt)
  end.

Definition finishPublish (id : uuid) (sha : string) : J unit :=
  refreshServed id BranchPublished ;!
  mapErr (gitErr "set published pointer") (SetPublished id sha).
Definition movePublished (id : uuid) (sha : string) : J CommitInfo :=
  runGit id ["update-ref"; "refs/heads/" +:+ BranchPublished; sha] ;!
  let! ci := commitInfo id sha in
  finishPublish id sha ;! ok ci.
Definition publishDiverged (id : uuid) (from srcTip : string) (actor : Actor) (message : string) : J CommitInfo :=
  let! merged := mergeIntoPublished id from srcTip actor message in
  match merged with
  | Err ([], e) => fail e
  | Err (paths, _) => fail (PublishConflictError paths)
  | Ok mergeSHA =>
      let! ci := commitInfo id mergeSHA in
      finishPublish id mergeSHA ;! ok ci
  end.
Definition Publish (in_ : PublishInput) : J CommitInfo :=
  let id := pb_SiteID in_ in
  let from := pick BranchDraft (pb_From in_) in
  guard_not (from =? BranchPublished)%string
    (ValidationError "from" "cannot publish from the published branch") ;!
  lift (needBase "required (tip of the source branch)" (pb_BaseSHA in_)) ;!
  let! ci := withWriteLock id
    (requireSite id ;!
     let! srcTip := notFound (revParse id from) in
     guard_not (negb (srcTip =? pb_BaseSHA in_)%string) (ConflictError from (pb_BaseSHA in_) srcTip []) ;!
     let! pubExists := mapErr wrapGit (branchExists cfg id BranchPublished) in
     if negb pubExists then movePublished id srcTip
     else
       let! pubTip := notFound (revParse id BranchPublished) in
       if (pubTip =? srcTip)%string then commitInfo id pubTip
       else
         let! ff := try_ (run id ["merge-base"; "--is-ancestor"; BranchPublished; srcTip]) in
         match ff with
         | Ok _ => movePublished id srcTip
         | Err _ => publishDiverged id from srcTip (pb_Actor in_) (pb_Message in_)
         end) in
  bestEffortMirror id BranchPublished ;! ok ci.

(** ** History *)

Definition pathArgs (path : string) : list string := if (path =? "")%string then [] else ["--"; path].
Definition GetDiff (in_ : DiffOptions) : J DiffResult :=
  let id := df_SiteID in_ in
  withReadLock id
    (let! fromSHA := notFound (revParse id (df_From in_)) in
     let! toSHA := if (df_To in_ =? "")%string then ok ""
                   else let! r := try_ (revParse id (df_To in_)) in
                        ok (match r with Ok sha => sha | Err _ => emptyTreeSHA end) in
     let rangeArgs := if (df_To in_ =? "")%string then [fromSHA] else [fromSHA; toSHA] in
     let! numOut := runGit id (["diff"; "--numstat"] ++ rangeArgs ++ pathArgs (df_Path in_)) in
     let! nsOut := runGit id (["diff"; "--name-status"; "-M"] ++ rangeArgs ++ pathArgs (df_Path in_)) in
     let files := mergeDiff numOut nsOut in
     let! files :=
       if df_NameStatus in_ then ok files
       else
         let ctxLines := or_default 3 (df_ContextLines in_) in
         let! puOut := runGit id (["diff"; "--unified=" +:+ itoa ctxLines] ++ rangeArgs ++ pathArgs (df_Path in_)) in
         ok (attachPatches files puOut) in
     ok {| dr_FromSHA := fromSHA; dr_ToSHA := toSHA; dr_Files := files |}).

(** The clamp of the page size *)
Definition logLimit (l : Z) : Z :=
  let l := if (l <=? 0)%Z then ListLimit cfg else l in
  if (MaxLogLimit cfg <? l)%Z then MaxLogLimit cfg else l.
Definition is_git_error (e : err) : bool := match e with GitError _ _ _ => true | _ => false end.
Definition GetLog (in_ : LogOptions) : J (list CommitInfo) :=
  let id := lo_SiteID in_ in
  let limit := logLimit (lo_Limit in_) in
  withReadLock id
    (notFound (revParse id (lo_Branch in_)) ;!
     let! ref := if (lo_Before in_ =? "")%string then ok (lo_Branch in_)
                 else let! beforeSHA := notFound (revParse id (lo_Before in_)) in ok (beforeSHA +:+ "^") in
     let args := ["log"; "-n"; itoa limit; logFormat; ref; "--"] ++
                 (if (lo_Path in_ =? "")%string then [] else [lo_Path in_]) in
     let! r := try_ (run id args) in
     match r with
     | Ok out => ok (parseLog out)
     | Err e => if is_git_error e then ok [] else fail (wrapGit e)
     end).
Definition Rollback (id : uuid) (branch toSHA baseSHA : string) (actor : Actor) : J CommitInfo :=
  lift (refuseProtectedBranch branch) ;!
  lift (needBase "required" baseSHA) ;!
  guard_not (toSHA =? "")%string (ValidationError "toSha" "required") ;!
  let! ci := withWriteLock id
    (requireSite id ;!
     checkBaseSHA cfg id branch baseSHA [] ;!
     let! target := notFound (revParse id toSHA) in
     notFound (run id ["merge-base"; "--is-ancestor"; target; branch]) ;!
     checkoutBranch cfg id branch ;!
     runGit id ["read-tree"; target] ;!
     runGit id ["checkout-index"; "-a"; "-f"] ;!
     runGit id ["clean"; "-fd"] ;!
     commitStaged cfg id branch actor ("Rollback to " +:+ shortSHA target)) in
  refreshServed id branch ;! bestEffortMirror id branch ;! ok ci.

(** ** Data-plane reads *)

Definition ServedTree (id : uuid) (branch : string) : J TreeHandle :=
  requireSite id ;!
  withReadLock id
    (let! sha := notFound (revParse id branch) in
     ensureServed cfg id branch sha ;!
     let! ci := commitInfo id sha in
     ok {| th_Root := servedDir cfg id branch; th_CommitSHA := sha; th_CommitTime := ci_Committed ci;
           th_Exists := true |}).
Definition ResolveForServing (hostOrPath : string) : J ServeTarget :=
  let! hb := lift (resolveServing hostOrPath) in
  let lower := to_lower hb.1 in
  let! direct := mapErr (gitErr "resolve handle") (store_GetSiteByHandle lower) in
  let! rec := match direct with
              | Some rec => ok rec
              | None =>
                  let! moved := mapErr (gitErr "resolve redirect") (GetSiteByRedirect lower) in
                  match moved with Some rec => ok rec | None => fail (ESentinel ErrNotFound) end
              end in
  let! th := ServedTree (rec_ID rec) hb.2 in
  ok {| st_SiteID := rec_ID rec; st_Handle := rec_Handle rec; st_Branch := hb.2; st_Root := th_Root th;
        st_HeadSHA := th_CommitSHA th |}.

(** ** The mirror remote *)

Definition SetRemote (id : uuid) (url : string) : J unit :=
  requireSite id ;!
  (if (url =? "")%string then ok tt else lift (validateRemoteURL url)) ;!
  withWriteLock id
    (if (url =? "")%string then
       ignore (run id ["remote"; "remove"; "origin"]) ;! SetSiteRemote id None
     else
       let norm := normalizeRemoteURL url in
       let! added := try_ (run id ["remote"; "add"; "origin"; norm]) in
       match added with
       | Ok _ => ok tt
       | Err _ => runGit id ["remote"; "set-url"; "origin"; norm] ;! ok tt
       end ;!
       SetSiteRemote id (Some url)).
Definition MirrorPush (id : uuid) (branches : list string) : J unit :=
  foundSite id ;!
  let branches := match branches with [] => [BranchPublished] | _ => branches end in
  withReadLock id
    (mapErr wrapGit (runMirror cfg id (["push"; "--force-with-lease"; "origin"] ++ branches)) ;! ok tt).
Definition FetchAndUpdate (id : uuid) (branch : string) : J CommitInfo :=
  foundSite id ;!
  withWriteLock id
    (mapErr wrapGit (runMirror cfg id ["fetch"; "origin"; branch]) ;!
     let! localTip := try_ (revParse id branch) in
     match localTip with
     | Err _ =>
         let! remoteTip := notFound (revParse id ("origin/" +:+ branch)) in
         runGit id ["update-ref"; "refs/heads/" +:+ branch; remoteTip] ;!
         let! ci := commitInfo id remoteTip in
         refreshServed id branch ;! ok ci
     | Ok localTip =>
         let! remoteTip := notFound (revParse id ("origin/" +:+ branch)) in
         if (localTip =? remoteTip)%string then commitInfo id localTip
         else
           let! ff := try_ (run id ["merge-base"; "--is-ancestor"; localTip; remoteTip]) in
           match ff with
           | Err _ => fail (PublishConflictError [])
           | Ok _ =>
               runGit id ["update-ref"; "refs/heads/" +:+ branch; remoteTip] ;!
               let! ci := commitInfo id remoteTip in
               refreshServed id branch ;!
               (if (branch =? BranchPublished)%string then ignore (SetPublished id remoteTip) else ok tt) ;!
               ok ci
           end
     end).
End methods.

(** One call of the service *)
Inductive call :=
| CCreateSite (in_ : CreateSiteInput) | CGetSite (id : uuid) | CGetSiteByHandle (h : string)
| CListSites (owner : uuid) | CRenameHandle (id : uuid) (h : string) | CDeleteSite (id : uuid) (a : Actor)
| CListBranches (id : uuid) | CCreateBranch (id : uuid) (name from : string) | CDeleteBranch (id : uuid) (name : string)
| CListFiles (in_ : ListFilesInput) | CReadFile (id : uuid) (branch ref path : string)
| CWriteFile (in_ : WriteFileInput) | CDeleteFile (id : uuid) (branch path base : string) (a : Actor)
| CCommit (in_ : CommitInput) | CImportZip (id : uuid) (branch : string) (src : ZipSource) (base : string) (a : Actor)
| CPublish (in_ : PublishInput) | CGetDiff (in_ : DiffOptions) | CGetLog (in_ : LogOptions)
| CRollback (id : uuid) (branch to base : string) (a : Actor) | CServedTree (id : uuid) (branch : string)
| CResolveForServing (hp : string) | CSetRemote (id : uuid) (url : string)
| CMirrorPush (id : uuid) (branches : list string) | CFetchAndUpdate (id : uuid) (branch : string).

Definition exec `{GoUnicode} `{GoTime} `{UUIDText} `{TarReader} `{World} (cfg : Config) (c : call) : J unit :=
  match c with
  | CCreateSite i => CreateSite cfg i ;! ok tt
  | CGetSite id => GetSite id ;! ok tt
  | CGetSiteByHandle h => GetSiteByHandle h ;! ok tt
  | CListSites o => ListSites o ;! ok tt
  | CRenameHandle id h => RenameHandle id h ;! ok tt
  | CDeleteSite id a => DeleteSite id a
  | CListBranches id => ListBranches cfg id ;! ok tt
  | CCreateBranch id n f => CreateBranch cfg id n f ;! ok tt
  | CDeleteBranch id n => DeleteBranch cfg id n
  | CListFiles i => ListFiles cfg i ;! ok tt
  | CReadFile id b r p => ReadFile cfg id b r p ;! ok tt
  | CWriteFile i => WriteFile cfg i ;! ok tt
  | CDeleteFile id b p s a => DeleteFile cfg id b p s a ;! ok tt
  | CCommit i => Commit cfg i ;! ok tt
  | CImportZip id b z s a => ImportZip cfg id b z s a ;! ok tt
  | CPublish i => Publish cfg i ;! ok tt
  | CGetDiff i => GetDiff cfg i ;! ok tt
  | CGetLog i => GetLog cfg i ;! ok tt
  | CRollback id b t s a => Rollback cfg id b t s a ;! ok tt
  | CServedTree id b => ServedTree cfg id b ;! ok tt
  | CResolveForServing hp => ResolveForServing cfg hp ;! ok tt
  | CSetRemote id u => SetRemote cfg id u
  | CMirrorPush id bs => MirrorPush cfg id bs
  | CFetchAndUpdate id b => FetchAndUpdate cfg id b ;! ok tt
  end.
