(* ===== verification/GitGuard.v ===== *)
(** * What a call of the git-backed service may do

    [justified] lists the effects that change something, and for each what the
    trace of the call must show before it: the site's write lock is held, the
    branch tip was read in the same critical section and is the base the caller
    named, and so on.  The rules of the program logic for the helpers of
    GitService follow.

    The rules of the program logic (file Trace) for the helpers of GitService and
    GitOps: what each establishes, and what must hold for its effects to be
    justified. *)

From S2P Require Import Prelude Trace GoStrings SiteErrors Handle SitePath Zip SiteTypes Http GitParse GitRemote GitWorld GitService GitOps.
From S2P Require Import GitPublish.

(** ** Lock events *)

Definition calm (e : event) : Prop :=
  match e with EvLock _ | EvUnlock _ | EvRLock _ | EvRUnlock _ => False | _ => True end.
(** The write lock of [id] after a trace *)
Definition lock_step (id : uuid) (held : bool) (e : event) : bool :=
  match e with
  | EvLock i => if decide (i = id) then true else held
  | EvUnlock i => if decide (i = id) then false else held
  | _ => held
  end.
Definition holds (id : uuid) (t : trace) : bool := foldl (lock_step id) false t.
Lemma holds_snoc id t e : holds id (t ++ [e]) = lock_step id (holds id t) e.
Proof. unfold holds. by rewrite foldl_app. Qed.
Lemma holds_calm id t e : calm e → holds id (t ++ [e]) = holds id t.
Proof. rewrite holds_snoc. by destruct e. Qed.
Lemma holds_stable id : stable calm (λ t, holds id t = true).
Proof. intros t e He Ht. by rewrite holds_calm. Qed.

(** ** The site rows *)

(** Events that leave the store as it is; what was read is [fresh] while there
    are no others. *)
Definition store_read (e : event) : Prop :=
  match e with
  | EvCreateSiteWithOwner _ _ | EvRenameHandle _ _ _ _ | EvSoftDeleteSite _ _ | EvSetPublished _ _ _ | EvSetSiteRemote _ _ _ => False
  | _ => True
  end.
Abbreviation fresh := (@recent event store_read) (only parsing).
(** A row is made for a valid handle that was just found to be free, and renamed,
    from the handle it was just read with, to one that was free or is a former
    handle of its own. *)
Definition may_create_site `{GoUnicode} (t : trace) (in_ : StoreCreateSite) : Prop :=
  ∃ h, ValidateHandle h = Ok tt ∧ sc_Handle in_ = to_lower h ∧ fresh (EvHandleIsTaken (sc_Handle in_) (Ok false)) t.
Definition may_rename_site `{GoUnicode} (t : trace) (id : uuid) (old new : string) : Prop :=
  ∃ h rec, ValidateHandle h = Ok tt ∧ new = to_lower h ∧ new ≠ old ∧
    fresh (EvGetSiteByID id (Ok (Some rec))) t ∧ rec_DeletedAt rec = None ∧ rec_Handle rec = old ∧
    (fresh (EvHandleIsTaken new (Ok false)) t ∨
     ∃ rec', fresh (EvGetSiteByRedirect new (Ok (Some rec'))) t ∧ rec_ID rec' = id).

(** ** git commands *)

Definition first (args : list string) : string := default "" (head args).
(** Commands that change no branch, index, worktree or configuration: [push]
    sends, and updates remote-tracking refs only. *)
Definition queries : list string :=
  ["rev-parse"; "show-ref"; "for-each-ref"; "symbolic-ref"; "show"; "log"; "diff"; "ls-tree"; "cat-file"; "archive";
   "merge-base"; "status"; "ls-files"; "push"].
Definition read_only (args : list string) : bool :=
  bool_decide (first args ∈ queries) || bool_decide (args = ["remote"; "get-url"; "origin"]).
(** Commands that reach the remote, the only ones that may carry the credential *)
Definition is_network (args : list string) : bool := bool_decide (first args ∈ ["push"; "fetch"]).

Definition rev_parse (ref : string) : list string :=
  ["rev-parse"; "--verify"; "--quiet"; "--end-of-options"; ref +:+ "^{commit}"].
Definition show_ref (branch : string) : list string :=
  ["show-ref"; "--verify"; "--quiet"; "refs/heads/" +:+ branch].
Definition is_ancestor (a b : string) : list string := ["merge-base"; "--is-ancestor"; a; b].
Definition update_ref (branch sha : string) : list string := ["update-ref"; "refs/heads/" +:+ branch; sha].

(** The site, branch, base and author of the calls that commit to a branch *)
Definition edits (c : call) : option (uuid * string * string * Actor) :=
  match c with
  | CWriteFile i => Some (wf_SiteID i, wf_Branch i, wf_BaseSHA i, wf_Actor i)
  | CDeleteFile id b _ s a => Some (id, b, s, a)
  | CCommit i => Some (cm_SiteID i, cm_Branch i, cm_BaseSHA i, cm_Actor i)
  | CImportZip id b _ s a => Some (id, b, s, a)
  | CRollback id b _ s a => Some (id, b, s, a)
  | _ => None
  end.
(** The branch whose served tree a call may rebuild or drop *)
Definition serves `{GoUnicode} (c : call) : option string :=
  match c with
  | CPublish _ => Some BranchPublished
  | CDeleteBranch _ b | CServedTree _ b | CFetchAndUpdate _ b => Some b
  | CResolveForServing hp => match resolveServing hp with Ok hb => Some hb.2 | Err _ => None end
  | _ => (λ x : uuid * string * string * Actor, x.1.1.2) <$> edits c
  end.

Section guard.
Context `{GoUnicode} `{GoTime} `{UUIDText} `{TarReader} `{World}.
Context (cfg : Config).
Abbreviation repoDir := (repoDir cfg).

Section rules.
(** Which events may come between a question and the effect it justifies *)
Context (K : event → Prop).

(** [ref] was resolved to [sha] *)
Definition resolved (id : uuid) (ref sha : string) (t : trace) : Prop :=
  ∃ out, recent K (EvGit (repoDir id) [] (rev_parse ref) (Ok out)) t ∧ trim_space out = sha.
(** git said that the branch does not exist *)
Definition absent (id : uuid) (branch : string) (t : trace) : Prop :=
  ∃ e, recent K (EvGit (repoDir id) [] (show_ref branch) (Err e)) t ∧ exit_1 e = true.
Definition said_yes (id : uuid) (args : list string) (t : trace) : Prop :=
  ∃ out, recent K (EvGit (repoDir id) [] args (Ok out)) t.
Definition said_no (id : uuid) (args : list string) (t : trace) : Prop :=
  ∃ e, recent K (EvGit (repoDir id) [] args (Err e)) t.
Lemma resolved_stable id ref sha : stable K (resolved id ref sha).
Proof. intros t e He (out & Hr & Ho). exists out. split; [by apply stable_recent|done]. Qed.
Lemma absent_stable id b : stable K (absent id b).
Proof. intros t e He (x & Hr & Ho). exists x. split; [by apply stable_recent|done]. Qed.
Lemma said_yes_stable id a : stable K (said_yes id a).
Proof. intros t e He (x & Hr). exists x. by apply stable_recent. Qed.
Lemma said_no_stable id a : stable K (said_no id a).
Proof. intros t e He (x & Hr). exists x. by apply stable_recent. Qed.
End rules.

(** The write lock is held, and since it was taken the branch was found at the
    base the caller named; only an import may find no branch at all *)
Definition base_checked (c : call) (id : uuid) (branch base : string) (t : trace) : Prop :=
  holds id t = true ∧
  (resolved calm id branch base t ∨ (∃ src a, c = CImportZip id branch src base a) ∧ absent calm id branch t).
(** This very call created the site. *)
Definition created (c : call) (id : uuid) (t : trace) : Prop :=
  ∃ in_ rec, c = CCreateSite in_ ∧ rec_ID rec = id ∧ EvCreateSiteWithOwner (storeCreate in_) (Ok rec) ∈ t.
Definition temp_dir (pattern dir : string) (t : trace) : Prop := ∃ parent, EvMkdirTemp parent pattern (Ok dir) ∈ t.
(** A remote that passed the gate *)
Definition allowed_remote (url : string) : Prop :=
  ∃ raw, validateRemoteURL raw = Ok tt ∧ url = normalizeRemoteURL raw.

(** Commands that prepare the index and worktree of a commit *)
Inductive staging (branch : string) : list string → Prop :=
| st_checkout : staging branch ["checkout"; branch]
| st_add path : is_ok (validateReadPath path) = true → staging branch ["add"; "--"; path]
| st_rm path : is_ok (validateReadPath path) = true → staging branch ["rm"; "--"; path]
| st_all : staging branch ["add"; "-A"]
| st_read_tree sha : sha ≠ "" → staging branch ["read-tree"; sha]
| st_checkout_index : staging branch ["checkout-index"; "-a"; "-f"]
| st_clean : staging branch ["clean"; "-fd"]
| st_gc : staging branch ["gc"; "--auto"; "--quiet"; "--prune=now"].

(** The commands that change a repository, when they may run *)
Inductive guarded (c : call) (t : trace) : string → list string → list string → Prop :=
(* building a site that this call created *)
| g_init id : created c id t → guarded c t (repoDir id) [] ["init"; "-b"; BranchDraft]
| g_seed id : created c id t → guarded c t (repoDir id) [] ["add"; "-A"]
| g_first_commit id in_ now : c = CCreateSite in_ → created c id t →
    guarded c t (repoDir id) (authorEnv (cs_Actor in_) now) ["commit"; "-m"; seedMessage in_; viaTrailer (cs_Actor in_)]
| g_first_remote id url : created c id t → allowed_remote url →
    guarded c t (repoDir id) [] ["remote"; "add"; "origin"; url]
(* committing to a working branch *)
| g_stage id b base a args : edits c = Some (id, b, base, a) → b ≠ BranchPublished → base_checked c id b base t →
    staging b args → guarded c t (repoDir id) [] args
| g_commit id b base a now msg : edits c = Some (id, b, base, a) → b ≠ BranchPublished → base_checked c id b base t →
    guarded c t (repoDir id) (authorEnv a now) ["commit"; "-m"; msg; viaTrailer a]
(* publishing *)
| g_publish in_ : c = CPublish in_ → holds (pb_SiteID in_) t = true →
    resolved calm (pb_SiteID in_) (pick BranchDraft (pb_From in_)) (pb_BaseSHA in_) t →
    absent calm (pb_SiteID in_) BranchPublished t ∨
      said_yes calm (pb_SiteID in_) (is_ancestor BranchPublished (pb_BaseSHA in_)) t →
    guarded c t (repoDir (pb_SiteID in_)) [] (update_ref BranchPublished (pb_BaseSHA in_))
| g_worktree in_ args : c = CPublish in_ → holds (pb_SiteID in_) t = true → first args = "worktree" →
    guarded c t (repoDir (pb_SiteID in_)) [] args
| g_merge in_ wt now msg : c = CPublish in_ → holds (pb_SiteID in_) t = true → temp_dir "kotoji-merge-*" wt t →
    resolved calm (pb_SiteID in_) (pick BranchDraft (pb_From in_)) (pb_BaseSHA in_) t →
    said_no calm (pb_SiteID in_) (is_ancestor BranchPublished (pb_BaseSHA in_)) t →
    guarded c t wt (authorEnv (pb_Actor in_) now) ["merge"; "--no-ff"; "-m"; msg; pb_BaseSHA in_]
| g_merge_abort in_ wt : c = CPublish in_ → holds (pb_SiteID in_) t = true → temp_dir "kotoji-merge-*" wt t →
    guarded c t wt [] ["merge"; "--abort"]
(* branches *)
| g_branch id name from sha : c = CCreateBranch id name from → holds id t = true →
    validateBranchName name = Ok tt → name ≠ BranchPublished → name ≠ BranchDraft →
    absent calm id name t → resolved calm id (pick BranchDraft from) sha t →
    guarded c t (repoDir id) [] ["branch"; name; sha]
| g_branch_delete id name : c = CDeleteBranch id name → holds id t = true → name ≠ BranchPublished → name ≠ BranchDraft →
    said_yes calm id (show_ref name) t → guarded c t (repoDir id) [] ["branch"; "-D"; name]
(* the mirror *)
| g_remote id url args : c = CSetRemote id url → holds id t = true → first args = "remote" →
    args = ["remote"; "remove"; "origin"] ∨ (∃ u verb, allowed_remote u ∧ args = ["remote"; verb; "origin"; u]) →
    guarded c t (repoDir id) [] args
| g_fetch id b token user : c = CFetchAndUpdate id b → holds id t = true →
    guarded c t (repoDir id) (auth_env token user) ["fetch"; "origin"; b]
| g_fast_forward id b sha : c = CFetchAndUpdate id b → holds id t = true → resolved calm id ("origin/" +:+ b) sha t →
    said_no calm id (rev_parse b) t ∨ resolved calm id b "" t ∨
      (∃ tip, resolved calm id b tip t ∧ said_yes calm id (is_ancestor tip sha) t) →
    guarded c t (repoDir id) [] (update_ref b sha).

(** Files that may be written, trees that may be removed or replaced *)
Inductive may_write (c : call) (t : trace) : string → Prop :=
| mw_file in_ : c = CWriteFile in_ → holds (wf_SiteID in_) t = true → is_ok (validatePath (wf_Path in_)) = true →
    may_write c t (filepath_Join [repoDir (wf_SiteID in_); wf_Path in_])
| mw_import id b src base a es e : c = CImportZip id b src base a → holds id t = true →
    openAndValidateZip (ZipLimits cfg) src = Ok es → e ∈ es →
    may_write c t (filepath_Join [repoDir id; ze_path e])
| mw_seed in_ id es src e : c = CCreateSite in_ → created c id t → cs_Zip in_ = Some src →
    openAndValidateZip (ZipLimits cfg) src = Ok es → e ∈ es →
    may_write c t (filepath_Join [repoDir id; ze_path e])
| mw_index id : created c id t → may_write c t (filepath_Join [repoDir id; "index.html"])
| mw_meta tmp : temp_dir ".tmp-served-*" tmp t → may_write c t (filepath_Join [tmp; kotojiMetaFile]).
Inductive may_create (t : trace) : string → Prop :=
| mc_lock id : may_create t (lockFilePath (gitDir cfg id))
| mc_export tmp name : temp_dir ".tmp-served-*" tmp t → is_local name = true →
    may_create t (filepath_Join [tmp; path_clean name]).
Inductive may_remove (c : call) (t : trace) : string → Prop :=
| mr_created id : created c id t → may_remove c t (repoDir id)
| mr_entry id b src base a name : c = CImportZip id b src base a → holds id t = true → kept name = false →
    may_remove c t (filepath_Join [repoDir id; name])
| mr_served id b : serves c = Some b → may_remove c t (servedDir cfg id b)
| mr_temp pat dir : temp_dir pat dir t → may_remove c t dir.

(** The store's answers are those of the world. *)
Definition answered (t : trace) (e : event) : Prop :=
  match e with
  | EvCreateSiteWithOwner in_ r => r = w_CreateSiteWithOwner t in_
  | EvGetSiteByID id r => r = w_GetSiteByID t id
  | EvGetSiteByHandle h r => r = w_GetSiteByHandle t h
  | EvGetSiteByRedirect h r => r = w_GetSiteByRedirect t h
  | EvListSitesForUser id lim off r => r = w_ListSitesForUser t id lim off
  | EvHandleIsTaken h r => r = w_HandleIsTaken t h
  | EvRenameHandle id old new r => r = w_RenameHandle t id old new
  | EvSoftDeleteSite id r => r = w_SoftDeleteSite t id
  | EvSetPublished id sha r => r = w_SetPublished t id sha
  | EvSetSiteRemote id repo r => r = w_SetSiteRemote t id repo
  | _ => True
  end.
Definition justified (c : call) (t : trace) (e : event) : Prop :=
  match e with
  | EvGit dir env args _ =>
      (read_only args = true ∧ (env = [] ∨ is_network args = true ∧ ∃ token user, env = auth_env token user)) ∨ guarded c t dir env args
  | EvWriteFile p _ _ => may_write c t p
  | EvOpenFile p _ | EvCopy p _ _ => may_create t p
  | EvRemoveAll p _ => may_remove c t p
  | EvRename old new _ =>
      temp_dir ".tmp-served-*" old t ∧ ∃ id b, serves c = Some b ∧ new = servedDir cfg id b
  | EvSetPublished id sha _ =>
      ((∃ in_, c = CPublish in_ ∧ pb_SiteID in_ = id ∧ holds id t = true) ∨
       c = CFetchAndUpdate id BranchPublished ∧ holds id t = true) ∧ answered t e
  | EvCreateSiteWithOwner in_ _ => may_create_site t in_ ∧ answered t e
  | EvRenameHandle id old new _ => may_rename_site t id old new ∧ answered t e
  | _ => answered t e
  end.
End guard.

(** ** Rules for the helpers of the service *)

Section helpers.
Context `{GoUnicode} `{GoTime} `{UUIDText} `{TarReader} `{World}.
Context (cfg : Config) (c : call).
Context (K : event → Prop) (HK : ∀ e, calm e → K e).
Abbreviation job := (@Trace.job event err K (justified cfg c)).
Abbreviation stable := (@Trace.stable event K).
Implicit Types P : trace → Prop.

(** *** Questions *)

Lemma ask_job {A} P (answer : trace → Res err A) ev :
  (∀ r, calm (ev r)) → (∀ t, P t → justified cfg c t (ev (answer t))) → job P (ask answer ev) anything.
Proof using HK. intros Hc Hj. eapply job_any, job_recent; intros; auto. Qed.
Lemma ro_job P id args : read_only args = true →
  job P (run cfg id args) (λ out t, recent K (EvGit (repoDir cfg id) [] args (Ok out)) t).
Proof using HK. intros Hro. apply job_recent; [intros; by apply HK|]. intros tr _. left. auto. Qed.
Lemma ro_try_job P id args : read_only args = true →
  job P (try_ (run cfg id args)) (λ r t, recent K (EvGit (repoDir cfg id) [] args r) t).
Proof using HK. intros Hro. apply job_try_recent; [intros; by apply HK|]. intros tr _. left. auto. Qed.
Lemma run_job P id args : (∀ t, P t → guarded cfg c t (repoDir cfg id) [] args) → job P (run cfg id args) anything.
Proof using HK. intros Hg. apply ask_job; [done|]. intros t Ht. right. auto. Qed.
Lemma runGit_job P id args :
  (∀ t, P t → guarded cfg c t (repoDir cfg id) [] args) → job P (runGit cfg id args) anything.
Proof using HK. intros Hg. by apply job_mapErr, run_job. Qed.
Lemma runGit_ro_job P id args : read_only args = true → job P (runGit cfg id args) anything.
Proof using HK. intros Hro. eapply job_any, job_mapErr. by apply ro_job. Qed.
Lemma revParse_job P id ref : stable P → job P (revParse cfg id ref) (λ sha t, resolved cfg K id ref sha t ∧ sha ≠ "").
Proof using HK.
  intros HP. eapply job_bind; [done|apply job_mapErr, ro_job; reflexivity|]. intros out.
  apply job_guard_bind. intros Hne. apply job_ok. intros t [_ Hr].
  split; [by exists out|by apply String.eqb_neq].
Qed.
(** When [revParse] fails, git failed or printed nothing. *)
Lemma revParse_try_job P id ref : stable P → job P (try_ (revParse cfg id ref))
  (λ r t, match r with
          | Ok sha => resolved cfg K id ref sha t ∧ sha ≠ ""
          | Err _ => said_no cfg K id (rev_parse ref) t ∨ resolved cfg K id ref "" t
          end).
Proof using HK.
  intros HP tr Ht HPt. destruct (revParse_job P id ref HP tr Ht HPt) as [Hx Hq].
  unfold try_. destruct (revParse cfg id ref tr) as [t1 r] eqn:Hr; simpl in *. split; [done|]. intros a [= <-].
  destruct r as [sha|e]; [by apply Hq|]. revert Hr.
  unfold revParse, notFound, run, Git, bindM, mapErr, ask, guard_not, ok. simpl.
  destruct (w_Git _ _ _ _) as [out|e'] eqn:Hw; simpl.
  - destruct (String.eqb_spec (trim_space out) "") as [He|]; [|done]. intros [= <- _]. right. exists out.
    split; [apply recent_last|done].
  - intros [= <- _]. left. exists e'. apply recent_last.
Qed.
Lemma branchExists_job P id b : stable P →
  job P (branchExists cfg id b)
    (λ x t, if (x : bool) then said_yes cfg K id (show_ref b) t else absent cfg K id b t).
Proof using HK.
  intros HP. eapply job_bind; [done|apply ro_try_job; reflexivity|]. intros [out|e].
  - apply job_ok. intros t [_ Hr]. by exists out.
  - destruct (exit_1 e) eqn:Hx; [|apply job_fail]. apply job_ok. intros t [_ Hr]. by exists e.
Qed.
Lemma commitInfo_job P id sha : stable P → job P (commitInfo cfg id sha) anything.
Proof using HK.
  intros HP. apply job_seq; [done|by apply runGit_ro_job|]. intros out.
  destruct (parseLog out); [apply job_fail|by apply job_ok].
Qed.
Lemma foundSite_job P id : stable P → job P (foundSite id) anything.
Proof using HK.
  intros HP. apply job_seq; [done|by apply job_mapErr, ask_job|]. intros [rec|]; [by apply job_ok|apply job_fail].
Qed.
Lemma alive_job P rec : job P (alive rec) anything.
Proof. unfold alive. destruct (rec_DeletedAt rec); [apply job_fail|by apply job_ok]. Qed.
Lemma requireSite_job P id : stable P → job P (requireSite id) anything.
Proof using HK. intros HP. apply job_seq; [done|by apply foundSite_job|]. intros rec. apply alive_job. Qed.
Lemma lift_any_job {A} P (r : Res err A) : job P (lift r) anything.
Proof. eapply job_any, job_lift. Qed.

Lemma changedPaths_job P id a b : stable P → job P (changedPaths cfg id a b) anything.
Proof using HK.
  intros HP. apply job_seq; [done|eapply job_any, ro_try_job; reflexivity|]. intros r. by apply job_ok.
Qed.
Lemma checkBaseSHA_job P id b base hint : stable P →
  job P (checkBaseSHA cfg id b base hint) (λ _ t, resolved cfg K id b base t).
Proof using HK.
  intros HP. eapply job_bind; [done|apply job_mapErr, revParse_job, HP|]. intros tip.
  destruct (String.eqb_spec tip base) as [->|].
  - apply job_ok. by intros t (_ & Hr & _).
  - apply job_seq; [|apply changedPaths_job|intros ?; apply job_fail];
      apply stable_and; auto; apply stable_and; auto using stable_pure, resolved_stable.
Qed.

(** *** Served trees *)

Lemma temp_dir_stable pat dir : stable (temp_dir pat dir).
Proof. intros t e _ (p & Hp). exists p. rewrite elem_of_app. by left. Qed.
Lemma MkdirTemp_job P parent pat : job P (MkdirTemp parent pat) (λ dir t, temp_dir pat dir t).
Proof using HK.
  eapply job_post; [apply job_recent; [intros; by apply HK|done]|].
  intros dir t Hr%recent_in. by exists parent.
Qed.
Lemma tar_entry_job P tmp i : stable P → (∀ t, P t → temp_dir ".tmp-served-*" tmp t) → job P (tar_entry tmp i) anything.
Proof using HK.
  intros HP Htmp. destruct i as [name kind body|]; simpl; [|apply job_fail].
  destruct (_ || _); [by apply job_ok|]. destruct (is_local name) eqn:Hl; simpl; [|apply job_fail].
  destruct kind; [by apply ask_job| |by apply job_ok].
  apply job_seq; [done|by apply ask_job|]. intros _.
  apply job_seq; [done|apply ask_job|intros _; apply ask_job]; try done; intros t Ht; by constructor; auto.
Qed.
Lemma ensureServed_job P id b sha : stable P → serves c = Some b → job P (ensureServed cfg id b sha) anything.
Proof using HK.
  intros HP Hb. apply job_seq; [done|eapply job_any, job_try_recent; intros; by try apply HK|]. intros meta.
  destruct (match meta with Ok _ => _ | _ => _ end); [by apply job_ok|].
  apply job_seq; [done|by apply job_mapErr, ask_job|]. intros _.
  eapply job_bind; [done|apply job_mapErr, MkdirTemp_job|]. intros tmp.
  assert (stable (λ t, P t ∧ temp_dir ".tmp-served-*" tmp t)) as HP' by auto using stable_and, temp_dir_stable.
  eapply job_onError; [done| |].
  2: { apply ask_job; [done|]. intros t [_ Ht]. by eapply mr_temp. }
  apply job_seq; [done|by apply runGit_ro_job|]. intros tar.
  apply job_seq; [done|apply job_mapErr, job_each; [done|]|].
  { intros i _. apply tar_entry_job; [done|]. by intros t []. }
  intros _. apply job_seq; [done|apply job_mapErr, ask_job; [done|]|].
  { intros t [_ Ht]. by constructor. }
  intros _. apply job_seq; [done|eapply job_ignore, ask_job; [done|]|].
  { intros t _. by apply mr_served. }
  intros _. apply job_mapErr, ask_job; [done|]. intros t [_ Ht]. split; [done|]. eauto.
Qed.
Lemma refreshServed_job P id b : stable P → serves c = Some b → job P (refreshServed cfg id b) anything.
Proof using HK.
  intros HP Hb. eapply job_ignore, job_seq; [done|by eapply job_any, revParse_job|].
  intros sha. by apply ensureServed_job.
Qed.

(** *** The mirror *)

Lemma runEnv_job P id a args :
  stable P → (∀ t now, P t → guarded cfg c t (repoDir cfg id) (authorEnv a now) args) →
  job P (runEnv cfg id a args) anything.
Proof using HK.
  intros HP Hg. apply job_seq; [done|apply job_read|]. intros t0. apply ask_job; [done|]. intros t Ht. right. auto.
Qed.
Lemma runMirror_job P id args :
  stable P → (∀ t token user r, P t → justified cfg c t (EvGit (repoDir cfg id) (auth_env token user) args r)) →
  job P (runMirror cfg id args) anything.
Proof using HK.
  intros HP Hg. eapply job_bind with (Q := λ (env : list string) (_ : trace), ∃ token user, env = auth_env token user); [done| |].
  - intros t Ht H'. split; [by apply calmly_refl|]. intros a [= <-]. eauto.
  - intros env. apply ask_job; [done|]. intros t [Ht (token & user & ->)]. auto.
Qed.
Lemma push_job P id args : stable P → first args = "push" → job P (runMirror cfg id args) anything.
Proof using HK.
  intros HP Hf. apply runMirror_job; [done|]. intros t token user r _. left.
  unfold read_only, is_network. rewrite Hf. split; [done|]. right. eauto.
Qed.
Lemma bestEffortMirror_job P id b : stable P → job P (bestEffortMirror cfg id b) anything.
Proof using HK.
  intros HP. apply job_seq; [done|apply job_read|]. intros on. destruct on; simpl; [|by apply job_ok].
  apply job_seq; [done|by eapply job_any, ro_try_job|]. intros [out|e]; [|by apply job_ok].
  by eapply job_ignore, push_job.
Qed.

(** *** Quota and files *)

Lemma enforceQuota_job P id n : stable P → job P (enforceQuota cfg id n) anything.
Proof using HK.
  intros HP. unfold enforceQuota. destruct (_ <=? 0)%Z; [by apply job_ok|].
  apply job_seq; [done| |intros cur; eapply job_any, job_guard].
  apply job_mapErr, job_seq; [done|by apply ask_job|]. intros n0. apply lift_any_job.
Qed.
Lemma writeTo_job P root path content m w :
  stable P → (∀ t, P t → may_write cfg c t (filepath_Join [root; path])) →
  job P (writeTo root path content m w) anything.
Proof using HK.
  intros HP Hw. apply job_seq; [done|by apply job_mapErr, ask_job|]. intros _.
  apply job_mapErr, ask_job; [done|]. intros t Ht. simpl. auto.
Qed.
Lemma writeEntries_job P root es :
  stable P → (∀ t e, P t → e ∈ es → may_write cfg c t (filepath_Join [root; ze_path e])) →
  job P (writeEntries root es) anything.
Proof using HK.
  intros HP Hw. apply job_each; [done|]. intros e He. apply writeTo_job; [done|]. auto.
Qed.
End helpers.

(** *** Critical sections *)

Section sections.
Context `{GoUnicode} `{GoTime} `{UUIDText} `{TarReader} `{World}.
Context (cfg : Config) (c : call).
Definition any_event (e : event) : Prop := True.
(** Inside a critical section no lock event happens; outside anything may. *)
Abbreviation inner := (@Trace.job event err calm (justified cfg c)).
Abbreviation outer := (@Trace.job event err any_event (justified cfg c)).

Lemma any_stable (p : Prop) : stable any_event (λ _, p).
Proof. by intros t e _. Qed.
Lemma calmly_outer t t' : calmly calm (justified cfg c) t t' → calmly any_event (justified cfg c) t t'.
Proof. intros (Hc & m & _ & ->). split; [done|]. exists m. split; [by apply Forall_true|done]. Qed.

Lemma underFlock_job {A} P id (fn : J A) :
  stable calm P → inner P fn anything → inner P (underFlock cfg id fn) anything.
Proof.
  intros Hst Hfn. apply job_seq; [done| |].
  { intros t Hc Hh. split; [by apply calmly_snoc|done]. }
  intros [|]; [|done]. apply job_seq; [done| |].
  - apply job_mapErr, job_seq; [done|by apply job_mapErr, ask_job|]. intros _.
    apply job_seq; [done|apply job_mapErr, ask_job; [done..|]; by intros; constructor|]. intros _.
    by apply job_mapErr, ask_job.
  - intros _. eapply job_finally; [done|by intros|exact Hfn|]. by eapply job_any, job_note.
Qed.
(** The lock, the body under the file lock, and the unlock whatever happens *)
Lemma write_section {A} id (fn : J A) :
  inner (λ t, holds id t = true) fn anything → outer (λ _, True) (withWriteLock cfg id fn) anything.
Proof.
  intros Hfn tr Ht _. split; [|done]. unfold withWriteLock, note, bindM, finally.
  destruct (underFlock_job _ id fn (holds_stable id) Hfn (tr ++ [EvLock id])) as [Hx _].
  { by apply careful_snoc. }
  { rewrite holds_snoc. simpl. by rewrite decide_True. }
  destruct (underFlock _ _ _ _) as [t1 r]; simpl in *.
  eapply calmly_trans; [by apply (calmly_snoc any_event _ tr (EvLock id))|].
  eapply calmly_trans; [apply calmly_outer, Hx|]. apply calmly_snoc; [apply Hx|done..].
Qed.
Lemma read_section {A} id (fn : J A) :
  inner (λ _, True) fn anything → outer (λ _, True) (withReadLock id fn) anything.
Proof.
  intros Hfn tr Ht _. split; [|done]. unfold withReadLock, note, bindM, finally. simpl.
  destruct (Hfn (tr ++ [EvRLock id])) as [Hx _]; [by apply careful_snoc|done|].
  destruct (fn _) as [t1 r]; simpl in *.
  eapply calmly_trans; [by apply (calmly_snoc any_event _ tr (EvRLock id))|].
  eapply calmly_trans; [apply calmly_outer, Hx|]. apply calmly_snoc; [apply Hx|done..].
Qed.
End sections.
