(* ===== verification/GitSafety.v ===== *)
(** * Every call of the git-backed service keeps to its rules

    Each method is walked through with the rules of GitGuard; the result is that
    every effect of every call, whatever git, the store and the file system
    answer and wherever the call fails, is one that GitGuard allows. *)

From S2P Require Import Prelude Trace GoStrings SiteErrors Handle SitePath Zip SiteTypes Http GitParse GitRemote.
From S2P Require Import GitWorld GitService GitOps GitPublish GitGuard.

Section safety.
Context `{GoUnicode} `{GoTime} `{UUIDText} `{TarReader} `{World}.
Context (cfg : Config).
Definition calm_any (e : event) : calm e → any_event e := λ _, I.
Definition calm_id (e : event) : calm e → calm e := λ h, h.
#[local] Hint Resolve calm_any calm_id any_stable holds_stable resolved_stable absent_stable said_yes_stable
  said_no_stable temp_dir_stable stable_and stable_pure : jobs.
Abbreviation inner c := (@Trace.job event err calm (justified cfg c)).
Abbreviation outer c := (@Trace.job event err any_event (justified cfg c)).
Abbreviation whole c m := (outer c (λ _, True) m anything).

(** ** Reading *)

Ltac kk := first [exact calm_any|exact calm_id].
Ltac stab := solve [auto 10 with jobs].
(** One step whose answer is not needed *)
Ltac step := apply job_seq; [stab| |intros ?].
Ltac branch := cbv beta zeta; case_match.
(** A question *)
Ltac query := first [by apply runGit_ro_job|by eapply job_any, job_mapErr, ro_job|by eapply job_any, ro_try_job
  |by apply ask_job|by apply job_mapErr, ask_job|by apply commitInfo_job; stab|by apply requireSite_job; stab
  |by apply foundSite_job; stab|by apply job_mapErr; eapply job_any, revParse_job; stab
  |by eapply job_any, revParse_try_job; stab|by apply lift_any_job|by apply alive_job|by eapply job_any, job_guard
  |by eapply job_any, job_ok].

Lemma GetSite_safe id : whole (CGetSite id) (GetSite id).
Proof. step; [query|]. destruct a; [step; [query|by apply job_ok]|apply job_fail]. Qed.
Lemma GetSiteByHandle_safe h : whole (CGetSiteByHandle h) (GetSiteByHandle h).
Proof. step; [query|]. destruct a; [by apply job_ok|apply job_fail]. Qed.
Lemma ListSites_safe o : whole (CListSites o) (ListSites o).
Proof. step; [query|by apply job_ok]. Qed.
(** A step that reads the store: what it read is fresh for the rest. *)
Abbreviation reading c := (@Trace.job event err store_read (justified cfg c)).
Lemma job_read_bind {A B} c P (m : J A) Q (k : A → J B) R :
  Trace.stable store_read P → reading c P m Q → (∀ a, outer c (λ t, P t ∧ Q a t) (k a) R) → outer c P (bindM m k) R.
Proof.
  intros Hst Hm Hk tr Ht HP. destruct (Hm tr Ht HP) as [(Hc & more & Hmore & Heq) HQ]. unfold bindM.
  destruct (m tr) as [t1 [a|e]]; simpl in *; subst t1.
  - destruct (Hk a (tr ++ more) Hc) as [(Hc2 & more2 & Hm2 & Heq) HR]; [split; [by apply (stable_app store_read)|by apply HQ]|].
    split; [|done]. split; [done|]. exists (more ++ more2). rewrite app_assoc. split; [|done].
    apply Forall_app. split; [by apply Forall_true|done].
  - split; [|done]. split; [done|]. exists more. split; [by apply Forall_true|done].
Qed.
(** A step after which only what it establishes is needed *)
Lemma job_then {A B} c P (m : J A) Q (k : A → J B) R :
  outer c P m Q → (∀ a, outer c (Q a) (k a) R) → outer c P (bindM m k) R.
Proof.
  intros Hm Hk tr Ht HP. destruct (Hm tr Ht HP) as [Hx HQ]. unfold bindM.
  destruct (m tr) as [t1 [a|e]]; simpl in *; [|done]. destruct (Hk a t1 (proj1 Hx) (HQ a eq_refl)) as [Hy HR].
  split; [by eapply calmly_trans|done].
Qed.
Lemma reads_fresh {A} c P (f : err → err) (answer : trace → Res err A) ev :
  (∀ r, store_read (ev r)) → (∀ t, justified cfg c t (ev (answer t))) →
  reading c P (mapErr f (ask answer ev)) (λ a t, fresh (ev (Ok a)) t).
Proof. intros Hr Hj. apply job_mapErr, job_recent; auto. Qed.
Lemma requireSite_fresh c P id : Trace.stable store_read P →
  reading c P (requireSite id) (λ rec t, fresh (EvGetSiteByID id (Ok (Some rec))) t ∧ rec_DeletedAt rec = None).
Proof.
  intros HP. eapply (job_bind _ _ _ _ (λ rec t, fresh (EvGetSiteByID id (Ok (Some rec))) t)); [done| |].
  - eapply job_bind; [done|by apply reads_fresh|]. intros [rec|]; [|apply job_fail]. apply job_ok. by intros t [_ ?].
  - intros rec. unfold alive. destruct (rec_DeletedAt rec) eqn:Hd; [apply job_fail|]. apply job_ok. by intros t [_ ?].
Qed.
Lemma isOwnRedirect_fresh c P id h : Trace.stable store_read P →
  reading c P (isOwnRedirect id h) (λ own t, own = true → ∃ rec, fresh (EvGetSiteByRedirect h (Ok (Some rec))) t ∧ rec_ID rec = id).
Proof.
  intros HP. eapply job_bind; [done|by apply job_try_recent|]. intros r. apply job_ok. intros t [_ Hr].
  destruct r as [[rec|]|]; [|done..]. intros Hid%bool_decide_eq_true. by exists rec.
Qed.
Lemma RenameHandle_safe id h : whole (CRenameHandle id h) (RenameHandle id h).
Proof.
  apply (job_lift_bind any_event). intros [] Hv.
  eapply job_read_bind; [stab|by apply requireSite_fresh|]. intros rec. cbv zeta.
  destruct (String.eqb_spec (to_lower h) (rec_Handle rec)) as [|Hne]; [by apply job_ok|].
  eapply job_read_bind; [stab|by apply reads_fresh|]. intros taken.
  eapply (job_read_bind _ _ _ (λ own t, own = true → fresh (EvHandleIsTaken (to_lower h) (Ok false)) t ∨
    ∃ rec', fresh (EvGetSiteByRedirect (to_lower h) (Ok (Some rec'))) t ∧ rec_ID rec' = id)); [stab| |].
  { destruct taken.
    - eapply job_post; [apply isOwnRedirect_fresh; stab|]. auto.
    - apply job_ok. intros t [_ Hf] _. by left. }
  intros own. apply (job_guard_bind any_event). intros ->%negb_false_iff. eapply (job_then _ _ _ anything); [|intros ?; by apply job_ok].
  apply job_mapErr, ask_job; [kk|done|]. intros t [[[_ [Hrec Hd]] _] Hown].
  split; [|done]. exists h, rec. split_and!; auto.
Qed.
Lemma DeleteSite_safe id a : whole (CDeleteSite id a) (DeleteSite id a).
Proof. step; query. Qed.
Lemma branch_lines_safe c rec id lines : inner c (λ _, True) (branch_lines cfg rec id lines) anything.
Proof.
  induction lines as [|l lines IH]; simpl; [by apply job_ok|].
  destruct (fields l) as [|n [|sha r]]; [done..|]. step; [query|]. step; [done|]. by apply job_ok.
Qed.
Lemma ListBranches_safe id : whole (CListBranches id) (ListBranches cfg id).
Proof. step; [query|]. apply read_section. step; [query|]. apply branch_lines_safe. Qed.
Lemma ListFiles_safe i : whole (CListFiles i) (ListFiles cfg i).
Proof.
  step; [query|]. apply read_section. step; [query|]. step; [|by apply job_ok].
  apply runGit_ro_job; auto.
Qed.
Lemma ReadFile_safe id b r p : whole (CReadFile id b r p) (ReadFile cfg id b r p).
Proof. step; [query|]. apply read_section. step; [query|]. step; [query|]. step; [query|]. by apply job_ok. Qed.
Lemma GetDiff_safe i : whole (CGetDiff i) (GetDiff cfg i).
Proof.
  apply read_section. step; [query|].
  step; [branch; [query|step; [query|by apply job_ok]]|].
  step; [query|]. step; [query|]. step; [|by apply job_ok].
  destruct (df_NameStatus i); [query|]. step; [query|by apply job_ok].
Qed.
Lemma GetLog_safe i : whole (CGetLog i) (GetLog cfg i).
Proof.
  apply read_section. step; [query|].
  step; [branch; [query|step; [query|by apply job_ok]]|].
  step; [query|]. destruct a1 as [out|e]; [by apply job_ok|]. destruct (is_git_error e); [by apply job_ok|apply job_fail].
Qed.
Lemma served_section c id b : serves c = Some b → whole c (ServedTree cfg id b).
Proof.
  intros Hb. step; [query|]. apply read_section. step; [query|].
  step; [by apply ensureServed_job; [kk|stab|]|]. step; [query|]. by apply job_ok.
Qed.
Lemma ServedTree_safe id b : whole (CServedTree id b) (ServedTree cfg id b).
Proof. by apply served_section. Qed.
Lemma ResolveForServing_safe hp : whole (CResolveForServing hp) (ResolveForServing cfg hp).
Proof.
  apply job_lift_bind. intros hb Hhb. step; [query|].
  step. { destruct a; [by apply job_ok|]. step; [query|]. destruct a; [by apply job_ok|apply job_fail]. }
  step; [|by apply job_ok]. apply served_section. simpl. by rewrite Hhb.
Qed.
Lemma MirrorPush_safe id bs : whole (CMirrorPush id bs) (MirrorPush cfg id bs).
Proof.
  step; [query|]. apply read_section. step; [|by apply job_ok]. apply job_mapErr, push_job; [kk|stab|done].
Qed.

(** ** Committing to a working branch *)

Section editing.
Context (c : call) (id : uuid) (b base : string) (a : Actor).
Context (Hc : edits c = Some (id, b, base, a)) (Hb : b ≠ BranchPublished).
Abbreviation checked := (base_checked cfg c id b base).

Lemma checked_stable : stable calm checked.
Proof using Type.
  intros t e He [Hh Hr]. split; [by apply holds_stable|].
  destruct Hr as [Hr|[? Hr]]; [left; by apply resolved_stable|right; split; [done|by apply absent_stable]].
Qed.
#[local] Hint Resolve checked_stable : jobs.
Lemma serves_edit : serves c = Some b.
Proof using Hc. clear Hb. destruct c; simplify_eq/=; done. Qed.

Lemma stage_job args : staging b args → inner c checked (run cfg id args) anything.
Proof using Hc Hb. intros Hs. apply run_job; [kk|]. intros t Ht. by eapply g_stage. Qed.
Lemma runGit_stage_job args : staging b args → inner c checked (runGit cfg id args) anything.
Proof using Hc Hb. intros Hs. by apply job_mapErr, stage_job. Qed.
Lemma checkout_job : inner c checked (checkoutBranch cfg id b) anything.
Proof using Hc Hb.
  step; [query|]. destruct a0; [branch; [by apply job_ok|]|];
    (step; [apply runGit_stage_job; constructor|by apply job_ok]).
Qed.
Lemma commit_job msg : inner c checked (commitStaged cfg id b a msg) anything.
Proof using Hc Hb.
  step; [apply job_mapErr, runEnv_job; [kk|stab|]; intros t now Ht; by eapply g_commit|].
  step; [query|]. query.
Qed.
(** The lock section of an edit: the row, the base, then the body *)
Lemma edit_section {A} hint (body : J A) :
  inner c checked body anything →
  whole c (withWriteLock cfg id (requireSite id ;! checkBaseSHA cfg id b base hint ;! body)).
Proof using Hc.
  intros Hbody. apply write_section. step; [query|].
  eapply job_bind; [stab|by apply checkBaseSHA_job; [kk|stab]|]. intros ?.
  eapply job_weaken; [exact Hbody|]. intros t [Hh Hr]. split; [done|by left].
Qed.
(** What follows the lock section of every edit *)
Lemma edit_end {A} (m : J A) :
  whole c m → whole c (let! ci := m in refreshServed cfg id b ;! bestEffortMirror cfg id b ;! ok ci).
Proof using Hc.
  intros Hm. step; [done|]. step; [apply refreshServed_job; [kk|stab|apply serves_edit]|].
  step; [apply bestEffortMirror_job; [kk|stab]|]. by apply job_ok.
Qed.
End editing.
#[local] Hint Resolve checked_stable : jobs.

Lemma refuse_published b x : refuseProtectedBranch b = Ok x → b ≠ BranchPublished.
Proof. unfold refuseProtectedBranch. by intros ? ->. Qed.
Lemma read_path_ok p : is_ok (validatePath p) = true → is_ok (validateReadPath p) = true.
Proof.
  destruct (validatePath p) as [[]|] eqn:Hp; [|done]. apply path_gates_nested in Hp as (-> & _). done.
Qed.
Lemma write_path_ok mcp p (x : unit) :
  (if (mcp : bool) then validateMCPWritePath p else validatePath p) = Ok x → is_ok (validatePath p) = true.
Proof. destruct mcp, x; intros Hp; [apply path_gates_nested in Hp|]; by rewrite Hp. Qed.

Ltac guards := repeat first [apply job_lift_bind; intros ? ?|apply job_guard_bind; intros ?].

Lemma WriteFile_safe i : whole (CWriteFile i) (WriteFile cfg i).
Proof.
  unfold WriteFile. guards. assert (wf_Branch i ≠ BranchPublished) as Hb by by eapply refuse_published.
  assert (is_ok (validatePath (wf_Path i)) = true) as Hp by by eapply write_path_ok.
  eapply edit_end; [done|]. eapply edit_section; [done|]. step; [by eapply checkout_job|].
  step; [apply enforceQuota_job; [kk|stab]|].
  step; [apply writeTo_job; [kk|stab|]; intros t [Hh _]; by constructor|].
  step; [eapply runGit_stage_job; [done..|]; by constructor; apply read_path_ok|]. by apply commit_job.
Qed.
Lemma DeleteFile_safe id b p s a : whole (CDeleteFile id b p s a) (DeleteFile cfg id b p s a).
Proof.
  unfold DeleteFile. guards. assert (b ≠ BranchPublished) as Hb by by eapply refuse_published.
  eapply edit_end; [done|]. eapply edit_section; [done|]. step; [by eapply checkout_job|].
  step; [|by apply commit_job]. eapply job_mapErr, stage_job; [done..|]. constructor.
  by match goal with Hv : validateReadPath _ = _ |- _ => rewrite Hv end.
Qed.
Lemma Commit_safe i : whole (CCommit i) (Commit cfg i).
Proof.
  unfold Commit. guards. assert (cm_Branch i ≠ BranchPublished) as Hb by by eapply refuse_published.
  eapply edit_end; [done|]. eapply edit_section; [done|]. step; [by eapply checkout_job|].
  step; [query|]. step; [query|]. step; [eapply runGit_stage_job; [done..|constructor]|]. by apply commit_job.
Qed.
Lemma Rollback_safe id b to s a : whole (CRollback id b to s a) (Rollback cfg id b to s a).
Proof.
  unfold Rollback. guards. assert (b ≠ BranchPublished) as Hb by by eapply refuse_published.
  pose proof (checked_stable (CRollback id b to s a) id b s) as Hst.
  eapply edit_end; [done|]. eapply edit_section; [done|].
  eapply job_bind; [stab|apply job_mapErr, revParse_job; [kk|stab]|]. intros target.
  apply (job_weaken calm _ _ (λ t, base_checked cfg (CRollback id b to s a) id b s t ∧ target ≠ "")).
  2: { intros t (? & _ & ?). by split. }
  assert (∀ args, (target ≠ "" → staging b args) →
    inner (CRollback id b to s a) (λ t, base_checked cfg (CRollback id b to s a) id b s t ∧ target ≠ "")
      (runGit cfg id args) anything) as Hrun.
  { intros args Hs. apply runGit_job; [kk|]. intros t [Hbc Hne]. eapply g_stage; auto. }
  step; [eapply job_any, job_mapErr, ro_job; [kk|reflexivity]|].
  step; [eapply job_weaken; [by eapply checkout_job|by intros t []]|].
  step; [apply Hrun; by constructor|]. step; [apply Hrun; constructor|]. step; [apply Hrun; constructor|].
  eapply job_weaken; [by apply commit_job|by intros t []].
Qed.

Section import.
Context (id : uuid) (b : string) (z : ZipSource) (s : string) (a : Actor) (es : list zipEntry).
Context (Hb : b ≠ BranchPublished) (Hes : openAndValidateZip (ZipLimits cfg) z = Ok es).
Abbreviation c := (CImportZip id b z s a).
Abbreviation checked := (base_checked cfg c id b s).

Definition import_gate (exists_ : bool) : J unit :=
  if exists_ then
    lift (needBase "required for an existing branch" s) ;!
    checkBaseSHA cfg id b s [] ;! checkoutBranch cfg id b
  else ok tt.
Lemma import_gate_job (exists_ : bool) :
  inner c (λ t, holds id t = true ∧ if exists_ then said_yes cfg calm id (show_ref b) t else absent cfg calm id b t)
    (import_gate exists_) (λ _, checked).
Proof using Hb.
  destruct exists_; simpl.
  - apply job_lift_bind. intros _ _.
    eapply job_bind; [stab|by apply checkBaseSHA_job; [kk|stab]|]. intros ?.
    apply (job_weaken calm _ _ checked); [|intros t [[Hh _] Hr]; split; [done|by left]].
    eapply job_keep; [apply checked_stable|]. by eapply checkout_job.
  - apply job_ok. intros t [Hh Ha]. split; [done|]. right. split; [by exists z, a|done].
Qed.
Lemma replace_job : inner c checked (replaceWorktree cfg id es) anything.
Proof using Hes.
  pose proof (checked_stable c id b s) as Hst. step; [query|].
  step; [apply job_each; [stab|]; intros name _|].
  - destruct (kept name) eqn:Hk; [by apply job_ok|]. apply job_mapErr, ask_job; [kk|done|].
    intros t [Hh _]. by eapply mr_entry.
  - apply writeEntries_job; [kk|stab|]. intros t e [Hh _] He. by eapply mw_import.
Qed.
End import.

Lemma ImportZip_safe id b z s a : whole (CImportZip id b z s a) (ImportZip cfg id b z s a).
Proof.
  apply job_lift_bind. intros _ Hb%refuse_published. apply job_lift_bind. intros es Hes.
  pose proof (checked_stable (CImportZip id b z s a) id b s) as Hst.
  eapply edit_end; [done|]. apply write_section. step; [query|].
  eapply job_bind; [stab|apply job_mapErr, branchExists_job; [kk|stab]|]. intros exists_.
  eapply job_bind; [destruct exists_; stab|by apply import_gate_job|]. intros ?.
  apply (job_weaken calm _ _ (base_checked cfg (CImportZip id b z s a) id b s)); [|by intros t []].
  step; [apply enforceQuota_job; [kk|stab]|]. step; [by apply replace_job|].
  step; [eapply runGit_stage_job; [done..|constructor]|]. step; [query|]. step; [query|].
  step; [by eapply commit_job|]. step; [|by apply job_ok].
  eapply job_ignore, stage_job; [done..|constructor].
Qed.

(** ** Branches *)

Lemma not_reserved name :
  (name =? BranchPublished)%string || (name =? BranchDraft)%string = false → name ≠ BranchPublished ∧ name ≠ BranchDraft.
Proof. intros [?%String.eqb_neq ?%String.eqb_neq]%orb_false_iff. done. Qed.
Lemma CreateBranch_safe id name from : whole (CCreateBranch id name from) (CreateBranch cfg id name from).
Proof.
  apply job_lift_bind. intros [] Hv. apply job_guard_bind. intros [Hp Hd]%not_reserved.
  step; [query|]. apply write_section.
  eapply job_bind; [stab|apply job_mapErr, branchExists_job; [kk|stab]|]. intros [|]; [by apply job_guard_bind|].
  apply job_guard_bind. intros _.
  eapply job_bind; [stab|apply job_mapErr, revParse_job; [kk|stab]|]. intros sha.
  step; [|step; [query|by apply job_ok]].
  apply runGit_job; [kk|]. intros t ([Hh Ha] & Hr & _). by eapply g_branch.
Qed.
Lemma DeleteBranch_safe id name : whole (CDeleteBranch id name) (DeleteBranch cfg id name).
Proof.
  apply job_guard_bind. intros [Hp Hd]%not_reserved. step; [query|]. apply write_section.
  eapply job_bind; [stab|apply job_mapErr, branchExists_job; [kk|stab]|]. intros [|]; [|by apply job_guard_bind].
  apply job_guard_bind. intros _. step; [|eapply job_ignore, ask_job; [kk|done|]; intros; by apply mr_served].
  apply runGit_job; [kk|]. intros t [Hh Ha]. by eapply g_branch_delete.
Qed.

(** ** The mirror *)

Lemma SetRemote_safe id url : whole (CSetRemote id url) (SetRemote cfg id url).
Proof.
  step; [query|].
  assert (∀ verb, validateRemoteURL url = Ok tt →
    inner (CSetRemote id url) (λ t, holds id t = true) (run cfg id ["remote"; verb; "origin"; normalizeRemoteURL url])
      anything) as Hrun.
  { intros verb Hv. apply run_job; [kk|]. intros t Ht. eapply g_remote; [done..|]. right.
    eexists _, verb. split; [|done]. by exists url. }
  unfold SetRemote. destruct (String.eqb_spec url "") as [->|Hne].
  - step; [by apply job_ok|]. apply write_section. step; [|query].
    eapply job_ignore, run_job; [kk|]. intros t Ht. eapply g_remote; [done..|by left].
  - apply job_lift_bind. intros [] Hv. apply write_section.
    step; [by eapply job_any, job_try, Hrun|].
    step; [destruct a0; [by apply job_ok|]; step; [by apply job_mapErr, Hrun|by apply job_ok]|]. query.
Qed.

Section fetch.
Context (id : uuid) (b : string).
Abbreviation c := (CFetchAndUpdate id b).
Lemma set_published_job sha : b = BranchPublished →
  inner c (λ t, holds id t = true) (ignore (SetPublished id sha)) anything.
Proof.
  intros Hb. eapply job_ignore, ask_job; [kk|done|]. intros t Hh. split; [|done]. right. by rewrite <-Hb.
Qed.
Lemma fetch_refresh P : stable calm P → inner c P (refreshServed cfg id b) anything.
Proof. intros HP. apply refreshServed_job; [kk|done|done]. Qed.
Lemma FetchAndUpdate_safe : whole c (FetchAndUpdate cfg id b).
Proof.
  step; [query|]. apply write_section. step.
  { apply job_mapErr, runMirror_job; [kk|stab|]. intros t token user r Hh. right. by apply g_fetch. }
  eapply job_bind; [stab|apply revParse_try_job; [kk|stab]|]. intros [tip|e].
  - eapply job_bind; [stab|apply job_mapErr, revParse_job; [kk|stab]|]. intros sha.
    branch; [query|].
    eapply job_bind; [stab|apply ro_try_job; [kk|done]|]. intros [out|]; [|apply job_fail].
    step. { apply runGit_job; [kk|]. intros t (((Hh & Ht & _) & Hs & _) & Hf). apply g_fast_forward; try done.
      right. right. exists tip. split; [done|by exists out]. }
    step; [query|]. step; [apply fetch_refresh; stab|]. step; [|by apply job_ok].
    branch; [|by apply job_ok]. eapply job_weaken; [apply set_published_job; by apply String.eqb_eq|by intros t [[[? _] _] _]].
  - assert (stable calm (λ t, said_no cfg calm id (rev_parse b) t ∨ resolved cfg calm id b "" t)) as Hst.
    { intros t x Hx [Hn|Hr]; [left; by apply said_no_stable|right; by apply resolved_stable]. }
    eapply job_bind; [stab|apply job_mapErr, revParse_job; [kk|stab]|]. intros sha.
    step. { apply runGit_job; [kk|]. intros t ((Hh & Ht) & Hs & _). apply g_fast_forward; try done. tauto. }
    step; [query|]. step; [apply fetch_refresh; stab|]. by apply job_ok.
Qed.
End fetch.

(** ** Publishing *)

Section publish.
Context (in_ : PublishInput).
Abbreviation id := (pb_SiteID in_).
Abbreviation src := (pick BranchDraft (pb_From in_)).
Abbreviation base := (pb_BaseSHA in_).
Abbreviation c := (CPublish in_).
Definition source_checked (t : trace) : Prop := holds id t = true ∧ resolved cfg calm id src base t.
Lemma source_checked_stable : stable calm source_checked.
Proof. intros t e He [Hh Hr]. split; [by apply holds_stable|by apply resolved_stable]. Qed.
#[local] Hint Resolve source_checked_stable : jobs.

Lemma finish_job P sha : stable calm P → (∀ t, P t → source_checked t) → inner c P (finishPublish cfg id sha) anything.
Proof.
  intros HP Hsc. step; [apply refreshServed_job; [kk|done|done]|].
  apply job_mapErr, ask_job; [kk|done|]. intros t Ht. split; [|done]. left. exists in_. split_and!; [done..|by apply Hsc].
Qed.
Lemma movePublished_job :
  inner c (λ t, source_checked t ∧
      (absent cfg calm id BranchPublished t ∨ said_yes cfg calm id (is_ancestor BranchPublished base) t))
    (movePublished cfg id base) anything.
Proof.
  assert (stable calm (λ t, absent cfg calm id BranchPublished t ∨
      said_yes cfg calm id (is_ancestor BranchPublished base) t)) as Hst.
  { intros t x Hx [Hn|Hr]; [left; by apply absent_stable|right; by apply said_yes_stable]. }
  step; [apply runGit_job; [kk|]; intros t [[Hh Hr] Hff]; by apply g_publish|].
  step; [query|]. step; [apply finish_job; [stab|by intros t []]|]. by apply job_ok.
Qed.

Abbreviation diverged := (λ t, source_checked t ∧ said_no cfg calm id (is_ancestor BranchPublished base) t).
Lemma worktree_job P args : (∀ t, P t → source_checked t) → first args = "worktree" → inner c P (run cfg id args) anything.
Proof. intros HP Hf. apply run_job; [kk|]. intros t Ht. apply g_worktree; [done|by apply HP|done]. Qed.
Lemma merge_job from message : inner c diverged (mergeIntoPublished cfg id from base (pb_Actor in_) message) anything.
Proof.
  eapply job_bind; [stab|by eapply job_try, MkdirTemp_job; kk|]. intros [wt|e]; [|by apply job_ok].
  apply (job_weaken calm _ _ (λ t, diverged t ∧ temp_dir "kotoji-merge-*" wt t)).
  2: { intros t [? Ht]. split; [done|by apply Ht]. }
  eapply job_finally; [stab|by intros| |by apply ask_job; [kk|done|]; intros t []; eapply mr_temp].
  eapply job_finally; [stab|by intros| |apply worktree_job; [by intros t [[]]|done]].
  step; [eapply job_any, job_try, worktree_job; [by intros t [[]]|done]|].
  destruct a as [out|e]; [|by apply job_ok].
  eapply job_finally; [stab|by intros| |apply worktree_job; [by intros t [[]]|done]].
  step; [apply job_read|].
  step. { eapply job_any, job_try, ask_job; [kk|done|]. intros t [[[Hh Hr] Hn] Ht]. right. by apply g_merge. }
  destruct a0 as [out2|e]; [step; [by eapply job_any, job_try, revParse_job; [kk|stab]|by apply job_ok]|].
  step. { step; [|by apply job_ok]. eapply job_any, job_try, ask_job; [kk|done|]. intros t _. left. by split; [|left]. }
  step; [|by apply job_ok].
  eapply job_ignore, ask_job; [kk|done|]. intros t [[[Hh Hr] Hn] Ht]. right. by eapply g_merge_abort.
Qed.
Lemma diverged_job from message : inner c diverged (publishDiverged cfg id from base (pb_Actor in_) message) anything.
Proof.
  step; [apply merge_job|]. destruct a as [sha|[[|p ps] e]]; [|apply job_fail..].
  step; [query|]. step; [apply finish_job; [stab|by intros t []]|]. by apply job_ok.
Qed.
Lemma Publish_safe : whole c (Publish cfg in_).
Proof.
  apply job_guard_bind. intros _. apply job_lift_bind. intros _ _.
  step; [|step; [apply bestEffortMirror_job; [kk|stab]|by apply job_ok]].
  apply write_section. step; [query|].
  eapply job_bind; [stab|apply job_mapErr, revParse_job; [kk|stab]|]. intros tip.
  apply job_guard_bind. intros ->%negb_false_iff%String.eqb_eq.
  apply (job_weaken calm _ _ source_checked); [|intros t (Hh & Hr & _); by split].
  eapply job_bind; [stab|apply job_mapErr, branchExists_job; [kk|stab]|]. intros [|]; cbn [negb].
  - apply (job_weaken calm _ _ source_checked); [|by intros t []].
    step; [query|]. branch; [query|].
    eapply job_bind; [stab|apply ro_try_job; [kk|done]|]. intros [out|e].
    + eapply job_weaken; [apply movePublished_job|]. intros t [Hs Hy]. split; [done|right; by exists out].
    + eapply job_weaken; [apply diverged_job|]. intros t [Hs Hy]. split; [done|by exists e].
  - eapply job_weaken; [apply movePublished_job|]. intros t [Hs Ha]. split; [done|by left].
Qed.
End publish.

(** ** Creating a site *)

Lemma created_stable c id : stable any_event (created c id).
Proof. intros t e _ (i & rec & -> & Hid & Hin). exists i, rec. split_and!; [done..|]. rewrite elem_of_app. by left. Qed.
#[local] Hint Resolve created_stable : jobs.
Section create.
Context (in_ : CreateSiteInput) (id : uuid).
Abbreviation c := (CCreateSite in_).
Abbreviation made := (created c id).
Lemma made_run args : (∀ t, made t → guarded cfg c t (repoDir cfg id) [] args) → outer c made (run cfg id args) anything.
Proof. by apply run_job; kk. Qed.
Lemma seed_job : outer c made
  (match cs_Zip in_ with
   | Some z => extractZipToWorktree cfg (repoDir cfg id) z
   | None => mapErr (gitErr "seed index")
       (os_WriteFile (filepath_Join [repoDir cfg id; "index.html"]) (defaultIndexHTML (cs_Handle in_)))
   end) anything.
Proof.
  destruct (cs_Zip in_) as [z|] eqn:Hz.
  - apply job_lift_bind. intros es Hes. apply writeEntries_job; [kk|stab|]. intros t e Ht He. by eapply mw_seed.
  - apply job_mapErr, ask_job; [kk|done|]. intros t Ht. by apply mw_index.
Qed.
Lemma initRepo_job :
  (cs_GitHubRepo in_ = "" ∨ validateRemoteURL (cs_GitHubRepo in_) = Ok tt) →
  outer c made (initRepo cfg id in_) anything.
Proof.
  intros Hrepo. step; [query|]. step; [by apply job_mapErr, made_run; constructor|]. step; [apply seed_job|].
  step; [by apply job_mapErr, made_run; constructor|].
  step; [apply job_mapErr, runEnv_job; [kk|stab|]; intros t now Ht; by eapply g_first_commit|].
  destruct (String.eqb_spec (cs_GitHubRepo in_) ""); [by apply job_ok|].
  eapply job_ignore, made_run. intros t Ht. apply g_first_remote; [done|]. exists (cs_GitHubRepo in_). by destruct Hrepo.
Qed.
End create.
Lemma CreateSite_made i rec : (cs_GitHubRepo i = "" ∨ validateRemoteURL (cs_GitHubRepo i) = Ok tt) →
  outer (CCreateSite i) (created (CCreateSite i) (rec_ID rec)) (
    onError (initRepo cfg (rec_ID rec) i)
      (ignore (RemoveAll (repoDir cfg (rec_ID rec))) ;! ignore (SoftDeleteSite (rec_ID rec))) ;!
    ok (toSite rec)) anything.
Proof.
  intros Hrepo. step; [|by apply job_ok]. eapply job_onError; [stab|by apply initRepo_job|].
  step; [eapply job_ignore, ask_job; [kk|done|]; intros t Ht; by apply mr_created|].
  by eapply job_ignore, ask_job; [kk| |].
Qed.
Lemma CreateSite_safe i : whole (CCreateSite i) (CreateSite cfg i).
Proof.
  apply (job_lift_bind any_event). intros [] Hv.
  eapply (job_bind _ _ _ _ (λ _ _, cs_GitHubRepo i = "" ∨ validateRemoteURL (cs_GitHubRepo i) = Ok tt)); [stab| |].
  { destruct (String.eqb_spec (cs_GitHubRepo i) ""); [apply job_ok; by left|].
    eapply job_post; [apply job_lift|]. intros [] t Hr. by right. }
  intros _ tr Ht [_ Hrepo]. revert tr Ht. cut (whole (CCreateSite i) (
    let! taken := mapErr (gitErr "handle check") (HandleIsTaken (to_lower (cs_Handle i))) in
    guard_not taken (ESentinel ErrHandleTaken) ;!
    let! rec := mapErr (λ e, if isUniqueViolation e then ESentinel ErrHandleTaken else gitErr "create site row" e)
                (CreateSiteWithOwner (storeCreate i)) in
    onError (initRepo cfg (rec_ID rec) i)
      (ignore (RemoveAll (repoDir cfg (rec_ID rec))) ;! ignore (SoftDeleteSite (rec_ID rec))) ;!
    ok (toSite rec))); [intros Hm tr Ht; by apply Hm|].
  eapply job_read_bind; [stab|by apply reads_fresh|]. intros taken. apply (job_guard_bind any_event). intros ->.
  eapply job_then.
  - apply job_mapErr, job_recent; [done|]. intros t [_ Hf]. split; [|done]. by exists (cs_Handle i).
  - intros rec. eapply job_weaken; [by apply CreateSite_made|]. intros t Hr%recent_in. by exists i, rec.
Qed.

(** ** Every call *)

Lemma exec_safe c : whole c (exec cfg c).
Proof.
  destruct c; simpl; try (step; [|by apply job_ok]);
    eauto using CreateSite_safe, GetSite_safe, GetSiteByHandle_safe, ListSites_safe, RenameHandle_safe, DeleteSite_safe,
      ListBranches_safe, CreateBranch_safe, DeleteBranch_safe, ListFiles_safe, ReadFile_safe, WriteFile_safe,
      DeleteFile_safe, Commit_safe, ImportZip_safe, Publish_safe, GetDiff_safe, GetLog_safe, Rollback_safe,
      ServedTree_safe, ResolveForServing_safe, SetRemote_safe, MirrorPush_safe, FetchAndUpdate_safe.
Qed.
Lemma exec_careful c : careful (justified cfg c) (exec cfg c []).1.
Proof. apply (exec_safe c []); [apply careful_nil|done]. Qed.
End safety.
