(* ===== verification/GitRunner.v ===== *)
(** * Running git (site/gitrunner.go)

    The production runner: one child process per command, with its environment
    built from a fixed base.  What the service layers on top of that base never
    changes the meaning of the base. *)

From S2P Require Import Prelude Trace GoStrings SiteErrors Handle SitePath Zip SiteTypes Http Encoding GitParse GitRemote.
From S2P Require Import GitWorld GitService GitOps GitPublish GitGuard GitSafety.

Record execRunner := mkRunner { gitBin : string; env : list string; timeout : Z }.

Definition scrubbedEnv : list string := [
  "GIT_TERMINAL_PROMPT=0"; "GIT_ASKPASS=/bin/false"; "GIT_CONFIG_NOSYSTEM=1"; "GIT_CONFIG_GLOBAL=/dev/null";
  "HOME=/nonexistent"; "GIT_FLUSH=1"; "LC_ALL=C"; "GIT_ALLOW_PROTOCOL=https:ssh"; "GIT_PROTOCOL_FROM_USER=0";
  "PATH=/usr/local/bin:/usr/bin:/bin"].
Definition newExecRunner (bin : string) (timeout : Z) : execRunner :=
  mkRunner (if (bin =? "")%string then "git" else bin) scrubbedEnv timeout.

(** The deadline of the context a command runs under: the earlier of the
    request's and the runner's *)
Definition boundedContext (r : execRunner) (now : time) (deadline : option time) : option time :=
  if (timeout r <=? 0)%Z then deadline
  else match deadline with
       | Some d => Some (Z.min d (now + timeout r)%Z)
       | None => Some (now + timeout r)%Z
       end.

(** How a child process ended: [Failed] with its exit code when it has one *)
Inductive outcome := Exited (stdout : bytes) | Failed (stdout : bytes) (code : option Z) (stderr : bytes).
(** os/exec: the binary, its arguments and environment, its input; [ctx_err] is
    the error of the context when the child has ended. *)
Class Exec := { process : string → list string → list string → bytes → option time → outcome * option err }.

Section runner.
Context `{Exec}.
Definition RunEnv (r : execRunner) (now : time) (deadline : option time) (repoDir : string)
    (extraEnv : list string) (stdin : bytes) (args : list string) : bytes * option err :=
  let full := ["-C"; repoDir] ++ args in
  match process (gitBin r) full (env r ++ extraEnv) stdin (boundedContext r now deadline) with
  | (Exited out, _) => (out, None)
  | (Failed out code stderr, ctx_err) =>
      (out, Some (match ctx_err with
                  | Some e => e
                  | None => GitError args (default (-1)%Z code) stderr
                  end))
  end.
Definition Run (r : execRunner) (now : time) (deadline : option time) (repoDir : string) (stdin : bytes)
    (args : list string) : bytes * option err := RunEnv r now deadline repoDir [] stdin args.
End runner.

(** The value a child sees: of several entries for a name the last one counts
    (os/exec removes the earlier ones). *)
Definition getenv (env : list string) (name : string) : option string :=
  foldl (λ v s, if has_prefix (name +:+ "=") s then Some (str_drop (String.length name + 1) s) else v) None env.
(** The variables that keep git from prompting, from reading the host's
    configuration and from using other transports *)
Definition hardened : list string :=
  ["GIT_TERMINAL_PROMPT"; "GIT_ASKPASS"; "GIT_CONFIG_NOSYSTEM"; "GIT_CONFIG_GLOBAL"; "HOME"; "GIT_FLUSH"; "LC_ALL";
   "GIT_ALLOW_PROTOCOL"; "GIT_PROTOCOL_FROM_USER"; "PATH"].

Lemma getenv_app e1 e2 k : Forall (λ s, has_prefix (k +:+ "=") s = false) e2 → getenv (e1 ++ e2) k = getenv e1 k.
Proof.
  intros He. unfold getenv. rewrite foldl_app. generalize (foldl (λ v s, if has_prefix (k +:+ "=") s then
    Some (str_drop (String.length k + 1) s) else v) None e1). induction He as [|s l Hs _ IH]; [done|].
  intros v. simpl. by rewrite Hs.
Qed.
Ltac no_name := repeat first [constructor | reflexivity].
Lemma authorEnv_names `{UUIDText} a when k : k ∈ "GIT_CONFIG_COUNT" :: hardened →
  Forall (λ s, has_prefix (k +:+ "=") s = false) (authorEnv a when).
Proof.
  intros Hk. unfold authorEnv. unfold hardened in Hk. rewrite !elem_of_cons in Hk. destruct (when =? "")%string;
    destruct_or! Hk; subst; no_name; by apply elem_of_nil in Hk.
Qed.
Lemma auth_env_names token user k : k ∈ hardened → Forall (λ s, has_prefix (k +:+ "=") s = false) (auth_env token user).
Proof.
  intros Hk. unfold auth_env. destruct (token =? "")%string; [constructor|].
  unfold hardened in Hk. rewrite !elem_of_cons in Hk. destruct_or! Hk; subst; no_name; by apply elem_of_nil in Hk.
Qed.

(** The environments the service adds: nothing, an author, or the credential of
    the mirror *)
Definition extra_env `{UUIDText} (args env : list string) : Prop :=
  env = [] ∨ (∃ a when, env = authorEnv a when) ∨ is_network args = true ∧ ∃ token user, env = auth_env token user.
Lemma justified_env `{GoUnicode} `{UUIDText} `{World} cfg c t dir env args r :
  justified cfg c t (EvGit dir env args r) → extra_env args env.
Proof.
  unfold extra_env. intros [[_ [->|[Hn Ha]]]|Hg]; [by left|auto|].
  destruct Hg; subst; eauto; right; right; (split; [done|eauto]).
Qed.

(** Git always runs hardened.  For every git command of every call
    of the service, whatever the call is given and the world answers: the child
    process sees the scrubbed values of the variables that forbid prompts, host
    configuration and transports other than https and ssh, and the credential
    of the mirror is in its environment only if the command is a push or a
    fetch. *)
Theorem git_runs_hardened `{GoUnicode} `{GoTime} `{UUIDText} `{TarReader} `{World} (cfg : Config) (c : call)
    (pre post : trace) (dir : string) (extra args : list string) (r : Res err string) :
  (exec cfg c []).1 = pre ++ EvGit dir extra args r :: post →
  (∀ k, k ∈ hardened → getenv (env (newExecRunner (GitBin cfg) (GitOpTimeout cfg)) ++ extra) k = getenv scrubbedEnv k) ∧
  (getenv (env (newExecRunner (GitBin cfg) (GitOpTimeout cfg)) ++ extra) "GIT_CONFIG_COUNT" ≠ None → is_network args = true).
Proof.
  intros Hrun. pose proof (justified_env _ _ _ _ _ _ _ (exec_careful cfg c _ _ _ Hrun)) as He.
  change (env (newExecRunner _ _)) with scrubbedEnv. split.
  - intros k Hk. apply getenv_app. destruct He as [->|[(a & when & ->)|(_ & token & user & ->)]].
    + constructor.
    + apply authorEnv_names. by right.
    + by apply auth_env_names.
  - intros Hc. destruct He as [->|[(a & when & ->)|(Hn & _)]]; [done| |done].
    exfalso. apply Hc. rewrite getenv_app; [done|]. apply authorEnv_names. by left.
Qed.
