(* ===== verification/GitPaths.v ===== *)
(** * Where the git-backed service writes

    filepath.Join below an absolute directory, and with it where the files are that a
    call writes, opens, removes and renames: in the worktree of the site it works
    on, outside its metadata, in a fresh temporary directory, or a served tree.  Paths
    are texts here; a link in a worktree is not followed. *)

From S2P Require Import Prelude Trace GoStrings SiteErrors Handle SitePath Zip SiteTypes Http GitParse GitRemote.
From S2P Require Import GitWorld GitService GitOps GitPublish GitGuard GitSafety.

(** ** Joining below an absolute directory *)

(** The absolute path with these elements *)
Definition place (l : list string) : string := "/" +:+ join "/" l.
Definition plain (l : list string) : Prop := Forall normal_seg l ∧ Forall (λ s, no_char slash s = true) l.
Lemma plain_app l k : plain l → plain k → plain (l ++ k).
Proof. intros [] []. split; by apply Forall_app. Qed.

Lemma plain_one s : normal_seg s → no_char slash s = true → plain [s].
Proof. intros Hn Hs. split; (constructor; [done|constructor]). Qed.

(** [..] at the bottom of a relative path stays there. *)
Lemma climbed_stays segs out :
  last out = Some ".." → last (foldl (clean_step false) out segs) = Some "..".
Proof.
  revert out. induction segs as [|s segs IH]; intros out Ho; [done|]. simpl. apply IH.
  destruct (clean_step_cases false out s) as [(-> & _)|[(_ & ->)|(-> & ->)]]; [done|by destruct out|].
  destruct out as [|top out]; [done|]. destruct (String.eqb_spec top "..") as [->|Hne]; [done|].
  destruct out; [|done]. injection Ho as ->. done.
Qed.
(** A path that never climbs lands below wherever it starts. *)
Lemma foldl_clean_below segs o o' out :
  Forall normal_seg o → foldl (clean_step false) o segs = o' → Forall normal_seg o' →
  foldl (clean_step true) (o ++ out) segs = o' ++ out.
Proof.
  revert o. induction segs as [|s segs IH]; intros o Ho Hf Ho'; simpl in *; [by subst|].
  destruct (clean_step_cases false o s) as [(He & Hs)|[(Hs & He)|(-> & He)]]; rewrite He in Hf.
  - rewrite <-(IH o) by done. f_equal. by destruct Hs as [-> | ->].
  - rewrite clean_step_normal by done. apply (IH (s :: o)); [by constructor|done|done].
  - destruct Ho as [|top o Ht Ho].
    + exfalso. pose proof (climbed_stays segs [".."] eq_refl) as Hl. rewrite Hf in Hl.
      apply last_Some_elem_of in Hl. rewrite Forall_forall in Ho'. by destruct (Ho' _ Hl) as (_ & _ & []).
    + unfold clean_step. simpl. destruct Ht as (_ & _ & Hne%String.eqb_neq). rewrite Hne in *. by apply IH.
Qed.
Lemma join_place L p l :
  plain L → p ≠ "" → is_local p = true → clean_segs false (split slash p) = l →
  filepath_Join [place L; p] = place (L ++ l).
Proof.
  intros [HL HLs] Hp Hloc Hl. pose proof (is_local_segs p Hloc) as [_ Hn]. rewrite Hl in Hn.
  unfold filepath_Join. simpl. apply String.eqb_neq in Hp. rewrite Hp. simpl. unfold path_clean. simpl.
  unfold place. f_equal. f_equal. rewrite split_app_gen. unfold clean_segs. simpl. rewrite foldl_app.
  change (clean_step true [] "") with (@nil string). change (split "/"%char) with (split slash).
  assert (foldl (clean_step true) [] (split slash (join "/" L)) = rev L) as ->.
  { destruct L as [|x L]; [done|]. rewrite split_join by done.
    by rewrite foldl_clean_normals, app_nil_r. }
  assert (foldl (clean_step false) [] (split slash p) = rev l) as Hr.
  { rewrite <-Hl. unfold clean_segs. by rewrite rev_involutive. }
  rewrite <-(app_nil_l (rev L)). rewrite (foldl_clean_below _ [] (rev l)); [|constructor|done|by apply Forall_rev].
  by rewrite rev_app_distr, !rev_involutive.
Qed.
Lemma join_place_plain L l : plain L → plain l → l ≠ [] → filepath_Join [place L; join "/" l] = place (L ++ l).
Proof.
  intros HL [Hn Hs] Hl. apply join_place; [done| |by apply is_local_normal|].
  - by destruct (join_normal_ne l Hn Hl).
  - by rewrite split_join, clean_segs_normals.
Qed.
Lemma join_place_name L s : plain L → normal_seg s → no_char slash s = true →
  filepath_Join [place L; s] = place (L ++ [s]).
Proof. intros HL Hn Hs. apply (join_place_plain L [s]); [done|by apply plain_one|done]. Qed.
Lemma place_inj L K : plain L → plain K → place L = place K → L = K.
Proof.
  unfold place. intros [HLn HL] [HKn HK] [= Heq].
  assert (∀ M, Forall normal_seg M → Forall (λ s, no_char slash s = true) M →
    M = List.filter (λ s, negb (s =? "")%string) (split slash (join "/" M))) as Hback.
  { intros [|x M] Hn Hs; [done|]. rewrite split_join by done. clear Hs. symmetry.
    induction Hn as [|y l (Hy%String.eqb_neq & _) Hl IH]; [done|]. simpl. rewrite Hy. simpl. by rewrite IH. }
  rewrite (Hback L), (Hback K) by done. by rewrite Heq.
Qed.
(** The elements of an absolute path, cleaned *)
Lemma clean_place p : has_prefix "/" p = true → ∃ L, plain L ∧ path_clean p = place L.
Proof. intros (l & Hn & Hs & ->)%path_clean_rooted. by exists l. Qed.

(** ** The directories of a site *)

Section dirs.
Context `{UUIDText} (cfg : Config).
Context (root_absolute : has_prefix "/" (Root cfg) = true).
(** The text of a uuid is 36 hexadecimal digits and dashes. *)
Context (uuid_plain : ∀ id, normal_seg (uuid_String id) ∧ no_char slash (uuid_String id) = true).

(** Join only sees the cleaned form of an absolute directory. *)
Lemma Join_clean a l : has_prefix "/" a = true → plain l → l ≠ [] →
  ∃ L, plain L ∧ path_clean a = place L ∧ filepath_Join [a; join "/" l] = place (L ++ l).
Proof.
  intros Ha [Hn Hs] Hl. exists (clean_segs true (split slash a)).
  assert (path_clean a = place (clean_segs true (split slash a))) as Hc by (unfold path_clean; by rewrite Ha).
  split_and!; [split; [apply clean_segs_rooted|apply clean_segs_no_slash, split_no_char]|done|].
  unfold filepath_Join. simpl. destruct (String.eqb_spec a "") as [->|_]; [done|].
  destruct (join_normal_ne l Hn Hl) as [Hj%String.eqb_neq _]. rewrite Hj. simpl.
  unfold path_clean, place.
  assert (has_prefix "/" (a +:+ String "/" (join "/" l)) = true) as ->.
  { apply has_prefix_spec in Ha as [r ->]. rewrite str_app_assoc. apply has_prefix_app. }
  f_equal. f_equal. change (String "/" (join "/" l)) with (String slash (join "/" l)).
  rewrite split_app_gen, split_join by done. unfold clean_segs. rewrite foldl_app, foldl_clean_normals by done.
  by rewrite rev_app_distr, rev_involutive.
Qed.
Lemma repoDir_place : ∃ R, plain R ∧ ∀ id, repoDir cfg id = place (R ++ [uuid_String id]).
Proof using root_absolute uuid_plain.
  exists (clean_segs true (split slash (Root cfg))).
  split; [split; [apply clean_segs_rooted|apply clean_segs_no_slash, split_no_char]|]. intros id.
  destruct (uuid_plain id) as [Hn Hs].
  destruct (Join_clean (Root cfg) [uuid_String id]) as (L & HL & Hc & Hj); [done|by apply plain_one|done|].
  unfold repoDir. simpl in Hj. rewrite Hj. f_equal. f_equal. apply place_inj; [done| |].
  - split; [apply clean_segs_rooted|apply clean_segs_no_slash, split_no_char].
  - rewrite <-Hc. unfold path_clean. by rewrite root_absolute.
Qed.
(** Different sites have different directories. *)
Lemma repoDir_injective : (∀ i j, uuid_String i = uuid_String j → i = j) → ∀ i j, repoDir cfg i = repoDir cfg j → i = j.
Proof using root_absolute uuid_plain.
  intros Hu i j. destruct repoDir_place as (R & HR & Hp). rewrite !Hp. intros He. apply Hu.
  apply place_inj in He as [_ [= He]]%app_inj_tail; try done;
    (apply plain_app; [done|apply plain_one; apply uuid_plain]).
Qed.

(** ** Below the directory of a site *)

(** The file of the worktree with these elements *)
Definition worktree_file (id : uuid) (p : string) : Prop :=
  ∃ l, l ≠ [] ∧ plain l ∧ ".git" ∉ l ∧ p = repoDir cfg id +:+ "/" +:+ join "/" l.
Lemma join_app a b : a ≠ [] → b ≠ [] → join "/" (a ++ b) = join "/" a +:+ "/" +:+ join "/" b.
Proof using Type.
  intros Ha Hb. induction a as [|x a IH]; [done|]. destruct a as [|y a].
  { change ([x] ++ b) with (x :: b). by rewrite join_cons. }
  change ((x :: y :: a) ++ b) with (x :: ((y :: a) ++ b)).
  rewrite (join_cons "/" x), (join_cons "/" x (y :: a)), IH by done. by rewrite !str_app_assoc.
Qed.
Lemma below_repo id p l : p ≠ "" → is_local p = true → clean_segs false (split slash p) = l → l ≠ [] →
  filepath_Join [repoDir cfg id; p] = repoDir cfg id +:+ "/" +:+ join "/" l.
Proof using root_absolute uuid_plain.
  intros Hne Hloc Hl Hnil. destruct repoDir_place as (R & HR & ->).
  assert (plain (R ++ [uuid_String id])) as Hpl by (apply plain_app; [done|apply plain_one; apply uuid_plain]).
  rewrite (join_place _ p l) by done. unfold place. rewrite (join_app (R ++ _)); [by rewrite str_app_assoc|by destruct R|done].
Qed.
(** The elements of a path whose cleaned form is known *)
Lemma clean_elements p l : is_local p = true → l ≠ [] → plain l → path_clean p = join "/" l →
  clean_segs false (split slash p) = l.
Proof using Type.
  intros Hloc Hnil [Hn Hs] Hc. pose proof (is_local_segs p Hloc) as [Hr Hn'].
  pose proof (clean_segs_no_slash false _ (split_no_char slash p)) as Hs'.
  unfold path_clean in Hc. rewrite Hr in Hc. revert Hc Hn' Hs'. generalize (clean_segs false (split slash p)).
  intros k Hc Hn' Hs'. rewrite <-(split_join slash l) by done. change (String slash "") with "/". rewrite <-Hc.
  destruct k as [|x k].
  - exfalso. simpl in Hc. pose proof (join_normal_ne l Hn Hnil) as [_ Hd]. by symmetry in Hc.
  - destruct (join_normal_ne (x :: k) Hn') as [Hj%String.eqb_neq _]; [done|]. rewrite Hj. symmetry. by apply split_join.
Qed.
Lemma worktree_join id p l : p ≠ "" → is_local p = true → l ≠ [] → plain l → ".git" ∉ l → path_clean p = join "/" l →
  worktree_file id (filepath_Join [repoDir cfg id; p]).
Proof using root_absolute uuid_plain.
  intros Hne Hloc Hnil Hpl Hg Hc. exists l. split_and!; [done..|]. apply below_repo; [done|done| |done].
  by apply clean_elements.
Qed.
Lemma worktree_validated `{GoUnicode} id p : is_ok (validatePath p) = true →
  worktree_file id (filepath_Join [repoDir cfg id; p]).
Proof using root_absolute uuid_plain.
  destruct (validatePath p) as [[]|] eqn:Hv; [|done]. intros _.
  apply validatePathWith_inv in Hv as (_ & _ & Hloc & l & Hnil & Hl & Hc & _).
  apply (worktree_join id p l); try done.
  - by intros ->.
  - split; (eapply Forall_impl; [exact Hl|]; intros x Hx; apply Hx).
  - intros Hin. rewrite Forall_forall in Hl. by destruct (Hl _ Hin) as (_ & ? & _).
Qed.
Lemma worktree_entry `{GoUnicode} id zcfg src es e : openAndValidateZip zcfg src = Ok es → e ∈ es →
  worktree_file id (filepath_Join [repoDir cfg id; ze_path e]).
Proof using root_absolute uuid_plain.
  intros (_ & zr & _ & _ & _ & Hv)%openAndValidateZip_inv Hin.
  assert (∃ l, l ≠ [] ∧ plain l ∧ ".git" ∉ l ∧ ze_path e = join "/" l) as (l & Hnil & Hpl & Hg & He).
  { revert es Hv Hin. generalize 0%Z. induction zr as [|f fs IH]; intros t es Hv Hin; simpl in Hv.
    { injection Hv as <-. by apply elem_of_nil in Hin. }
    destruct (skipEntry f); [by eapply IH|]. unfold res_bind in Hv.
    destruct (checkEntryHeader zcfg f) as [clean|] eqn:Hh; [|done].
    destruct (readEntry zcfg f clean t) as [[e1 t1]|] eqn:Hr; [|done].
    destruct (validateEntries zcfg fs t1) as [es1|] eqn:Hv1; [|done]. injection Hv as <-.
    apply elem_of_cons in Hin as [->|Hin]; [|by eapply IH].
    apply readEntry_ok in Hr as (-> & _). apply checkEntryHeader_ok in Hh as [(l & ? & Hn & Hgit & Hs & ->) _].
    exists l. split_and!; [done|by split| |done]. intros Hi. rewrite Forall_forall in Hgit. by apply (Hgit _ Hi). }
  rewrite He. apply (worktree_join id _ l); try done; destruct Hpl.
  - by destruct (join_normal_ne l).
  - by apply is_local_normal.
  - by apply path_clean_normal.
Qed.

(** *** Local names below any absolute directory *)

(** The directory itself, or a path below it *)
Definition below (d p : string) : Prop :=
  ∃ L l, plain L ∧ plain l ∧ path_clean d = place L ∧ p = place (L ++ l).
Lemma Join_below a p : has_prefix "/" a = true → is_local p = true → below a (filepath_Join [a; p]).
Proof using Type.
  intros Ha Hloc. pose proof (is_local_segs p Hloc) as [Hr Hn].
  exists (clean_segs true (split slash a)), (clean_segs false (split slash p)). split_and!.
  - split; [apply clean_segs_rooted|apply clean_segs_no_slash, split_no_char].
  - split; [done|apply clean_segs_no_slash, split_no_char].
  - unfold path_clean. by rewrite Ha.
  - assert (p ≠ "") as Hp%String.eqb_neq by (by intros ->).
    unfold filepath_Join. simpl. destruct (String.eqb_spec a "") as [->|_]; [done|]. rewrite Hp. simpl.
    unfold path_clean, place.
    assert (has_prefix "/" (a +:+ String "/" p) = true) as ->.
    { apply has_prefix_spec in Ha as [r ->]. rewrite str_app_assoc. apply has_prefix_app. }
    f_equal. f_equal. change (String "/" p) with (String slash p). rewrite split_app_gen. unfold clean_segs in *.
    rewrite foldl_app. set (o := foldl (clean_step true) [] (split slash a)).
    rewrite <-(app_nil_l o) at 1. rewrite (foldl_clean_below _ [] (foldl (clean_step false) [] (split slash p))); [|constructor|done|].
    + by rewrite rev_app_distr.
    + rewrite <-(rev_involutive (foldl _ _ _)). by apply Forall_rev.
Qed.
Lemma is_local_clean p : is_local p = true → is_local (path_clean p) = true.
Proof using Type.
  intros Hloc. pose proof (is_local_segs p Hloc) as [Hr Hn]. unfold path_clean. rewrite Hr.
  pose proof (clean_segs_no_slash false _ (split_no_char slash p)) as Hs.
  destruct (clean_segs false (split slash p)) as [|x l] eqn:Hl; [done|].
  destruct (join_normal_ne (x :: l) Hn) as [Hj%String.eqb_neq _]; [done|]. rewrite Hj. by apply is_local_normal.
Qed.
(** The served tree of a branch that is a local path is below [served]. *)
Lemma served_below id b : is_local b = true → below (repoDir cfg id +:+ "/served") (servedDir cfg id b).
Proof using root_absolute uuid_plain.
  intros Hloc. assert (b ≠ "") as Hb%String.eqb_neq by (by intros ->).
  assert (has_prefix "/" (repoDir cfg id) = true) as Hrepo by (destruct repoDir_place as (R & _ & ->); done).
  assert (servedDir cfg id b = filepath_Join [repoDir cfg id +:+ "/served"; b]) as ->.
  { unfold servedDir, filepath_Join. simpl. destruct (repoDir cfg id) as [|ch rest]; [done|]. simpl. rewrite Hb. simpl.
    by rewrite str_app_assoc. }
  apply Join_below; [|done]. apply has_prefix_spec in Hrepo as [r ->]. rewrite str_app_assoc. apply has_prefix_app.
Qed.
Lemma worktree_name id name : normal_seg name → no_char slash name = true → kept name = false →
  worktree_file id (filepath_Join [repoDir cfg id; name]).
Proof using root_absolute uuid_plain.
  intros Hn Hs Hk. apply orb_false_iff in Hk as [Hg%String.eqb_neq _].
  exists [name]. split; [done|]. split; [by apply plain_one|].
  split; [by rewrite list_elem_of_singleton; intros <-|].
  destruct repoDir_place as (R & HR & ->).
  assert (plain (R ++ [uuid_String id])) as Hpl by (apply plain_app; [done|apply plain_one; apply uuid_plain]).
  rewrite join_place_name by done.
  unfold place. rewrite (join_app (R ++ [_]) [name]); [by rewrite str_app_assoc|by destruct R|done].
Qed.

(** The served tree of the branch of a call: below the directory of a site
    unless the branch climbs out of it *)
Definition served_tree `{GoUnicode} (c : call) (p : string) : Prop :=
  ∃ id b, serves c = Some b ∧ p = servedDir cfg id b ∧
    (is_local b = true → below (repoDir cfg id +:+ "/served") p).
End dirs.

(** The names CreateBranch accepts, and [published], are such paths. *)
Lemma branch_name_local `{GoUnicode} b : validateBranchName b = Ok tt → is_local b = true.
Proof.
  intros [(_ & Hch & (ch & r & -> & Hal) & _) _]%validateBranchName_ok.
  assert (alnum "." = false) as Hdot by reflexivity.
  apply (is_local_normal [String ch r]); [done|constructor; [|constructor]|constructor; [|constructor]].
  - split_and!; [done|by intros [= -> _]; congruence..].
  - eapply str_forall_impl; [|exact Hch]. intros c Hc. apply label_char_facts in Hc as (_ & _ & _ & _ & Hc).
    by apply negb_true_iff.
Qed.

(** C3 (safety): where a call writes, removes and renames.  With an absolute
    root directory, whatever any call of the service is given and whatever it is
    answered: a file written by os.WriteFile is the commit marker of a fresh temporary
    directory, or is in the worktree of one site, by ordinary names none of which
    is [.git], and the write lock of that site is held or this very call created the
    site; a file opened or copied to is the lock file of a site or below a fresh
    temporary directory; what is removed is a temporary directory, the directory of a
    site this very call created, a single entry of the worktree an import replaces
    under the lock, or a served tree; and only a temporary directory is renamed, to a
    served tree.  The served tree of a branch is below the [served] directory of a
    site when the branch is a local path, as every name CreateBranch accepts is;
    a revision handed over as a branch need not be (served_tree_escapes).  Paths
    are compared as text: symbolic links in a worktree are not followed, and what
    git itself writes and the directories made are apart. *)
Theorem writes_confined `{GoUnicode} `{GoTime} `{UUIDText} `{TarReader} `{World} (cfg : Config) (c : call)
    (pre post : trace) (e : event)
    (root_absolute : has_prefix "/" (Root cfg) = true)
    (uuid_plain : ∀ id, normal_seg (uuid_String id) ∧ no_char slash (uuid_String id) = true) :
  (exec cfg c []).1 = pre ++ e :: post →
  match e with
  | EvWriteFile p _ _ =>
      (∃ tmp, temp_dir ".tmp-served-*" tmp pre ∧ p = filepath_Join [tmp; kotojiMetaFile]) ∨
      ∃ id, worktree_file cfg id p ∧ (holds id pre = true ∨ created c id pre)
  | EvOpenFile p _ | EvCopy p _ _ =>
      (∃ id, p = lockFilePath (gitDir cfg id)) ∨
      ∃ tmp, temp_dir ".tmp-served-*" tmp pre ∧ (has_prefix "/" tmp = true → below tmp p)
  | EvRemoveAll p _ =>
      (∃ pat, temp_dir pat p pre) ∨ (∃ id, created c id pre ∧ p = repoDir cfg id) ∨
      (∃ id b src base a name, c = CImportZip id b src base a ∧ holds id pre = true ∧
         p = filepath_Join [repoDir cfg id; name] ∧
         (normal_seg name → no_char slash name = true → worktree_file cfg id p)) ∨
      served_tree cfg c p
  | EvRename old p _ => temp_dir ".tmp-served-*" old pre ∧ served_tree cfg c p
  | _ => True
  end.
Proof.
  intros Hrun. pose proof (exec_careful cfg c _ _ _ Hrun) as Hj.
  assert (∀ p, may_create cfg pre p → (∃ id, p = lockFilePath (gitDir cfg id)) ∨
    ∃ tmp, temp_dir ".tmp-served-*" tmp pre ∧ (has_prefix "/" tmp = true → below tmp p)) as Hcreate.
  { intros p [id|tmp name Ht Hl]; [left; by exists id|right]. exists tmp. split; [done|]. intros Ha.
    by apply Join_below, is_local_clean. }
  destruct e; try exact I; simpl in Hj; [by apply Hcreate..| | |].
  - destruct Hj as [i _ Hh Hp|id b src base a es e _ Hh Hz He|i id es src e _ Hc _ Hz He|id Hc|tmp Ht].
    + right. exists (wf_SiteID i). split; [by eapply worktree_validated|by left].
    + right. exists id. split; [by eapply worktree_entry|by left].
    + right. exists id. split; [by eapply worktree_entry|by right].
    + right. exists id. split; [|by right]. apply (worktree_join cfg root_absolute uuid_plain id _ ["index.html"]); try done.
      { by apply plain_one. } by rewrite list_elem_of_singleton.
    + left. by exists tmp.
  - destruct Hj as [id Hc|id b src base a name Hc Hh Hk|id b Hs|pat dir Ht].
    + right; left. by exists id.
    + do 2 right; left. exists id, b, src, base, a, name. split_and!; [done..|].
      intros Hn Hno. by apply worktree_name.
    + do 3 right. exists id, b. split_and!; [done..|]. by apply served_below.
    + left. by exists pat.
  - destruct Hj as [Ht (id & b & Hs & ->)]. split; [done|]. exists id, b. split_and!; [done..|]. by apply served_below.
Qed.
