(* ===== verification/GitLocks.v ===== *)
(** * Locks of the git-backed service (site/lock.go)

    Every call takes at most one lock at a time and has released it, and the
    file lock, when it returns.  Calls that run concurrently are modelled by
    their interleavings under the semantics of sync.RWMutex; between the reading
    of a branch tip and the commit that relies on it no other call changes the
    repository. *)

From S2P Require Import Prelude Trace GoStrings SiteErrors Handle SitePath Zip SiteTypes Http GitParse GitRemote.
From S2P Require Import GitWorld GitService GitOps GitPublish GitGuard GitSafety.

(** ** Locks taken by one call *)

Inductive lock_state := Free | Writing (id : uuid) | Reading (id : uuid) | Broken.
(** The in-process locks: taken one at a time, released by their taker *)
Definition mutex_step (s : lock_state) (e : event) : lock_state :=
  match s, e with
  | Free, EvLock id => Writing id
  | Free, EvRLock id => Reading id
  | Writing i, EvUnlock id | Reading i, EvRUnlock id => if decide (i = id) then Free else Broken
  | _, (EvLock _ | EvUnlock _ | EvRLock _ | EvRUnlock _) => Broken
  | _, _ => s
  end.
Definition mutexes (t : trace) : lock_state := foldl mutex_step Free t.
(** The file locks held after a trace *)
Definition flock_step (l : list string) (e : event) : list string :=
  match e with
  | EvFlock p (Ok _) => p :: l
  | EvFunlock p => List.filter (λ q, negb (q =? p)%string) l
  | _ => l
  end.
Definition flocks (t : trace) : list string := foldl flock_step [] t.

Lemma mutexes_app t m : mutexes (t ++ m) = foldl mutex_step (mutexes t) m.
Proof. apply foldl_app. Qed.
Lemma flocks_app t m : flocks (t ++ m) = foldl flock_step (flocks t) m.
Proof. apply foldl_app. Qed.

(** Events that touch no lock at all *)
Definition quiet_event (e : event) : Prop :=
  match e with EvLock _ | EvUnlock _ | EvRLock _ | EvRUnlock _ | EvFlock _ _ | EvFunlock _ => False | _ => True end.
Definition quiet {A} (m : J A) : Prop := ∀ t, ∃ more, (m t).1 = t ++ more ∧ Forall quiet_event more.
(** A call that leaves every lock free *)
Definition idle (t : trace) : Prop := mutexes t = Free ∧ flocks t = [].
Definition releases {A} (m : J A) : Prop := ∀ t, idle t → idle (m t).1.

Lemma quiet_mutexes s more : Forall quiet_event more → foldl mutex_step s more = s.
Proof. induction 1 as [|e l He _ IH]; [done|]. simpl. destruct e, s; done. Qed.
Lemma quiet_flocks l more : Forall quiet_event more → foldl flock_step l more = l.
Proof. induction 1 as [|e m He _ IH]; [done|]. simpl. by destruct e. Qed.

Section quiet_rules.
Lemma quiet_id {A} (f : trace → Res err A) : quiet (λ t, (t, f t)).
Proof. intros t. exists []. rewrite app_nil_r. by split. Qed.
Lemma quiet_ok {A} (a : A) : quiet (ok a : J A).
Proof. apply quiet_id. Qed.
Lemma quiet_fail {A} e : quiet (fail e : J A).
Proof. apply quiet_id. Qed.
Lemma quiet_lift {A} r : quiet (lift r : J A).
Proof. apply (quiet_id (λ _, r)). Qed.
Lemma quiet_guard b e : quiet (guard_not b e : J unit).
Proof. apply (quiet_id (λ _, if b then Err e else Ok tt)). Qed.
Lemma quiet_snoc {A} (ev : trace → event) (f : trace → Res err A) :
  (∀ t, quiet_event (ev t)) → quiet (λ t, (t ++ [ev t], f t)).
Proof. intros Hq t. exists [ev t]. split; [done|]. by constructor. Qed.
Lemma quiet_ask {A} (answer : trace → Res err A) ev : (∀ r, quiet_event (ev r)) → quiet (ask answer ev).
Proof. intros Hq. apply (quiet_snoc (λ t, ev (answer t)) answer). auto. Qed.
Lemma quiet_try {A} (m : J A) : quiet m → quiet (try_ m).
Proof. intros Hm t. specialize (Hm t). unfold try_. by destruct (m t). Qed.
Lemma quiet_mapErr {A} f (m : J A) : quiet m → quiet (mapErr f m).
Proof. intros Hm t. specialize (Hm t). unfold mapErr. by destruct (m t) as [t1 []]. Qed.
Lemma quiet_ignore {A} (m : J A) : quiet m → quiet (ignore m).
Proof. intros Hm t. exact (Hm t). Qed.
Lemma quiet_trans {A B} (m : J A) (n : J B) t : quiet m → quiet n →
  ∃ more, (n (m t).1).1 = t ++ more ∧ Forall quiet_event more.
Proof.
  intros Hm Hn. destruct (Hm t) as (l & -> & Hl). destruct (Hn (t ++ l)) as (k & -> & Hk).
  exists (l ++ k). rewrite app_assoc. by split; [|apply Forall_app].
Qed.
Lemma quiet_bind {A B} (m : J A) (k : A → J B) : quiet m → (∀ a, quiet (k a)) → quiet (bindM m k).
Proof.
  intros Hm Hk t. unfold bindM. destruct (m t) as [t1 [a|e]] eqn:Hmt.
  - pose proof (quiet_trans m (k a) t Hm (Hk a)) as Hq. by rewrite Hmt in Hq.
  - specialize (Hm t). by rewrite Hmt in Hm.
Qed.
Lemma quiet_finally {A B} (m : J A) (c : J B) : quiet m → quiet c → quiet (finally m c).
Proof. intros Hm Hc t. pose proof (quiet_trans m c t Hm Hc) as Hq. unfold finally. by destruct (m t). Qed.
Lemma quiet_onError {A B} (m : J A) (c : J B) : quiet m → quiet c → quiet (onError m c).
Proof.
  intros Hm Hc t. pose proof (quiet_trans m c t Hm Hc) as Hq. specialize (Hm t). unfold onError.
  by destruct (m t) as [t1 []].
Qed.
Lemma quiet_each {A} (f : A → J unit) l : (∀ a, quiet (f a)) → quiet (each f l).
Proof. intros Hf. induction l; simpl; [apply quiet_ok|by apply quiet_bind]. Qed.

Lemma releases_quiet {A} (m : J A) : quiet m → releases m.
Proof.
  intros Hm t [H1 H2]. destruct (Hm t) as (l & -> & Hl). split.
  - by rewrite mutexes_app, quiet_mutexes.
  - by rewrite flocks_app, quiet_flocks.
Qed.
Lemma releases_bind {A B} (m : J A) (k : A → J B) : releases m → (∀ a, releases (k a)) → releases (bindM m k).
Proof.
  intros Hm Hk t Ht. specialize (Hm t Ht). unfold bindM. destruct (m t) as [t1 [a|e]]; [by apply Hk|done].
Qed.
End quiet_rules.

Create HintDb quiet.
#[export] Hint Resolve quiet_ok quiet_fail quiet_lift quiet_guard quiet_try quiet_mapErr quiet_ignore quiet_bind
  quiet_finally quiet_onError quiet_each : quiet.
#[export] Hint Extern 1 (quiet_event _) => exact I : quiet.
#[export] Hint Extern 2 (quiet (ask _ _)) => apply quiet_ask; intros; exact I : quiet.

Section locks.
Context `{GoUnicode} `{GoTime} `{UUIDText} `{TarReader} `{World}.
Context (cfg : Config).

Ltac head_of t := lazymatch t with ?f _ => head_of f | _ => t end.
(** Unfold the head of a program, split on its matches *)
Ltac quiet_step :=
  first
  [ assumption
  | solve [auto 2 with quiet nocore]
  | match goal with
    | |- quiet (bindM _ _) => apply quiet_bind; [|intros ?]
    | |- quiet (try_ _) => apply quiet_try
    | |- quiet (mapErr _ _) => apply quiet_mapErr
    | |- quiet (ignore _) => apply quiet_ignore
    | |- quiet (finally _ _) => apply quiet_finally
    | |- quiet (onError _ _) => apply quiet_onError
    | |- quiet (each _ _) => apply quiet_each; intros ?
    | |- quiet (match ?x with _ => _ end) => destruct x
    | |- quiet (λ tr, (tr, _)) => apply quiet_id
    | |- quiet (let x := _ in _) => cbv zeta
    | |- quiet ?m => let h := head_of m in unfold h; cbv beta
    end ].
Ltac quiet := repeat quiet_step.

Lemma quiet_now : quiet now.
Proof. apply quiet_id. Qed.
Lemma quiet_mirrorCreds : quiet (mirrorCreds cfg).
Proof. apply quiet_id. Qed.
Lemma quiet_mirrorEnabled : quiet (mirrorEnabled cfg).
Proof. apply quiet_id. Qed.
#[local] Hint Resolve quiet_now quiet_mirrorCreds quiet_mirrorEnabled : quiet.
Lemma quiet_run id args : quiet (run cfg id args).
Proof. quiet. Qed.
Lemma quiet_revParse id ref : quiet (revParse cfg id ref).
Proof. quiet. Qed.
Lemma quiet_branchExists id b : quiet (branchExists cfg id b).
Proof. quiet. Qed.
Lemma quiet_commitInfo id sha : quiet (commitInfo cfg id sha).
Proof. quiet. Qed.
#[local] Hint Resolve quiet_run quiet_revParse quiet_branchExists quiet_commitInfo : quiet.
Lemma quiet_commitStaged id b a msg : quiet (commitStaged cfg id b a msg).
Proof. quiet. Qed.
Lemma quiet_requireSite id : quiet (requireSite id).
Proof. quiet. Qed.
Lemma quiet_checkoutBranch id b : quiet (checkoutBranch cfg id b).
Proof. quiet. Qed.
Lemma quiet_checkBaseSHA id b s h : quiet (checkBaseSHA cfg id b s h).
Proof. quiet. Qed.
Lemma quiet_ensureServed id b sha : quiet (ensureServed cfg id b sha).
Proof. quiet. Qed.
#[local] Hint Resolve quiet_commitStaged quiet_requireSite quiet_checkoutBranch quiet_checkBaseSHA quiet_ensureServed : quiet.
Lemma quiet_refreshServed id b : quiet (refreshServed cfg id b).
Proof. quiet. Qed.
Lemma quiet_bestEffortMirror id b : quiet (bestEffortMirror cfg id b).
Proof. quiet. Qed.
Lemma quiet_enforceQuota id n : quiet (enforceQuota cfg id n).
Proof. quiet. Qed.
Lemma quiet_replaceWorktree id es : quiet (replaceWorktree cfg id es).
Proof. quiet. Qed.
Lemma quiet_movePublished id sha : quiet (movePublished cfg id sha).
Proof. quiet. Qed.
Lemma quiet_publishDiverged id f s a m : quiet (publishDiverged cfg id f s a m).
Proof. quiet. Qed.
Lemma quiet_initRepo id i : quiet (initRepo cfg id i).
Proof. quiet. Qed.
Lemma quiet_branch_lines rec id lines : quiet (branch_lines cfg rec id lines).
Proof. induction lines as [|l lines IH]; simpl; quiet. Qed.
#[local] Hint Resolve quiet_refreshServed quiet_bestEffortMirror quiet_enforceQuota quiet_replaceWorktree quiet_movePublished
  quiet_publishDiverged quiet_initRepo quiet_branch_lines : quiet.

(** *** Critical sections release what they take *)

(** What a step does to the two kinds of lock *)
Definition keeps (t t' : trace) : Prop := mutexes t' = mutexes t ∧ (flocks t = [] → flocks t' = []).
Lemma keeps_trans t1 t2 t3 : keeps t1 t2 → keeps t2 t3 → keeps t1 t3.
Proof. intros [Ha1 Ha2] [Ha3 Ha4]. split; [congruence|auto]. Qed.
Lemma keeps_quiet {A} (m : J A) t : quiet m → keeps t (m t).1.
Proof.
  intros Hm. destruct (Hm t) as (l & -> & Hl). split.
  - by rewrite mutexes_app, quiet_mutexes.
  - by rewrite flocks_app, quiet_flocks.
Qed.
Lemma keeps_locked {A} p (fn : J A) t : quiet fn → keeps t (finally fn (note (EvFunlock p)) (t ++ [EvFlock p (Ok tt)])).1.
Proof.
  intros Hfn. unfold finally, note. destruct (Hfn (t ++ [EvFlock p (Ok tt)])) as (l & Hl & Hq).
  destruct (fn _) as [t1 r]; simpl in *. subst t1. split.
  - rewrite !mutexes_app, (quiet_mutexes _ l) by done. simpl. by destruct (mutexes t).
  - intros Hf. rewrite !flocks_app, (quiet_flocks _ l), Hf by done. simpl. by rewrite String.eqb_refl.
Qed.
Lemma keeps_underFlock {A} id (fn : J A) t : quiet fn → keeps t (underFlock cfg id fn t).1.
Proof.
  intros Hfn. unfold underFlock, acquireFileLock, release, Stat, MkdirAll, OpenFile, Flock, mapErr, bindM, ask.
  set (p := lockFilePath _).
  assert (∀ t e, quiet_event e → keeps t (t ++ [e])) as He.
  { intros u e Hq. apply (keeps_quiet (note e) u). intros v. exists [e]. by repeat constructor. }
  destruct (w_Stat t _); [|by eapply keeps_trans; [apply He|apply keeps_quiet]].
  simpl. set (t1 := t ++ _). assert (keeps t t1) as Ha1 by by apply He.
  destruct (w_MkdirAll t1 _) as [[]|]; [|by eapply keeps_trans; [exact Ha1|apply He]].
  set (t2 := t1 ++ _). assert (keeps t t2) as Ha2 by (eapply keeps_trans; [exact Ha1|by apply He]).
  destruct (w_OpenFile t2 _) as [[]|]; [|by eapply keeps_trans; [exact Ha2|apply He]].
  set (t3 := t2 ++ _). assert (keeps t t3) as Ha3 by (eapply keeps_trans; [exact Ha2|by apply He]).
  destruct (w_Flock t3 _) as [[]|e]; (eapply keeps_trans; [exact Ha3|]).
  - by apply keeps_locked.
  - clearbody t3. split; cbn [fst]; [rewrite mutexes_app; simpl; by destruct (mutexes t3)|rewrite flocks_app; simpl; auto].
Qed.
Lemma releases_write {A} id (fn : J A) : quiet fn → releases (withWriteLock cfg id fn).
Proof.
  intros Hfn t [Hm Hf]. unfold withWriteLock, note, bindM, finally.
  destruct (keeps_underFlock id fn (t ++ [EvLock id]) Hfn) as [Hm1 Hf1].
  destruct (underFlock _ _ _ _) as [t1 r]; simpl in *. split.
  - rewrite mutexes_app, Hm1, mutexes_app, Hm. simpl. by rewrite decide_True.
  - rewrite flocks_app, Hf1; [done|]. by rewrite flocks_app, Hf.
Qed.
Lemma releases_read {A} id (fn : J A) : quiet fn → releases (withReadLock id fn).
Proof.
  intros Hfn t [Hm Hf]. unfold withReadLock, note, bindM, finally.
  destruct (keeps_quiet fn (t ++ [EvRLock id]) Hfn) as [Hm1 Hf1].
  destruct (fn _) as [t1 r]; simpl in *. split.
  - rewrite mutexes_app, Hm1, mutexes_app, Hm. simpl. by rewrite decide_True.
  - rewrite flocks_app, Hf1; [done|]. by rewrite flocks_app, Hf.
Qed.

(** One step of a whole call *)
Ltac releases_step :=
  first
  [ solve [apply releases_quiet; quiet]
  | match goal with
    | |- releases (bindM _ _) => apply releases_bind; [|intros ?]
    | |- releases (withWriteLock _ _ _) => apply releases_write; solve [quiet]
    | |- releases (withReadLock _ _) => apply releases_read; solve [quiet]
    | |- releases (match ?x with _ => _ end) => destruct x
    | |- releases (let x := _ in _) => cbv zeta
    | |- releases ?m => let h := head_of m in unfold h; cbv beta
    end ].
Lemma exec_releases c : releases (exec cfg c).
Proof. destruct c; repeat releases_step. Qed.
End locks.
