(* ===== verification/GitConcurrent.v ===== *)
(** * Calls of the git-backed service running concurrently

    A run of several calls is an interleaving of their traces, in which a write
    lock is only ever granted while no other call holds it (sync.RWMutex).  Each
    call has a world of its own, so the answers it gets may depend on what the
    others did.  Calls may be unfinished: the run may stop anywhere. *)

From S2P Require Import Prelude Trace GoStrings SiteErrors Handle SitePath Zip SiteTypes Http GitParse GitRemote.
From S2P Require Import GitWorld GitService GitOps GitPublish GitGuard GitSafety GitLocks.

Section interleaving.
Context {event : Type}.
(** The events of caller [t] *)
Definition proj (t : nat) (g : list (nat * event)) : list event :=
  omap (λ x : nat * event, if decide (x.1 = t) then Some x.2 else None) g.
Lemma proj_app t g h : proj t (g ++ h) = proj t g ++ proj t h.
Proof. apply omap_app. Qed.
Lemma proj_same t e : proj t [(t, e)] = [e].
Proof. unfold proj. simpl. by rewrite decide_True. Qed.
Lemma proj_other t u e : u ≠ t → proj t [(u, e)] = [].
Proof. intros Hu. unfold proj. simpl. by rewrite decide_False. Qed.
(** A point of a caller's trace is a point of the run. *)
Lemma proj_split t g pre e post :
  proj t g = pre ++ e :: post → ∃ h1 h2, g = h1 ++ (t, e) :: h2 ∧ proj t h1 = pre ∧ proj t h2 = post.
Proof.
  revert pre. induction g as [|[u x] g IH]; intros pre Heq.
  { by destruct pre. }
  change ((u, x) :: g) with ([(u, x)] ++ g) in *. rewrite proj_app in Heq. destruct (decide (u = t)) as [->|Hu].
  - rewrite proj_same in Heq. destruct pre as [|y pre]; simpl in Heq; injection Heq as -> Heq.
    + by exists [], g.
    + apply IH in Heq as (h1 & h2 & -> & Hp & Hq). exists ((t, y) :: h1), h2. split; [done|]. split; [|done].
      change ((t, y) :: h1) with ([(t, y)] ++ h1). by rewrite proj_app, proj_same, Hp.
  - rewrite proj_other in Heq by done. apply IH in Heq as (h1 & h2 & -> & Hp & Hq).
    exists ((u, x) :: h1), h2. split; [done|]. split; [|done].
    change ((u, x) :: h1) with ([(u, x)] ++ h1). by rewrite proj_app, proj_other, Hp.
Qed.
End interleaving.

Section concurrent.
Context `{GoUnicode} `{GoTime} `{UUIDText} `{TarReader}.
Context (cfg : Config) (calls : nat → call) (worlds : nat → World).
Abbreviation run := (list (nat * event)).

(** The trace of a call in a world of its own *)
Definition behaviour (w : World) (c : call) : trace := (exec cfg c []).1.
Definition schedule (g : run) : Prop := ∀ t, proj t g `prefix_of` behaviour (worlds t) (calls t).
(** sync.RWMutex: Lock returns when no one else holds the lock. *)
Definition exclusive (g : run) : Prop :=
  ∀ pre t id post, g = pre ++ (t, EvLock id) :: post → ∀ u, u ≠ t → holds id (proj u pre) = false.

Lemma schedule_app g h : schedule (g ++ h) → schedule g.
Proof. intros Hs t. etrans; [|apply (Hs t)]. rewrite proj_app. apply prefix_app_r. done. Qed.
Lemma exclusive_app g h : exclusive (g ++ h) → exclusive g.
Proof. intros Hx pre t id post ->. eapply Hx. by rewrite <-app_assoc. Qed.

(** No two callers hold the write lock of a site. *)
Lemma mutual_exclusion g id t u :
  exclusive g → holds id (proj t g) = true → holds id (proj u g) = true → t = u.
Proof.
  intros Hx Ht Hu. destruct (decide (t = u)) as [|Hne]; [done|]. exfalso.
  induction g as [|[v e] g IH] using rev_ind; [done|].
  assert (∀ w, w ≠ v → holds id (proj w (g ++ [(v, e)])) = holds id (proj w g)) as Hother.
  { intros w Hw. by rewrite proj_app, proj_other, app_nil_r. }
  assert (holds id (proj v (g ++ [(v, e)])) = true → holds id (proj v g) = true ∨ e = EvLock id) as Hsame.
  { rewrite proj_app, proj_same, holds_snoc. destruct e; simpl; auto; repeat case_decide; subst; auto. done. }
  assert (e = EvLock id → ∀ w, w ≠ v → holds id (proj w g) = false) as Hgrant.
  { intros -> w Hw. by eapply (Hx g v id []). }
  apply exclusive_app in Hx. specialize (IH Hx).
  destruct (decide (t = v)) as [->|Htv], (decide (u = v)) as [->|Huv]; [done| | |].
  - rewrite Hother in Hu by done. destruct (Hsame Ht) as [?|He]; [auto|]. by rewrite (Hgrant He u) in Hu.
  - rewrite Hother in Ht by done. destruct (Hsame Hu) as [?|He]; [auto|]. by rewrite (Hgrant He t) in Ht.
  - rewrite Hother in Ht, Hu by done. auto.
Qed.

(** Every event of a run is justified in its caller's trace. *)
Lemma run_justified g1 t e g2 :
  schedule (g1 ++ (t, e) :: g2) → @justified _ _ (worlds t) cfg (calls t) (proj t g1) e.
Proof.
  intros Hs. destruct (Hs t) as [k Hk]. rewrite proj_app in Hk.
  change ((t, e) :: g2) with ([(t, e)] ++ g2) in Hk. rewrite proj_app, proj_same in Hk.
  eapply (@exec_careful _ _ _ _ (worlds t) cfg (calls t)).
  unfold behaviour in Hk. rewrite Hk, <-app_assoc. reflexivity.
Qed.

(** ** No lost updates *)

(** The branch a call builds on, and the tip it was told to expect *)
Definition based (c : call) : option (uuid * string * string) :=
  match c with
  | CPublish i => Some (pb_SiteID i, pick BranchDraft (pb_From i), pb_BaseSHA i)
  | _ => (λ x : uuid * string * string * Actor, x.1) <$> edits c
  end.
(** Commands that move a branch *)
Definition moves (args : list string) : Prop := first args = "commit" ∨ first args = "update-ref".
(** The question that compares the tip with it *)
Definition tip_check (c : call) (id : uuid) (branch base : string) (x : event) : Prop :=
  (∃ out, x = EvGit (repoDir cfg id) [] (rev_parse branch) (Ok out) ∧ trim_space out = base) ∨
  ((∃ src a, c = CImportZip id branch src base a) ∧
   ∃ e, x = EvGit (repoDir cfg id) [] (show_ref branch) (Err e) ∧ exit_1 e = true).

Lemma resolved_check c id branch base t :
  resolved cfg calm id branch base t → ∃ x, recent calm x t ∧ tip_check c id branch base x.
Proof. intros (out & Hr & Ho). eexists. split; [exact Hr|]. left. eauto. Qed.
Lemma base_checked_check c id branch base t :
  base_checked cfg c id branch base t → holds id t = true ∧ ∃ x, recent calm x t ∧ tip_check c id branch base x.
Proof.
  intros [Hh [Hr|[Hc (e & He & Hx)]]]; (split; [done|]); [by eapply resolved_check|].
  eexists. split; [exact He|]. right. eauto.
Qed.
Lemma holds_calm_app id t m : Forall calm m → holds id (t ++ m) = holds id t.
Proof.
  revert t. induction m as [|e m IH]; intros t Hm; [by rewrite app_nil_r|].
  apply Forall_cons_1 in Hm as [He Hm]. change (e :: m) with ([e] ++ m). rewrite app_assoc, IH by done.
  by apply holds_calm.
Qed.

Context (repoDir_inj : ∀ i j, repoDir cfg i = repoDir cfg j → i = j).
(** Who changes a repository holds its lock, created it, or works in a
    temporary directory. *)
Lemma guarded_holds c t dir env args id :
  guarded cfg c t dir env args → dir = repoDir cfg id →
  holds id t = true ∨ created c id t ∨ ∃ pat, temp_dir pat dir t.
Proof using repoDir_inj.
  intros Hg Hd. destruct Hg; try (right; right; by eauto); apply repoDir_inj in Hd; subst; auto;
    left; try done; match goal with Hb : base_checked _ _ _ _ _ _ |- _ => apply Hb end.
Qed.
Lemma guarded_based c t env args id branch base :
  based c = Some (id, branch, base) → moves args → guarded cfg c t (repoDir cfg id) env args →
  (∃ pat, temp_dir pat (repoDir cfg id) t) ∨
  holds id t = true ∧ ∃ x, recent calm x t ∧ tip_check c id branch base x.
Proof using repoDir_inj.
  intros Hb Hf Hg. remember (repoDir cfg id) as dir eqn:Hd.
  destruct Hg as [| | | |i b s a l He _ Hc Hst|i b s a now msg He _ Hc|in_ -> Hh Hr _|in_ l _ _ Hw| | | | |i u l _ _ Hw _| |];
    try (left; by eauto); try (apply repoDir_inj in Hd; subst); try done; try (by destruct Hf).
  - by destruct Hst, Hf.
  - right. destruct c; simplify_eq/=; by apply base_checked_check.
  - right. simplify_eq/=. split; [done|]. by apply resolved_check.
  - by destruct Hf as [Hf|Hf]; rewrite Hf in Hw.
  - by destruct Hf as [Hf|Hf]; rewrite Hf in Hw.
Qed.

Context (g : run) (Hs : schedule g) (Hx : exclusive g).
Context (fresh_temp : ∀ t p pat d i, (t, EvMkdirTemp p pat (Ok d)) ∈ g → d ≠ repoDir cfg i).
Lemma temp_not_repo g1 g2 t pat i : g = g1 ++ g2 → ¬ temp_dir pat (repoDir cfg i) (proj t g1).
Proof using fresh_temp.
  clear Hs Hx. intros Hg (p & Hp). apply (fresh_temp t p pat (repoDir cfg i) i); [|done]. rewrite Hg.
  apply elem_of_app. left. apply list_elem_of_omap in Hp as ([u e] & Hin & He). case_decide; by simplify_eq/=.
Qed.
(** While [t] goes from [x] to a point where it holds the lock without touching
    a lock, nobody else changes the repository. *)
Lemma quiet_section id t h1 x k1 u env args r k2 :
  g = h1 ++ (t, x) :: k1 ++ (u, EvGit (repoDir cfg id) env args r) :: k2 →
  (∀ v, ¬ created (calls v) id (proj v g)) →
  holds id (proj t (h1 ++ (t, x) :: k1)) = true → u ≠ t → read_only args = true.
Proof using repoDir_inj Hs Hx fresh_temp.
  intros Hg Hnew Hh Hu. set (p := h1 ++ (t, x) :: k1) in *.
  assert (g = p ++ (u, EvGit (repoDir cfg id) env args r) :: k2) as Hp by (unfold p; by rewrite Hg, <-app_assoc).
  rewrite Hp in Hs. destruct (run_justified _ _ _ _ Hs) as [[Hro _]|Hgd]; [done|].
  exfalso. destruct (guarded_holds _ _ _ _ _ id Hgd eq_refl) as [Hhu|[Hc|[pat Ht]]].
  - apply Hu. eapply mutual_exclusion; [|exact Hhu|exact Hh]. rewrite Hp in Hx. by eapply exclusive_app.
  - apply (Hnew u). rewrite Hp, proj_app. destruct Hc as (i & rec & ? & ? & Hin). exists i, rec.
    split_and!; [done..|]. apply elem_of_app. by left.
  - by eapply temp_not_repo.
Qed.
End concurrent.

(** C2 (safety): no lost update.  Take any number of calls of the service, each
    in a world of its own, interleaved in any way that sync.RWMutex allows, and
    stopped anywhere.  Whenever a call that builds on a base revision - writing,
    deleting, committing, importing, rolling back, publishing - runs the git
    command that moves a branch of a site, the tip of its branch was read before,
    found equal to the base the caller named (or, for an import, the branch was
    found absent), and from that reading to this command no other call issues
    anything but queries to the repository.  Assumed: different sites have
    different directories, a new temporary directory is not a site's, and the
    site is not one that a call of the run is still creating. *)
Theorem interleaved_no_lost_update `{GoUnicode} `{GoTime} `{UUIDText} `{TarReader} (cfg : Config)
    (calls : nat → call) (worlds : nat → World) (g : list (nat * event)) (g1 g2 : list (nat * event))
    (t : nat) (id : uuid) (branch base : string) (env args : list string) (r : Res err string)
  (repoDir_inj : ∀ i j, repoDir cfg i = repoDir cfg j → i = j)
  (fresh_temp : ∀ u p pat d i, (u, EvMkdirTemp p pat (Ok d)) ∈ g → d ≠ repoDir cfg i)
  (not_new : ∀ u in_ rec, (u, EvCreateSiteWithOwner in_ (Ok rec)) ∈ g → rec_ID rec ≠ id) :
  schedule cfg calls worlds g → exclusive g →
  g = g1 ++ (t, EvGit (repoDir cfg id) env args r) :: g2 →
  based (calls t) = Some (id, branch, base) → moves args →
  ∃ h1 x h2, g1 = h1 ++ (t, x) :: h2 ∧ tip_check cfg (calls t) id branch base x ∧
    ∀ u env' args' r', (u, EvGit (repoDir cfg id) env' args' r') ∈ h2 → u ≠ t → read_only args' = true.
Proof.
  intros Hs Hx Hg Hb Hm.
  assert (∀ v, ¬ created (calls v) id (proj v g)) as Hnew.
  { intros v (i & rec & _ & Hid & Hin). apply (not_new v (storeCreate i) rec); [|done].
    apply list_elem_of_omap in Hin as ([u e] & Hin & He). case_decide; by simplify_eq/=. }
  pose proof Hs as Hs'. rewrite Hg in Hs'.
  destruct (run_justified cfg calls worlds _ _ _ _ Hs') as [[Hro _]|Hgd].
  { exfalso. destruct args as [|a args]; [by destruct Hm|]. by destruct Hm as [Hm|Hm]; unfold first in Hm; simpl in Hm; subst a. }
  destruct (guarded_based cfg repoDir_inj _ _ _ _ _ _ _ Hb Hm Hgd) as [[pat Ht]|(Hh & x & Hr & Hck)].
  { exfalso. by eapply temp_not_repo. }
  destruct Hr as (pre & post & Heq & Hcalm). pose proof Heq as Heq'.
  apply proj_split in Heq as (h1 & h2 & -> & Hp1 & Hp2). exists h1, x, h2. split; [done|]. split; [done|].
  intros u env' args' r' (k1 & k2 & ->)%list_elem_of_split Hu.
  eapply (quiet_section cfg calls worlds repoDir_inj g Hs Hx fresh_temp id t h1 x k1 u); [|exact Hnew| |done].
  { rewrite Hg, <-app_assoc. simpl. by rewrite <-app_assoc. }
  (* no lock event follows [x] *)
  rewrite proj_app in Hp2. rewrite <-Hp2 in Hcalm. apply Forall_app in Hcalm as [Hc1 Hc2].
  revert Hh. rewrite Heq', <-Hp2, proj_app, Hp1. change ((t, x) :: k1) with ([(t, x)] ++ k1).
  rewrite proj_app, proj_same. change (pre ++ x :: ?m) with (pre ++ [x] ++ m). rewrite !app_assoc.
  intros Hh. rewrite holds_calm_app in Hh; done.
Qed.
