(* ===== verification/GitTheorems.v ===== *)
(** * Guarantees of the git-backed service

    The claims about whole calls that follow from the walk of GitSafety and
    GitLocks, the concrete world their instances run in, and runs that show
    behaviour the source does not announce.

    The runs at the end each show one thing the source says otherwise or leaves
    open. *)

From S2P Require Import Prelude Trace GoStrings SiteErrors Handle SitePath Zip SiteTypes Http Encoding GitParse GitRemote GitWorld GitService.
From S2P Require Import GitOps GitPublish GitGuard GitSafety GitRunner GitPaths GitLocks GitConcurrent.

(** ** A concrete world *)

Definition sample_text : UUIDText := {| uuid_String := hex_pad 32 |}.
Definition sample_time : GoTime := {| lenient_RFC3339 := λ _, None |}.
Definition sample_tar : TarReader := {| tar_read := λ s, if (s =? "")%string then [] else [TarEntry "index.html" TypeReg s] |}.
Definition sample_rec : SiteRecord := {|
  rec_ID := 7%N; rec_Handle := "demo"; rec_OwnerID := 1%N; rec_Visibility := "public"; rec_DefaultBranch := BranchDraft;
  rec_PublishedSHA := None; rec_PublishedAt := None; rec_PublishMode := "direct"; rec_GitHubRepo := None;
  rec_WebRoot := ""; rec_Description := ""; rec_CacheVersion := 0; rec_DeletedAt := None;
  rec_CreatedAt := 0%Z; rec_UpdatedAt := 0%Z |}.
Definition log_record (sha msg : string) : string :=
  sha +:+ fieldSep +:+ shortSHA sha +:+ fieldSep +:+ "Ann" +:+ fieldSep +:+ "ann@x" +:+ fieldSep +:+
  "2026-01-02T03:04:05Z" +:+ fieldSep +:+ "" +:+ fieldSep +:+ msg +:+ recordSep.
Definition sample_tip : string := "aaaaaaaa".
(** Every branch points at [sample_tip]; HEAD is on draft; nothing fails. *)
Definition sample_git (args : list string) : Res err string :=
  match args with
  | cmd :: _ =>
      if (cmd =? "rev-parse")%string then Ok (sample_tip +:+ newline)
      else if (cmd =? "symbolic-ref")%string then Ok ("draft" +:+ newline)
      else if (cmd =? "show")%string then Ok (log_record sample_tip ("Update" +:+ newline))
      else if (cmd =? "status")%string then Ok " M index.html"
      else Ok ""
  | [] => Ok ""
  end.
Definition sample_world : World := {|
  w_now := λ _, 1767323045000000000%Z; w_Flock := λ _ _, Ok tt; w_Git := λ _ _ _ args, sample_git args;
  w_CreateSiteWithOwner := λ _ _, Ok sample_rec; w_GetSiteByID := λ _ _, Ok (Some sample_rec);
  w_GetSiteByHandle := λ _ _, Ok (Some sample_rec); w_GetSiteByRedirect := λ _ _, Ok None;
  w_ListSitesForUser := λ _ _ _ _, Ok [sample_rec]; w_HandleIsTaken := λ _ _, Ok false;
  w_RenameHandle := λ _ _ _ _, Ok tt; w_SoftDeleteSite := λ _ _, Ok tt; w_SetPublished := λ _ _ _, Ok tt;
  w_SetSiteRemote := λ _ _ _, Ok tt; w_Stat := λ _ _, true; w_MkdirAll := λ _ _, Ok tt;
  w_OpenFile := λ _ _, Ok tt; w_Copy := λ _ _ _, Ok tt; w_WriteFile := λ _ _ _, Ok tt;
  w_ReadFile := λ _ _, Err (EOther "no such file"); w_ReadDir := λ _ _, Ok [".git"; "served"; "old.html"];
  w_RemoveAll := λ _ _, Ok tt; w_MkdirTemp := λ _ parent _, Ok (parent +:+ "/.tmp-served-1");
  w_Rename := λ _ _ _, Ok tt; w_Walk := λ _ _, Ok (FDir [("a.html", FFile (Some 10%Z))] None) |}.
Definition sample_cfg : Config := withDefaults {|
  Root := "/data/sites"; GitBin := ""; MirrorOn := false; ListLimit := 0; MaxLogLimit := 0; GitHubToken := "";
  GitHubUser := ""; MirrorToken := None; MirrorEnabled := None;
  ZipLimits := {| MaxUploadBytes := 0; MaxUncompressedBytes := 0; MaxEntries := 0; MaxEntryUncompressed := 0;
                  MaxCompressionRatio := 0; AllowedExt := [] |};
  SiteQuotaBytes := 1000; GitOpTimeout := 0 |}.
Definition sample_actor : Actor := {| UserID := 1%N; Name := "Ann"; Email := ""; Via := SourceEditor; TokenID := None |}.
Definition sample_write (path : string) : WriteFileInput := {|
  wf_SiteID := 7%N; wf_Branch := BranchDraft; wf_Path := path; wf_Content := "<p>new</p>"; wf_BaseSHA := sample_tip;
  wf_Commit := true; wf_Message := ""; wf_Actor := sample_actor |}.
(** The trace of a call there *)
Definition sample_run (c : call) : trace :=
  (@exec ascii_only_unicode sample_time sample_text sample_tar sample_world sample_cfg c []).1.

Example sample_write_succeeds :
  is_ok (@WriteFile ascii_only_unicode sample_time sample_text sample_tar sample_world sample_cfg
           (sample_write "index.html") []).2 = true.
Proof. vm_compute. reflexivity. Qed.

(** ** The claims *)

Section claims.
Context `{GoUnicode} `{GoTime} `{UUIDText} `{TarReader} `{World} (cfg : Config).


(** C5 (liveness): locks are released.  From a state in which a call holds no
    lock, it takes at most one in-process lock at a time, never one it already
    holds, and has released it and the file lock when it returns, on every path
    and whichever step fails; so two calls cannot wait for each other, and no
    call leaves a site locked. *)
Theorem locks_released (c : call) (t : trace) :
  mutexes t = Free → flocks t = [] →
  mutexes (exec cfg c t).1 = Free ∧ flocks (exec cfg c t).1 = [].
Proof. intros Hm Hf. by apply (exec_releases cfg c t). Qed.
End claims.

(** ** Instances of the claims *)

#[local] Existing Instances ascii_only_unicode sample_time sample_text sample_tar sample_world.

Definition sample_call : call := CWriteFile (sample_write "index.html").
Lemma sample_uuid_plain id : normal_seg (uuid_String id) ∧ no_char slash (uuid_String id) = true.
Proof.
  change (@uuid_String sample_text id) with (hex_pad 32 id). split; [|by apply hex_pad_forall].
  assert (no_char "." (hex_pad 32 id) = true) as Hd by by apply hex_pad_forall.
  split_and!; [apply hex_pad_not_nil| |]; intros He; by rewrite He in Hd.
Qed.
Lemma sample_repoDir_inj i j : repoDir sample_cfg i = repoDir sample_cfg j → i = j.
Proof. apply repoDir_injective; [done|apply sample_uuid_plain|]. intros i' j'. apply hex_pad_inj. Qed.

Lemma locks_released_witness :
  mutexes (sample_run sample_call) = Free ∧ flocks (sample_run sample_call) = [].
Proof.
  apply (locks_released sample_cfg sample_call []);
    vm_compute; reflexivity.
Defined.
(** The commit of a write *)
Definition sample_commit : event :=
  EvGit "/data/sites/00000000000000000000000000000007"
    (authorEnv sample_actor "2026-01-02T03:04:05Z")
    ["commit"; "-m"; "Update index.html"; "--trailer=Kotoji-Via: editor"] (Ok "").
Lemma git_runs_hardened_witness :
  (∀ k, k ∈ hardened →
     getenv (env (newExecRunner "git" 120000000000) ++ authorEnv sample_actor "2026-01-02T03:04:05Z") k = getenv scrubbedEnv k) ∧
  (getenv (env (newExecRunner "git" 120000000000) ++ authorEnv sample_actor "2026-01-02T03:04:05Z") "GIT_CONFIG_COUNT" ≠ None →
   is_network ["commit"; "-m"; "Update index.html"; "--trailer=Kotoji-Via: editor"] = true).
Proof.
  apply (git_runs_hardened sample_cfg sample_call (take 12 (sample_run sample_call)) (drop 13 (sample_run sample_call))
           "/data/sites/00000000000000000000000000000007" _ _ (Ok "")).
  symmetry. apply take_drop_middle. vm_compute. reflexivity.
Defined.
Lemma writes_confined_witness :
  (∃ tmp, temp_dir ".tmp-served-*" tmp (take 10 (sample_run sample_call)) ∧
     "/data/sites/00000000000000000000000000000007/index.html" = filepath_Join [tmp; kotojiMetaFile]) ∨
  ∃ id, worktree_file sample_cfg id "/data/sites/00000000000000000000000000000007/index.html" ∧
    (holds id (take 10 (sample_run sample_call)) = true ∨ created sample_call id (take 10 (sample_run sample_call))).
Proof.
  apply (writes_confined sample_cfg sample_call
           _ (drop 11 (sample_run sample_call))
           (EvWriteFile "/data/sites/00000000000000000000000000000007/index.html" "<p>new</p>" (Ok tt))).
  - reflexivity.
  - exact sample_uuid_plain.
  - symmetry. apply take_drop_middle. vm_compute. reflexivity.
Defined.

(** Two writes to one site and a reader: the second write gets the lock when the
    first has released it. *)
Definition sample_calls (t : nat) : call := match t with 1 => CGetSite 7%N | _ => sample_call end.
Definition by_caller (t : nat) (l : trace) : list (nat * event) := pair t <$> l.
Definition sample_before : list (nat * event) :=
  by_caller 0 (take 9 (sample_run sample_call)) ++ by_caller 1 (sample_run (CGetSite 7%N)) ++
  by_caller 0 (drop 9 (take 12 (sample_run sample_call))).
Definition sample_after : list (nat * event) :=
  by_caller 0 (drop 13 (take 17 (sample_run sample_call))) ++ by_caller 2 (take 13 (sample_run sample_call)).
Definition sample_schedule : list (nat * event) := sample_before ++ (0, sample_commit) :: sample_after.

(** Deciding [exclusive] for a run of the callers in [threads] *)
Definition locks_ok (threads : list nat) (g : list (nat * event)) : bool :=
  forallb (λ i, match g !! i with
                | Some (t, EvLock id) => forallb (λ u, (u =? t) || negb (holds id (proj u (take i g)))) threads
                | _ => true
                end) (seq 0 (length g)) && forallb (λ x, bool_decide (x.1 ∈ threads)) g.
Lemma locks_ok_exclusive threads g : locks_ok threads g = true → exclusive g.
Proof.
  intros [Hl Hin]%andb_true_iff pre t id post -> u Hu. rewrite forallb_forall in Hl, Hin.
  destruct (holds id (proj u pre)) eqn:Hh; [|done]. exfalso.
  assert (u ∈ threads) as Hu'.
  { destruct (proj u pre) as [|e l] eqn:Hp; [done|].
    destruct (proj_split u pre [] e l Hp) as (h1 & h2 & -> & _ & _).
    apply (bool_decide_eq_true (u ∈ threads)), (Hin (u, e)), list_elem_of_In. set_solver. }
  specialize (Hl (length pre)). rewrite list_lookup_middle, take_app_length in Hl by done.
  assert (forallb (λ u, (u =? t) || negb (holds id (proj u pre))) threads = true) as Hall.
  { apply Hl, in_seq. rewrite length_app. simpl. lia. }
  rewrite forallb_forall in Hall. specialize (Hall u). rewrite <-list_elem_of_In, Hh, orb_false_r in Hall.
  apply Hu, Nat.eqb_eq, Hall, Hu'.
Qed.
Lemma sample_scheduled :
  schedule sample_cfg sample_calls (λ _, sample_world) sample_schedule.
Proof.
  intros [|[|[|t]]].
  - exists (drop 17 (sample_run sample_call)). vm_compute. reflexivity.
  - exists []. vm_compute. reflexivity.
  - exists (drop 13 (sample_run sample_call)). vm_compute. reflexivity.
  - eexists. vm_compute. reflexivity.
Qed.
(** Events that create something *)
Definition creates (e : event) : bool :=
  match e with EvMkdirTemp _ _ _ | EvCreateSiteWithOwner _ _ => true | _ => false end.
Lemma creates_nothing (g : list (nat * event)) u e :
  forallb (λ x, negb (creates x.2)) g = true → (u, e) ∈ g → creates e = false.
Proof. rewrite forallb_forall. intros Hall Hin%list_elem_of_In%Hall. by apply negb_true_iff. Qed.
Lemma sample_creates_nothing u e : (u, e) ∈ sample_schedule → creates e = false.
Proof. apply creates_nothing. vm_compute. reflexivity. Qed.
Lemma interleaved_no_lost_update_witness :
  ∃ h1 x h2, sample_before = h1 ++ (0, x) :: h2 ∧
    tip_check sample_cfg sample_call 7%N BranchDraft sample_tip x ∧
    ∀ u env' args' r', (u, EvGit (repoDir sample_cfg 7%N) env' args' r') ∈ h2 → u ≠ 0 → read_only args' = true.
Proof.
  apply (interleaved_no_lost_update sample_cfg sample_calls
           (λ _, sample_world) sample_schedule sample_before sample_after 0 7%N BranchDraft sample_tip
           (authorEnv sample_actor "2026-01-02T03:04:05Z")
           ["commit"; "-m"; "Update index.html"; "--trailer=Kotoji-Via: editor"] (Ok "")).
  - exact sample_repoDir_inj.
  - intros u p pat d i Hin. by apply sample_creates_nothing in Hin.
  - intros u i rec Hin. by apply sample_creates_nothing in Hin.
  - exact sample_scheduled.
  - apply (locks_ok_exclusive [0; 1; 2]). vm_compute. reflexivity.
  - vm_compute. reflexivity.
  - reflexivity.
  - left. reflexivity.
Defined.

(** ** Behaviour the comments do not announce *)


(** *** Served trees live in the worktree *)

(** A write to draft below [served/published] is accepted and lands in the tree
    the data plane reads for the published branch: no publish took place. *)
Example draft_write_reaches_published :
  sample_run (CWriteFile (sample_write "served/published/index.html")) !! 10 =
    Some (EvWriteFile (filepath_Join [servedDir sample_cfg 7%N BranchPublished; "index.html"]) "<p>new</p>" (Ok tt)) ∧
  is_ok (WriteFile sample_cfg (sample_write "served/published/index.html") []).2 = true.
Proof. vm_compute. split; reflexivity. Qed.

(** A branch is any revision to ServedTree; its text becomes a path as it is. *)
Example served_tree_escapes :
  servedDir sample_cfg 7%N "draft^{/../../../../x}" = "/data/x}" ∧
  EvRemoveAll "/data/x}" (Ok tt) ∈ sample_run (CServedTree 7%N "draft^{/../../../../x}") ∧
  EvRename "/data/.tmp-served-1" "/data/x}" (Ok tt) ∈ sample_run (CServedTree 7%N "draft^{/../../../../x}").
Proof.
  split; [vm_compute; reflexivity|].
  split; [apply (list_elem_of_lookup_2 _ 8)|apply (list_elem_of_lookup_2 _ 9)]; vm_compute; reflexivity.
Qed.

(** *** Branch arguments are not validated *)

(** The protected branch under another of its names passes the guard; the name
    is one no branch can have. *)
Example protected_by_one_name_only :
  refuseProtectedBranch "heads/published" = Ok tt ∧ refuseProtectedBranch "refs/heads/published" = Ok tt ∧
  is_ok (validateBranchName "heads/published") = false.
Proof. vm_compute. split_and!; reflexivity. Qed.

(** *** Reading git's output *)

(** A commit message holding the separators becomes a second commit. *)
Definition forged : string := log_record "bbbbbbbb" "trusted".
Example log_forgery :
  ci_SHA <$> parseLog (log_record sample_tip ("innocent" +:+ recordSep +:+ forged)) = [sample_tip; "bbbbbbbb"].
Proof. vm_compute. reflexivity. Qed.
(** The first Kotoji-Via line wins, the trailer is the last. *)
Example via_spoofed : extractVia ("Kotoji-Via: editor" +:+ newline +:+ newline +:+ "Kotoji-Via: mcp" +:+ newline) = "editor".
Proof. vm_compute. reflexivity. Qed.
(** --numstat without -M names both paths of a rename, or, where renames are
    detected by default, one text for both, which --name-status does not use. *)
Example rename_listed_twice :
  (λ d, (fd_Path d, fd_OldPath d, fd_Status d)) <$>
    mergeDiff ("1	0	a.html => b.html" +:+ newline) ("R090	a.html	b.html" +:+ newline)
  = [("a.html => b.html", "", ""); ("b.html", "a.html", "renamed")].
Proof. vm_compute. reflexivity. Qed.

(** *** The mirror remote *)

(** The gate looks at the trimmed text, the remote is made from the other. *)
Example remote_not_trimmed :
  validateRemoteURL " owner/repo " = Ok tt ∧ normalizeRemoteURL " owner/repo " = "https://github.com/ owner/repo .git".
Proof. vm_compute. split; reflexivity. Qed.
Example remote_port_and_query : validateRemoteURL "https://github.com:444/owner/repo?x=y#z" = Ok tt.
Proof. vm_compute. reflexivity. Qed.
Example remote_dotdot : validateRemoteURL "https://github.com/owner/.." = Ok tt.
Proof. vm_compute. reflexivity. Qed.

(** *** Soft-deleted sites *)

Definition deleted_rec : SiteRecord := {|
  rec_ID := 7%N; rec_Handle := "demo"; rec_OwnerID := 1%N; rec_Visibility := "public"; rec_DefaultBranch := BranchDraft;
  rec_PublishedSHA := None; rec_PublishedAt := None; rec_PublishMode := "direct"; rec_GitHubRepo := None;
  rec_WebRoot := ""; rec_Description := ""; rec_CacheVersion := 0; rec_DeletedAt := Some 5%Z;
  rec_CreatedAt := 0%Z; rec_UpdatedAt := 0%Z |}.
(** [sample_world] with other answers from git and the store *)
Definition world_with (rec : SiteRecord) (git : list string → Res err string) : World := {|
  w_now := λ _, 1767323045000000000%Z; w_Flock := λ _ _, Ok tt; w_Git := λ _ _ _ args, git args;
  w_CreateSiteWithOwner := λ _ _, Ok rec; w_GetSiteByID := λ _ _, Ok (Some rec);
  w_GetSiteByHandle := λ _ _, Ok (Some rec); w_GetSiteByRedirect := λ _ _, Ok None;
  w_ListSitesForUser := λ _ _ _ _, Ok [rec]; w_HandleIsTaken := λ _ _, Ok false;
  w_RenameHandle := λ _ _ _ _, Ok tt; w_SoftDeleteSite := λ _ _, Ok tt; w_SetPublished := λ _ _ _, Ok tt;
  w_SetSiteRemote := λ _ _ _, Ok tt; w_Stat := λ _ _, true; w_MkdirAll := λ _ _, Ok tt;
  w_OpenFile := λ _ _, Ok tt; w_Copy := λ _ _ _, Ok tt; w_WriteFile := λ _ _ _, Ok tt;
  w_ReadFile := λ _ _, Err (EOther "no such file"); w_ReadDir := λ _ _, Ok [];
  w_RemoveAll := λ _ _, Ok tt; w_MkdirTemp := λ _ parent _, Ok (parent +:+ "/.tmp-served-1");
  w_Rename := λ _ _ _, Ok tt; w_Walk := λ _ _, Ok (FDir [] None) |}.
(** Whether a call succeeds in it *)
Definition succeeds (w : World) (c : call) : bool := is_ok (@exec _ _ _ _ w sample_cfg c []).2.
Example soft_deleted_still_acts :
  let w := world_with deleted_rec sample_git in
  succeeds w (CWriteFile (sample_write "index.html")) = false ∧
  succeeds w (CDeleteBranch 7%N "feature") = true ∧ succeeds w (CReadFile 7%N "draft" "" "index.html") = true ∧
  succeeds w (CMirrorPush 7%N []) = true ∧ succeeds w (CFetchAndUpdate 7%N "draft") = true.
Proof. vm_compute. split_and!; reflexivity. Qed.

(** *** The published pointer *)

(** git before the first publish: there is no published branch *)
Definition unpublished_git (args : list string) : Res err string :=
  match args with
  | ["rev-parse"; _; _; _; "published^{commit}"] => Err (GitError args 1 "")
  | _ => sample_git args
  end.
(** The first fetch of a tracked published branch creates it without recording
    it as published. *)
Example first_fetch_not_recorded :
  let w := world_with sample_rec unpublished_git in
  let t := (@exec _ _ _ _ w sample_cfg (CFetchAndUpdate 7%N BranchPublished) []).1 in
  succeeds w (CFetchAndUpdate 7%N BranchPublished) = true ∧
  EvGit (repoDir sample_cfg 7%N) [] (update_ref BranchPublished sample_tip) (Ok "") ∈ t ∧
  forallb (λ e, match e with EvSetPublished _ _ _ => false | _ => true end) t = true.
Proof.
  intros w t. split; [vm_compute; reflexivity|]. split; [|vm_compute; reflexivity].
  apply (list_elem_of_lookup_2 _ 9). vm_compute. reflexivity.
Qed.

(** *** WriteFile *)

(** The field Commit, which says whether to commit, is not read. *)
Definition with_commit (b : bool) (i : WriteFileInput) : WriteFileInput := {|
  wf_SiteID := wf_SiteID i; wf_Branch := wf_Branch i; wf_Path := wf_Path i; wf_Content := wf_Content i;
  wf_BaseSHA := wf_BaseSHA i; wf_Commit := b; wf_Message := wf_Message i; wf_Actor := wf_Actor i |}.
Example WriteFile_ignores_Commit `{World} cfg i : WriteFile cfg (with_commit false i) = WriteFile cfg (with_commit true i).
Proof. reflexivity. Qed.
