(* ===== verification/Preview.v ===== *)
(** * Preview grants (serve/authz.go, preview/preview.go, secretbox/key.go)

    The signed grant that opens a preview, the cookie minted from it and the
    decision procedure [Authorize].  SHA-256 and HMAC are the class [Crypto]
    (crypto/sha256 and crypto/hmac), uuid text the classes [UUIDText] and
    [UUIDParse] (google/uuid).  [Now i] is the i-th reading of the clock in a
    call. *)

From S2P Require Import Prelude GoStrings SiteTypes Http Resolver Encoding.

Class Crypto := { sha256 : bytes → bytes; hmac_sha256 : bytes → bytes → bytes }.
Class UUIDParse := { uuid_Parse : string → option uuid }.

(** ** secretbox/key.go *)

Definition KeySize : nat := 32.
Definition keySeedPrefix : string := "kotoji-secretbox|".

Section key.
Context `{GoUnicode} `{Crypto}.

(** The first decoder whose output is long enough wins. *)
Definition decodeExplicitKey (v : string) : option bytes :=
  let v := trim_space v in
  if (v =? "")%string then None
  else
    let long (o : option bytes) :=
      match o with
      | Some b => if KeySize <=? String.length b then Some (str_take KeySize b) else None
      | None => None
      end in
    match long (hex_decode v) with
    | Some k => Some k
    | None =>
        head (omap (λ e, long (b64_decode e.1 e.2 v))
                [(b64_std, true); (b64_std, false); (b64_url, true); (b64_url, false)])
    end.
Definition ExplicitKeyProvided (v : string) : bool :=
  match decodeExplicitKey v with Some _ => true | None => false end.
Definition ResolveKey (secretKeyEnv adminPwSeed oidcSecret controlBaseURL baseDomain : string) : bytes :=
  match decodeExplicitKey secretKeyEnv with
  | Some k => k
  | None =>
      sha256 (keySeedPrefix +:+ adminPwSeed +:+ "|" +:+ oidcSecret +:+ "|" +:+
              controlBaseURL +:+ "|" +:+ baseDomain)
  end.

Definition secretSeedPrefix : string := "kotoji-preview-grant|".
Definition Secret (secretKeyEnv adminPassword oidcClientSecret controlBaseURL baseDomain : string) : bytes :=
  let base := ResolveKey secretKeyEnv adminPassword oidcClientSecret controlBaseURL baseDomain in
  hmac_sha256 base (secretSeedPrefix +:+ adminPassword +:+ "|" +:+ oidcClientSecret +:+ "|" +:+
                    controlBaseURL +:+ "|" +:+ baseDomain).
End key.

(** ** serve/authz.go *)

Inductive authz_err := ErrUnauthorized | ErrForbidden | EAuthzOther (msg : string).

Definition PreviewCookieName : string := "kotoji_preview".
Definition PreviewGrantQueryParam : string := "kpt".

Record Action := mkAction { SetCookie : option Cookie; RedirectTo : string }.
Definition ActionNone : Action := mkAction None "".

Definition OpenPreviewAuthz : Target → Request → uuid → Res authz_err Action :=
  λ _ _ _, Ok ActionNone.
Definition DenyPreviewAuthz : Target → Request → uuid → Res authz_err Action :=
  λ _ _ _, Err ErrUnauthorized.

Definition second : Z := 1000000000.
Definition defaultPreviewCookieTTL : Z := (12 * 3600 * second)%Z.

Record GrantAuthzConfig := mkGrantCfg {
  gaSecret : bytes;
  CookieSecure : bool;
  CookieTTL : Z;
  Now : nat → time;
  Bearer : option (string → uuid → Res authz_err unit);
}.

(** The configuration [NewGrantAuthz] keeps; [realNow] is time.Now. *)
Definition NewGrantAuthz (cfg : GrantAuthzConfig) : Res string GrantAuthzConfig :=
  if (gaSecret cfg =? "")%string then Err "serve: preview grant secret is required"
  else Ok (mkGrantCfg (gaSecret cfg) (CookieSecure cfg)
             (if (CookieTTL cfg <=? 0)%Z then defaultPreviewCookieTTL else CookieTTL cfg)
             (Now cfg) (Bearer cfg)).

Record Grant := mkGrant { gSiteID : uuid; gBranch : string; gExp : time }.

Definition branchMatches (grantBranch targetBranch : string) : bool :=
  (grantBranch =? targetBranch)%string.

Definition bearerToken `{GoUnicode} (r : Request) : string :=
  let h := hget (rHeader r) "Authorization" in
  let prefix := "bearer " in
  if (String.length prefix <? String.length h) &&
     equal_fold (str_take (String.length prefix) h) prefix
  then trim_space (str_drop (String.length prefix) h)
  else "".

Definition keep_pair (pair : string) : bool :=
  if (pair =? "")%string then false
  else
    let key := match index_byte "=" pair with Some e => str_take e pair | None => pair end in
    negb (key =? PreviewGrantQueryParam)%string.
Definition stripGrantParam (rawURL : string) : string :=
  match index_byte "?" rawURL with
  | None => rawURL
  | Some i =>
      let base := str_take i rawURL in
      let q := str_drop (i + 1) rawURL in
      let kept := List.filter keep_pair (split "&" q) in
      match kept with
      | [] => base
      | _ => base +:+ "?" +:+ join "&" kept
      end
  end.

(** URL.RequestURI of a request line's target *)
Definition request_uri (r : Request) : string :=
  let p := if (rURLEscapedPath r =? "")%string then "/" else rURLEscapedPath r in
  if (rURLRawQuery r =? "")%string then p else p +:+ "?" +:+ rURLRawQuery r.

Section authz.
Context `{GoUnicode} `{Crypto} `{UUIDText} `{UUIDParse}.

Definition mac (a : GrantAuthzConfig) (payload : string) : bytes :=
  hmac_sha256 (gaSecret a) payload.

Definition SignGrant (a : GrantAuthzConfig) (siteID : uuid) (branch : string) (exp : time) : string :=
  let payload := uuid_String siteID +:+ ":" +:+ branch +:+ ":" +:+ itoa (exp / second) in
  payload +:+ ":" +:+ b64_encode b64_url false (mac a payload).

(** time.Unix of an [expUnix] near the ends of int64 wraps around in Go; such a
    payload carries a valid MAC only if the holder of the secret made it. *)
Definition verifyGrant (a : GrantAuthzConfig) (now : time) (token : string) : Res authz_err Grant :=
  match last_index_byte ":" token with
  | None => Err ErrUnauthorized
  | Some lastColon =>
      let payload := str_take lastColon token in
      let sigB64 := str_drop (lastColon + 1) token in
      match b64_decode b64_url false sigB64 with
      | None => Err ErrUnauthorized
      | Some sig =>
          if negb (sig =? mac a payload)%string then Err ErrUnauthorized
          else match split ":" payload with
               | [p0; p1; p2] =>
                   match uuid_Parse p0 with
                   | None => Err ErrUnauthorized
                   | Some sid =>
                       match parse_int p2 with
                       | None => Err ErrUnauthorized
                       | Some expUnix =>
                           let exp := (expUnix * second)%Z in
                           if negb (now <? exp)%Z then Err ErrUnauthorized
                           else Ok (mkGrant sid p1 exp)
                       end
                   end
               | _ => Err ErrUnauthorized
               end
      end
  end.

Definition newCookie (a : GrantAuthzConfig) (value : string) : Cookie :=
  mkCookie PreviewCookieName value "/" "" (Z.quot (CookieTTL a) second)
           (CookieSecure a) true SameSiteLax.

(** The third arm: a scoped bearer token, when a validator is wired. *)
Definition authorize_bearer (a : GrantAuthzConfig) (r : Request) (siteID : uuid) : Res authz_err Action :=
  match Bearer a with
  | Some validate =>
      let tok := bearerToken r in
      if negb (tok =? "")%string then
        match validate tok siteID with
        | Err e => Err e
        | Ok _ => Ok ActionNone
        end
      else Err ErrUnauthorized
  | None => Err ErrUnauthorized
  end.

Definition Authorize (a : GrantAuthzConfig) (t : Target) (r : Request) (siteID : uuid)
    : Res authz_err Action :=
  let raw := query_get (rURLRawQuery r) PreviewGrantQueryParam in
  if negb (raw =? "")%string then
    match verifyGrant a (Now a 0) raw with
    | Err e => Err e
    | Ok g =>
        if negb (gSiteID g =? siteID)%N || negb (branchMatches (gBranch g) (tBranch t))
        then Err ErrForbidden
        else
          let cookieVal := SignGrant a siteID (tBranch t) (Now a 1 + CookieTTL a)%Z in
          Ok (mkAction (Some (newCookie a cookieVal)) (stripGrantParam (request_uri r)))
    end
  else
    let ck := default "" (cookie r PreviewCookieName) in
    if negb (ck =? "")%string then
      match verifyGrant a (Now a 0) ck with
      | Ok g =>
          if negb (gSiteID g =? siteID)%N || negb (branchMatches (gBranch g) (tBranch t))
          then Err ErrForbidden
          else Ok ActionNone
      | Err _ => authorize_bearer a r siteID
      end
    else authorize_bearer a r siteID.
End authz.

(** ** Grants *)

Section authz_facts.
Context `{GoUnicode} `{Crypto} `{UUIDText} `{UUIDParse}.
Context (uuid_Parse_String : ∀ u, uuid_Parse (uuid_String u) = Some u).
Context (uuid_String_colon : ∀ u, no_char ":" (uuid_String u) = true).

(** [tok] is a payload naming [sid] and [br], not expired at [now], followed by
  the payload's own MAC under the configured secret. *)
Definition authentic (a : GrantAuthzConfig) (now : time) (sid : uuid) (br tok : string) : Prop :=
  ∃ p0 p2 e s,
    let payload := p0 +:+ ":" +:+ br +:+ ":" +:+ p2 in
    tok = payload +:+ ":" +:+ s ∧ b64_decode b64_url false s = Some (mac a payload) ∧
    uuid_Parse p0 = Some sid ∧ parse_int p2 = Some e ∧ (now < e * second)%Z.

Lemma verifyGrant_sound a now tok g :
  verifyGrant a now tok = Ok g → authentic a now (gSiteID g) (gBranch g) tok.
Proof.
  unfold verifyGrant. destruct (last_index_byte ":" tok) as [i|] eqn:Hi; [|done].
  apply last_index_Some in Hi as [Htok _].
  set (payload := str_take i tok) in *. set (s := str_drop (i + 1) tok) in *.
  destruct (b64_decode b64_url false s) as [sig|] eqn:Hs; [|done].
  destruct (String.eqb_spec sig (mac a payload)) as [->|]; [|done]. cbn [negb].
  destruct (split ":" payload) as [|p0 [|p1 [|p2 [|]]]] eqn:Hsp; try done.
  destruct (uuid_Parse p0) as [sid|] eqn:Hu; [|done].
  destruct (parse_int p2) as [e|] eqn:He; [|done].
  destruct (Z.ltb_spec now (e * second)); [|done]. intros [= <-]. cbn [gSiteID gBranch].
  assert (payload = p0 +:+ ":" +:+ p1 +:+ ":" +:+ p2) as Hp.
  { rewrite <-(join_split ":" payload), Hsp. reflexivity. }
  exists p0, p2, e, s. cbn zeta. rewrite <-Hp. auto.
Qed.

Lemma verifyGrant_SignGrant a now sid br exp :
  no_char ":" br = true → in_i64 (exp / second)%Z →
  verifyGrant a now (SignGrant a sid br exp) =
  if (now <? exp / second * second)%Z
  then Ok (mkGrant sid br (exp / second * second)%Z) else Err ErrUnauthorized.
Proof.
  intros Hbr Hexp. unfold verifyGrant, SignGrant.
  set (payload := uuid_String sid +:+ ":" +:+ br +:+ ":" +:+ itoa (exp / second)%Z).
  set (s := b64_encode _ _ _). change (":" +:+ s) with (String ":" s).
  rewrite last_index_app by (apply b64_no_colon; by right).
  rewrite str_take_app, str_drop_app_cons. unfold s. rewrite b64_decode_encode by (by right).
  rewrite String.eqb_refl. cbn [negb].
  assert (split ":" payload = [uuid_String sid; br; itoa (exp / second)%Z]) as ->.
  { change payload with (join ":" [uuid_String sid; br; itoa (exp / second)%Z]).
    apply split_join; [done|]. repeat constructor; auto using itoa_no_colon. }
  rewrite uuid_Parse_String, parse_int_itoa by done. by destruct (_ <? _)%Z.
Qed.

Lemma authorize_bearer_ok a r sid act :
  authorize_bearer a r sid = Ok act →
  act = ActionNone ∧ ∃ v, Bearer a = Some v ∧ v (bearerToken r) sid = Ok tt ∧ bearerToken r ≠ "".
Proof.
  unfold authorize_bearer. destruct (Bearer a) as [v|]; [|done].
  destruct (String.eqb_spec (bearerToken r) ""); [done|]. cbn [negb].
  destruct (v (bearerToken r) sid) as [[]|] eqn:E; [|done]. intros [= <-]. eauto.
Qed.

(** C23 (safety): nobody sees a preview without a credential for that site and
  that branch.  Whenever [Authorize] lets a request through, the request
  carries, as the [kpt] parameter or as the preview cookie, an unexpired
  token whose payload names exactly this site and branch and which is sealed
  with the configured key, or the bearer validator accepted its bearer token
  for this site.  A cookie is set only in the first case, and it is
  host-only, hidden from scripts, and a grant for this site and branch
  alone. *)
Theorem Authorize_sound (a : GrantAuthzConfig) (t : Target) (r : Request) (sid : uuid) (act : Action) :
  Authorize a t r sid = Ok act →
  ((∃ tok, authentic a (Now a 0) sid (tBranch t) tok ∧
           (tok = query_get (rURLRawQuery r) PreviewGrantQueryParam ∨
            cookie r PreviewCookieName = Some tok)) ∨
   (∃ v, Bearer a = Some v ∧ v (bearerToken r) sid = Ok tt)) ∧
  match SetCookie act with
  | None => RedirectTo act = ""
  | Some c => ckDomain c = "" ∧ ckHttpOnly c = true ∧ ckSecure c = CookieSecure a ∧
              ckSameSite c = SameSiteLax ∧
              ckValue c = SignGrant a sid (tBranch t) (Now a 1 + CookieTTL a)%Z ∧
              authentic a (Now a 0) sid (tBranch t)
                        (query_get (rURLRawQuery r) PreviewGrantQueryParam)
  end.
Proof.
  assert (∀ act, authorize_bearer a r sid = Ok act →
    (∃ v, Bearer a = Some v ∧ v (bearerToken r) sid = Ok tt) ∧ act = ActionNone) as Hb.
  { intros act' (-> & v & ? & ? & _)%authorize_bearer_ok. eauto. }
  unfold Authorize. set (raw := query_get _ _).
  destruct (String.eqb_spec raw "") as [|_]; cbn [negb].
  - destruct (cookie r PreviewCookieName) as [ck|] eqn:Hck; cbn [default from_option id];
      [|by intros (? & ->)%Hb; split; [right|]].
    destruct (String.eqb_spec ck ""); cbn [negb]; [by intros (? & ->)%Hb; split; [right|]|].
    destruct (verifyGrant a (Now a 0) ck) as [g|] eqn:Hg; [|by intros (? & ->)%Hb; split; [right|]].
    apply verifyGrant_sound in Hg. unfold branchMatches.
    destruct (N.eqb_spec (gSiteID g) sid) as [<-|]; [|done].
    destruct (String.eqb_spec (gBranch g) (tBranch t)) as [<-|]; [|done].
    intros [= <-]. split; [left; eauto|done].
  - destruct (verifyGrant a (Now a 0) raw) as [g|] eqn:Hg; [|done].
    apply verifyGrant_sound in Hg. unfold branchMatches.
    destruct (N.eqb_spec (gSiteID g) sid) as [<-|]; [|done].
    destruct (String.eqb_spec (gBranch g) (tBranch t)) as [<-|]; [|done].
    intros [= <-]. cbn. split; [left; eauto|auto 10].
Qed.

(** The preview handshake.  A grant signed by the control plane
  for (site, branch) and presented as [kpt] is honoured exactly on that site
  and branch and exactly until its expiry second.  The cookie minted in
  exchange is then honoured by every later request without [kpt], on that
  site and branch, until its own expiry, and is refused with ErrForbidden on
  any other site or branch, whatever bearer token comes with it. *)
Theorem preview_handshake (a : GrantAuthzConfig) (t : Target) (r : Request)
    (sid granted : uuid) (br : string) (exp : time) :
  query_get (rURLRawQuery r) PreviewGrantQueryParam = SignGrant a granted br exp →
  no_char ":" br = true → in_i64 (exp / second)%Z →
  let exp' := (Now a 1 + CookieTTL a)%Z in
  no_char ":" (tBranch t) = true → in_i64 (exp' / second)%Z →
  (is_ok (Authorize a t r sid) = true ↔
   granted = sid ∧ br = tBranch t ∧ (Now a 0 < exp / second * second)%Z) ∧
  (∀ act c a' t' r' sid',
     Authorize a t r sid = Ok act → SetCookie act = Some c →
     gaSecret a' = gaSecret a → (Now a' 0 < exp' / second * second)%Z →
     query_get (rURLRawQuery r') PreviewGrantQueryParam = "" →
     cookie r' PreviewCookieName = Some (ckValue c) →
     Authorize a' t' r' sid' =
       if decide (sid' = sid ∧ tBranch t' = tBranch t) then Ok ActionNone else Err ErrForbidden).
Proof.
  intros Hq Hbr Hexp exp' Hbt Hexp'.
  assert (∀ s b e, SignGrant a s b e ≠ "") as Hne by (by intros ??? [_ [=]]%str_app_eq_nil).
  split.
  - unfold Authorize. rewrite Hq. pose proof (Hne granted br exp) as E.
    apply String.eqb_neq in E as ->. cbn [negb].
    rewrite verifyGrant_SignGrant by done. destruct (Z.ltb_spec (Now a 0) (exp / second * second))%Z.
    + cbn [gSiteID gBranch]. unfold branchMatches.
      destruct (N.eqb_spec granted sid) as [->|]; destruct (String.eqb_spec br (tBranch t)) as [->|];
        cbn; naive_solver.
    + cbn. split; [done|]. intros (_ & _ & ?). lia.
  - intros act c a' t' r' sid' (_ & Hc)%Authorize_sound Hac Hsec Hnow Hq' Hck.
    rewrite Hac in Hc. destruct Hc as (_ & _ & _ & _ & Hv & _). fold exp' in Hv.
    unfold Authorize. rewrite Hq', Hck, Hv. cbn [default from_option id]. change ("" =? "")%string with true.
    assert (SignGrant a sid (tBranch t) exp' = SignGrant a' sid (tBranch t) exp') as Hs
      by (unfold SignGrant, mac; by rewrite Hsec).
    pose proof (Hne sid (tBranch t) exp') as E. apply String.eqb_neq in E as ->. cbn [negb].
    rewrite Hs, verifyGrant_SignGrant, (proj2 (Z.ltb_lt _ _)) by done. cbn [gSiteID gBranch].
    unfold branchMatches. destruct (N.eqb_spec sid sid') as [<-|]; cbn [negb orb].
    + destruct (String.eqb_spec (tBranch t) (tBranch t')) as [<-|]; cbn [negb];
        [rewrite decide_True|rewrite decide_False]; naive_solver.
    + rewrite decide_False; naive_solver.
Qed.
End authz_facts.

(** ** Two gaps of the redirect that drops the parameter

    The parameter is looked up after unescaping and dropped before, so an
    escaped spelling of its name is accepted but stays in the Location; and a
    path that starts with two slashes makes the Location a scheme-relative URL. *)
Example strip_misses_escaped_name :
  query_get "%6bpt=abc" PreviewGrantQueryParam = "abc" ∧
  stripGrantParam "/?%6bpt=abc" = "/?%6bpt=abc".
Proof. vm_compute. done. Qed.
Example strip_scheme_relative : stripGrantParam "//evil.example/?kpt=abc" = "//evil.example/".
Proof. vm_compute. reflexivity. Qed.

(** ** Concrete instances *)

Definition toy_crypto : Crypto := {| sha256 := id; hmac_sha256 k m := k +:+ m |}.
Definition hex_uuid_text : UUIDText := {| uuid_String u := hex_pad 32 u |}.
Definition hex_uuid_parse : UUIDParse := {| uuid_Parse s := Some (digits_val 16 0 s) |}.

Lemma hex_uuid_roundtrip u :
  @uuid_Parse hex_uuid_parse (@uuid_String hex_uuid_text u) = Some u.
Proof.
  cbn [uuid_Parse hex_uuid_parse uuid_String hex_uuid_text]. unfold hex_pad.
  by rewrite digits_val_zeros, digits_val_digits.
Qed.
Lemma hex_uuid_no_colon u : no_char ":" (@uuid_String hex_uuid_text u) = true.
Proof. by apply Encoding.hex_pad_forall. Qed.

Definition sample_grants : GrantAuthzConfig :=
  mkGrantCfg "key" true defaultPreviewCookieTTL (λ _, 1000 * second)%Z None.
Definition sample_target : Target := mkTarget "expense-calc" "draft" true false SourceHost "".
Definition kpt_request (tok : string) : Request :=
  mkRequest "GET" "expense-calc--draft.example.com" "" "/" "/" ("kpt=" +:+ tok) ∅ "" true [].

Lemma Authorize_sound_witness :
  let U := ascii_only_unicode in let K := toy_crypto in
  let T := hex_uuid_text in let P := hex_uuid_parse in
  let r := kpt_request (SignGrant sample_grants 7%N "draft" (2000 * second)%Z) in
  ∃ act c, Authorize sample_grants sample_target r 7%N = Ok act ∧ SetCookie act = Some c ∧
           ckHttpOnly c = true.
Proof.
  intros U K T P r.
  destruct (Authorize sample_grants sample_target r 7%N) as [act|e] eqn:E; [|vm_compute in E; discriminate].
  pose proof (Authorize_sound sample_grants sample_target r 7%N act E) as [_ Hc].
  destruct (SetCookie act) as [c|] eqn:Ec.
  - exists act, c. split; [reflexivity|]. split; [exact Ec|]. apply Hc.
  - exfalso. vm_compute in E. injection E as <-. discriminate Ec.
Defined.

Lemma preview_handshake_witness :
  let U := ascii_only_unicode in let K := toy_crypto in
  let T := hex_uuid_text in let P := hex_uuid_parse in
  let r := kpt_request (SignGrant sample_grants 7%N "draft" (2000 * second)%Z) in
  is_ok (Authorize sample_grants sample_target r 7%N) = true.
Proof.
  intros U K T P r.
  apply (preview_handshake hex_uuid_roundtrip hex_uuid_no_colon sample_grants sample_target r 7%N 7%N
           "draft" (2000 * second)%Z); [vm_compute; reflexivity|reflexivity| |reflexivity| |].
  - vm_compute. split; [discriminate|reflexivity].
  - vm_compute. split; [discriminate|reflexivity].
  - split; [reflexivity|]. split; [reflexivity|]. vm_compute. reflexivity.
Defined.
