(* ===== verification/Serve.v ===== *)
(** * The static data plane (serve/static.go)

    [Handler] resolves a request to a target, authorises previews and serves one
    file of the materialised tree.  Every method that writes is a function on
    [Response].  The resolver, the tree provider and the preview authoriser are
    fields of the handler, as in the source; http.ServeContent and the
    rewriting done by http.Redirect are the class [GoHTTP], with the documented
    effect of ServeContent on headers as its laws. *)

From S2P Require Import Prelude GoStrings SiteTypes SitePath Http Resolver ServeHeaders Preview.

(** ** net/http functions that write a whole response *)

Definition content_headers : list string :=
  ["Content-Type"; "Content-Length"; "Content-Encoding"; "Content-Range"; "Accept-Ranges";
   "Last-Modified"; "Etag"; "Cache-Control"].

Class GoHTTP := {
  serve_content : Request → Header → time → bytes → Z * Header * bytes;
  redirect_location : Request → string → string;
  redirect_body : string → Z → string;
  (** it touches content headers only *)
  serve_content_keeps : ∀ r h mt b k, k ∉ content_headers →
    hget (serve_content r h mt b).1.2 k = hget h k;
  (** a GET without preconditions or ranges gets the whole content *)
  serve_content_plain : ∀ r h mt b,
    rMethod r = "GET" →
    (∀ k, k ∈ ["If-Match"; "If-None-Match"; "If-Modified-Since"; "If-Unmodified-Since"; "If-Range"; "Range"] →
          hget (rHeader r) k = "") →
    hget h "Content-Type" ≠ "" →
    (serve_content r h mt b).1.1 = StatusOK ∧ (serve_content r h mt b).2 = b ∧
    hget (serve_content r h mt b).1.2 "Content-Type" = hget h "Content-Type";
}.

(** fs.FS: Stat (whether the entry is a directory) and Open followed by ReadAll *)
Record FS := mkFS { fs_Stat : string → option bool; fs_ReadFile : string → option bytes }.

Inductive tree_err :=
| ErrSiteNotFound | ErrBranchNotFound | RedirectError (NewHandle : string) | ETreeOther (msg : string).

Record TreeHandle := mkTree {
  t_FS : FS; t_CommitSHA : string; t_CommitTime : time; t_SiteID : uuid; t_CacheVersion : Z;
  t_Exists : bool;
}.

Record CacheConfig := mkCache {
  AssetMaxAge : Z; DisableETag : bool; ImmutableHint : bool; DisableBaseHref : bool;
}.
Definition etagEnabled (c : CacheConfig) : bool := negb (DisableETag c).
Definition baseHrefEnabled (c : CacheConfig) : bool := negb (DisableBaseHref c).

Definition immutableAssetMaxAge : Z := (365 * 24 * 3600 * second)%Z.
Definition assetNoCacheControl : string := "no-cache".
Definition htmlCacheControl : string := "no-cache, must-revalidate".
Definition previewCacheControl : string := "private, no-store".
Definition allowMethods : string := "GET, HEAD, OPTIONS".
Definition indexFile : string := "index.html".
Definition siteNotFoundFile : string := "404.html".
Definition contentTypeOctetStream : string := "application/octet-stream".
Definition contentTypeTextHTMLUTF8 : string := "text/html; charset=utf-8".
Definition defaultPreviewUnauthStatus : Z := StatusNotFound.
Definition StatusBadGateway : Z := 502.

Record Handler := mkHandler {
  h_resolver : Request → Res verr Target;
  h_trees : Target → Res tree_err TreeHandle;
  h_authz : Target → Request → uuid → Res authz_err Action;
  h_sec : SecurityHeaderConfig;
  h_cache : CacheConfig;
  h_unauth : Z;
  h_control : option (Request → Response → Response);
}.

Record Deps := mkDeps {
  d_Resolver : Request → Res verr Target;
  d_Trees : Target → Res tree_err TreeHandle;
  d_Authz : option (Target → Request → uuid → Res authz_err Action);
  d_Control : option (Request → Response → Response);
  d_Security : SecurityHeaderConfig;
  d_Cache : CacheConfig;
  d_PreviewUnauthStatus : Z;
}.

Definition sec_is_zero (sec : SecurityHeaderConfig) : bool :=
  forallb (λ s, (s =? "")%string)
    [CSP sec; ConnectSrc sec; ReferrerPolicy sec; PermissionsPolicy sec; FrameAncestors sec;
     FrameAncestorsControlOrigin sec; CrossOriginResourcePolicy sec].

Definition NewHandler (d : Deps) : Handler := {|
  h_resolver := d_Resolver d;
  h_trees := d_Trees d;
  h_authz := match d_Authz d with Some a => a | None => DenyPreviewAuthz end;
  h_sec := if sec_is_zero (d_Security d) then DefaultSecurityHeaderConfig
           else sec_normalize (d_Security d);
  h_cache := d_Cache d;
  h_unauth := if (d_PreviewUnauthStatus d =? 0)%Z then defaultPreviewUnauthStatus
              else d_PreviewUnauthStatus d;
  h_control := d_Control d;
|}.

(** ** Pure helpers *)

(** strings.NewReplacer over single-byte patterns *)
Fixpoint escapeHTML (s : string) : string :=
  match s with
  | EmptyString => ""
  | String c s =>
      (if (c =? "&")%char then "&amp;" else if (c =? "<")%char then "&lt;"
       else if (c =? ">")%char then "&gt;" else if (c =? "034")%char then "&quot;"
       else String c "") +:+ escapeHTML s
  end.

Definition brandedErrorBody (status : Z) : string :=
  let title := or_default (StatusText status) "Error" in
  "<!doctype html><html lang=" +:+ quoted "en" +:+ "><head><meta charset=" +:+ quoted "utf-8" +:+ ">" +:+
  "<title>" +:+ escapeHTML title +:+ "</title></head><body>" +:+
  "<h1>" +:+ escapeHTML (itoa status +:+ " " +:+ title) +:+ "</h1>" +:+
  "<p>kotoji</p></body></html>".

Definition cleanRequestPath (reqPath : string) : option string :=
  if contains_char NUL reqPath then None
  else
    let trailing := has_suffix "/" reqPath in
    let cleaned := path_clean ("/" +:+ reqPath) in
    let cleaned := if negb (cleaned =? "/")%string && trailing then cleaned +:+ "/" else cleaned in
    if existsb (λ seg, (seg =? "..")%string || (seg =? ".git")%string) (split "/" cleaned)
    then None else Some cleaned.

Definition stripDecodedPrefix (decodedPath prefix : string) : string :=
  let prefSegs := count_char "/" (trim_with (λ c, (c =? "/")%char) prefix) + 1 in
  let p := trim_prefix "/" decodedPath in
  let segs := split_n "/" p (prefSegs + 1) in
  match segs !! prefSegs with
  | None => "/"
  | Some s => "/" +:+ s
  end.

(** [%q] adds quotes only: the argument is hexadecimal digits and dashes. *)
Definition makeETag (commitSHA : string) (cacheVersion size : Z) : string :=
  let sha := str_take 12 commitSHA in
  let sha := or_default sha "dev" in
  quoted (sha +:+ "-" +:+ format_int 16 cacheVersion +:+ "-" +:+ format_int 16 size).

Section pure.
Context `{GoUnicode}.

Definition contentTypeForName (name : string) : string :=
  default "" (assoc (to_lower (path_ext name)) MIMEByExt).

Definition matchETag (ifNoneMatch etag : string) : bool :=
  if (ifNoneMatch =? "")%string then false
  else if (trim_space ifNoneMatch =? "*")%string then true
  else existsb (λ cand, (trim_prefix "W/" (trim_space cand) =? etag)%string) (split "," ifNoneMatch).

Definition requestScheme (r : Request) : string :=
  let proto := hget (rHeader r) "X-Forwarded-Proto" in
  if negb (proto =? "")%string
  then trim_space (match index_byte "," proto with Some i => str_take i proto | None => proto end)
  else if rTLS r then "https" else "http".

Definition hostSuffixForRedirect (r : Request) : string :=
  let xfh := hget (rHeader r) "X-Forwarded-Host" in
  let host :=
    if negb (xfh =? "")%string
    then trim_space (match index_byte "," xfh with Some i => str_take i xfh | None => xfh end)
    else rHost r in
  match index_byte "." host with
  | Some i => str_drop i host
  | None => "." +:+ host
  end.
End pure.

Definition statFile (fsys : FS) (name : string) : option bool := fs_Stat fsys name.
Definition readFile (fsys : FS) (name : string) : option bytes := fs_ReadFile fsys name.

(** What [resolveTarget] returns: a file, a redirect, or nothing. *)
Inductive resolved := RFile (name : string) | RRedirect (inSite : string) | RNone.

(** [fi, err := statFile(..); err == nil && !fi.IsDir()] *)
Definition is_file (fsys : FS) (name : string) : bool :=
  match statFile fsys name with Some false => true | _ => false end.

Definition resolveTarget (fsys : FS) (cleaned : string) : resolved :=
  let inSite := trim_prefix "/" cleaned in
  let hadTrailingSlash := has_suffix "/" cleaned && negb (cleaned =? "/")%string in
  if (inSite =? "")%string || (cleaned =? "/")%string then
    if is_file fsys indexFile then RFile indexFile else RNone
  else
    let trimmed := trim_suffix "/" inSite in
    match fs_Stat fsys trimmed with
    | None => RNone
    | Some true =>
        if negb hadTrailingSlash then RRedirect ("/" +:+ trimmed +:+ "/")
        else
          let idx := trimmed +:+ "/" +:+ indexFile in
          if is_file fsys idx then RFile idx else RNone
    | Some false => if hadTrailingSlash then RNone else RFile trimmed
    end.

(** ** The handler's methods

    [writeContent] and [writeNotFound] call each other, and the body of an HTML
    file may make base-href injection index out of range: a call returns the
    response, or the way it failed to.  Fuel counts the nested
    [writeContent]s. *)

Inductive crash := Panic | Diverges.

Section handler.
Context `{GoUnicode} `{GoHTTP}.

Definition is_HEAD (r : Request) : bool := (rMethod r =? "HEAD")%string.

Definition writeError (h : Handler) (r : Request) (status : Z) (isPreview : bool) (w : Response) : Response :=
  let w := applySecurityHeaders (h_sec h) false w in
  let w := set_header "Content-Type" contentTypeTextHTMLUTF8 w in
  let w := set_header "Cache-Control" (if isPreview then previewCacheControl else htmlCacheControl) w in
  let w := write_header status w in
  if is_HEAD r then w else write_body (brandedErrorBody status) w.

Definition writeResolveError (h : Handler) (r : Request) (e : verr) (w : Response) : Response :=
  writeError h r (match e with VResolve re => reStatus re | VOther _ => StatusBadGateway end) false w.

Definition assetCacheControl (c : CacheConfig) : string :=
  if (AssetMaxAge c <=? 0)%Z then assetNoCacheControl
  else if ImmutableHint c then
    "public, max-age=" +:+ itoa (Z.quot immutableAssetMaxAge second) +:+ ", immutable"
  else "public, max-age=" +:+ itoa (Z.quot (AssetMaxAge c) second).

Definition applyCacheHeaders (h : Handler) (target : Target) (tree : TreeHandle)
    (isHTML transformed : bool) (w : Response) : Response :=
  let w := if (t_CommitTime tree =? zero_time)%Z then w
           else set_header "Last-Modified" (http_time (t_CommitTime tree)) w in
  set_header "Cache-Control"
    (if tIsPreview target then previewCacheControl
     else if transformed then "no-store"
     else if isHTML then htmlCacheControl
     else assetCacheControl (h_cache h)) w.

Definition ServeContent (r : Request) (modTime : time) (body : bytes) (w : Response) : Response :=
  let '(st, hdr, b) := serve_content r (wHeader w) modTime body in
  let w := write_header st (mkResponse hdr (wCookies w) (wSent w) (wBody w)) in
  mkResponse (wHeader w) (wCookies w) (wSent w) (wBody w +:+ b).

(** The part of [writeContent] after the body was read and transformed. *)
Definition finishContent (h : Handler) (r : Request) (target : Target) (tree : TreeHandle)
    (isHTML transformed : bool) (body : bytes) (status : Z) (w : Response) : Response :=
  let w := applyCacheHeaders h target tree isHTML transformed w in
  let useETag := etagEnabled (h_cache h) && negb (tIsPreview target) && negb transformed in
  let etag := makeETag (t_CommitSHA tree) (t_CacheVersion tree) (Z.of_nat (String.length body)) in
  let w := if useETag then set_header "Etag" etag w else w in
  if useETag && matchETag (hget (rHeader r) "If-None-Match") etag
  then write_header StatusNotModified w
  else if negb (status =? StatusOK)%Z then
    let w := write_header status w in
    if is_HEAD r then w else write_body body w
  else ServeContent r (t_CommitTime tree) body w.

Definition transformBody (h : Handler) (target : Target) (isHTML : bool) (body : bytes)
    : option (bytes * bool) :=
  if isHTML then maybeInjectBaseHref body target (baseHrefEnabled (h_cache h))
  else Some (body, false).

Fixpoint writeContent (fuel : nat) (h : Handler) (r : Request) (target : Target) (tree : TreeHandle)
    (name : string) (status : Z) (w : Response) : Res crash Response :=
  match fuel with
  | 0 => Err Diverges
  | S fuel =>
      let ct := contentTypeForName name in
      let isSVG := equal_fold (path_ext name) ".svg" in
      let isHTML := has_prefix "text/html" ct in
      let w := applySecurityHeaders (h_sec h) isSVG w in
      let w :=
        if (ct =? "")%string
        then set_header "Content-Disposition" "attachment"
               (set_header "Content-Type" contentTypeOctetStream w)
        else set_header "Content-Type" ct w in
      match readFile (t_FS tree) name with
      | None =>
          (* writeNotFound *)
          if is_file (t_FS tree) siteNotFoundFile
          then writeContent fuel h r target tree siteNotFoundFile StatusNotFound w
          else Ok (writeError h r StatusNotFound (tIsPreview target) w)
      | Some body =>
          match transformBody h target isHTML body with
          | None => Err Panic
          | Some (body, transformed) =>
              Ok (finishContent h r target tree isHTML transformed body status w)
          end
      end
  end.

Definition writeNotFound (fuel : nat) (h : Handler) (r : Request) (target : Target) (tree : TreeHandle)
    (w : Response) : Res crash Response :=
  if is_file (t_FS tree) siteNotFoundFile
  then writeContent fuel h r target tree siteNotFoundFile StatusNotFound w
  else Ok (writeError h r StatusNotFound (tIsPreview target) w).

Definition with_query (r : Request) (loc : string) : string :=
  if negb (rURLRawQuery r =? "")%string then loc +:+ "?" +:+ rURLRawQuery r else loc.

Definition redirectTrailingSlash (h : Handler) (r : Request) (target : Target) (inSitePath : string)
    (w : Response) : Response :=
  let loc := if negb (tPathPrefix target =? "")%string
             then tPathPrefix target +:+ inSitePath else inSitePath in
  let loc := with_query r loc in
  let w := applySecurityHeaders (h_sec h) false w in
  write_header StatusMovedPermanently (set_header "Location" loc w).

Definition redirectRenamedHandle (h : Handler) (r : Request) (target : Target) (newHandle : string)
    (w : Response) : Response :=
  let newLabel := if tIsPreview target then newHandle +:+ "--" +:+ tBranch target else newHandle in
  let loc :=
    match tSource target with
    | SourcePath => "/host/" +:+ newLabel +:+ stripDecodedPrefix (rURLPath r) (tPathPrefix target)
    | _ => requestScheme r +:+ "://" +:+ newLabel +:+ "." +:+
           trim_prefix "." (hostSuffixForRedirect r) +:+ rURLPath r
    end in
  let loc := with_query r loc in
  let w := applySecurityHeaders (h_sec h) false w in
  write_header StatusMovedPermanently (set_header "Location" loc w).

Definition handleTreeError (h : Handler) (r : Request) (target : Target) (e : tree_err)
    (w : Response) : Response :=
  match e with
  | RedirectError nh => redirectRenamedHandle h r target nh w
  | _ => writeError h r StatusNotFound (tIsPreview target) w
  end.

Definition serveFile (fuel : nat) (h : Handler) (r : Request) (target : Target) (tree : TreeHandle)
    (w : Response) : Res crash Response :=
  let reqPath := if negb (tPathPrefix target =? "")%string
                 then stripDecodedPrefix (rURLPath r) (tPathPrefix target) else rURLPath r in
  match cleanRequestPath reqPath with
  | None => writeNotFound fuel h r target tree w
  | Some cleaned =>
      match resolveTarget (t_FS tree) cleaned with
      | RRedirect redirect => Ok (redirectTrailingSlash h r target redirect w)
      | RNone => writeNotFound fuel h r target tree w
      | RFile name => writeContent fuel h r target tree name StatusOK w
      end
  end.

Definition http_Redirect (r : Request) (url : string) (code : Z) (w : Response) : Response :=
  let hadCT := negb (hget (wHeader w) "Content-Type" =? "")%string in
  let w := set_header "Location" (redirect_location r url) w in
  let w := if negb hadCT && ((rMethod r =? "GET")%string || is_HEAD r)
           then set_header "Content-Type" contentTypeTextHTMLUTF8 w else w in
  let w := write_header code w in
  if negb hadCT && (rMethod r =? "GET")%string
  then write_body (redirect_body (redirect_location r url) code) w else w.

Definition serveProject (fuel : nat) (h : Handler) (r : Request) (target : Target) (w : Response)
    : Res crash Response :=
  match h_trees h target with
  | Err e => Ok (handleTreeError h r target e w)
  | Ok tree =>
      if tIsPreview target then
        match h_authz h target r (t_SiteID tree) with
        | Err _ => Ok (writeError h r (h_unauth h) (tIsPreview target) w)
        | Ok action =>
            let w := match SetCookie action with Some c => set_cookie c w | None => w end in
            if negb (RedirectTo action =? "")%string then
              let w := applySecurityHeaders (h_sec h) false w in
              let w := set_header "Cache-Control" previewCacheControl w in
              Ok (http_Redirect r (RedirectTo action) StatusFound w)
            else serveFile fuel h r target tree w
        end
      else serveFile fuel h r target tree w
  end.

Definition ServeHTTP (fuel : nat) (h : Handler) (r : Request) (w : Response) : Res crash Response :=
  match h_resolver h r with
  | Err e => Ok (writeResolveError h r e w)
  | Ok target =>
      if tIsControl target then
        match h_control h with
        | Some control => Ok (control r w)
        | None => Ok (writeError h r StatusNotFound false w)
        end
      else if (rMethod r =? "GET")%string || is_HEAD r then serveProject fuel h r target w
      else
        let w := applySecurityHeaders (h_sec h) false w in
        let w := set_header "Allow" allowMethods w in
        if (rMethod r =? "OPTIONS")%string then Ok (write_header StatusNoContent w)
        else Ok (writeError h r StatusMethodNotAllowed false w)
  end.
End handler.
