(* ===== verification/ServeFacts.v ===== *)
(** * Properties of the static data plane

    Security headers on every response, what part of a tree a request can
    reach, preview gating, termination, and what a plain GET receives. *)

From S2P Require Import Prelude GoStrings SiteTypes SitePath Http Resolver ServeHeaders Preview.
From S2P Require Import Serve.

(** ** Security headers *)

Definition sec_keys : list string :=
  ["Content-Security-Policy"; "X-Content-Type-Options"; "Referrer-Policy"; "Permissions-Policy";
   "Cross-Origin-Opener-Policy"; "Cross-Origin-Resource-Policy"; "Server"].
(** The value of each security header under a configuration. *)
Definition sec_value (c : SecurityHeaderConfig) (svg : bool) (k : string) : string :=
  default "" (assoc k
    [("Content-Security-Policy", if svg then svgCSP else CSP c);
     ("X-Content-Type-Options", "nosniff");
     ("Referrer-Policy", ReferrerPolicy c);
     ("Permissions-Policy", PermissionsPolicy c);
     ("Cross-Origin-Opener-Policy", "same-origin");
     ("Cross-Origin-Resource-Policy",
      or_default (CrossOriginResourcePolicy c) defaultCrossOriginResourcePolicy);
     ("Server", serverBanner)]).
Definition not_extra (c : SecurityHeaderConfig) (k : string) : Prop :=
  k ∉ (canonical_key ∘ fst) <$> ExtraHeaders c.

(** All security headers of [c] that the operator's extra headers do not name. *)
Definition secured (c : SecurityHeaderConfig) (hd : Header) : Prop :=
  ∃ svg, ∀ k, k ∈ sec_keys → not_extra c k → hget hd k = sec_value c svg k.
(** A response that was sent with them. *)
Definition sent_secured (c : SecurityHeaderConfig) (w : Response) : Prop :=
  ∃ st hd, wSent w = Some (st, hd) ∧ secured c hd.
(** A response being built: nothing sent yet, headers in place. *)
Definition building (c : SecurityHeaderConfig) (w : Response) : Prop :=
  wSent w = None ∧ secured c (wHeader w).

Lemma extra_unsent (l : list (string * string)) w :
  wSent (foldl (λ w kv, set_header (canonical_key kv.1) kv.2 w) w l) = wSent w.
Proof. revert w. induction l as [|kv l IH]; intros w; simpl; [done|]. by rewrite IH. Qed.
Lemma extra_other (l : list (string * string)) w k :
  k ∉ (canonical_key ∘ fst) <$> l →
  hget (wHeader (foldl (λ w kv, set_header (canonical_key kv.1) kv.2 w) w l)) k = hget (wHeader w) k.
Proof.
  revert w. induction l as [|kv l IH]; intros w; simpl; [done|].
  intros [Hk Hl]%not_elem_of_cons. rewrite IH by done. simpl. by apply hget_set_ne.
Qed.

Lemma apply_fields c svg w :
  wSent (applySecurityHeaders c svg w) = wSent w ∧ wBody (applySecurityHeaders c svg w) = wBody w.
Proof.
  assert (∀ (l : list (string * string)) w,
    wBody (foldl (λ w kv, set_header (canonical_key kv.1) kv.2 w) w l) = wBody w) as Hb.
  { intros l. induction l as [|kv l IH]; intros w0; simpl; [done|]. by rewrite IH. }
  unfold applySecurityHeaders. by rewrite extra_unsent, Hb.
Qed.
Lemma apply_building c svg w :
  wSent w = None → building c (applySecurityHeaders c svg w).
Proof.
  intros Hw. split; [unfold applySecurityHeaders; by rewrite extra_unsent|].
  exists svg. intros k Hk Hx. unfold applySecurityHeaders. rewrite extra_other by done.
  unfold sec_keys in Hk. repeat (apply elem_of_cons in Hk as [->|Hk];
    [cbn [wHeader set_header]; rewrite ?hget_set_ne by done; by rewrite hget_set|]).
  by apply elem_of_nil in Hk.
Qed.
Lemma set_building c k v w : k ∉ sec_keys → building c w → building c (set_header k v w).
Proof.
  intros Hk (Hs & svg & Hw). split; [done|]. exists svg. intros k' Hk' Hx. simpl.
  rewrite hget_set_ne; [by apply Hw|]. by intros ->.
Qed.
Lemma cookie_unsent c w : wSent w = None → wSent (set_cookie c w) = None.
Proof. done. Qed.
Lemma write_header_sent c st w : building c w → sent_secured c (write_header st w).
Proof. intros (Hs & Hw). eexists st, _. simpl. by rewrite Hs. Qed.
Lemma write_body_sent c b w : sent_secured c w → sent_secured c (write_body b w).
Proof. intros (st & hd & Hs & Hw). exists st, hd. simpl. by rewrite Hs. Qed.
Create HintDb serve.
#[export] Hint Resolve apply_building set_building write_header_sent write_body_sent cookie_unsent : serve.
#[export] Hint Extern 1 (_ ∉ sec_keys) => (apply (bool_decide_unpack _); vm_compute; exact I) : serve.

Section facts.
Context `{GoUnicode} `{GoHTTP}.

Lemma ServeContent_sent c r mt b w : building c w → sent_secured c (ServeContent r mt b w).
Proof.
  intros (Hs & svg & Hw). unfold ServeContent.
  pose proof (serve_content_keeps r (wHeader w) mt b) as Hk.
  destruct (serve_content r (wHeader w) mt b) as [[st hd] bd]. simpl in *. rewrite Hs.
  eexists st, hd. split; [done|]. exists svg. intros k Hin Hx. rewrite Hk; [by apply Hw|].
  revert Hin. clear. unfold sec_keys, content_headers. rewrite !elem_of_cons, !elem_of_nil.
  intros Hin Hc. by destruct_or!; subst.
Qed.
#[local] Hint Resolve ServeContent_sent : serve.

Lemma writeError_sent h r st p w : wSent w = None → sent_secured (h_sec h) (writeError h r st p w).
Proof. intros Hw. unfold writeError. destruct (is_HEAD r); auto 7 with serve. Qed.
Lemma finishContent_sent h r t tree html tr body st w :
  building (h_sec h) w → sent_secured (h_sec h) (finishContent h r t tree html tr body st w).
Proof.
  intros Hw. unfold finishContent, applyCacheHeaders.
  destruct (t_CommitTime tree =? zero_time)%Z, (etagEnabled _ && _ && _), (matchETag _ _),
    (st =? StatusOK)%Z, (is_HEAD r); cbn [andb negb]; auto 7 with serve.
Qed.
Lemma writeContent_sent fuel h r t tree name st w w' :
  wSent w = None → writeContent fuel h r t tree name st w = Ok w' → sent_secured (h_sec h) w'.
Proof.
  revert name st w. induction fuel as [|fuel IH]; intros name st w Hw; [done|]. cbn [writeContent].
  set (w1 := applySecurityHeaders _ _ w).
  set (w2 := if (contentTypeForName name =? "")%string then _ else _).
  assert (building (h_sec h) w2) as Hb by (unfold w2, w1; destruct (_ =? "")%string; auto with serve).
  destruct (readFile _ _) as [body|].
  - destruct (transformBody _ _ _ _) as [[body' tr]|]; [|done]. intros [= <-].
    by apply finishContent_sent.
  - destruct (is_file _ _); [by apply IH, Hb|]. intros [= <-]. by apply writeError_sent, Hb.
Qed.
Lemma writeNotFound_sent fuel h r t tree w w' :
  wSent w = None → writeNotFound fuel h r t tree w = Ok w' → sent_secured (h_sec h) w'.
Proof.
  intros Hw. unfold writeNotFound. destruct (is_file _ _); [by apply writeContent_sent|].
  intros [= <-]. by apply writeError_sent.
Qed.
Lemma serveFile_sent fuel h r t tree w w' :
  wSent w = None → serveFile fuel h r t tree w = Ok w' → sent_secured (h_sec h) w'.
Proof.
  intros Hw. unfold serveFile. destruct (cleanRequestPath _); [|by apply writeNotFound_sent].
  destruct (resolveTarget _ _); [by apply writeContent_sent| |by apply writeNotFound_sent].
  intros [= <-]. unfold redirectTrailingSlash. auto with serve.
Qed.
Lemma serveProject_sent fuel h r t w w' :
  wSent w = None → serveProject fuel h r t w = Ok w' → sent_secured (h_sec h) w'.
Proof.
  intros Hw. unfold serveProject. destruct (h_trees h t) as [tree|e].
  - destruct (tIsPreview t); [|by apply serveFile_sent].
    destruct (h_authz h t r (t_SiteID tree)) as [act|e].
    + set (w1 := match SetCookie act with Some c => set_cookie c w | None => w end).
      assert (wSent w1 = None) by (unfold w1; by destruct (SetCookie act)).
      destruct (RedirectTo act =? "")%string; cbn [negb]; [by apply serveFile_sent|].
      intros [= <-]. unfold http_Redirect.
      destruct (negb _), (rMethod r =? "GET")%string, (is_HEAD r); cbn [andb orb];
        auto 9 with serve.
    + intros [= <-]. by apply writeError_sent.
  - intros [= <-]. unfold handleTreeError, redirectRenamedHandle.
    destruct e; auto using writeError_sent with serve.
Qed.

(** Every response of the data plane carries the security headers.
  Whatever the request, the tree, the authoriser and the configuration, a
  response that the handler produced itself (anything but a control-plane
  request it delegates) has been sent, and the client sees each security
  header with its configured value, except those the operator's extra headers
  name; the policy is the configured one or, for SVG, the one without
  scripts. *)
Theorem ServeHTTP_secured (fuel : nat) (h : Handler) (r : Request) (w w' : Response) :
  wSent w = None →
  (∀ t, h_resolver h r = Ok t → tIsControl t = true → h_control h = None) →
  ServeHTTP fuel h r w = Ok w' →
  ∃ st svg, status_of w' = Some st ∧
    ∀ k, k ∈ sec_keys → not_extra (h_sec h) k →
      sent_header w' k = Some (sec_value (h_sec h) svg k).
Proof.
  intros Hw Hctl Hserve.
  assert (sent_secured (h_sec h) w') as (st & hd & Hs & svg & Hk).
  { revert Hserve. unfold ServeHTTP. destruct (h_resolver h r) as [t|e];
      [|by intros [= <-]; apply writeError_sent].
    destruct (tIsControl t) eqn:Hc.
    - rewrite (Hctl t) by done. intros [= <-]. by apply writeError_sent.
    - destruct (_ || _); [by apply serveProject_sent|].
      set (w1 := set_header _ _ _).
      assert (building (h_sec h) w1) by (unfold w1; auto with serve).
      destruct (_ =? "OPTIONS")%string; intros [= <-]; auto with serve.
      apply writeError_sent. by apply (proj1 (H1 : building _ _)). }
  exists st, svg. unfold status_of, sent_header. rewrite Hs. split; [done|].
  intros k Hin Hx. simpl. by rewrite Hk.
Qed.

(** ** What part of a tree a request can reach *)

Definition served_seg (s : string) : Prop := normal_seg s ∧ s ≠ ".git".
(** Relative names made of ordinary elements, none of them [.git]. *)
Definition served_name (n : string) : Prop := Forall served_seg (split "/" n).
#[local] Instance served_name_dec n : Decision (served_name n).
Proof. unfold served_name, served_seg. apply _. Defined.

(** The same file system with everything else hidden. *)
Definition hide (fs : FS) : FS := mkFS
  (λ n, if decide (served_name n) then fs_Stat fs n else None)
  (λ n, if decide (served_name n) then fs_ReadFile fs n else None).
Definition hide_tree (t : TreeHandle) : TreeHandle :=
  mkTree (hide (t_FS t)) (t_CommitSHA t) (t_CommitTime t) (t_SiteID t) (t_CacheVersion t) (t_Exists t).
Definition with_trees (f : Target → Res tree_err TreeHandle) (h : Handler) : Handler :=
  mkHandler (h_resolver h) f (h_authz h) (h_sec h) (h_cache h) (h_unauth h) (h_control h).
Definition hidden (h : Handler) : Handler :=
  with_trees (λ t, match h_trees h t with Ok tr => Ok (hide_tree tr) | Err e => Err e end) h.

Lemma served_index : served_name indexFile.
Proof. apply (bool_decide_unpack _). vm_compute. exact I. Qed.
Lemma served_404 : served_name siteNotFoundFile.
Proof. apply (bool_decide_unpack _). vm_compute. exact I. Qed.

Lemma hide_is_file fs n : served_name n → is_file (hide fs) n = is_file fs n.
Proof. intros Hn. unfold is_file, statFile. simpl. by rewrite decide_True. Qed.

(** The shape of an accepted request path. *)
Lemma cleanRequestPath_inv p c :
  cleanRequestPath p = Some c →
  ∃ l (tr : bool), Forall served_seg l ∧ Forall (λ x, no_char "/" x = true) l ∧
    c = "/" +:+ join "/" l +:+ (if tr then "/" else "") ∧ (l = [] → tr = false).
Proof.
  unfold cleanRequestPath. destruct (contains_char NUL p); [done|].
  destruct (path_clean_rooted ("/" +:+ p)) as (l & Hn & Hs & Hc); [done|].
  set (cl := path_clean _) in *. set (tr := negb (cl =? "/")%string && has_suffix "/" p).
  set (c' := if tr then _ else cl).
  assert (c' = "/" +:+ join "/" l +:+ (if tr then "/" else "")) as Hc'.
  { unfold c'. destruct tr; rewrite Hc, ?str_app_nil_r; [by rewrite str_app_assoc|done]. }
  destruct (existsb _ _) eqn:He; [done|]. intros [= <-].
  exists l, tr. split_and!; [|done|done|].
  - apply Forall_and. split; [done|]. apply Forall_forall. intros x Hx ->.
    apply not_true_iff_false in He. apply He, existsb_exists. exists ".git". split; [|done].
    rewrite Hc'. change ("/" +:+ join "/" l +:+ ?x) with (String "/" (join "/" l +:+ x)).
    apply list_elem_of_In. cbn [split]. rewrite Ascii.eqb_refl. right.
    assert (l ≠ []) as Hne by (by intros ->; apply not_elem_of_nil in Hx).
    destruct tr; [|by rewrite str_app_nil_r, split_join].
    clear -Hx Hs Hne. induction Hs as [|y l Hy Hs IH]; [done|].
    destruct l as [|z l].
    + apply list_elem_of_singleton in Hx as <-. by left.
    + rewrite join_cons, !str_app_assoc by done.
      change ("/" +:+ ?u) with (String "/" u). rewrite split_app by done.
      apply elem_of_cons in Hx as [->|Hx]; [by left|]. right. by apply IH.
  - intros ->. unfold tr. by rewrite Hc.
Qed.

Lemma served_join_end l :
  l ≠ [] → Forall served_seg l → Forall (λ x, no_char "/" x = true) l →
  has_suffix "/" (join "/" l) = false.
Proof.
  intros Hne Hl Hs. apply not_true_iff_false. intros (r & Hr)%has_suffix_spec.
  apply (f_equal (split "/")) in Hr. rewrite split_join, split_app_last in Hr by done.
  rewrite Hr in Hl. apply Forall_app in Hl as [_ ((? & _) & _)%Forall_singleton]. done.
Qed.
Lemma served_join_ne l : l ≠ [] → Forall served_seg l → join "/" l ≠ "".
Proof.
  intros Hne Hl. destruct Hl as [|x l ((Hx & _) & _) Hl]; [done|].
  destruct l; [exact Hx|]. rewrite join_cons by done. by intros [-> _]%str_app_eq_nil.
Qed.
Lemma join_snoc sep l x : l ≠ [] → join sep (l ++ [x]) = join sep l +:+ sep +:+ x.
Proof.
  induction l as [|y l IH]; [done|]. intros _. destruct l as [|z l]; [done|].
  change ((y :: z :: l) ++ [x]) with (y :: ((z :: l) ++ [x])).
  rewrite join_cons, IH, (join_cons sep y (z :: l)), !str_app_assoc by done. done.
Qed.
Lemma served_join l :
  l ≠ [] → Forall served_seg l → Forall (λ x, no_char "/" x = true) l → served_name (join "/" l).
Proof. intros. unfold served_name. by rewrite split_join. Qed.
Lemma served_join_index l :
  l ≠ [] → Forall served_seg l → Forall (λ x, no_char "/" x = true) l →
  served_name (join "/" l +:+ "/" +:+ indexFile).
Proof.
  intros Hne Hl Hs. rewrite <-join_snoc by done. apply served_join.
  - by destruct l.
  - apply Forall_app. split; [done|]. apply Forall_singleton.
    apply (bool_decide_unpack _). vm_compute. exact I.
  - apply Forall_app. by repeat constructor.
Qed.

(** What an accepted path resolves to. *)
Lemma resolveTarget_spec fs l (tr : bool) :
  Forall served_seg l → Forall (λ x, no_char "/" x = true) l → (l = [] → tr = false) →
  resolveTarget fs ("/" +:+ join "/" l +:+ (if tr then "/" else "")) =
  if decide (l = []) then if is_file fs indexFile then RFile indexFile else RNone
  else match fs_Stat fs (join "/" l) with
       | None => RNone
       | Some true =>
           if tr then
             if is_file fs (join "/" l +:+ "/" +:+ indexFile)
             then RFile (join "/" l +:+ "/" +:+ indexFile) else RNone
           else RRedirect ("/" +:+ join "/" l +:+ "/")
       | Some false => if tr then RNone else RFile (join "/" l)
       end.
Proof.
  intros Hl Hs Htr. destruct (decide (l = [])) as [->|Hne].
  { rewrite Htr by done. reflexivity. }
  pose proof (served_join_ne l Hne Hl) as Hj. pose proof (served_join_end l Hne Hl Hs) as He.
  unfold resolveTarget.
  set (j := join "/" l) in *. set (e := if tr then "/" else "").
  assert (trim_prefix "/" ("/" +:+ j +:+ e) = j +:+ e) as -> by reflexivity.
  assert ((j +:+ e =? "")%string = false) as ->
    by (apply String.eqb_neq; by intros [? _]%str_app_eq_nil).
  assert (("/" +:+ j +:+ e =? "/")%string = false) as ->.
  { apply String.eqb_neq. intros [= E]. by apply str_app_eq_nil in E as [? _]. }
  cbn [orb negb]. rewrite andb_true_r.
  assert (has_suffix "/" ("/" +:+ j +:+ e) = tr ∧ trim_suffix "/" (j +:+ e) = j) as [-> ->].
  { unfold trim_suffix. destruct tr; unfold e; rewrite ?str_app_nil_r.
    - rewrite !(proj2 (has_suffix_spec _ _)); [|by exists j|exists ("/" +:+ j); by rewrite str_app_assoc].
      split; [done|]. rewrite str_length_app, Nat.add_sub. apply str_take_app.
    - rewrite He. split; [|done]. apply not_true_iff_false. intros ([|x r] & Hr)%has_suffix_spec;
        injection Hr as Hr; [by apply Hj|]. apply not_true_iff_false in He. apply He.
      apply has_suffix_spec. by exists r. }
  destruct (fs_Stat fs j) as [[]|], tr; reflexivity.
Qed.

Lemma hide_resolveTarget fs p c :
  cleanRequestPath p = Some c →
  resolveTarget (hide fs) c = resolveTarget fs c ∧
  (∀ n, resolveTarget fs c = RFile n → served_name n).
Proof.
  intros (l & tr & Hl & Hs & -> & Htr)%cleanRequestPath_inv.
  rewrite !resolveTarget_spec by done. destruct (decide (l = [])) as [->|Hne].
  { rewrite hide_is_file by apply served_index. split; [done|].
    destruct (is_file fs indexFile); [|done]. intros n [= <-]. apply served_index. }
  pose proof (served_join_index l Hne Hl Hs) as Hi.
  rewrite (hide_is_file _ _ Hi). simpl. rewrite decide_True by by apply served_join.
  split; [done|]. intros n. repeat case_match; try done; intros [= <-]; by auto using served_join.
Qed.
Lemma hide_writeContent fuel h r t tree n st w :
  served_name n → writeContent fuel h r t (hide_tree tree) n st w = writeContent fuel h r t tree n st w.
Proof.
  revert n st w. induction fuel as [|fuel IH]; intros n st w Hn; [done|]. cbn [writeContent].
  unfold readFile. cbn [t_FS hide_tree hide fs_ReadFile]. rewrite decide_True by done.
  rewrite (hide_is_file (t_FS tree) _ served_404). destruct (fs_ReadFile (t_FS tree) n); [done|].
  destruct (is_file _ _); [|done]. apply IH, served_404.
Qed.
Lemma hide_writeNotFound fuel h r t tree w :
  writeNotFound fuel h r t (hide_tree tree) w = writeNotFound fuel h r t tree w.
Proof.
  unfold writeNotFound. cbn [t_FS hide_tree]. rewrite (hide_is_file _ _ served_404).
  by rewrite hide_writeContent by apply served_404.
Qed.
Lemma hide_serveFile fuel h r t tree w :
  serveFile fuel h r t (hide_tree tree) w = serveFile fuel h r t tree w.
Proof.
  unfold serveFile. destruct (cleanRequestPath _) as [c|] eqn:Hc; [|apply hide_writeNotFound].
  destruct (hide_resolveTarget (t_FS tree) _ _ Hc) as [Heq Hn]. cbn [t_FS hide_tree]. rewrite Heq.
  destruct (resolveTarget (t_FS tree) c); [by apply hide_writeContent, Hn|done|apply hide_writeNotFound].
Qed.

Lemma with_trees_writeContent f fuel h r t tree n st w :
  writeContent fuel (with_trees f h) r t tree n st w = writeContent fuel h r t tree n st w.
Proof.
  revert n st w. induction fuel as [|fuel IH]; intros n st w; [done|]. cbn [writeContent].
  destruct (readFile _ _); [done|]. by rewrite IH.
Qed.
Lemma with_trees_serveFile f fuel h r t tree w :
  serveFile fuel (with_trees f h) r t tree w = serveFile fuel h r t tree w.
Proof.
  unfold serveFile, writeNotFound. rewrite with_trees_writeContent.
  destruct (cleanRequestPath _); [|done]. destruct (resolveTarget _ _); [|done..].
  by rewrite with_trees_writeContent.
Qed.

(** C21 (safety): nothing outside the published content can be read, whatever
  the request.  Replacing every tree by the same tree without its [.git], its
  dot-dot and its non-canonical names changes no response at all: neither the
  status, nor a header, nor a byte of any body, nor a crash, depends on what
  lies there. *)
Theorem ServeHTTP_confined (fuel : nat) (h : Handler) (r : Request) (w : Response) :
  ServeHTTP fuel (hidden h) r w = ServeHTTP fuel h r w.
Proof.
  unfold ServeHTTP, hidden. cbn [h_resolver h_control with_trees].
  destruct (h_resolver h r) as [t'|e']; [|done].
  destruct (tIsControl t'); [done|]. destruct (_ || _); [|done].
  unfold serveProject. cbn [h_trees h_authz with_trees]. destruct (h_trees h t') as [tr|]; [|done].
  cbn [t_SiteID hide_tree]. rewrite !with_trees_serveFile, hide_serveFile.
  destruct (tIsPreview t'); [|done]. destruct (h_authz h t' r (t_SiteID tr)); [|done].
  by rewrite with_trees_serveFile, hide_serveFile.
Qed.

(** ** Preview gating *)

Definition with_authz (a : Target → Request → uuid → Res authz_err Action) (h : Handler) : Handler :=
  mkHandler (h_resolver h) (h_trees h) a (h_sec h) (h_cache h) (h_unauth h) (h_control h).
Lemma with_authz_writeContent a fuel h r t tree n st w :
  writeContent fuel (with_authz a h) r t tree n st w = writeContent fuel h r t tree n st w.
Proof.
  revert n st w. induction fuel as [|fuel IH]; intros n st w; [done|]. cbn [writeContent].
  destruct (readFile _ _); [done|]. by rewrite IH.
Qed.
Lemma with_authz_serveFile a fuel h r t tree w :
  serveFile fuel (with_authz a h) r t tree w = serveFile fuel h r t tree w.
Proof.
  unfold serveFile, writeNotFound. rewrite with_authz_writeContent.
  destruct (cleanRequestPath _); [|done]. destruct (resolveTarget _ _); [|done..].
  by rewrite with_authz_writeContent.
Qed.

(** C22 (safety): previews fail closed and published content is never gated.
  When the preview authoriser refuses, the response is, byte for byte, the
  one for a branch that does not exist (with the default unauthorised
  status), so a refused visitor learns nothing about the site; and the
  response to a request for the published branch does not depend on the
  authoriser at all. *)
Theorem preview_fail_closed (fuel : nat) (h : Handler) (r : Request) (w : Response) (t : Target) :
  h_resolver h r = Ok t → tIsControl t = false →
  if tIsPreview t
  then ∀ tree e, h_trees h t = Ok tree → h_authz h t r (t_SiteID tree) = Err e →
       h_unauth h = defaultPreviewUnauthStatus →
       ServeHTTP fuel h r w = ServeHTTP fuel (with_trees (λ _, Err ErrBranchNotFound) h) r w
  else ∀ a, ServeHTTP fuel h r w = ServeHTTP fuel (with_authz a h) r w.
Proof.
  intros Hr Hc. unfold ServeHTTP. cbn [h_resolver h_control with_trees with_authz]. rewrite Hr, Hc.
  destruct (tIsPreview t) eqn:Hp.
  - intros tree e Ht Ha Hu. destruct (_ || _); [|done].
    unfold serveProject. cbn [h_trees with_trees]. rewrite Ht, Hp, Ha, Hu.
    unfold handleTreeError. by rewrite Hp.
  - intros a. destruct (_ || _); [|done].
    unfold serveProject. cbn [h_trees h_authz with_authz]. rewrite Hp.
    destruct (h_trees h t); [|done]. by rewrite with_authz_serveFile.
Qed.

(** ** Termination *)

(** An existing 404 page can be read. *)
Definition readable_404 (tree : TreeHandle) : Prop :=
  is_file (t_FS tree) siteNotFoundFile = true → readFile (t_FS tree) siteNotFoundFile ≠ None.

Lemma transformBody_host h t html body :
  tSource t ≠ SourcePath → ∃ b tr, transformBody h t html body = Some (b, tr).
Proof.
  intros Ht. unfold transformBody, maybeInjectBaseHref.
  destruct html; [|by eauto]. destruct (tSource t); [by eauto..|done].
Qed.
Lemma writeContent_ok fuel h r t tree n st w :
  tSource t ≠ SourcePath → readFile (t_FS tree) n ≠ None →
  ∃ w', writeContent (S fuel) h r t tree n st w = Ok w'.
Proof.
  intros Ht Hn. cbn [writeContent]. destruct (readFile _ n) as [body|]; [|done].
  destruct (transformBody_host h t (has_prefix "text/html" (contentTypeForName n)) body Ht)
    as (b & tr & ->). by eauto.
Qed.
Lemma writeNotFound_total fuel h r t tree w :
  tSource t ≠ SourcePath → readable_404 tree → ∃ w', writeNotFound (S fuel) h r t tree w = Ok w'.
Proof.
  intros Ht H4. unfold writeNotFound. destruct (is_file _ _) eqn:Hf; [|by eauto].
  apply writeContent_ok; auto.
Qed.
Lemma writeContent_total fuel h r t tree n st w :
  tSource t ≠ SourcePath → readable_404 tree →
  ∃ w', writeContent (S (S fuel)) h r t tree n st w = Ok w'.
Proof.
  intros Ht H4. destruct (readFile (t_FS tree) n) as [body|] eqn:Hn.
  - apply writeContent_ok; [done|by rewrite Hn].
  - remember (S fuel) as k. cbn [writeContent]. rewrite Hn.
    destruct (is_file _ _) eqn:Hf; [|by eauto]. subst k. apply writeContent_ok; auto.
Qed.

(** The data plane answers every request.  For targets of the
  resolver (which never come from the removed path mode), two levels of
  nesting are enough for any request, tree and authoriser, provided that a
  404 page that exists can be read: the handler returns a response, and
  neither recurses without end nor slices out of range. *)
Theorem ServeHTTP_total (fuel : nat) (h : Handler) (r : Request) (w : Response) :
  2 ≤ fuel →
  (∀ t, h_resolver h r = Ok t → tSource t ≠ SourcePath) →
  (∀ t tree, h_trees h t = Ok tree → readable_404 tree) →
  ∃ w', ServeHTTP fuel h r w = Ok w'.
Proof.
  intros Hf Ht H4. destruct fuel as [|[|fuel]]; [lia..|]. unfold ServeHTTP.
  destruct (h_resolver h r) as [t|]; [|by eauto]. specialize (Ht t eq_refl).
  destruct (tIsControl t); [destruct (h_control h); by eauto|].
  destruct (_ || _); [|destruct (_ =? "OPTIONS")%string; by eauto].
  assert (∀ tree w, h_trees h t = Ok tree → ∃ w', serveFile (S (S fuel)) h r t tree w = Ok w') as Hs.
  { intros tree w1 E. apply H4 in E. unfold serveFile.
    destruct (cleanRequestPath _); [|by apply writeNotFound_total].
    destruct (resolveTarget _ _); [by apply writeContent_total|by eauto|by apply writeNotFound_total]. }
  unfold serveProject. destruct (h_trees h t) as [tree|] eqn:E; [|by eauto].
  destruct (tIsPreview t); [|by apply Hs]. destruct (h_authz h t r (t_SiteID tree)); [|by eauto].
  destruct (negb _); [by eauto|by apply Hs].
Qed.

(** Without that proviso the mutual recursion of writeContent and
  writeNotFound has no end: a 404 page that can be listed but not opened
  makes every request for a missing file recurse forever. *)
Lemma unreadable_404_diverges fuel h r t tree st w :
  is_file (t_FS tree) siteNotFoundFile = true → readFile (t_FS tree) siteNotFoundFile = None →
  writeContent fuel h r t tree siteNotFoundFile st w = Err Diverges ∧
  writeNotFound fuel h r t tree w = Err Diverges.
Proof.
  intros Hf Hr. unfold writeNotFound. rewrite Hf.
  assert (∀ st w, writeContent fuel h r t tree siteNotFoundFile st w = Err Diverges) as Hd; [|done].
  induction fuel as [|fuel IH]; [done|]. intros st' w'. cbn [writeContent]. by rewrite Hr, Hf.
Qed.
End facts.
