(* ===== verification/ServeGet.v ===== *)
(** * What a plain GET receives, and entity tags

    The functional behaviour of the static handler on published content: exact
    bytes and content type for a file, a permanent redirect for a directory,
    404 for anything else; and that a cache purge changes every entity tag. *)

From S2P Require Import Prelude GoStrings Encoding SiteTypes Handle SitePath Http Resolver.
From S2P Require Import ServeHeaders Preview Serve.
From S2P Require Import ServeFacts.

(** ** Canonical request paths *)

Lemma existsb_false_not {A} (p : A → bool) l : Forall (λ x, p x = false) l → existsb p l = false.
Proof. induction 1 as [|x l Hx Hl IH]; [done|]. simpl. by rewrite Hx. Qed.

Lemma cleanRequestPath_canonical l :
  Forall served_seg l → Forall (λ x, no_char "/" x = true) l → l ≠ [] →
  contains_char NUL ("/" +:+ join "/" l) = false →
  cleanRequestPath ("/" +:+ join "/" l) = Some ("/" +:+ join "/" l).
Proof.
  intros Hl Hs Hne Hnul. unfold cleanRequestPath. rewrite Hnul.
  assert (Forall normal_seg l) as Hn by (eapply Forall_impl; [exact Hl|]; by intros ? []).
  assert (path_clean ("/" +:+ "/" +:+ join "/" l) = "/" +:+ join "/" l) as ->.
  { unfold path_clean. change (has_prefix "/" _) with true. cbn iota zeta. f_equal.
    change ("/" +:+ "/" +:+ join "/" l) with (String "/" (String "/" (join "/" l))).
    cbn [split]. rewrite Ascii.eqb_refl, split_join by done. f_equal.
    change (clean_segs true ("" :: "" :: l)) with (clean_segs true l).
    by apply clean_segs_normals. }
  assert (has_suffix "/" ("/" +:+ join "/" l) = false) as ->.
  { pose proof (served_join_end l Hne Hl Hs) as He. pose proof (served_join_ne l Hne Hl) as Hj.
    apply not_true_iff_false. intros ([|x r] & Hr)%has_suffix_spec; injection Hr as Hr; [done|].
    apply not_true_iff_false in He. apply He, has_suffix_spec. by exists r. }
  rewrite andb_false_r.
  change (split "/" ("/" +:+ join "/" l)) with ("" :: split "/" (join "/" l)).
  rewrite split_join by done. cbn [existsb]. rewrite existsb_false_not; [done|].
  eapply Forall_impl; [exact Hl|]. intros x ((_ & _ & H1) & H2).
  apply String.eqb_neq in H1, H2. by rewrite H1, H2.
Qed.

Ltac hnorm :=
  cbn [wHeader set_header]; repeat first [rewrite hget_set | rewrite hget_set_ne by done].

Section get.
Context `{GoUnicode} `{GoHTTP}.

Definition plain_get (r : Request) : Prop :=
  rMethod r = "GET" ∧
  ∀ k, k ∈ ["If-Match"; "If-None-Match"; "If-Modified-Since"; "If-Unmodified-Since"; "If-Range"; "Range"] →
       hget (rHeader r) k = "".

Lemma plain_no_match r etag : plain_get r → matchETag (hget (rHeader r) "If-None-Match") etag = false.
Proof. intros [_ Hr]. rewrite (Hr "If-None-Match"); [done|]. set_solver. Qed.

(** Headers the later writers leave alone. *)
Lemma cache_header_keeps h t tree html tr w k :
  k ≠ "Last-Modified" → k ≠ "Cache-Control" →
  hget (wHeader (applyCacheHeaders h t tree html tr w)) k = hget (wHeader w) k.
Proof.
  intros H1' H2'. unfold applyCacheHeaders.
  destruct (t_CommitTime tree =? zero_time)%Z; simpl; by rewrite !hget_set_ne.
Qed.
Lemma cache_header_fields h t tree html tr w :
  wSent (applyCacheHeaders h t tree html tr w) = wSent w ∧
  wBody (applyCacheHeaders h t tree html tr w) = wBody w.
Proof. unfold applyCacheHeaders. by destruct (_ =? _)%Z. Qed.

Lemma finishContent_plain h r t tree html tr body w :
  plain_get r → wSent w = None → wBody w = "" → hget (wHeader w) "Content-Type" ≠ "" →
  let w' := finishContent h r t tree html tr body StatusOK w in
  status_of w' = Some StatusOK ∧ wBody w' = body ∧
  sent_header w' "Content-Type" = Some (hget (wHeader w) "Content-Type") ∧
  sent_header w' "Content-Disposition" = Some (hget (wHeader w) "Content-Disposition").
Proof.
  intros Hr Hs Hb Hct. cbn zeta. unfold finishContent.
  rewrite plain_no_match, andb_false_r by done. cbn [negb].
  set (w1 := applyCacheHeaders _ _ _ _ _ _). set (e := makeETag _ _ _).
  set (b := etagEnabled _ && _ && _). change (negb (StatusOK =? StatusOK)%Z) with false.
  set (w2 := if b then set_header "Etag" e w1 else w1).
  pose proof (cache_header_fields h t tree html tr w) as [Hs1 Hb1]. fold w1 in Hs1, Hb1.
  assert (∀ k, k ≠ "Etag" → k ≠ "Last-Modified" → k ≠ "Cache-Control" →
    hget (wHeader w2) k = hget (wHeader w) k) as Hk.
  { intros k ???. unfold w2. destruct b; cbn [wHeader set_header]; rewrite ?hget_set_ne by done;
      by apply cache_header_keeps. }
  assert (wSent w2 = None ∧ wBody w2 = "") as [Hs2 Hb2]
    by (unfold w2; destruct b; cbn [wSent wBody set_header]; by rewrite Hs1, Hb1).
  unfold ServeContent.
  destruct (serve_content_plain r (wHeader w2) (t_CommitTime tree) body) as (Ho & Hbd & Hc);
    [apply Hr..|by rewrite Hk|].
  pose proof (serve_content_keeps r (wHeader w2) (t_CommitTime tree) body "Content-Disposition") as Hd.
  destruct (serve_content _ _ _ _) as [[st hd] bd]. simpl in *. subst st bd.
  unfold status_of, sent_header. simpl. rewrite Hs2, Hb2. simpl.
  rewrite Hc, Hd, !Hk by (done || set_solver). done.
Qed.

(** The content type a file is served with. *)
Definition served_type (name : string) : string :=
  if (contentTypeForName name =? "")%string then contentTypeOctetStream else contentTypeForName name.

Lemma transformBody_id h t html body :
  tSource t = SourceHost → transformBody h t html body = Some (body, false).
Proof. intros Ht. unfold transformBody, maybeInjectBaseHref. rewrite Ht. by destruct html. Qed.

Lemma writeContent_plain fuel h r t tree name body w :
  plain_get r → tSource t = SourceHost → readFile (t_FS tree) name = Some body →
  wSent w = None → wBody w = "" → hget (wHeader w) "Content-Disposition" = "" →
  not_extra (h_sec h) "Content-Disposition" →
  ∃ w', writeContent (S fuel) h r t tree name StatusOK w = Ok w' ∧
    status_of w' = Some StatusOK ∧ wBody w' = body ∧
    sent_header w' "Content-Type" = Some (served_type name) ∧
    sent_header w' "Content-Disposition" =
      Some (if (contentTypeForName name =? "")%string then "attachment" else "").
Proof.
  intros Hr Ht Hf Hs Hb Hd Hx. cbn [writeContent]. rewrite Hf, transformBody_id by done.
  eexists. split; [reflexivity|]. set (w1 := applySecurityHeaders _ _ w).
  destruct (apply_fields (h_sec h) (equal_fold (path_ext name) ".svg") w) as [Hs1 Hb1].
  fold w1 in Hs1, Hb1. rewrite Hs in Hs1. rewrite Hb in Hb1.
  assert (hget (wHeader w1) "Content-Disposition" = "") as Hd1.
  { unfold w1, applySecurityHeaders. rewrite extra_other by done. simpl.
    by rewrite !hget_set_ne. }
  unfold served_type. destruct (String.eqb_spec (contentTypeForName name) "") as [->|Hct].
  - set (w2 := set_header "Content-Disposition" _ _).
    destruct (finishContent_plain h r t tree (has_prefix "text/html" "") false body w2)
      as (? & ? & Hct & Hcd); [done..| |].
    + unfold w2. by hnorm.
    + split_and!; [done..| |]; [rewrite Hct|rewrite Hcd]; unfold w2; by hnorm.
  - set (w2 := set_header "Content-Type" _ _).
    destruct (finishContent_plain h r t tree (has_prefix "text/html" (contentTypeForName name)) false body w2)
      as (? & ? & Hct' & Hcd); [done..| |].
    + unfold w2. by hnorm.
    + split_and!; [done..| |]; [rewrite Hct'|rewrite Hcd]; unfold w2; hnorm; [done|by rewrite Hd1].
Qed.

Lemma status_write_body b w : is_Some (wSent w) → status_of (write_body b w) = status_of w.
Proof. unfold status_of. intros [s Hs]. simpl. by rewrite Hs. Qed.
Lemma writeError_status h r st p w :
  wSent w = None → status_of (writeError h r st p w) = Some st.
Proof.
  intros Hw. unfold writeError.
  assert (∀ w st, wSent w = None → status_of (write_header st w) = Some st) as Hst
    by (intros w0 st0 E; unfold status_of; simpl; by rewrite E).
  assert (wSent (applySecurityHeaders (h_sec h) false w) = None) as Ha
    by (apply (apply_building (h_sec h)); done).
  destruct (is_HEAD r); [by apply Hst|].
  rewrite status_write_body; [by apply Hst|]. simpl. rewrite Ha. by eexists.
Qed.
Lemma finishContent_404 h r t tree html tr body w :
  plain_get r → wSent w = None →
  status_of (finishContent h r t tree html tr body StatusNotFound w) = Some StatusNotFound.
Proof.
  intros Hr Hs. unfold finishContent. rewrite plain_no_match, andb_false_r by done.
  change (negb (StatusNotFound =? StatusOK)%Z) with true. cbn iota.
  set (w1 := applyCacheHeaders _ _ _ _ _ _).
  assert (wSent w1 = None) as Hs1 by (unfold w1; by destruct (cache_header_fields h t tree html tr w) as [-> _]).
  clearbody w1. unfold status_of. destruct (etagEnabled _ && _ && _), (is_HEAD r); cbn; by rewrite Hs1.
Qed.
Lemma writeNotFound_404 fuel h r t tree w :
  plain_get r → tSource t = SourceHost → readable_404 tree → wSent w = None →
  ∃ w', writeNotFound (S fuel) h r t tree w = Ok w' ∧ status_of w' = Some StatusNotFound.
Proof.
  intros Hr Ht H4 Hw. unfold writeNotFound. destruct (is_file _ _) eqn:Hf.
  - cbn [writeContent]. specialize (H4 Hf). destruct (readFile _ _) as [body|]; [|done].
    rewrite transformBody_id by done. eexists. split; [reflexivity|].
    apply finishContent_404; [done|]. set (w1 := applySecurityHeaders _ _ w).
    assert (wSent w1 = None) by (apply (apply_building (h_sec h)); done).
    by destruct (_ =? "")%string.
  - eexists. split; [reflexivity|]. by apply writeError_status.
Qed.

(** A plain GET of published content.  For a canonical path
  naming an entry of the tree, a file is answered with status 200, exactly its
  bytes and the content type of the upload allowlist, or as an opaque
  attachment when its extension is not listed; a directory is redirected
  permanently to its slash form with the query kept, never listed; and a name
  that does not exist gets status 404. *)
Theorem serve_plain_get (fuel : nat) (h : Handler) (r : Request) (t : Target) (tree : TreeHandle)
    (l : list string) :
  plain_get r → h_resolver h r = Ok t → tIsControl t = false → tIsPreview t = false →
  tSource t = SourceHost → tPathPrefix t = "" →
  h_trees h t = Ok tree → readable_404 tree → not_extra (h_sec h) "Content-Disposition" →
  rURLPath r = "/" +:+ join "/" l → l ≠ [] → contains_char NUL (rURLPath r) = false →
  Forall served_seg l → Forall (λ x, no_char "/" x = true) l →
  let name := join "/" l in
  (fs_Stat (t_FS tree) name = Some false → fs_ReadFile (t_FS tree) name ≠ None) →
  ∃ w', ServeHTTP (S fuel) h r newResponse = Ok w' ∧
    match fs_Stat (t_FS tree) name with
    | Some false =>
        status_of w' = Some StatusOK ∧ Some (wBody w') = fs_ReadFile (t_FS tree) name ∧
        sent_header w' "Content-Type" = Some (served_type name) ∧
        sent_header w' "Content-Disposition" =
          Some (if (contentTypeForName name =? "")%string then "attachment" else "")
    | Some true =>
        status_of w' = Some StatusMovedPermanently ∧ wBody w' = "" ∧
        sent_header w' "Location" = Some (with_query r ("/" +:+ name +:+ "/"))
    | None => status_of w' = Some StatusNotFound
    end.
Proof.
  intros Hr Hres Hc Hp Hsrc Hpp Htree H4 Hx Hpath Hne Hnul Hl Hs name Hread.
  assert (∀ w', ServeHTTP (S fuel) h r newResponse = Ok w' ↔
     serveFile (S fuel) h r t tree newResponse = Ok w') as Hgo.
  { intros w'. unfold ServeHTTP, serveProject. rewrite Hres, Hc, Htree, Hp. destruct Hr as [-> _]. done. }
  assert (serveFile (S fuel) h r t tree newResponse =
    match resolveTarget (t_FS tree) ("/" +:+ name) with
    | RRedirect d => Ok (redirectTrailingSlash h r t d newResponse)
    | RNone => writeNotFound (S fuel) h r t tree newResponse
    | RFile n => writeContent (S fuel) h r t tree n StatusOK newResponse
    end) as Hsf.
  { unfold serveFile. rewrite Hpp, Hpath. cbn [negb String.eqb].
    rewrite cleanRequestPath_canonical; [done..|by rewrite <-Hpath]. }
  pose proof (resolveTarget_spec (t_FS tree) l false Hl Hs (λ _, eq_refl)) as Hrt.
  cbn iota in Hrt. rewrite str_app_nil_r, decide_False in Hrt by done. fold name in Hrt.
  rewrite Hrt in Hsf. clear Hrt.
  destruct (fs_Stat (t_FS tree) name) as [[]|].
  - eexists. rewrite Hgo, Hsf. split; [reflexivity|]. unfold redirectTrailingSlash. rewrite Hpp.
    destruct (apply_fields (h_sec h) false newResponse) as [Ha Hb].
    unfold status_of, sent_header. simpl. rewrite Ha, Hb. simpl. by rewrite hget_set.
  - destruct (fs_ReadFile (t_FS tree) name) as [body|] eqn:Hf; [|by destruct Hread].
    edestruct (writeContent_plain fuel h r t tree name body newResponse) as (w' & Hw & Ho & Hb & Hw');
      try done. exists w'. rewrite Hgo, Hsf, Hb. done.
  - destruct (writeNotFound_404 fuel h r t tree newResponse) as (w' & Hw & Hst); try done.
    exists w'. rewrite Hgo, Hsf. done.
Qed.
End get.

(** ** Entity tags *)

Ltac all_chars := let c := fresh in intros c; destruct c as [[] [] [] [] [] [] [] []]; vm_compute; by intros.

Lemma hex_format n : (0 ≤ n)%Z → format_int 16 n = digits 16 (Z.to_N n).
Proof. intros Hn. destruct n; [done..|lia]. Qed.
Lemma hex_alnum n : (0 ≤ n)%Z → str_forall alnum (format_int 16 n) = true.
Proof.
  intros Hn. rewrite hex_format by done. apply digits_forall; [done|]. intros d Hd.
  assert (forallb (λ i, alnum (digit_char (N.of_nat i))) (seq 0 16) = true) as Hall
    by (vm_compute; done).
  rewrite forallb_forall in Hall. specialize (Hall (N.to_nat d)).
  rewrite N2Nat.id in Hall. apply Hall, in_seq. lia.
Qed.
Lemma hex_inj a b : (0 ≤ a)%Z → (0 ≤ b)%Z → format_int 16 a = format_int 16 b → a = b.
Proof.
  intros Ha Hb. rewrite !hex_format by done. intros E%(f_equal (digits_val 16 0)).
  rewrite !digits_val_digits in E by done. lia.
Qed.

Definition etag_sha (sha : string) : string := or_default (str_take 12 sha) "dev".
Lemma etag_sha_alnum sha : str_forall alnum sha = true → str_forall alnum (etag_sha sha) = true.
Proof.
  intros Hs. unfold etag_sha, or_default. destruct (_ =? "")%string; [done|].
  generalize 12. induction sha as [|c sha IH]; intros [|n]; try done. cbn [str_take str_forall] in *.
  apply andb_true_iff in Hs as [-> Hs]. by apply IH.
Qed.
Lemma alnum_no_dash s : str_forall alnum s = true → no_char "-" s = true.
Proof. intros Hs. eapply str_forall_impl, Hs. all_chars. Qed.

Lemma makeETag_inj s v z s' v' z' :
  str_forall alnum s = true → str_forall alnum s' = true →
  (0 ≤ v)%Z → (0 ≤ z)%Z → (0 ≤ v')%Z → (0 ≤ z')%Z →
  makeETag s v z = makeETag s' v' z' → etag_sha s = etag_sha s' ∧ v = v' ∧ z = z'.
Proof.
  intros Hs Hs' Hv Hz Hv' Hz' Heq. unfold makeETag, quoted in Heq.
  assert (∀ x y, dquote +:+ x = dquote +:+ y → x = y) as Hd by (by intros x y [=]).
  apply Hd, str_snoc_inj in Heq as [Heq _].
  assert (∀ s v z, str_forall alnum s = true → (0 ≤ v)%Z → (0 ≤ z)%Z →
    split "-" (etag_sha s +:+ "-" +:+ format_int 16 v +:+ "-" +:+ format_int 16 z) =
    [etag_sha s; format_int 16 v; format_int 16 z]) as Hsp.
  { intros s0 v0 z0 H0 H1 H2.
    change (etag_sha s0 +:+ "-" +:+ format_int 16 v0 +:+ "-" +:+ format_int 16 z0) with
      (join "-" [etag_sha s0; format_int 16 v0; format_int 16 z0]).
    apply split_join; [done|]. repeat constructor; apply alnum_no_dash;
      auto using etag_sha_alnum, hex_alnum. }
  apply (f_equal (split "-")) in Heq. fold (etag_sha s) in Heq. fold (etag_sha s') in Heq.
  rewrite !Hsp in Heq by done. injection Heq as E1 E2%hex_inj E3%hex_inj; done.
Qed.

Lemma matchETag_one `{GoUnicode} s v z e :
  str_forall alnum s = true → (0 ≤ v)%Z → (0 ≤ z)%Z →
  matchETag (makeETag s v z) e = (makeETag s v z =? e)%string.
Proof.
  intros Hs Hv Hz. set (t := makeETag s v z).
  assert (∀ q : ascii → bool, (∀ c, alnum c = true → q c = true) → q "-"%char = true →
    q "034"%char = true → str_forall q t = true) as Hq.
  { intros q Ha Hd Hqu. unfold t, makeETag, quoted, dquote. fold (etag_sha s).
    rewrite !str_forall_app. cbn [str_forall]. rewrite Hqu, Hd.
    by rewrite !(str_forall_impl alnum q) by auto using etag_sha_alnum, hex_alnum. }
  assert (all_ascii t = true) as Ha by (apply Hq; [all_chars|done..]).
  assert (trim_space t = t) as Ht.
  { unfold trim_space. rewrite Ha. apply trim_with_none, Hq; [all_chars|done..]. }
  assert (split "," t = [t]) as Hsp by (apply split_single, Hq; [all_chars|done..]).
  unfold matchETag. rewrite Ht, Hsp. cbn [existsb]. rewrite Ht, orb_false_r. done.
Qed.

(** Clearing a site's cache takes effect at once.  A client
    that revalidates with the tag it was given gets a match exactly when the
    content's commit (its first twelve digits), the site's cache version and
    the size are all unchanged: after the version has been bumped no stored tag
    matches any file of the site, and without a change every one does. *)
Theorem etag_revalidation `{GoUnicode} (s s' : string) (v v' z z' : Z) :
  str_forall alnum s = true → str_forall alnum s' = true →
  (0 ≤ v)%Z → (0 ≤ z)%Z → (0 ≤ v')%Z → (0 ≤ z')%Z →
  (matchETag (makeETag s v z) (makeETag s' v' z') = true ↔
   etag_sha s = etag_sha s' ∧ v = v' ∧ z = z').
Proof.
  intros Hs Hs' Hv Hz Hv' Hz'. rewrite matchETag_one, String.eqb_eq by done. split.
  - by apply makeETag_inj.
  - intros (E & -> & ->). unfold makeETag. fold (etag_sha s). by rewrite E.
Qed.

Lemma etag_revalidation_witness :
  @matchETag ascii_only_unicode (makeETag "0123456789abcdef" 4 10) (makeETag "0123456789abcdef" 5 10) = false.
Proof.
  destruct (@matchETag ascii_only_unicode _ _) eqn:Hm; [|reflexivity].
  apply (@etag_revalidation ascii_only_unicode "0123456789abcdef" "0123456789abcdef" 4 5 10 10) in Hm;
    [|vm_compute; reflexivity|vm_compute; reflexivity|lia|lia|lia|lia].
  destruct Hm as (_ & Hv & _). discriminate Hv.
Defined.

(** ** A concrete net/http and a concrete site *)

Definition plain_serve_content (r : Request) (h : Header) (mt : time) (b : bytes) : Z * Header * bytes :=
  (StatusOK, hset h "Accept-Ranges" "bytes", if is_HEAD r then "" else b).
Definition plain_http : GoHTTP.
Proof.
  refine {| serve_content := plain_serve_content;
            redirect_location _ u := u;
            redirect_body u _ := u |}.
  - intros r h mt b k Hk. cbn. apply hget_set_ne. intros <-. apply Hk. set_solver.
  - intros r h mt b Hr _ Hc. cbn. unfold is_HEAD. rewrite Hr. cbn.
    split_and!; [done..|]. by apply hget_set_ne.
Defined.

Definition sample_fs : FS := mkFS
  (λ n, if (n =? "docs")%string then Some true
        else if (n =? "index.html")%string || (n =? "docs/a.css")%string then Some false else None)
  (λ n, if (n =? "index.html")%string then Some "<h1>hi</h1>"
        else if (n =? "docs/a.css")%string then Some "a{}" else None).
Definition sample_tree : TreeHandle := mkTree sample_fs "0123456789abcdef" zero_time 7%N 0 true.
Definition sample_resolver `{GoUnicode} : Request → Res verr Target := λ r,
  match @Resolve _ builtinValidator (NewResolverWith (mkConfig "example.com" "" false None)) r with
  | Ok t => Ok t
  | Err e => Err (VResolve e)
  end.
Definition sample_handler `{GoUnicode} : Handler :=
  NewHandler (mkDeps sample_resolver (λ _, Ok sample_tree) None None
                     (mkSec "" "" false "" "" "" "" "" []) (mkCache 0 false false false) 0).
Definition get_request (host path : string) : Request :=
  mkRequest "GET" host "" path path "" ∅ "192.0.2.1:4711" true [].

Example sample_get :
  let _ := ascii_only_unicode in let _ := plain_http in
  match ServeHTTP 2 sample_handler (get_request "expense-calc.example.com" "/docs/a.css") newResponse with
  | Ok w => (status_of w, wBody w, sent_header w "Content-Type", sent_header w "Etag")
  | Err _ => (None, "", None, None)
  end = (Some 200%Z, "a{}", Some "text/css; charset=utf-8", Some (quoted "0123456789ab-0-3")).
Proof. vm_compute. reflexivity. Qed.

Lemma ServeHTTP_secured_witness :
  let U := ascii_only_unicode in let N := plain_http in
  ∃ w', ServeHTTP 2 sample_handler (get_request "expense-calc--draft.example.com" "/") newResponse = Ok w' ∧
        sent_header w' "X-Content-Type-Options" = Some "nosniff".
Proof.
  intros U N.
  destruct (ServeHTTP 2 sample_handler (get_request "expense-calc--draft.example.com" "/") newResponse)
    as [w'|c] eqn:E; [|vm_compute in E; discriminate].
  exists w'. split; [reflexivity|].
  destruct (@ServeHTTP_secured U N 2 sample_handler (get_request "expense-calc--draft.example.com" "/")
              newResponse w') as (st & svg & _ & Hk).
  - reflexivity.
  - intros t Ht. vm_compute in Ht. injection Ht as <-. discriminate.
  - exact E.
  - rewrite (Hk "X-Content-Type-Options"); [reflexivity| |]; apply (bool_decide_unpack _); vm_compute; exact I.
Defined.

Lemma preview_fail_closed_witness :
  let U := ascii_only_unicode in let N := plain_http in
  let r := get_request "expense-calc--draft.example.com" "/" in
  ServeHTTP 2 sample_handler r newResponse =
  ServeHTTP 2 (with_trees (λ _, Err ErrBranchNotFound) sample_handler) r newResponse.
Proof.
  intros U N r.
  refine (@preview_fail_closed U N 2 sample_handler r newResponse
            (mkTarget "expense-calc" "draft" true false SourceHost "") _ _ sample_tree ErrUnauthorized _ _ _);
    vm_compute; reflexivity.
Defined.

Lemma ServeHTTP_total_witness :
  let U := ascii_only_unicode in let N := plain_http in
  ∃ w', ServeHTTP 2 sample_handler (get_request "expense-calc.example.com" "/nope") newResponse = Ok w'.
Proof.
  intros U N. apply (@ServeHTTP_total U N); [lia| |].
  - intros t Ht. vm_compute in Ht. injection Ht as <-. discriminate.
  - intros t tree [= <-]. intros Hf. vm_compute in Hf. discriminate.
Defined.

Lemma serve_plain_get_witness :
  let U := ascii_only_unicode in let N := plain_http in
  ∃ w', ServeHTTP 1 sample_handler (get_request "expense-calc.example.com" "/docs/a.css") newResponse = Ok w' ∧
        status_of w' = Some StatusOK ∧ Some (wBody w') = Some "a{}".
Proof.
  intros U N.
  destruct (@serve_plain_get U N 0 sample_handler (get_request "expense-calc.example.com" "/docs/a.css")
    (mkTarget "expense-calc" "published" false false SourceHost "") sample_tree ["docs"; "a.css"])
    as (w' & Hw & Hst & Hb & _); [|vm_compute; reflexivity| .. |exists w'; auto];
    try reflexivity; try (apply (bool_decide_unpack _); vm_compute; exact I).
  - split; [reflexivity|]. intros k _. unfold hget. reflexivity.
Defined.
