(* ===== verification/TreeProvider.v ===== *)
(** * Tree providers (serve/treeprovider.go)

    The provider that maps a target to a materialised tree through the site
    service, and the preview cache in front of it.  A cached [Tree] call holds
    the mutex twice, around the lookup and around the store, and calls the inner
    provider in between: [cache_lookup] and [cache_store] are the two critical
    sections, [creach] their arbitrary interleavings.  [evict_order] is the order
    in which the run iterates over the map of entries. *)

From S2P Require Import Prelude GoStrings SiteErrors SiteTypes Handle Resolver Preview Serve.

(** ** ServiceTreeProvider *)

(** What the provider asks of site.Service, and the optional redirect lookup. *)
Record siteResolver := mkSiteResolver {
  GetSiteByHandle : string → Res err Site;
  ServedTree : uuid → string → Res err SiteTypes.TreeHandle;
  ResolveRedirect : option (string → Res err (option string));
  open_fs : string → FS;
}.

Definition Tree (p : siteResolver) (t : Target) : Res tree_err TreeHandle :=
  let branch := if (tBranch t =? "")%string then BranchPublished else tBranch t in
  match GetSiteByHandle p (tHandle t) with
  | Err e =>
      if errors_is e ErrNotFound then
        match ResolveRedirect p with
        | Some f =>
            match f (tHandle t) with
            | Ok (Some nh) => Err (RedirectError nh)
            | _ => Err ErrSiteNotFound
            end
        | None => Err ErrSiteNotFound
        end
      else Err (ETreeOther (err_text e))
  | Ok s =>
      match ServedTree p (site_ID s) branch with
      | Err e => if errors_is e ErrNotFound then Err ErrBranchNotFound
                 else Err (ETreeOther (err_text e))
      | Ok th =>
          if negb (th_Exists th) then Err ErrBranchNotFound
          else Ok (mkTree (open_fs p (th_Root th)) (th_CommitSHA th) (th_CommitTime th)
                          (site_ID s) (site_CacheVersion s) true)
      end
  end.

(** ** CachingTreeProvider *)

Record cacheEntry := mkEntry { ce_th : TreeHandle; ce_expires : time; ce_lastUsed : time }.
Record CachingTreeProvider := mkCaching {
  entries : gmap string cacheEntry;
  lruOrder : list string;
}.
Definition NewCachingTreeProvider : CachingTreeProvider := mkCaching ∅ [].

Section cache.
Context (ttl : Z) (max : Z).

Definition cache_key (t : Target) : string := tHandle t +:+ String NUL "" +:+ tBranch t.
Definition bypass (t : Target) : bool := negb (tIsPreview t) || (ttl <=? 0)%Z || (max <=? 0)%Z.

(** The first critical section; [n1] and [n2] are its readings of the clock. *)
Definition cache_lookup (key : string) (n1 n2 : time) (c : CachingTreeProvider)
    : CachingTreeProvider * option TreeHandle :=
  match entries c !! key with
  | Some e =>
      if (n1 <? ce_expires e)%Z
      then (mkCaching (<[key := mkEntry (ce_th e) (ce_expires e) n2]> (entries c)) (lruOrder c),
            Some (ce_th e))
      else (c, None)
  | None => (c, None)
  end.

(** [for k, e := range c.entries]: the least recently used of the entries seen *)
Definition victim_step (acc : string * time) (ke : string * cacheEntry) : string * time :=
  if (acc.1 =? "")%string || (ce_lastUsed ke.2 <? acc.2)%Z then (ke.1, ce_lastUsed ke.2) else acc.
Definition pick_victim (l : list (string * cacheEntry)) : string :=
  (foldl victim_step ("", Http.zero_time) l).1.

(** [order] lists the entries in the order the run visits the map. *)
Definition evictIfNeededLocked (order : list (string * cacheEntry)) (c : CachingTreeProvider)
    : CachingTreeProvider :=
  if (Z.of_nat (size (entries c)) <? max)%Z then c
  else
    let victimKey := pick_victim order in
    let es := if negb (victimKey =? "")%string then delete victimKey (entries c) else entries c in
    mkCaching es (if (4 * max <? Z.of_nat (length (lruOrder c)))%Z then [] else lruOrder c).

(** The second critical section: store what the inner provider returned. *)
Definition cache_store (key : string) (th : TreeHandle) (now : time)
    (order : list (string * cacheEntry)) (c : CachingTreeProvider) : CachingTreeProvider :=
  let c := evictIfNeededLocked order c in
  mkCaching (<[key := mkEntry th (now + ttl)%Z now]> (entries c)) (lruOrder c ++ [key]).

(** One uncontended call: lookup, inner provider, store. *)
Definition CachedTree (inner : Target → Res tree_err TreeHandle) (t : Target) (n1 n2 n3 : time)
    (c : CachingTreeProvider) : CachingTreeProvider * Res tree_err TreeHandle :=
  if bypass t then (c, inner t)
  else
    let key := cache_key t in
    match cache_lookup key n1 n2 c with
    | (c, Some th) => (c, Ok th)
    | (c, None) =>
        match inner t with
        | Err e => (c, Err e)
        | Ok th => (cache_store key th n3 (map_to_list (entries c)) c, Ok th)
        end
    end.

(** ** Interleavings

  [log] records every store: when, under which key, and what. *)
Inductive creach : CachingTreeProvider → list (time * string * TreeHandle) → Prop :=
| creach_init : creach NewCachingTreeProvider []
| creach_lookup c log key n1 n2 :
  creach c log → creach (cache_lookup key n1 n2 c).1 log
| creach_store c log t th now order :
  creach c log → order ≡ₚ map_to_list (entries c) →
  creach (cache_store (cache_key t) th now order c) ((now, cache_key t, th) :: log).

Lemma cache_key_ne t : cache_key t ≠ "".
Proof. unfold cache_key. by intros [_ [=]]%str_app_eq_nil. Qed.

(** Keys of valid targets do not collide. *)
Lemma cache_key_inj t t' :
  no_char NUL (tHandle t) = true → no_char NUL (tHandle t') = true →
  cache_key t = cache_key t' → tHandle t = tHandle t' ∧ tBranch t = tBranch t'.
Proof.
  intros H H' E%(f_equal (split NUL)). unfold cache_key in E.
  change (String NUL "" +:+ ?b) with (String NUL b) in E.
  rewrite !split_app in E by done. injection E as -> E. by apply split_inj in E.
Qed.

Lemma pick_victim_spec l :
  Forall (λ ke, ke.1 ≠ "") l → l ≠ [] →
  ∃ e, (pick_victim l, e) ∈ l ∧ ∀ ke, ke ∈ l → (ce_lastUsed e ≤ ce_lastUsed ke.2)%Z.
Proof.
  intros Hl Hne. unfold pick_victim.
  assert (∀ l acc seen,
    Forall (λ ke : string * cacheEntry, ke.1 ≠ "") l →
    (acc.1 = "" ∧ seen = [] ∨ ∃ e, (acc.1, e) ∈ seen ∧ acc.1 ≠ "" ∧ acc.2 = ce_lastUsed e ∧
       ∀ ke, ke ∈ seen → (acc.2 ≤ ce_lastUsed ke.2)%Z) →
    l ++ seen ≠ [] →
    ∃ e, ((foldl victim_step acc l).1, e) ∈ l ++ seen ∧
      ∀ ke, ke ∈ l ++ seen → (ce_lastUsed e ≤ ce_lastUsed ke.2)%Z) as Hgo.
  { clear l Hl Hne. induction l as [|[k e] l IH]; intros acc seen Hl Hacc Hne; simpl in *.
    { destruct Hacc as [[_ ->]|(e & He & _ & E & Hmin)]; [done|]. exists e. rewrite <-E. auto. }
    apply Forall_cons_1 in Hl as [Hk Hl].
    destruct (IH (victim_step acc (k, e)) ((k, e) :: seen)) as (e' & He' & Hmin'); [done| |by destruct l|].
    - right. unfold victim_step. simpl. destruct Hacc as [[-> ->]|(e0 & He0 & Hn & E & Hmin)].
      + exists e. simpl. split_and!; [by left|done..|]. intros ke [->|[]%not_elem_of_nil]%elem_of_cons. done.
      + pose proof Hn as Hn'. apply String.eqb_neq in Hn' as ->. simpl. destruct (Z.ltb_spec (ce_lastUsed e) acc.2).
        * exists e. simpl. split_and!; [by left|done..|]. intros ke [->|Hin]%elem_of_cons; [done|].
          apply Hmin in Hin. lia.
        * exists e0. split_and!; [by right|done..|].
          intros ke [->|Hin]%elem_of_cons; [done|]. by apply Hmin.
    - exists e'. split.
      + revert He'. rewrite elem_of_app, !elem_of_cons, elem_of_app. tauto.
      + intros ke Hin. apply Hmin'. revert Hin. rewrite elem_of_cons, !elem_of_app, elem_of_cons. tauto. }
  destruct (Hgo l ("", Http.zero_time) []) as (e & He & Hm); rewrite ?app_nil_r; eauto.
  exists e. rewrite app_nil_r in *. auto.
Qed.

(** Every entry is what the inner provider returned for that key, less than
  [ttl] before it expires; and the entries are at most [max]. *)
Definition cache_ok (c : CachingTreeProvider) (log : list (time * string * TreeHandle)) : Prop :=
  (Z.of_nat (size (entries c)) ≤ max)%Z ∧
  map_Forall (λ k e, k ≠ "" ∧ ∃ at_, (at_, k, ce_th e) ∈ log ∧ ce_expires e = (at_ + ttl)%Z) (entries c).

Lemma evict_size order c :
  (0 < max)%Z → order ≡ₚ map_to_list (entries c) →
  (Z.of_nat (size (entries c)) ≤ max)%Z → map_Forall (λ k _, k ≠ "") (entries c) →
  (Z.of_nat (size (entries (evictIfNeededLocked order c))) < max)%Z ∧
  entries (evictIfNeededLocked order c) ⊆ entries c.
Proof.
  intros Hmax Ho Hs Hk. unfold evictIfNeededLocked. destruct (Z.ltb_spec (Z.of_nat (size (entries c))) max); [done|].
  assert (order ≠ []) as Hne.
  { intros ->. apply Permutation_nil, map_to_list_empty_iff in Ho. rewrite Ho, map_size_empty in *. lia. }
  destruct (pick_victim_spec order) as (e & He & _); [|done|].
  { rewrite Ho. apply Forall_forall. intros [k e] Hin%elem_of_map_to_list. by eapply Hk. }
  apply (elem_of_Permutation_proper _ _ _ Ho), elem_of_map_to_list in He.
  assert (pick_victim order ≠ "") as Hv by (by eapply Hk). apply String.eqb_neq in Hv as ->.
  cbn [negb entries]. rewrite map_size_delete, He. simpl. split; [|apply delete_subseteq].
  assert (size (entries c) ≠ 0); [|lia].
  intros E%map_size_empty_iff. by rewrite E, lookup_empty in He.
Qed.

Lemma creach_ok c log : (0 < max)%Z → creach c log → cache_ok c log.
Proof.
  intros Hmax. induction 1 as [|c log key n1 n2 Hc [IHs IHe]|c log t th now order Hc [IHs IHe] Ho].
  - split; [simpl; rewrite map_size_empty; lia|]. apply map_Forall_empty.
  - unfold cache_lookup. destruct (entries c !! key) as [e|] eqn:Hk; [|done].
    destruct (n1 <? ce_expires e)%Z; [|done]. split; simpl.
    + rewrite map_size_insert, Hk. done.
    + apply map_Forall_insert_2; [|done]. by apply (IHe _ _ Hk).
  - destruct (evict_size order c) as [Hs Hsub]; [done..| |].
    { eapply map_Forall_impl; [exact IHe|]. by intros ?? []. }
    unfold cache_store. set (c' := evictIfNeededLocked order c) in *. split; simpl.
    + rewrite map_size_insert. destruct (entries c' !! _); simpl; lia.
    + apply map_Forall_insert_2.
      * split; [apply cache_key_ne|]. exists now. simpl. split; [by left|done].
      * intros k e Hk. eapply lookup_weaken in Hk; [|exact Hsub].
        destruct (IHe _ _ Hk) as (? & at_ & ? & ?). split; [done|]. exists at_. split; [by right|done].
Qed.

(** The preview cache stays bounded and never serves anything
  stale beyond its time to live, however concurrent requests interleave their
  critical sections and in whatever order the runtime iterates over the map:
  there are never more than [max] entries, and a tree served from the cache
  was returned by the site service for that very handle and branch less than
  [ttl] ago. *)
Theorem preview_cache_sound (c : CachingTreeProvider) (log : list (time * string * TreeHandle))
    (t : Target) (n1 n2 : time) (c' : CachingTreeProvider) (th : TreeHandle) :
  (0 < max)%Z → creach c log →
  (Z.of_nat (size (entries c)) ≤ max)%Z ∧
  (cache_lookup (cache_key t) n1 n2 c = (c', Some th) →
   ∃ at_, (at_, cache_key t, th) ∈ log ∧ (n1 < at_ + ttl)%Z).
Proof.
  intros Hmax [Hs He]%creach_ok; [|done]. split; [done|]. unfold cache_lookup.
  destruct (entries c !! cache_key t) as [e|] eqn:Hk; [|done].
  destruct (Z.ltb_spec n1 (ce_expires e)) as [Hn|]; [|done]. intros [= _ <-].
  destruct (He _ _ Hk) as (_ & at_ & Hin & Hx). exists at_. rewrite <-Hx. done.
Qed.
End cache.

Lemma preview_cache_sound_witness :
  let t := mkTarget "expense-calc" "draft" true false SourceHost "" in
  let th := mkTree (mkFS (λ _, None) (λ _, None)) "c1" 0%Z 7%N 0%Z true in
  let c := cache_store 100 5 (cache_key t) th 0%Z [] NewCachingTreeProvider in
  ∃ c' at_, cache_lookup (cache_key t) 50%Z 51%Z c = (c', Some th) ∧ (50 < at_ + 100)%Z.
Proof.
  intros t th c.
  destruct (cache_lookup (cache_key t) 50%Z 51%Z c) as [c' [th'|]] eqn:E; [|vm_compute in E; discriminate].
  assert (th' = th) as -> by (vm_compute in E; injection E as _ <-; reflexivity).
  destruct (preview_cache_sound 100 5 c [(0%Z, cache_key t, th)] t 50%Z 51%Z c' th) as [_ H].
  - lia.
  - apply (creach_store 100 5 NewCachingTreeProvider [] t th 0%Z []); [constructor|].
    vm_compute. constructor.
  - destruct (H E) as (at_ & _ & Hat). exists c', at_. split; [reflexivity|exact Hat].
Defined.
