(* ===== verification/Lockout.v ===== *)
(** * Login lockout and single-use login states (auth/lockout.go, auth/singleuse.go)

    Two in-memory guards under a mutex: every method is one step.  A [range]
    that deletes from the map it visits is a filter of the map. *)

From S2P Require Import Prelude GoStrings SiteTypes Preview.

(** ** lockout.go *)

Definition lockoutThreshold : nat := 5.
Definition lockoutBaseDelay : Z := second.
Definition lockoutMaxDelay : Z := (15 * 60 * second)%Z.
Definition lockoutEntryTTL : Z := (30 * 60 * second)%Z.

Record lockoutEntry := mkLockEntry { failures : nat; lockedUntil : time; lastSeen : time }.
Record loginLockout := mkLockout {
  lk_entries : gmap string lockoutEntry;
  lk_lastSweep : time;
  lk_threshold : nat;
  lk_base : Z;
  lk_max : Z;
  lk_ttl : Z;
}.
Definition newLoginLockout (now : time) : loginLockout :=
  mkLockout ∅ now lockoutThreshold lockoutBaseDelay lockoutMaxDelay lockoutEntryTTL.
Definition with_entries (es : gmap string lockoutEntry) (l : loginLockout) : loginLockout :=
  mkLockout es (lk_lastSweep l) (lk_threshold l) (lk_base l) (lk_max l) (lk_ttl l).
Definition setClock (now : time) (l : loginLockout) : loginLockout :=
  mkLockout (lk_entries l) now (lk_threshold l) (lk_base l) (lk_max l) (lk_ttl l).

(** The eviction test: idle past the TTL and not locked. *)
Definition evictable (ttl : Z) (now : time) (e : lockoutEntry) : bool :=
  (ttl <=? now - lastSeen e)%Z && negb (now <? lockedUntil e)%Z.
Definition maybeSweepLocked (now : time) (l : loginLockout) : loginLockout :=
  if (now - lk_lastSweep l <? lk_ttl l)%Z then l
  else mkLockout (filter (λ ke, evictable (lk_ttl l) now ke.2 = false) (lk_entries l)) now
                 (lk_threshold l) (lk_base l) (lk_max l) (lk_ttl l).

Definition locked (key : string) (now : time) (l : loginLockout) : loginLockout * (bool * Z) :=
  if (key =? "")%string then (l, (false, 0%Z))
  else
    let l := maybeSweepLocked now l in
    match lk_entries l !! key with
    | None => (l, (false, 0%Z))
    | Some e =>
        let l := with_entries (<[key := mkLockEntry (failures e) (lockedUntil e) now]> (lk_entries l)) l in
        if (now <? lockedUntil e)%Z then (l, (true, (lockedUntil e - now)%Z)) else (l, (false, 0%Z))
    end.

(** [for i := 0; i < exp && delay < max; i++ { delay *= 2 }] *)
Fixpoint double_until (exp : nat) (max delay : Z) : Z :=
  match exp with
  | 0 => delay
  | S exp => if (delay <? max)%Z then double_until exp max (delay * 2)%Z else delay
  end.
Definition backoff (l : loginLockout) (n : nat) : Z :=
  Z.min (double_until (n - lk_threshold l) (lk_max l) (lk_base l)) (lk_max l).

Definition recordFailure (key : string) (now : time) (l : loginLockout) : loginLockout * Z :=
  if (key =? "")%string then (l, 0%Z)
  else
    let l := maybeSweepLocked now l in
    let e := default (mkLockEntry 0 Http.zero_time Http.zero_time) (lk_entries l !! key) in
    let n := S (failures e) in
    if n <? lk_threshold l
    then (with_entries (<[key := mkLockEntry n (lockedUntil e) now]> (lk_entries l)) l, 0%Z)
    else
      let delay := backoff l n in
      (with_entries (<[key := mkLockEntry n (now + delay)%Z now]> (lk_entries l)) l, delay).

Definition recordSuccess (key : string) (l : loginLockout) : loginLockout :=
  if (key =? "")%string then l else with_entries (delete key (lk_entries l)) l.

(** ** Facts *)

Lemma double_until_spec exp max delay :
  (0 < delay)%Z → Z.min (double_until exp max delay) max = Z.min (delay * 2 ^ Z.of_nat exp) max.
Proof.
  revert delay. induction exp as [|exp IH]; intros delay Hd; cbn [double_until].
  - by rewrite Z.mul_1_r.
  - rewrite Nat2Z.inj_succ, Z.pow_succ_r by lia.
    destruct (Z.ltb_spec delay max).
    + rewrite IH by lia. f_equal. ring.
    + pose proof (Z.pow_pos_nonneg 2 (Z.of_nat exp)). nia.
Qed.

Definition same_params (l l' : loginLockout) : Prop :=
  lk_threshold l' = lk_threshold l ∧ lk_base l' = lk_base l ∧ lk_max l' = lk_max l ∧ lk_ttl l' = lk_ttl l.
Lemma sweep_params now l : same_params l (maybeSweepLocked now l).
Proof. unfold maybeSweepLocked. by destruct (_ <? _)%Z. Qed.
Lemma backoff_params l l' n : same_params l l' → backoff l' n = backoff l n.
Proof. unfold backoff. by intros (-> & -> & -> & _). Qed.
Lemma sweep_keeps_locked now l key e :
  lk_entries l !! key = Some e → (now < lockedUntil e)%Z →
  lk_entries (maybeSweepLocked now l) !! key = Some e.
Proof.
  intros He Hn. unfold maybeSweepLocked. destruct (_ <? _)%Z; [done|]. simpl.
  apply map_lookup_filter_Some. split; [done|]. unfold evictable. simpl.
  by rewrite (proj2 (Z.ltb_lt _ _)), andb_false_r.
Qed.

(** What other requests may do meanwhile. *)
Inductive lockout_op :=
| OpLocked (key : string) (now : time)
| OpFailure (key : string) (now : time)
| OpSuccess (key : string) (now : time).
Definition op_time (o : lockout_op) : time :=
  match o with OpLocked _ t | OpFailure _ t | OpSuccess _ t => t end.
Definition apply_op (l : loginLockout) (o : lockout_op) : loginLockout :=
  match o with
  | OpLocked k t => (locked k t l).1
  | OpFailure k t => (recordFailure k t l).1
  | OpSuccess k _ => recordSuccess k l
  end.

(** [key] has at least [n] recorded failures and is locked until [u] or later. *)
Definition locked_until (key : string) (n : nat) (u : time) (l : loginLockout) : Prop :=
  ∃ e, lk_entries l !! key = Some e ∧ n ≤ failures e ∧ (u ≤ lockedUntil e)%Z.

Lemma backoff_mono l n m : (0 < lk_base l)%Z → n ≤ m → (backoff l n ≤ backoff l m)%Z.
Proof.
  intros Hb Hnm. unfold backoff. rewrite !double_until_spec by done.
  apply Z.min_le_compat_r, Z.mul_le_mono_nonneg_l; [lia|]. apply Z.pow_le_mono_r; lia.
Qed.

Lemma apply_op_locked l o key n t0 :
  let u := (t0 + backoff l n)%Z in
  (0 < lk_base l)%Z → lk_threshold l ≤ n → key ≠ "" → locked_until key n u l →
  (∀ t, o ≠ OpSuccess key t) → (t0 ≤ op_time o < u)%Z →
  locked_until key n u (apply_op l o) ∧ same_params l (apply_op l o).
Proof.
  intros u Hb Hn Hkey (e & He & Hf & Hu) Ho Ht.
  assert (∀ now, (now < u)%Z → lk_entries (maybeSweepLocked now l) !! key = Some e) as Hsw.
  { intros now Hnow. apply sweep_keeps_locked; [done|]. lia. }
  destruct o as [k t|k t|k t]; simpl in Ht |- *.
  - unfold locked. destruct (k =? "")%string; [split; [by exists e|done]|].
    specialize (Hsw t ltac:(lia)). pose proof (sweep_params t l) as Hp.
    set (l1 := maybeSweepLocked t l) in *. destruct (lk_entries l1 !! k) as [e'|] eqn:Hk;
      [|split; [by exists e|done]].
    destruct (t <? lockedUntil e')%Z; (split; [|done]); simpl;
      (destruct (decide (k = key)) as [->|]; unfold locked_until; simpl;
       [rewrite lookup_insert_eq|rewrite lookup_insert_ne by done]); naive_solver.
  - unfold recordFailure. destruct (k =? "")%string; [split; [by exists e|done]|].
    specialize (Hsw t ltac:(lia)). pose proof (sweep_params t l) as Hp.
    set (l1 := maybeSweepLocked t l) in *. set (e' := default _ _).
    assert (lk_threshold l1 = lk_threshold l) as Hth by apply Hp.
    destruct (Nat.ltb_spec (S (failures e')) (lk_threshold l1)) as [Hlt|Hge];
      (split; [|done]); unfold locked_until; simpl;
      (destruct (decide (k = key)) as [->|]; [|rewrite lookup_insert_ne by done; by exists e]).
    + exfalso. unfold e' in Hlt. rewrite Hsw in Hlt. simpl in Hlt. lia.
    + rewrite lookup_insert_eq. eexists. split; [done|]. unfold e' in *. rewrite Hsw. simpl.
      split; [lia|]. rewrite (backoff_params l l1) by done.
      pose proof (backoff_mono l n (S (failures e)) Hb ltac:(lia)). unfold u. lia.
  - unfold recordSuccess. destruct (k =? "")%string; [split; [by exists e|done]|].
    split; [|done]. exists e. split; [|done]. simpl. rewrite lookup_delete_ne; [done|].
    intros ->. by apply (Ho t).
Qed.

Lemma ops_locked ops l key n t0 :
  let u := (t0 + backoff l n)%Z in
  (0 < lk_base l)%Z → lk_threshold l ≤ n → key ≠ "" → locked_until key n u l →
  Forall (λ o, (∀ t, o ≠ OpSuccess key t) ∧ (t0 ≤ op_time o < u)%Z) ops →
  locked_until key n u (foldl apply_op l ops) ∧ same_params l (foldl apply_op l ops).
Proof.
  revert l. induction ops as [|o ops IH]; intros l u Hb Hn Hkey Hl Hops; [by split|].
  apply Forall_cons_1 in Hops as [[Ho Ht] Hops].
  destruct (apply_op_locked l o key n t0) as [Hl' Hp]; [done..|]. fold u in Hl'.
  destruct (IH (apply_op l o)) as [Hl'' Hp'].
  - destruct Hp as (_ & -> & _). done.
  - destruct Hp as (-> & _). done.
  - done.
  - by rewrite (backoff_params l (apply_op l o)).
  - by rewrite (backoff_params l (apply_op l o)).
  - rewrite (backoff_params l (apply_op l o)) in Hl'' by done. split; [done|].
    unfold same_params in *. destruct_and!. simpl; split_and!; congruence.
Qed.

(** A lockout is served in full.  When the failure counter of a
    source reaches [n >= threshold], the delay is exactly
    [min (base * 2^(n - threshold)) max], and nothing other sources do, no
    eviction sweep and no further failure of the same source shortens it: until
    a successful login of that source, every check before the delay has
    elapsed answers that it is locked. *)
Theorem lockout_served (l l1 : loginLockout) (key : string) (t0 now : time) (d : Z) (e : lockoutEntry)
    (ops : list lockout_op) :
  (0 < lk_base l)%Z → (0 < lk_max l)%Z → key ≠ "" →
  recordFailure key t0 l = (l1, d) → lk_entries l1 !! key = Some e →
  let n := failures e in
  d = (if decide (n < lk_threshold l)%nat then 0
       else Z.min (lk_base l * 2 ^ Z.of_nat (n - lk_threshold l)) (lk_max l))%Z ∧
  (lk_threshold l ≤ n →
   Forall (λ o, (∀ t, o ≠ OpSuccess key t) ∧ (t0 ≤ op_time o < t0 + d)%Z) ops →
   (t0 ≤ now < t0 + d)%Z →
   ∃ wait, (locked key now (foldl apply_op l1 ops)).2 = (true, wait) ∧ (t0 + d - now ≤ wait)%Z).
Proof.
  intros Hb Hmax Hkey Hrec He n. unfold recordFailure in Hrec.
  apply String.eqb_neq in Hkey as Hke. rewrite Hke in Hrec.
  pose proof (sweep_params t0 l) as Hp. set (l0 := maybeSweepLocked t0 l) in *.
  set (e0 := default _ _) in Hrec.
  assert (lk_threshold l0 = lk_threshold l) as Hth by apply Hp.
  destruct (Nat.ltb_spec (S (failures e0)) (lk_threshold l0)) as [Hlt|Hge];
    injection Hrec as <- <-; simpl in He; rewrite lookup_insert_eq in He; injection He as <-;
    simpl in n.
  - rewrite decide_True by (unfold n; lia). split; [done|]. unfold n. lia.
  - rewrite decide_False by (unfold n; lia). split.
    { rewrite (backoff_params l l0) by done. unfold backoff. by rewrite double_until_spec. }
    intros _ Hops Hnow. set (l1 := with_entries _ l0) in *.
    assert (same_params l0 l1) as Hp1 by done.
    rewrite <-(backoff_params l0 l1) in Hops, Hnow by done.
    rewrite <-(backoff_params l0 l1) by done.
    destruct (ops_locked ops l1 key n t0) as [(e & He & _ & Hu) _]; [|simpl; lia|done| |done|].
    { destruct Hp as (_ & E & _). simpl. by rewrite E. }
    { eexists. split; [apply lookup_insert_eq|]. simpl. rewrite (backoff_params l0 l1) by done.
      unfold n. split; [done|]. unfold n. lia. }
    unfold locked. rewrite Hke.
    rewrite (sweep_keeps_locked now _ key e) by (done || unfold n in Hu; lia).
    rewrite (proj2 (Z.ltb_lt _ _)) by (unfold n in Hu; lia).
    eexists. split; [done|]. unfold n in Hu. lia.
Qed.

Definition five_failures : loginLockout :=
  foldl apply_op (newLoginLockout 0%Z) (replicate 5 (OpFailure "ip" 0%Z)).

Lemma lockout_served_witness :
  ∃ wait, (locked "ip" second (foldl apply_op (recordFailure "ip" 0%Z five_failures).1
                                 [OpFailure "other" 1%Z; OpLocked "ip" 2%Z])).2 = (true, wait).
Proof.
  destruct (recordFailure "ip" 0%Z five_failures) as [l1 d] eqn:E.
  destruct (lk_entries l1 !! "ip") as [e|] eqn:He; [|vm_compute in E; injection E as <- _; discriminate He].
  destruct (lockout_served five_failures l1 "ip" 0%Z second d e [OpFailure "other" 1%Z; OpLocked "ip" 2%Z])
    as [Hd Hl]; [vm_compute; reflexivity|vm_compute; reflexivity|discriminate|exact E|exact He|].
  vm_compute in E. injection E as <- <-. vm_compute in He. injection He as <-.
  destruct Hl as (wait & Hw & _).
  - vm_compute. lia.
  - repeat constructor; try discriminate; vm_compute; discriminate || reflexivity.
  - vm_compute. split; [discriminate|reflexivity].
  - exists wait. exact Hw.
Defined.

(** ** singleuse.go *)

Definition singleUseMaxEntries : Z := 100000.
Definition singleUseSweepInterval : Z := (60 * second)%Z.

Record memSingleUseStore := mkSingleUse {
  su_entries : gmap string time;
  su_lastSweep : time;
  su_maxEntries : Z;
  su_sweepInterval : Z;
}.
Definition newMemSingleUseStore (now : time) : memSingleUseStore :=
  mkSingleUse ∅ now singleUseMaxEntries singleUseSweepInterval.
Definition su_setClock (now : time) (s : memSingleUseStore) : memSingleUseStore :=
  mkSingleUse (su_entries s) now (su_maxEntries s) (su_sweepInterval s).
Definition su_size (s : memSingleUseStore) : nat := size (su_entries s).

Definition evictExpiredLocked (now : time) (s : memSingleUseStore) : memSingleUseStore :=
  mkSingleUse (filter (λ ke, (now <? ke.2)%Z = true) (su_entries s))
              (su_lastSweep s) (su_maxEntries s) (su_sweepInterval s).
Definition su_maybeSweepLocked (now : time) (s : memSingleUseStore) : memSingleUseStore :=
  if (now - su_lastSweep s <? su_sweepInterval s)%Z then s
  else
    let s := evictExpiredLocked now s in
    mkSingleUse (su_entries s) now (su_maxEntries s) (su_sweepInterval s).

Definition Consume (key : string) (ttl : Z) (now : time) (s : memSingleUseStore)
    : memSingleUseStore * bool :=
  let s := su_maybeSweepLocked now s in
  let live := match su_entries s !! key with Some exp => (now <? exp)%Z | None => false end in
  if live then (s, false)
  else
    let full s := (su_maxEntries s <=? Z.of_nat (size (su_entries s)))%Z in
    let s := if full s then evictExpiredLocked now s else s in
    if full s then (s, false)
    else (mkSingleUse (<[key := (now + ttl)%Z]> (su_entries s)) (su_lastSweep s)
                      (su_maxEntries s) (su_sweepInterval s), true).

Record consume_op := mkConsume { co_key : string; co_ttl : Z; co_now : time }.
Definition do_consume (s : memSingleUseStore) (o : consume_op) : memSingleUseStore :=
  (Consume (co_key o) (co_ttl o) (co_now o) s).1.

(** Every change keeps live entries, and never grows past the cap. *)
Definition keeps_live (now : time) (s s' : memSingleUseStore) : Prop :=
  su_maxEntries s' = su_maxEntries s ∧
  ∀ k exp, su_entries s !! k = Some exp → (now < exp)%Z → su_entries s' !! k = Some exp.

Lemma evict_live now s : keeps_live now s (evictExpiredLocked now s).
Proof.
  split; [done|]. intros k exp Hk Hn. simpl. apply map_lookup_filter_Some. split; [done|].
  simpl. by apply Z.ltb_lt.
Qed.
Lemma evict_smaller now s : size (su_entries (evictExpiredLocked now s)) ≤ size (su_entries s).
Proof. apply map_subseteq_size, map_filter_subseteq. Qed.
Lemma su_sweep_live now s :
  keeps_live now s (su_maybeSweepLocked now s) ∧
  size (su_entries (su_maybeSweepLocked now s)) ≤ size (su_entries s).
Proof.
  unfold su_maybeSweepLocked. destruct (_ <? _)%Z; [done|].
  split; [apply (evict_live now s)|apply (evict_smaller now s)].
Qed.

Lemma Consume_live key ttl now s :
  keeps_live now s (Consume key ttl now s).1 ∧
  (Z.of_nat (size (su_entries s)) ≤ su_maxEntries s →
   Z.of_nat (size (su_entries (Consume key ttl now s).1)) ≤ su_maxEntries s)%Z.
Proof.
  unfold Consume. destruct (su_sweep_live now s) as [[Hm Hl] Hs].
  set (s1 := su_maybeSweepLocked now s) in *.
  destruct (match su_entries s1 !! key with Some exp => (now <? exp)%Z | None => false end) eqn:Hlive;
    [simpl; split; [done|lia]|].
  set (s2 := if (su_maxEntries s1 <=? _)%Z then evictExpiredLocked now s1 else s1).
  assert (keeps_live now s s2 ∧ size (su_entries s2) ≤ size (su_entries s1) ∧
          ∀ exp, su_entries s2 !! key = Some exp → (exp ≤ now)%Z) as ([Hm2 Hl2] & Hs2 & Hk2).
  { assert (∀ exp, su_entries s1 !! key = Some exp → (exp ≤ now)%Z) as Hk1.
    { intros exp He. rewrite He in Hlive. by apply Z.ltb_ge. }
    unfold s2. destruct (su_maxEntries s1 <=? _)%Z; [|split_and!; [done|lia|done]].
    destruct (evict_live now s1) as [Hme Hle]. pose proof (evict_smaller now s1).
    split_and!; [split; [by rewrite Hme|eauto]|lia|].
    intros exp He. simpl in He. apply map_lookup_filter_Some in He as [He _]. by apply Hk1. }
  destruct (Z.leb_spec (su_maxEntries s2) (Z.of_nat (size (su_entries s2)))); simpl.
  - split; [done|lia].
  - split.
    + split; [done|]. intros k exp Hk Hn. simpl. specialize (Hl2 _ _ Hk Hn).
      rewrite lookup_insert_ne; [done|]. intros ->. apply Hk2 in Hl2. lia.
    + intros _. rewrite map_size_insert. destruct (su_entries s2 !! key); simpl; lia.
Qed.

Lemma consumes_live ops s t exp key :
  Forall (λ o, (co_now o < exp)%Z) ops → su_entries s !! key = Some exp → (t < exp)%Z →
  su_entries (foldl do_consume s ops) !! key = Some exp.
Proof.
  revert s. induction ops as [|o ops IH]; intros s Hops Hk Ht; [done|].
  apply Forall_cons_1 in Hops as [Ho Hops]. simpl. apply IH; [done| |done].
  by apply (proj1 (Consume_live (co_key o) (co_ttl o) (co_now o) s)).
Qed.
Lemma consumes_bounded ops s :
  (Z.of_nat (size (su_entries s)) ≤ su_maxEntries s)%Z →
  (Z.of_nat (size (su_entries (foldl do_consume s ops))) ≤ su_maxEntries s)%Z ∧
  su_maxEntries (foldl do_consume s ops) = su_maxEntries s.
Proof.
  revert s. induction ops as [|o ops IH]; intros s Hs; [done|]. simpl.
  destruct (Consume_live (co_key o) (co_ttl o) (co_now o) s) as [[Hm _] Hb].
  fold (do_consume s o) in Hm, Hb.
  destruct (IH (do_consume s o)) as [H1 H2]; rewrite Hm in *; auto.
Qed.

(** A login state is accepted once.  After [Consume] has answered
    true for a key, it answers false for that key until its time to live has
    passed, whatever other keys are consumed in between, at any times within
    that window, with sweeps and forced evictions included; and from an empty
    store the number of entries never exceeds the cap, whatever is thrown at
    it. *)
Theorem single_use (s s1 : memSingleUseStore) (key : string) (ttl t : Z) (ops : list consume_op)
    (ttl' now : Z) :
  Consume key ttl t s = (s1, true) →
  Forall (λ o, (co_now o < t + ttl)%Z) ops → (now < t + ttl)%Z → (0 < ttl)%Z →
  (Consume key ttl' now (foldl do_consume s1 ops)).2 = false ∧
  (Z.of_nat (size (su_entries s)) ≤ su_maxEntries s →
   Z.of_nat (size (su_entries (foldl do_consume s1 ops))) ≤ su_maxEntries s)%Z.
Proof.
  intros Hc Hops Hnow Httl. split.
  - assert (su_entries s1 !! key = Some (t + ttl)%Z) as Hk.
    { unfold Consume in Hc. repeat case_match; simplify_eq; simpl; apply lookup_insert_eq. }
    apply (consumes_live ops s1 t) in Hk; [|done|lia].
    unfold Consume. set (s2 := foldl do_consume s1 ops) in *.
    destruct (su_sweep_live now s2) as [[_ Hl] _]. rewrite (Hl _ _ Hk) by done.
    by rewrite (proj2 (Z.ltb_lt _ _)).
  - intros Hs. destruct (Consume_live key ttl t s) as [[Hm _] Hb]. rewrite Hc in Hm, Hb.
    cbn [fst] in *. destruct (consumes_bounded ops s1) as [H1 _]; rewrite Hm in *; auto.
Qed.

Lemma single_use_witness :
  (Consume "state" 100 50%Z (foldl do_consume (Consume "state" 100 0%Z (newMemSingleUseStore 0%Z)).1
                             [mkConsume "other" 100 10%Z])).2 = false.
Proof.
  destruct (Consume "state" 100 0%Z (newMemSingleUseStore 0%Z)) as [s1 b] eqn:E.
  assert (b = true) as -> by (vm_compute in E; injection E as _ <-; reflexivity).
  refine (proj1 (single_use (newMemSingleUseStore 0%Z) s1 "state" 100 0 _ 100 50 E _ _ _));
    [repeat constructor; vm_compute; reflexivity|lia|lia].
Defined.
