(* ===== verification/RateLimit.v ===== *)
(** * Rate limiting and the client address (ratelimit/ratelimit.go)

    The keyed limiter over the token bucket of golang.org/x/time/rate (the
    class [TokenBucket]) and the extraction of the client address it is keyed
    on.  A rate is the rational number of tokens per second a float64 denotes. *)

From S2P Require Import Prelude GoStrings SiteTypes Http Preview.

Record Rate := mkRate { rps_num : Z; rps_den : positive }.

Class TokenBucket := {
  bucket : Type;
  NewBucket : Rate → Z → bucket;
  AllowN : bucket → time → Z → bucket * bool;
}.

Record Config := mkConfig { RPS : Rate; Burst : Z; TTL : Z }.
Definition defaultTTL : Z := (10 * 60 * second)%Z.

Section limiter.
Context `{TokenBucket}.

Record entry := mkEntry { lim : bucket; e_lastSeen : time }.
Record Limiter := mkLimiter {
  buckets : gmap string entry;
  l_rps : Rate;
  l_burst : Z;
  l_ttl : Z;
  l_disabled : bool;
  l_lastSweep : time;
  }.

(** The default burst: the rate rounded up, at least one. *)
Definition default_burst (r : Rate) : Z :=
  (let b := Z.quot (rps_num r) (Zpos (rps_den r)) in
   let b := if b * Zpos (rps_den r) <? rps_num r then b + 1 else b in
   if b <? 1 then 1 else b)%Z.

Definition New (cfg : Config) (now : time) : Limiter :=
  mkLimiter ∅ (RPS cfg)
    (if (Burst cfg <=? 0)%Z then default_burst (RPS cfg) else Burst cfg)
    (if (TTL cfg <=? 0)%Z then defaultTTL else TTL cfg)
    (rps_num (RPS cfg) <=? 0)%Z now.

Definition evictLocked (now : time) (l : Limiter) : Limiter :=
  mkLimiter (filter (λ ke, (now - e_lastSeen ke.2 <? l_ttl l)%Z = true) (buckets l))
            (l_rps l) (l_burst l) (l_ttl l) (l_disabled l) (l_lastSweep l).

Definition Allow (key : string) (now : time) (l : Limiter) : Limiter * bool :=
  if l_disabled l then (l, true)
  else
    let l := if (l_ttl l <=? now - l_lastSweep l)%Z
             then let l := evictLocked now l in
                  mkLimiter (buckets l) (l_rps l) (l_burst l) (l_ttl l) (l_disabled l) now
             else l in
    let b := match buckets l !! key with
             | Some e => lim e
             | None => NewBucket (l_rps l) (l_burst l)
             end in
    let '(b, allowed) := AllowN b now 1 in
    (mkLimiter (<[key := mkEntry b now]> (buckets l)) (l_rps l) (l_burst l) (l_ttl l)
               (l_disabled l) (l_lastSweep l), allowed).
Definition Len (l : Limiter) : nat := size (buckets l).

(** The middleware's verdict: whether [next] runs. *)
Definition Middleware (key : Request → string) (r : Request) (now : time) (l : Limiter) : Limiter * bool :=
  let k := key r in
  if (k =? "")%string then (l, true) else Allow k now l.

(** A key's bucket is its own: what one key does never changes the bucket
  another key has, except by dropping it after it was idle for the TTL. *)
Lemma Allow_other key key' now l l' b e :
  Allow key now l = (l', b) → key ≠ key' → buckets l !! key' = Some e →
  (now - e_lastSeen e < l_ttl l)%Z → buckets l' !! key' = Some e.
Proof.
  unfold Allow. destruct (l_disabled l); [by intros [= <- _]|]. intros Ha Hk He Hi.
  set (l1 := if (l_ttl l <=? _)%Z then _ else l) in Ha.
  assert (buckets l1 !! key' = Some e) as He1.
  { unfold l1. destruct (_ <=? _)%Z; [|done]. simpl. apply map_lookup_filter_Some.
    split; [done|]. simpl. by apply Z.ltb_lt. }
  destruct (AllowN _ now 1) as [b' ok]. injection Ha as <- _. simpl.
  by rewrite lookup_insert_ne.
Qed.
End limiter.

(** ** The client address *)

Definition defaultTrustedProxyHops : Z := 1.

Definition is_blank (c : ascii) : bool := (c =? " ")%char || (c =? "009")%char.
Definition trimSpace (s : string) : string := trim_with is_blank s.

(** [s[:end]] is carried instead of [s] and [end]. *)
Fixpoint nth_go (n : nat) (s : string) : string :=
  match n with
  | 0 => ""
  | S n =>
      let i := last_index_byte "," s in
      let tok := trimSpace (match i with Some i => str_drop (i + 1) s | None => s end) in
      match n, i with
      | 0, _ => tok
      | _, None => ""
      | _, Some i => nth_go n (str_take i s)
      end
  end.
Definition nthFromRight (s : string) (n : Z) : string := nth_go (Z.to_nat n) s.

Definition remote_host (r : Request) : string :=
  match split_host_port (rRemoteAddr r) with Some (h, _) => h | None => rRemoteAddr r end.

Definition ClientIPHops (r : Request) (trustForwarded : bool) (trustedHops : Z) : string :=
  if trustForwarded then
    let trustedHops := if (trustedHops <? 1)%Z then 1%Z else trustedHops in
    let xff := hget (rHeader r) "X-Forwarded-For" in
    let xrip := hget (rHeader r) "X-Real-Ip" in
    if negb (xff =? "")%string then
      let ip := nthFromRight xff trustedHops in
      if negb (ip =? "")%string then ip else remote_host r
    else if negb (xrip =? "")%string then trimSpace xrip
    else remote_host r
  else remote_host r.
Definition ClientIP (r : Request) (trustForwarded : bool) : string :=
  ClientIPHops r trustForwarded defaultTrustedProxyHops.

(** The reference: the list of tokens, read from the right. *)
Lemma nth_go_spec n s :
  nth_go (S n) s = default "" (trimSpace <$> rev (split "," s) !! n).
Proof.
  revert s. induction n as [|n IH]; intros s.
  - cbn [nth_go]. destruct (last_index_byte "," s) as [i|] eqn:Hi.
    + apply last_index_Some in Hi as [Hs Hn].
      rewrite Hs at 2. by rewrite split_app_last, rev_unit.
    + rewrite split_single; [done|]. by apply last_index_None.
  - remember (S n) as k. cbn [nth_go]. destruct (last_index_byte "," s) as [i|] eqn:Hi; subst k.
    + apply last_index_Some in Hi as [Hs Hn]. rewrite IH. f_equal. f_equal.
      rewrite Hs at 2. by rewrite split_app_last, rev_unit.
    + rewrite split_single; [done|]. by apply last_index_None.
Qed.

(** The address requests are limited by cannot be forged from
    the left.  The hand-written scan is the n-th token from the right of the
    comma-separated list; so, with [n] trusted proxies in front, whatever a
    client puts in X-Forwarded-For before the [n] tokens they append, the key is
    the token the outermost trusted proxy wrote; a list that is too short, or an
    empty token, falls back to the TCP peer; and without trusted proxies no
    header counts at all. *)
Theorem ClientIP_unforgeable (r : Request) (n : Z) (spoofed appended : string) :
  let xff := hget (rHeader r) "X-Forwarded-For" in
  (1 ≤ n)%Z →
  nthFromRight xff n = default "" (trimSpace <$> rev (split "," xff) !! Z.to_nat (n - 1)) ∧
  (Z.of_nat (length (split "," appended)) = n →
   xff = spoofed +:+ "," +:+ appended →
   ClientIPHops r true n =
     let ip := trimSpace (hd "" (split "," appended)) in
     if (ip =? "")%string then remote_host r else ip) ∧
  ((Z.of_nat (length (split "," xff)) < n)%Z → xff ≠ "" → ClientIPHops r true n = remote_host r) ∧
  ClientIPHops r false n = remote_host r.
Proof.
  intros xff Hn.
  assert (∀ s, nthFromRight s n = default "" (trimSpace <$> rev (split "," s) !! Z.to_nat (n - 1))) as Hspec.
  { intros s. unfold nthFromRight. replace (Z.to_nat n) with (S (Z.to_nat (n - 1))) by lia.
    apply nth_go_spec. }
  split; [apply Hspec|]. unfold ClientIPHops. rewrite (proj2 (Z.ltb_ge n 1)) by done. fold xff.
  split_and!; [| |done].
  - intros Hlen Hx.
    assert (xff ≠ "") as Hne by (rewrite Hx; by intros [_ [=]]%str_app_eq_nil).
    apply String.eqb_neq in Hne as ->. cbn [negb]. rewrite Hspec, Hx.
    change ("," +:+ appended) with (String "," appended). rewrite split_app_gen.
    assert (rev (split "," spoofed ++ split "," appended) !! Z.to_nat (n - 1) =
            Some (hd "" (split "," appended))) as ->.
    { rewrite rev_app_distr, lookup_app_l by (rewrite length_rev; lia).
      pose proof (split_not_nil "," appended).
      destruct (split "," appended) as [|x l]; [done|]. simpl in *.
      rewrite lookup_app_r by (rewrite length_rev; lia). rewrite length_rev.
      by replace (Z.to_nat (n - 1) - length l) with 0 by lia. }
    simpl. by destruct (_ =? "")%string.
  - intros Hlen Hne%String.eqb_neq. rewrite Hne, Hspec. cbn [negb].
    rewrite lookup_ge_None_2 by (rewrite length_rev; lia). done.
Qed.

Lemma ClientIP_unforgeable_witness :
  let r := mkRequest "GET" "h" "" "/" "/" "" (hset ∅ "X-Forwarded-For" "6.6.6.6, 1.2.3.4") "10.0.0.1:99" false [] in
  ClientIPHops r true 1 = "1.2.3.4".
Proof.
  intros r. destruct (ClientIP_unforgeable r 1 "6.6.6.6" " 1.2.3.4") as (_ & H & _); [lia|].
  rewrite H; vm_compute; reflexivity.
Defined.
