(* ===== verification/Access.v ===== *)
(** * Who may sign in, and who may do what (auth/access.go, api/authz.go)

    The OIDC access policy as a decision on sets of lowercased entries, and the
    role-to-capability matrix with the per-request guard of the REST API.  The
    membership table is the parameter [GetRole] of the guard. *)

From S2P Require Import Prelude GoStrings SiteErrors SiteTypes Http.

(** ** auth/access.go *)

Record accessDecision := mkDecision { Allow : bool; Admin : bool }.
Record accessPolicy := mkPolicy { emails : gset string; domains : gset string; admins : gset string }.

Section policy.
Context `{GoUnicode}.

Definition normalize (v : string) : string := to_lower (trim_space v).
Definition toLowerSet (l : list string) : gset string :=
  list_to_set (List.filter (λ v, negb (v =? "")%string) (normalize <$> l)).
Definition newAccessPolicy (allowedEmails allowedDomains adminEmails : list string) : accessPolicy :=
  mkPolicy (toLowerSet allowedEmails) (toLowerSet allowedDomains) (toLowerSet adminEmails).

Definition emailDomain (email : string) : string :=
  match last_index_byte "@" email with
  | None => ""
  | Some at_ => if at_ =? String.length email - 1 then "" else to_lower (str_drop (at_ + 1) email)
  end.

Definition decide_access (p : accessPolicy) (email hd : string) : accessDecision :=
  let email := normalize email in
  let hd := normalize hd in
  if bool_decide (size (emails p) = 0) && bool_decide (size (domains p) = 0)
  then mkDecision false false
  else
    let allow := bool_decide (0 < size (emails p)) && bool_decide (email ∈ emails p) in
    let allow :=
      if negb allow && bool_decide (0 < size (domains p)) then
        if bool_decide (emailDomain email ∈ domains p) then true
        else if negb (hd =? "")%string then bool_decide (hd ∈ domains p) else false
      else allow in
    if negb allow then mkDecision false false
    else mkDecision true (bool_decide (email ∈ admins p)).

Lemma toLowerSet_spec l v : v ∈ toLowerSet l ↔ v ≠ "" ∧ ∃ x, x ∈ l ∧ normalize x = v.
Proof.
  unfold toLowerSet. rewrite elem_of_list_to_set, list_elem_of_In, filter_In, <-list_elem_of_In,
    list_elem_of_fmap, negb_true_iff, String.eqb_neq. naive_solver.
Qed.
Lemma size_pos_elem (X : gset string) v : v ∈ X → 0 < size X.
Proof. intros Hv. destruct (size X) eqn:E; [|lia]. apply size_empty_inv in E. set_solver. Qed.

(** The decision without the emptiness tests, which membership implies. *)
Lemma decide_access_spec p email hd :
  decide_access p email hd =
  let e := normalize email in let w := normalize hd in
  let allow := bool_decide (e ∈ emails p) || bool_decide (emailDomain e ∈ domains p) ||
               (negb (w =? "")%string && bool_decide (w ∈ domains p)) in
  mkDecision allow (allow && bool_decide (e ∈ admins p)).
Proof.
  unfold decide_access. set (e := normalize email). set (w := normalize hd).
  pose proof (size_pos_elem (emails p) e) as HE.
  pose proof (size_pos_elem (domains p) (emailDomain e)) as HD.
  pose proof (size_pos_elem (domains p) w) as HW.
  cbn zeta. destruct (decide (e ∈ emails p)) as [He|He].
  - rewrite (bool_decide_eq_true_2 (e ∈ emails p)) by done. specialize (HE He).
    rewrite (bool_decide_eq_false_2 (size (emails p) = 0)), (bool_decide_eq_true_2 (0 < size (emails p))) by lia.
    done.
  - rewrite (bool_decide_eq_false_2 (e ∈ emails p)), andb_false_r by done. cbn [negb orb andb].
    destruct (decide (size (domains p) = 0)) as [Hz|Hz].
    + rewrite (bool_decide_eq_false_2 (0 < size (domains p))) by lia.
      rewrite (bool_decide_eq_false_2 (emailDomain e ∈ domains p)) by (intros ?%HD; lia).
      rewrite (bool_decide_eq_false_2 (w ∈ domains p)) by (intros ?%HW; lia).
      rewrite andb_false_r. by destruct (bool_decide (size (emails p) = 0) && _).
    + rewrite (bool_decide_eq_false_2 (size (domains p) = 0)), andb_false_r by done.
      rewrite (bool_decide_eq_true_2 (0 < size (domains p))) by lia. cbn [andb].
      destruct (bool_decide (emailDomain e ∈ domains p)); [done|]. cbn [orb].
      destruct (negb (w =? "")%string); [|done]. by destruct (bool_decide (w ∈ domains p)).
Qed.

(** Sign-in is fail-closed.  A verified identity is let in exactly
  when its email, its email's domain or its Workspace domain is one of the
  configured entries (blank entries count for nothing), so that with both
  lists empty nobody is; and it becomes an administrator exactly when it is
  let in and its email is listed as one. *)
Theorem access_fail_closed (allowedEmails allowedDomains adminEmails : list string) (email hd : string) :
  let d := decide_access (newAccessPolicy allowedEmails allowedDomains adminEmails) email hd in
  let listed v l := v ≠ "" ∧ ∃ x, x ∈ l ∧ normalize x = v in
  (Allow d = true ↔
   listed (normalize email) allowedEmails ∨
   listed (emailDomain (normalize email)) allowedDomains ∨
   listed (normalize hd) allowedDomains) ∧
  (Admin d = true ↔ Allow d = true ∧ listed (normalize email) adminEmails).
Proof.
  intros d listed. unfold d. rewrite decide_access_spec. cbn zeta. cbn [Allow Admin emails domains admins newAccessPolicy].
  assert (∀ v l, listed v l ↔ v ∈ toLowerSet l) as Hl by (intros; by rewrite toLowerSet_spec).
  rewrite !Hl, andb_true_iff, !orb_true_iff, andb_true_iff, !bool_decide_eq_true, negb_true_iff, String.eqb_neq.
  split; [|done]. split; [tauto|]. intros [?|[?|Hw]]; [tauto..|]. right. split; [|done].
  by apply toLowerSet_spec in Hw as [? _].
Qed.
End policy.

(** ** api/authz.go *)

Definition SiteRoleOwner : string := "owner".
Definition SiteRoleEditor : string := "editor".
Definition SiteRoleViewer : string := "viewer".

Inductive capability := capRead | capWrite | capPublish | capOwner.

Definition roleRank (r : string) : Z :=
  if (r =? SiteRoleOwner)%string then 3
  else if (r =? SiteRoleEditor)%string then 2
  else if (r =? SiteRoleViewer)%string then 1 else 0.
Definition minRankFor (c : capability) : Z :=
  match c with capRead => 1 | capWrite | capPublish => 2 | capOwner => 3 end.
Definition roleAllows (r : string) (c : capability) : bool := (minRankFor c <=? roleRank r)%Z.

Record SessionUser := mkUser {
  su_SessionID : string; su_UserID : uuid; su_Email : string; su_DisplayName : string;
  su_AvatarURL : option string; su_IsAdmin : bool; su_CanCreateSites : bool;
}.
Record access := mkAccess { ac_site : Site; ac_user : SessionUser; ac_role : string }.

(** GetRole: a membership row, no row, or a store failure *)
Inductive role_row := RoleFound (role : string) | RoleNone | RoleStoreError.

(** The error responses: status, code and message. *)
Record api_error := mkApiErr { ae_status : Z; ae_code : string; ae_msg : string }.
Definition e_unauthenticated : api_error :=
  mkApiErr StatusUnauthorized "unauthenticated" "authentication required".
Definition e_site_not_found : api_error := mkApiErr StatusNotFound "not_found" "site not found".
Definition e_no_permission : api_error :=
  mkApiErr StatusForbidden "forbidden" "you do not have permission to do that".

Section guard.
Context (GetRole : uuid → uuid → role_row).

Definition effectiveRole (siteID : uuid) (user : SessionUser) : option string :=
  match GetRole siteID (su_UserID user) with
  | RoleFound role => Some role
  | RoleNone => if su_IsAdmin user then Some SiteRoleOwner else None
  | RoleStoreError => if su_IsAdmin user then Some SiteRoleOwner else None
  end.

(** [site] is the answer of GetSiteByHandle for the handle in the path. *)
Definition resolveAccess (user : option SessionUser) (site : Res err Site) (cap : capability)
    : Res api_error access :=
  match user with
  | None => Err e_unauthenticated
  | Some user =>
      match site with
      | Err _ => Err e_site_not_found
      | Ok st =>
          match effectiveRole (site_ID st) user with
          | None => Err e_site_not_found
          | Some role =>
              if negb (roleAllows role cap) then Err e_no_permission
              else Ok (mkAccess st user role)
          end
      end
  end.

Lemma roleAllows_mono r c c' :
  (minRankFor c' ≤ minRankFor c)%Z → roleAllows r c = true → roleAllows r c' = true.
Proof. unfold roleAllows. rewrite !Z.leb_le. lia. Qed.

(** The guard of every site endpoint.  A request passes exactly
  when it is signed in, the site exists, and the caller's membership role (or
  the instance administrator's synthetic ownership, when there is no readable
  row) reaches the capability: viewers read, editors also write and publish,
  only owners administer, and whatever passes for a capability passes for the
  lesser ones.  A non-member gets, byte for byte, the answer for a site that
  does not exist, and an anonymous request is told nothing about either. *)
Theorem resolveAccess_exact (user : option SessionUser) (site : Res err Site) (cap : capability) :
  (∀ ac, resolveAccess user site cap = Ok ac ↔
     user = Some (ac_user ac) ∧ site = Ok (ac_site ac) ∧
     effectiveRole (site_ID (ac_site ac)) (ac_user ac) = Some (ac_role ac) ∧
     match cap with
     | capRead => ac_role ac ∈ [SiteRoleViewer; SiteRoleEditor; SiteRoleOwner]
     | capWrite | capPublish => ac_role ac ∈ [SiteRoleEditor; SiteRoleOwner]
     | capOwner => ac_role ac = SiteRoleOwner
     end) ∧
  (∀ u st e, user = Some u → site = Ok st → su_IsAdmin u = false →
     (∀ role, GetRole (site_ID st) (su_UserID u) ≠ RoleFound role) →
     resolveAccess user site cap = resolveAccess user (Err e) cap) ∧
  (user = None → resolveAccess user site cap = Err e_unauthenticated).
Proof.
  assert (∀ r, roleAllows r cap = true ↔
    match cap with
    | capRead => r ∈ [SiteRoleViewer; SiteRoleEditor; SiteRoleOwner]
    | capWrite | capPublish => r ∈ [SiteRoleEditor; SiteRoleOwner]
    | capOwner => r = SiteRoleOwner
    end) as Hcap.
  { intros r. unfold roleAllows, roleRank.
    destruct (String.eqb_spec r SiteRoleOwner) as [->|]; [|destruct (String.eqb_spec r SiteRoleEditor) as [->|];
      [|destruct (String.eqb_spec r SiteRoleViewer) as [->|]]];
      destruct cap; cbn [minRankFor Z.leb Z.compare Pos.compare Pos.compare_cont];
      rewrite ?elem_of_cons, ?elem_of_nil; split; intros; destruct_or?; try done; auto 10. }
  split_and!.
  - intros ac. rewrite <-Hcap. unfold resolveAccess. split.
    + intros Hr. destruct user as [u|]; [|done]. destruct site as [st|]; [|done].
      destruct (effectiveRole (site_ID st) u) as [role|] eqn:He; [|done].
      destruct (roleAllows role cap) eqn:Hra; [|done]. injection Hr as <-. done.
    + intros (-> & -> & -> & ->). by destruct ac.
  - intros u st e -> -> Ha Hn. unfold resolveAccess, effectiveRole.
    specialize (Hn) as Hn'. destruct (GetRole (site_ID st) (su_UserID u)) as [role| |]; [by destruct (Hn role)|..];
      by rewrite Ha.
  - by intros ->.
Qed.

(** A store failure does not take access away from an administrator: it gives
  ownership, even over a membership row that says less. *)
Lemma effectiveRole_store_error siteID user :
  GetRole siteID (su_UserID user) = RoleStoreError → su_IsAdmin user = true →
  effectiveRole siteID user = Some SiteRoleOwner.
Proof. intros Hs Ha. unfold effectiveRole. by rewrite Hs, Ha. Qed.
End guard.
