(* ===== verification/Wire.v ===== *)
(** * The wire format of the REST API (api/errors.go, api/helpers.go)

    Replies are a status and a JSON value.  The error envelope and its details,
    the mapping of service errors to statuses and codes, and the conversion of
    the service's structs to the generated openapi types, in their field order.
    A pointer field with omitempty is left out when nil, one without is null. *)

From S2P Require Import Prelude GoStrings Encoding SiteErrors SiteTypes Http Access.

(** ** JSON values and replies *)

Inductive json :=
| JNull | JBool (b : bool) | JInt (z : Z) | JStr (s : string) | JTime (t : time)
| JArr (l : list json)
| JObj (fields : list (string * json)).
Record reply := mkReply { rp_status : Z; rp_body : option json }.

Definition writeJSON (status : Z) (v : json) : reply := mkReply status (Some v).
Definition noContent : reply := mkReply StatusNoContent None.
Definition nullable {A} (f : A → json) (o : option A) : json :=
  match o with Some a => f a | None => JNull end.
Definition omitempty {A} (k : string) (f : A → json) (o : option A) : list (string * json) :=
  match o with Some a => [(k, f a)] | None => [] end.
Definition strings (l : list string) : json := JArr (JStr <$> l).

(** ** errors.go *)

Definition codeUnauthenticated : string := "unauthenticated".
Definition codeForbidden : string := "forbidden".
Definition codeValidation : string := "validation".
Definition codeConflict : string := "conflict".
Definition codeNotFound : string := "not_found".
Definition codeHandleTaken : string := "handle_taken".
Definition codePublishConflict : string := "publish_conflict".
Definition codeBranchExists : string := "branch_exists".
Definition codeNothingToCommit : string := "nothing_to_commit".
Definition codeTooLarge : string := "too_large".
Definition codeUnsupportedMediaType : string := "unsupported_media_type".
Definition codeRateLimited : string := "rate_limited".
Definition codeQuotaExceeded : string := "quota_exceeded".
Definition codeInternal : string := "internal".

Definition conflictDetails (branch expected actual : string) (changedPaths : list string) : json :=
  JObj ([("branch", JStr branch); ("expected", JStr expected); ("actual", JStr actual)] ++
        (if bool_decide (changedPaths = []) then [] else [("changedPaths", strings changedPaths)])).
Definition publishConflictDetails (paths : list string) : json := JObj [("paths", strings paths)].
Definition validationDetails (field reason : string) : json :=
  JObj (omitempty "field" JStr (emptyToNil field) ++ omitempty "reason" JStr (emptyToNil reason)).

Definition writeError (status : Z) (code message : string) (details : option json) : reply :=
  writeJSON status (JObj [("error", JObj ([("code", JStr code); ("message", JStr message)] ++
                                          omitempty "details" id details))]).

Definition statusAndCode (e : err) : Z * string :=
  if errors_is e ErrNotFound then (StatusNotFound, codeNotFound)
  else if errors_is e ErrForbidden then (StatusForbidden, codeForbidden)
  else if errors_is e ErrHandleTaken then (StatusConflict, codeHandleTaken)
  else if errors_is e ErrPublishConflict then (StatusConflict, codePublishConflict)
  else if errors_is e ErrBranchExists then (StatusConflict, codeBranchExists)
  else if errors_is e ErrNothingToCommit then (StatusConflict, codeNothingToCommit)
  else if errors_is e ErrConflict then (StatusConflict, codeConflict)
  else if errors_is e ErrZipTooLarge || errors_is e ErrZipTooManyFiles then (StatusRequestEntityTooLarge, codeTooLarge)
  else if errors_is e ErrQuotaExceeded then (StatusRequestEntityTooLarge, codeQuotaExceeded)
  else if errors_is e ErrZipBadType then (StatusUnsupportedMediaType, codeUnsupportedMediaType)
  else if errors_is e ErrZipSlip then (StatusBadRequest, codeValidation)
  else if errors_is e ErrValidation || errors_is e ErrReservedHandle then (StatusUnprocessableEntity, codeValidation)
  else (StatusInternalServerError, codeInternal).

Definition safeMessageFor (code : string) : string :=
  if (code =? codeNotFound)%string then "resource not found"
  else if (code =? codeForbidden)%string then "you do not have permission to do that"
  else if (code =? codeUnauthenticated)%string then "authentication required"
  else if (code =? codeHandleTaken)%string then "that handle is already taken"
  else if (code =? codePublishConflict)%string then "publish could not merge cleanly"
  else if (code =? codeBranchExists)%string then "that branch already exists"
  else if (code =? codeNothingToCommit)%string then "there is nothing to commit"
  else if (code =? codeConflict)%string then "the resource changed since you last read it"
  else if (code =? codeTooLarge)%string then "the upload is too large"
  else if (code =? codeUnsupportedMediaType)%string then "that file type is not allowed"
  else if (code =? codeValidation)%string then "request failed validation"
  else if (code =? codeRateLimited)%string then "too many requests"
  else if (code =? codeQuotaExceeded)%string then "quota exceeded"
  else "something went wrong".

Definition writeServiceError (e : err) : reply :=
  let '(status, code) := statusAndCode e in
  match e with
  | ConflictError branch expected actual paths =>
      writeError status code "the file or branch changed since you last read it"
        (Some (conflictDetails branch expected actual paths))
  | PublishConflictError paths =>
      writeError status code "publish could not merge cleanly" (Some (publishConflictDetails paths))
  | ValidationError field reason =>
      writeError status code "request failed validation" (Some (validationDetails field reason))
  | _ => writeError status code (safeMessageFor code) None
  end.

Definition WriteRateLimited : reply :=
  writeError StatusTooManyRequests codeRateLimited (safeMessageFor codeRateLimited) None.

(** The error replies of the guard, as its errors are modelled in Access. *)
Definition deny_reply (e : api_error) : reply := writeError (ae_status e) (ae_code e) (ae_msg e) None.

(** ** decodeJSON

    The decoder stops at the first error, or decodes one value; whether anything
    follows is asked then. *)
Inductive decoded (A : Type) :=
| BodyTooLarge | BodyEmpty | BodyMalformed
| Body (a : A) (more : bool).
Arguments BodyTooLarge {A}.
Arguments BodyEmpty {A}.
Arguments BodyMalformed {A}.
Arguments Body {A} a more.
Definition invalidBody (reason : string) : reply :=
  writeError StatusBadRequest codeValidation "invalid request body" (Some (validationDetails "" reason)).
Definition decodeJSON {A} (b : decoded A) : Res reply A :=
  match b with
  | BodyTooLarge => Err (invalidBody "request body too large")
  | BodyEmpty => Err (invalidBody "request body is empty")
  | BodyMalformed => Err (invalidBody "malformed JSON")
  | Body a more => if more then Err (invalidBody "unexpected trailing data") else Ok a
  end.

(** ** Converters (helpers.go) *)

Section converters.
Context `{UUIDText}.

Definition juuid (u : uuid) : json := JStr (uuid_String u).

Definition actorFor (user : SessionUser) (via : string) : Actor :=
  let email := if (su_Email user =? "")%string then uuid_String (su_UserID user) +:+ "@kotoji.local"
               else su_Email user in
  let name := if (su_DisplayName user =? "")%string then su_Email user else su_DisplayName user in
  Build_Actor (su_UserID user) name email via None.

Definition toSiteWire (s : Site) : json := JObj [
  ("createdAt", JTime (site_CreatedAt s)); ("defaultBranch", JStr (site_DefaultBranch s));
  ("description", JStr (site_Description s)); ("githubRepo", nullable JStr (emptyToNil (site_GitHubRepo s)));
  ("handle", JStr (site_Handle s)); ("hasPublished", JBool (site_HasPublished s)); ("id", juuid (site_ID s));
  ("ownerId", juuid (site_OwnerID s)); ("publishMode", JStr (site_PublishMode s));
  ("publishedAt", nullable JTime (site_PublishedAt s));
  ("publishedSha", nullable JStr (emptyToNil (site_PublishedSHA s))); ("updatedAt", JTime (site_UpdatedAt s));
  ("visibility", JStr (site_Visibility s)); ("webRoot", JStr (site_WebRoot s))].

Definition toSiteSummary (s : Site) (role : string) : json := JObj [
  ("defaultBranch", JStr (site_DefaultBranch s)); ("description", JStr (site_Description s));
  ("handle", JStr (site_Handle s)); ("hasPublished", JBool (site_HasPublished s)); ("id", juuid (site_ID s));
  ("publishedAt", nullable JTime (site_PublishedAt s));
  ("publishedSha", nullable JStr (emptyToNil (site_PublishedSHA s))); ("role", JStr role);
  ("updatedAt", JTime (site_UpdatedAt s)); ("visibility", JStr (site_Visibility s))].
End converters.

Definition viaOrSystem (via : string) : string := if (via =? "")%string then SourceSystem else via.

Definition toCommitWire (c : CommitInfo) : json := JObj (
  [("authorEmail", JStr (ci_AuthorEmail c)); ("authorName", JStr (ci_AuthorName c));
   ("committed", JTime (ci_Committed c)); ("message", JStr (ci_Message c))] ++
  (if bool_decide (ci_Parents c = []) then [] else [("parents", strings (ci_Parents c))]) ++
  [("sha", JStr (ci_SHA c)); ("shortSha", JStr (ci_ShortSHA c)); ("via", JStr (viaOrSystem (ci_Via c)))]).

Definition toBranchWire (b : Branch) : json := JObj [
  ("headSha", JStr (br_HeadSHA b)); ("isPublished", JBool (br_IsPublished b));
  ("lastCommit", toCommitWire (br_LastCommit b)); ("name", JStr (br_Name b));
  ("previewSubdomain", JStr (br_PreviewSubdomain b))].

Definition toFileEntryWire (e : FileEntry) : json := JObj [
  ("isDir", JBool (fe_IsDir e)); ("mode", JStr (fe_Mode e)); ("name", JStr (fe_Name e));
  ("path", JStr (fe_Path e)); ("size", JInt (fe_Size e))].

Definition toFileDiffWire (d : FileDiff) : json := JObj [
  ("additions", JInt (fd_Additions d)); ("deletions", JInt (fd_Deletions d)); ("isBinary", JBool (fd_IsBinary d));
  ("oldPath", nullable JStr (emptyToNil (fd_OldPath d))); ("path", JStr (fd_Path d));
  ("status", JStr (fd_Status d)); ("unifiedPatch", JStr (fd_UnifiedPatch d))].

(** ** utf8.Valid

    The first byte fixes how many continuation bytes follow and the range of
    the second: no overlong forms, no surrogates, nothing above U+10FFFF. *)
Definition between (lo hi : N) (c : ascii) : bool := ((lo <=? N_of_ascii c) && (N_of_ascii c <=? hi))%N.
Definition continues : ascii → bool := between 128 191.
Fixpoint utf8_valid (s : string) : bool :=
  match s with
  | EmptyString => true
  | String a r =>
      if between 0 127 a then utf8_valid r
      else match r with
      | EmptyString => false
      | String b r =>
          if between 194 223 a then continues b && utf8_valid r
          else match r with
          | EmptyString => false
          | String c r =>
              let b_ok := if between 224 224 a then between 160 191 b
                          else if between 237 237 a then between 128 159 b
                          else between 225 239 a && continues b in
              if between 224 239 a then b_ok && continues c && utf8_valid r
              else match r with
              | EmptyString => false
              | String d r =>
                  let b_ok := if between 240 240 a then between 144 191 b
                              else if between 244 244 a then between 128 143 b
                              else between 241 243 a && continues b in
                  b_ok && continues c && continues d && utf8_valid r
              end
          end
      end
  end.

(** On the wire a service error has the status the service's
  own taxonomy gives it, for every error there is, although the two switches
  test the categories in different orders.  Beyond the three errors whose
  structured details the client needs, the reply depends on the error's category
  alone, and an error of git, of a store or of any unknown kind gives one fixed
  500 reply: no argument, output or message of the failure reaches the client. *)
Theorem service_error_replies (e : err) :
  rp_status (writeServiceError e) = statusFor (Some e) ∧
  (∀ e', category e = category e' →
     match e, e' with
     | ConflictError _ _ _ _, _ | PublishConflictError _, _ | ValidationError _ _, _
     | _, ConflictError _ _ _ _ | _, PublishConflictError _ | _, ValidationError _ _ => True
     | _, _ => writeServiceError e = writeServiceError e'
     end) ∧
  (category e = None ∨ category e = Some ErrGit →
     writeServiceError e = writeError StatusInternalServerError codeInternal "something went wrong" None).
Proof.
  assert (∀ e, statusAndCode e = match category e with
    | None => (StatusInternalServerError, codeInternal)
    | Some s => statusAndCode (ESentinel s)
    end) as Hcat.
  { intros e0. unfold statusAndCode. rewrite !errors_is_category. destruct (category e0) as [s|]; [|done].
    by destruct s. }
  split_and!.
  - unfold writeServiceError, statusFor. specialize (Hcat e).
    assert (∀ s, statusFor (Some (ESentinel s)) = (statusAndCode (ESentinel s)).1) as Hs by (by intros []).
    assert (statusFor (Some e) = (statusAndCode e).1) as Hst.
    { unfold statusFor, statusAndCode. rewrite !errors_is_category. destruct (category e) as [[]|]; reflexivity. }
    unfold statusFor in Hst. rewrite Hst. destruct (statusAndCode e). by destruct e.
  - intros e' He. unfold writeServiceError. rewrite (Hcat e), (Hcat e'), He.
    destruct e; try done; destruct e'; done.
  - intros He. unfold writeServiceError. rewrite (Hcat e).
    destruct e; destruct He as [He|He]; simpl in He; simplify_eq; reflexivity.
Qed.
Lemma service_error_replies_witness :
  writeServiceError (GitError ["push"; "https://token@host"] 128 "fatal: secret") =
  writeError StatusInternalServerError codeInternal "something went wrong" None.
Proof. apply (service_error_replies (GitError ["push"; "https://token@host"] 128 "fatal: secret")). by right. Defined.

Example utf8_sample :
  utf8_valid "abc" = true ∧ utf8_valid (String "227" (String "129" (String "130" ""))) = true ∧
  utf8_valid (String "192" (String "128" "")) = false ∧ utf8_valid (String "255" "") = false.
Proof. vm_compute. done. Qed.
