(* ===== verification/ApiWorld.v ===== *)
(** * What the control plane asks of its surroundings

    The two interfaces the REST handlers, the session layer and the webhook
    depend on, as families of requests indexed by the type of the answer: [Svc]
    is the part of site.Service they call, [Store] the queries of api.MetaStore,
    auth.SessionStore and webhook.Store.  A program is a job over the trace of
    requests and answers; its error is the reply that ends the handler early. *)

From S2P Require Import Prelude Trace GoStrings SiteErrors SiteTypes Http Access Wire.

(** ** site.Service *)

Inductive Svc : Type → Type :=
| GetSite (id : uuid) : Svc Site
| GetSiteByHandle (handle : string) : Svc Site
| ListSites (user : uuid) : Svc (list Site)
| CreateSite (in_ : CreateSiteInput) : Svc Site
| RenameHandle (id : uuid) (newHandle : string) : Svc Site
| DeleteSite (id : uuid) (actor : Actor) : Svc unit
| ListBranches (id : uuid) : Svc (list Branch)
| CreateBranch (id : uuid) (name from : string) : Svc Branch
| DeleteBranch (id : uuid) (name : string) : Svc unit
| ListFiles (in_ : ListFilesInput) : Svc (list FileEntry * string)
| ReadFile (id : uuid) (branch ref path : string) : Svc FileContent
| WriteFile (in_ : WriteFileInput) : Svc CommitInfo
| DeleteFile (id : uuid) (branch path baseSHA : string) (actor : Actor) : Svc CommitInfo
| Commit (in_ : CommitInput) : Svc CommitInfo
| ImportZip (id : uuid) (branch : string) (content : bytes) (filename baseSHA : string) (actor : Actor) : Svc CommitInfo
| Publish (in_ : PublishInput) : Svc CommitInfo
| GetDiff (in_ : DiffOptions) : Svc DiffResult
| GetLog (in_ : LogOptions) : Svc (list CommitInfo)
| Rollback (id : uuid) (branch toSHA baseSHA : string) (actor : Actor) : Svc CommitInfo
| ServedTree (id : uuid) (branch : string) : Svc TreeHandle
| SetRemote (id : uuid) (url : string) : Svc unit
| MirrorPush (id : uuid) (branches : list string) : Svc unit
| FetchAndUpdate (id : uuid) (branch : string) : Svc CommitInfo.

(** ** The store *)

(** pgx.ErrNoRows, or any other failure *)
Inductive store_err := NoRows | StoreFailed (msg : string).
Definition IsNotFound (e : store_err) : bool := match e with NoRows => true | StoreFailed _ => false end.

Record SessionRow := mkSessionRow {
  sr_ID : string; sr_UserID : uuid; sr_LastSeenAt : option time; sr_Email : string; sr_DisplayName : string;
  sr_AvatarUrl : option string; sr_IsAdmin : bool; sr_CanCreateSites : bool;
}.
Record UserRow := mkUserRow {
  ur_ID : uuid; ur_Email : string; ur_DisplayName : string; ur_AvatarUrl : option string;
  ur_IsAdmin : bool; ur_CanCreateSites : bool;
}.
Record MemberRow := mkMemberRow {
  mb_UserID : uuid; mb_Email : string; mb_DisplayName : string; mb_Role : string; mb_CreatedAt : option time;
}.
Record TokenRow := mkTokenRow {
  tr_ID : uuid; tr_Name : string; tr_TokenPrefix : string; tr_Scopes : list string; tr_CanCreateSites : bool;
  tr_CreatedAt : time; tr_LastUsedAt : option time; tr_ExpiresAt : option time; tr_RevokedAt : option time;
}.
Record NewToken := mkNewToken {
  nt_UserID : uuid; nt_Name : string; nt_TokenPrefix : string; nt_TokenHash : bytes; nt_Scopes : list string;
  nt_CanCreateSites : bool; nt_ExpiresAt : option time;
}.
Record SiteSettings := mkSettings {
  stg_Visibility : string; stg_PublishMode : string; stg_WebRoot : string; stg_Description : string; stg_ID : uuid;
}.
(** InsertAuditParams; the metadata is the object that is marshalled. *)
Record Audit := mkAudit {
  ad_ActorUserID : option uuid; ad_SiteID : option uuid; ad_TokenID : option uuid; ad_Action : string;
  ad_Source : string; ad_CommitSha : option string; ad_Metadata : list (string * json);
}.
Record AuditLog := mkAuditLog {
  al_ID : Z; al_ActorUserID : option uuid; al_SiteID : option uuid; al_TokenID : option uuid; al_Action : string;
  al_Source : string; al_CommitSha : option string; al_Metadata : bytes; al_CreatedAt : time;
}.
Record NewSession := mkNewSession {
  ns_ID : string; ns_UserID : uuid; ns_ExpiresAt : time; ns_UserAgent : string; ns_IpAddr : option string;
}.
(** db.GitHubConfig and db.SetGitHubConfigInput *)
Record GitHubConfig := mkGitHub {
  gh_EnabledSet : bool; gh_Enabled : bool; gh_Org : string; gh_Token : string; gh_TokenSet : bool;
  gh_WebhookSecret : string;
}.
Record SetGitHub := mkSetGitHub {
  sg_Enabled : option bool; sg_Org : option string; sg_WebhookSecret : option string; sg_Token : option string;
  sg_ClearToken : bool;
}.

Inductive Store : Type → Type :=
| QGetSession (id : string) : Store SessionRow
| QTouchSession (id : string) : Store unit
| QCreateSession (s : NewSession) : Store unit
| QDeleteSession (id : string) : Store unit
| QGetRole (site user : uuid) : Store string
| QListMembers (site : uuid) : Store (list MemberRow)
| QGetMember (site user : uuid) : Store unit
| QAddMember (site user : uuid) (role : string) (createdBy : option uuid) : Store unit
| QUpdateMemberRole (site user : uuid) (role : string) : Store unit
| QRemoveMember (site user : uuid) : Store unit
| QCreateUserToken (t : NewToken) : Store TokenRow
| QListUserTokens (user : uuid) : Store (list TokenRow)
| QRevokeUserToken (id user : uuid) : Store unit
| QUpdateSiteSettings (s : SiteSettings) : Store unit
| QBumpCacheVersion (site : uuid) : Store Z
| QGetUserByEmail (email : string) : Store UserRow
| QGetUserByID (id : uuid) : Store UserRow
| QSetUserAdminFlags (isAdmin canCreateSites : bool) (id : uuid) : Store unit
| QGetGitHubConfig : Store GitHubConfig
| QSetGitHubConfig (in_ : SetGitHub) : Store unit
| QInsertAudit (a : Audit) : Store unit
| QListAuditForSite (site : uuid) (before : option Z) (limit : Z) : Store (list AuditLog)
| QGetSiteByGitHubRepo (repo : string) : Store SiteRecord.

(** ** Traces *)

Inductive event :=
| EvSvc (A : Type) (c : Svc A) (r : Res err A)
| EvStore (A : Type) (c : Store A) (r : Res store_err A).
Arguments EvSvc {A}.
Arguments EvStore {A}.
Definition trace : Type := list event.

Class World := {
  w_svc : ∀ A, trace → Svc A → Res err A;
  w_store : ∀ A, trace → Store A → Res store_err A;
  w_now : trace → time;
  (** the i-th crypto/rand.Int below 62 of a request; [None] when the source fails *)
  w_rand62 : trace → nat → option N;
  (** 32 bytes of crypto/rand; [None] when the source fails *)
  w_entropy : trace → option bytes;
}.
(** Texts of the standard library that replies carry: the error of a base64
    string that does not decode, and the object a map holds after json.Unmarshal. *)
Class GoText := { base64_error : string → string; unmarshal_object : bytes → json }.
Abbreviation J := (@Trace.J event reply) (only parsing).

Section ask.
Context `{World} {E : Type}.
Abbreviation JE := (@Trace.J event E).

(** A request whose error the caller inspects *)
Definition asked {A X} (answer : trace → Res X A) (ev : Res X A → event) : JE (Res X A) :=
  λ tr, let r := answer tr in (tr ++ [ev r], Ok r).
Definition svc {A} (c : Svc A) : JE (Res err A) := asked (λ tr, w_svc A tr c) (EvSvc c).
Definition store {A} (c : Store A) : JE (Res store_err A) := asked (λ tr, w_store A tr c) (EvStore c).
Definition now : JE time := λ tr, (tr, Ok (w_now tr)).
End ask.

Section must.
Context `{World}.
(** [if err != nil { writeServiceError(w, err); return }] *)
Definition serviceError (e : store_err) : reply :=
  writeServiceError (EOther match e with NoRows => "no rows in result set" | StoreFailed m => m end).
Definition must_svc {A} (c : Svc A) : J A :=
  let! r := svc c in match r with Ok a => ok a | Err e => fail (writeServiceError e) end.
Definition must_store {A} (c : Store A) : J A :=
  let! r := store c in match r with Ok a => ok a | Err e => fail (serviceError e) end.
(** [if !decodeJSON(w, r, &body) { return }] *)
Definition decode {A} (b : decoded A) : J A := lift (decodeJSON b).
(** auditBestEffort *)
Definition audit (a : Audit) : J unit := let! _ := store (QInsertAudit a) in ok tt.
End must.

(** The reply of a handler that has run. *)
Definition reply_of (r : Res reply reply) : reply := match r with Ok a | Err a => a end.

(** A store error is an unknown error to the taxonomy: one fixed reply. *)
Lemma serviceError_500 e :
  serviceError e = writeError StatusInternalServerError codeInternal "something went wrong" None.
Proof. by destruct e. Qed.

(** ** Rules *)

Section rules.
Context `{World} (justified : trace → event → Prop).
Abbreviation any_event := (λ _ : event, True).
Abbreviation job := (@Trace.job event reply any_event justified).

Lemma asked_job {E A X} P (answer : trace → Res X A) ev :
  (∀ t r, P t → justified t (ev r)) →
  @Trace.job event E any_event justified _ P (asked answer ev) (λ r t, ev r ∈ t).
Proof.
  intros Hj tr Ht HP. split; [apply calmly_snoc; auto|].
  simpl. intros a [= <-]. rewrite elem_of_app, list_elem_of_singleton. by right.
Qed.
Lemma must_svc_job {A} P (c : Svc A) :
  stable any_event P → (∀ t r, P t → justified t (EvSvc c r)) → job P (must_svc c) (λ a t, EvSvc c (Ok a) ∈ t).
Proof.
  intros HP Hj. eapply job_bind; [done|by apply asked_job|]. intros [a|e]; [|apply job_fail].
  by apply job_ok; intros t [].
Qed.
Lemma must_store_job {A} P (c : Store A) :
  stable any_event P → (∀ t r, P t → justified t (EvStore c r)) →
  job P (must_store c) (λ a t, EvStore c (Ok a) ∈ t).
Proof.
  intros HP Hj. eapply job_bind; [done|by apply asked_job|]. intros [a|e]; [|apply job_fail].
  by apply job_ok; intros t [].
Qed.
Lemma audit_job P a :
  stable any_event P → (∀ t r, P t → justified t (EvStore (QInsertAudit a) r)) → job P (audit a) anything.
Proof. intros HP Hj. apply job_seq; [done|by eapply job_any, asked_job|]. intros _. by apply job_ok. Qed.
End rules.
