(* ===== verification/Session.v ===== *)
(** * Sessions, CSRF and the auth middleware (auth/session.go, csrf.go, middleware.go)

    The opaque session cookie and the row it names, the double-submit check, and
    the middleware that puts the session's user in front of the handlers. *)

From S2P Require Import Prelude Trace GoStrings Encoding SiteErrors SiteTypes Http Preview Access Wire ApiWorld.

Record AuthConfig := mkAuthCfg {
  au_cookieName : string; au_csrfName : string; au_ttl : Z; au_secure : bool;
}.
(** netip.ParseAddr, by the text of the address *)
Class GoNetip := { ParseAddr : string → option string }.

Definition touchInterval : Z := (5 * 60 * second)%Z.
Definition csrfHeader : string := "X-Csrf-Token".

(** ** session.go *)

Section session.
Context `{World}.
Context (cfg : AuthConfig).

Definition CookieName : string :=
  if au_secure cfg then "__Host-" +:+ au_cookieName cfg else au_cookieName cfg.

Inductive session_err := ErrEntropy | ErrSessionNotFound | ErrSessionStore (e : store_err).

Definition newSessionID (tr : trace) : option string := b64_encode b64_url false <$> w_entropy tr.

Definition parseIP `{GoNetip} (remoteAddr : string) : option string :=
  if (remoteAddr =? "")%string then None
  else ParseAddr (match split_host_port remoteAddr with Some (h, _) => h | None => remoteAddr end).

Definition Create `{GoNetip} (userID : uuid) (userAgent remoteAddr : string) : J (Res session_err string) := λ tr,
  match newSessionID tr with
  | None => (tr, Ok (Err ErrEntropy))
  | Some id =>
      (let! t := now in
       let! r := store (QCreateSession
         (mkNewSession id userID (t + au_ttl cfg)%Z userAgent (parseIP remoteAddr))) in
       ok match r with Ok _ => Ok id | Err e => Err (ErrSessionStore e) end) tr
  end.

Definition isStale (now : time) (ts : option time) (d : Z) : bool :=
  match ts with Some t => (d <? now - t)%Z | None => true end.

Definition session_user (row : SessionRow) : SessionUser :=
  mkUser (sr_ID row) (sr_UserID row) (sr_Email row) (sr_DisplayName row) (sr_AvatarUrl row) (sr_IsAdmin row)
    (sr_CanCreateSites row).

Definition Get (id : string) : J (Res session_err SessionUser) :=
  if (id =? "")%string then ok (Err ErrSessionNotFound)
  else
    let! r := store (QGetSession id) in
    match r with
    | Err NoRows => ok (Err ErrSessionNotFound)
    | Err e => ok (Err (ErrSessionStore e))
    | Ok row =>
        let! t := now in
        (if isStale t (sr_LastSeenAt row) touchInterval
         then let! _ := store (QTouchSession id) in ok tt else ok tt) ;!
        ok (Ok (session_user row))
    end.

Definition Delete (id : string) : J (Res session_err unit) :=
  if (id =? "")%string then ok (Ok tt)
  else let! r := store (QDeleteSession id) in
       ok match r with Ok _ => Ok tt | Err e => Err (ErrSessionStore e) end.

Definition session_cookie (value : string) (maxAge : Z) : Cookie := {|
  ckName := CookieName; ckValue := value; ckPath := "/"; ckDomain := ""; ckMaxAge := maxAge;
  ckSecure := au_secure cfg; ckHttpOnly := true; ckSameSite := SameSiteLax |}.
(** [int(m.ttl.Seconds())] *)
Definition SetCookie (id : string) : Response → Response := set_cookie (session_cookie id (Z.quot (au_ttl cfg) second)).
Definition ClearCookie : Response → Response := set_cookie (session_cookie "" (-1)).

Definition readCookie (r : Request) : string := default "" (cookie r CookieName).

(** ** csrf.go *)

Definition csrfCookieName : string :=
  if au_secure cfg then "__Host-" +:+ au_csrfName cfg else au_csrfName cfg.
Definition csrf_readCookie (r : Request) : string := default "" (cookie r csrfCookieName).
Definition newCSRFToken (tr : trace) : option string := b64_encode b64_url false <$> w_entropy tr.
Definition csrf_cookie (value : string) (maxAge : Z) : Cookie := {|
  ckName := csrfCookieName; ckValue := value; ckPath := "/"; ckDomain := ""; ckMaxAge := maxAge;
  ckSecure := au_secure cfg; ckHttpOnly := false; ckSameSite := SameSiteLax |}.
(** [None] when the random source fails *)
Definition Issue (tr : trace) (r : Request) (w : Response) : Response * option string :=
  let cur := csrf_readCookie r in
  if negb (cur =? "")%string then (w, Some cur)
  else match newCSRFToken tr with
       | None => (w, None)
       | Some tok => (set_cookie (csrf_cookie tok 0) w, Some tok)
       end.
Definition csrf_clearCookie : Response → Response := set_cookie (csrf_cookie "" (-1)).

Definition isSafeMethod (method : string) : bool :=
  (method =? "GET")%string || (method =? "HEAD")%string || (method =? "OPTIONS")%string || (method =? "TRACE")%string.

Definition Verify (r : Request) : bool :=
  if isSafeMethod (rMethod r) then true
  else if negb (hget (rHeader r) "Authorization" =? "")%string then true
  else
    let cookie := csrf_readCookie r in
    let header := hget (rHeader r) csrfHeader in
    if (cookie =? "")%string || (header =? "")%string then false else (cookie =? header)%string.

(** The middleware's reply when it does not let the request through *)
Definition csrf_guard (r : Request) : Res reply unit :=
  if Verify r then Ok tt
  else Err (writeError StatusForbidden codeForbidden "CSRF token missing or invalid" None).

(** ** middleware.go *)

(** The user the handlers find in the context *)
Definition SessionAuth (r : Request) : J (option SessionUser) :=
  let id := readCookie r in
  if (id =? "")%string then ok None
  else let! u := Get id in ok match u with Ok u => Some u | Err _ => None end.

Definition RequireAuth (user : option SessionUser) : Res reply SessionUser :=
  match user with
  | None => Err (writeError StatusUnauthorized codeUnauthenticated "authentication required" None)
  | Some u => Ok u
  end.
Definition RequireAdmin (user : option SessionUser) : Res reply SessionUser :=
  match user with
  | None => Err (writeError StatusUnauthorized codeUnauthenticated "authentication required" None)
  | Some u => if negb (su_IsAdmin u) then Err (writeError StatusForbidden codeForbidden "instance admin required" None)
              else Ok u
  end.
End session.

(** ** Facts *)

Lemma cookie_filter (P : string → bool) r r' name :
  P name = true →
  filter (λ c, P c.1 = true) (rCookies r) = filter (λ c, P c.1 = true) (rCookies r') →
  cookie r name = cookie r' name.
Proof.
  intros HP Heq. unfold cookie.
  assert (∀ l : list (string * string),
    filter (λ c, c.1 = name) l = filter (λ c, c.1 = name) (filter (λ c, P c.1 = true) l)) as Hf.
  { intros l. rewrite list_filter_filter. apply list_filter_iff. intros c. split; [intros <-; done|by intros [? _]]. }
  by rewrite (Hf (rCookies r)), (Hf (rCookies r')), Heq.
Qed.

Section facts.
Context `{World}.
Context (cfg : AuthConfig).

(** Cookies tossed by a sibling subdomain do not exist for the
  control plane.  Over https, two requests that differ only in cookies whose
  names lack the __Host- prefix (which a browser lets no other host set) are
  answered alike: the same session user, after the same questions to the store,
  and the same verdict of the CSRF check. *)
Theorem tossed_cookies_ignored (r r' : Request) (tr : trace) :
  au_secure cfg = true → rMethod r = rMethod r' → rHeader r = rHeader r' →
  filter (λ c, has_prefix "__Host-" c.1 = true) (rCookies r) =
  filter (λ c, has_prefix "__Host-" c.1 = true) (rCookies r') →
  SessionAuth cfg r tr = SessionAuth cfg r' tr ∧ csrf_guard cfg r = csrf_guard cfg r'.
Proof.
  intros Hs Hm Hh Hc.
  assert (readCookie cfg r = readCookie cfg r' ∧ csrf_readCookie cfg r = csrf_readCookie cfg r') as [E1 E2].
  { unfold readCookie, csrf_readCookie, CookieName, csrfCookieName. rewrite Hs.
    split; f_equal; apply (cookie_filter (has_prefix "__Host-")); try done; apply has_prefix_app. }
  unfold SessionAuth, csrf_guard, Verify. by rewrite E1, E2, Hm, Hh.
Qed.
End facts.

Definition silent_world : World := {|
  w_svc := λ _ _ _, Err (ESentinel ErrNotFound); w_store := λ _ _ _, Err NoRows; w_now := λ _, 0%Z;
  w_rand62 := λ _ _, None; w_entropy := λ _, None |}.
Definition sample_auth : AuthConfig := mkAuthCfg "kotoji_session" "kotoji_csrf" (3600 * second)%Z true.
Definition cookie_request (cookies : list (string * string)) : Request :=
  mkRequest "POST" "kotoji.example" "" "/api/sites" "/api/sites" "" {[ csrfHeader := ["tok"] ]} "" true cookies.
Lemma tossed_cookies_ignored_witness :
  let own := [("__Host-kotoji_session", "s1"); ("__Host-kotoji_csrf", "tok")] in
  let tossed := [("kotoji_session", "evil"); ("kotoji_csrf", "tok")] in
  @SessionAuth silent_world sample_auth (cookie_request (tossed ++ own)) [] =
  @SessionAuth silent_world sample_auth (cookie_request own) [] ∧
  csrf_guard sample_auth (cookie_request (tossed ++ own)) = csrf_guard sample_auth (cookie_request own) ∧
  csrf_guard sample_auth (cookie_request own) = Ok tt ∧ is_ok (csrf_guard sample_auth (cookie_request tossed)) = false.
Proof.
  intros own tossed. split; [|split; [|split; vm_compute; reflexivity]];
    apply (@tossed_cookies_ignored silent_world sample_auth (cookie_request (tossed ++ own)) (cookie_request own) []);
    vm_compute; reflexivity.
Defined.
