(* ===== verification/Rest.v ===== *)
(** * REST handlers: sites, branches, files, history, publishing
    (api/authz.go, sites.go, branches.go, files.go, history.go, publish.go,
    upload.go, preview.go)

    One program per handler, over the session user the middleware found and the
    decoded request body.  The early returns of a handler are the failures of
    its program. *)

From S2P Require Import Prelude Trace GoStrings Encoding SiteErrors Handle Zip SiteTypes Http Preview Access Wire.
From S2P Require Import ApiWorld Session.

Record ApiConfig := mkApiCfg {
  cf_Auth : AuthConfig;
  cf_MaxUploadBytes : Z;
  cf_Production : bool;
  cf_PreviewGrant : option GrantAuthzConfig;
  (** the GitHub mirror settings of the environment *)
  cf_GitHub_Enabled : bool; cf_GitHub_Org : string; cf_GitHub_Token : string; cf_GitHub_WebhookSecret : string;
}.

(** ** Request bodies (openapi) *)

Record CreateSiteRequest := mkCreateSite {
  csr_Handle : string; csr_Description : option string; csr_GithubRepo : option string;
  csr_Visibility : option string; csr_PublishMode : option string;
}.
Record UpdateSiteRequest := mkUpdateSite {
  usr_Visibility : option string; usr_PublishMode : option string; usr_WebRoot : option string;
  usr_Description : option string; usr_GithubRepo : option string;
}.
Record WriteFileRequest := mkWriteFile {
  wfr_Path : string; wfr_Content : string; wfr_Encoding : option string; wfr_BaseSha : string;
  wfr_Commit : option bool; wfr_Message : option string;
}.
Record CommitRequest := mkCommit { cmr_BaseSha : string; cmr_Message : option string }.
Record RollbackRequest := mkRollback { rbr_ToSha : string; rbr_BaseSha : string }.
Record PublishRequest := mkPublish { pbr_From : option string; pbr_BaseSha : string; pbr_Message : option string }.
Record CreateBranchBody := mkCreateBranch { cbr_Name : string; cbr_From : string }.

(** A multipart upload: what ParseMultipartForm makes of the body seen through a
    MaxBytesReader of the given cap.  The file part has its name, its bytes, and
    whether reading it fails after them (and if so with a MaxBytesError). *)
Record file_part := mkPart { fp_Filename : string; fp_data : bytes; fp_fails : option bool }.
Inductive form := FormTooLarge | FormMalformed | Form (file : option file_part) (baseSha : string).
Record upload := mkUpload { up_form : Z → form; up_temp : bool }.

Definition derefStr (p : option string) : string := default "" p.
Definition AuditSourceEditor : string := "editor".
Definition AuditSourceUpload : string := "upload".
Definition AuditSourceSystem : string := "system".

Section handlers.
Context `{GoUnicode} `{Crypto} `{UUIDText} `{GoText} `{World}.
(** The effective base domain of a request (domaincfg), at the moment it is asked *)
Context (BaseDomain : trace → Request → string).
Context (cfg : ApiConfig) (r : Request) (user : option SessionUser).

(** ** authz.go *)

Definition roleRow (site user : uuid) : J role_row :=
  let! a := store (QGetRole site user) in
  ok match a with Ok role => RoleFound role | Err e => if IsNotFound e then RoleNone else RoleStoreError end.
Definition effectiveRole (siteID : uuid) (u : SessionUser) : J (option string) :=
  let! row := roleRow siteID (su_UserID u) in ok (Access.effectiveRole (λ _ _, row) siteID u).
Definition verdict (row : role_row) (site : Res err Site) (cap : capability) : J access :=
  lift match Access.resolveAccess (λ _ _, row) user site cap with
       | Ok ac => Ok ac
       | Err e => Err (deny_reply e)
       end.
Definition resolveAccess (handle : string) (cap : capability) : J access :=
  match user with
  | None => verdict RoleNone (Err (ESentinel ErrNotFound)) cap
  | Some u =>
      let! site := svc (GetSiteByHandle handle) in
      match site with
      | Err _ => verdict RoleNone site cap
      | Ok st => let! row := roleRow (site_ID st) (su_UserID u) in verdict row site cap
      end
  end.

Definition signedIn : J SessionUser :=
  lift match user with Some u => Ok u | None => Err (deny_reply e_unauthenticated) end.
Definition invalid (message field reason : string) : reply :=
  writeError StatusUnprocessableEntity codeValidation message (Some (validationDetails field reason)).
Definition site_audit (ac : access) (action : string) (sha : option string) (meta : list (string * json)) : J unit :=
  audit (mkAudit (Some (su_UserID (ac_user ac))) (Some (site_ID (ac_site ac))) None action AuditSourceEditor sha meta).
Definition editor (ac : access) : Actor := actorFor (ac_user ac) SourceEditor.
Definition query (k : string) : string := query_get (rURLRawQuery r) k.

(** ** sites.go *)

Fixpoint summaries (u : SessionUser) (sites : list Site) : J (list json) :=
  match sites with
  | [] => ok []
  | st :: sites =>
      let! role := effectiveRole (site_ID st) u in
      let! rest := summaries u sites in
      ok (toSiteSummary st (default "" role) :: rest)
  end.
Definition listSites : J reply :=
  let! u := signedIn in
  let! sites := must_svc (ListSites (su_UserID u)) in
  let! out := summaries u sites in
  ok (writeJSON StatusOK (JObj [("sites", JArr out)])).

Definition createSite (body : decoded CreateSiteRequest) : J reply :=
  let! u := signedIn in
  guard_not (negb (su_CanCreateSites u) && negb (su_IsAdmin u))
    (writeError StatusForbidden codeForbidden "you are not allowed to create sites" None) ;!
  let! body := decode body in
  let! created := must_svc (CreateSite {|
    cs_Handle := csr_Handle body; cs_OwnerID := su_UserID u; cs_Visibility := derefStr (csr_Visibility body);
    cs_PublishMode := derefStr (csr_PublishMode body); cs_Description := derefStr (csr_Description body);
    cs_Zip := None; cs_GitHubRepo := derefStr (csr_GithubRepo body); cs_Actor := actorFor u SourceEditor |}) in
  audit (mkAudit (Some (su_UserID u)) (Some (site_ID created)) None "site.create" AuditSourceEditor None
           [("handle", JStr (site_Handle created))]) ;!
  ok (writeJSON StatusCreated (toSiteWire created)).

Definition getSite (handle : string) : J reply :=
  let! ac := resolveAccess handle capRead in
  ok (writeJSON StatusOK (toSiteWire (ac_site ac))).

Definition updateSite (handle : string) (body : decoded UpdateSiteRequest) : J reply :=
  let! ac := resolveAccess handle capOwner in
  let! body := decode body in
  let cur := ac_site ac in
  must_store (QUpdateSiteSettings (mkSettings
    (default (site_Visibility cur) (usr_Visibility body)) (default (site_PublishMode cur) (usr_PublishMode body))
    (default (site_WebRoot cur) (usr_WebRoot body)) (default (site_Description cur) (usr_Description body))
    (site_ID cur))) ;!
  match usr_GithubRepo body with
  | Some repo => must_svc (SetRemote (site_ID cur) repo)
  | None => ok tt
  end ;!
  let! updated := must_svc (GetSite (site_ID cur)) in
  site_audit ac "site.update" None [("handle", JStr (site_Handle cur))] ;!
  ok (writeJSON StatusOK (toSiteWire updated)).

Definition deleteSite (handle : string) : J reply :=
  let! ac := resolveAccess handle capOwner in
  must_svc (DeleteSite (site_ID (ac_site ac)) (editor ac)) ;!
  site_audit ac "site.delete" None [("handle", JStr (site_Handle (ac_site ac)))] ;!
  ok noContent.

Definition renameSite (handle : string) (newHandle : decoded string) : J reply :=
  let! ac := resolveAccess handle capOwner in
  let! newHandle := decode newHandle in
  let! renamed := must_svc (RenameHandle (site_ID (ac_site ac)) newHandle) in
  site_audit ac "site.rename" None
    [("from", JStr (site_Handle (ac_site ac))); ("to", JStr (site_Handle renamed))] ;!
  ok (writeJSON StatusOK (toSiteWire renamed)).

Definition mirrorErrorDetail (e : err) : string := (statusAndCode e).2.
Definition mirrorResult (branches : list string) (error : option string) (message : string) (ok_ : bool) : json :=
  JObj [("branches", strings branches); ("error", nullable JStr error); ("message", JStr message);
        ("ok", JBool ok_); ("pushed", JBool ok_)].
Definition mirrorSite (handle : string) : J reply :=
  let! ac := resolveAccess handle capOwner in
  if (site_GitHubRepo (ac_site ac) =? "")%string then
    ok (writeJSON StatusOK (mirrorResult [] None "this site is not linked to a GitHub repository" false))
  else
    let branches := [BranchDraft; BranchPublished] in
    let! pushed := svc (MirrorPush (site_ID (ac_site ac)) branches) in
    let res := match pushed with
               | Ok _ => mirrorResult branches None "pushed draft and published to GitHub" true
               | Err e => mirrorResult branches (Some (mirrorErrorDetail e)) "GitHub sync failed" false
               end in
    site_audit ac "site.mirror" None
      [("handle", JStr (site_Handle (ac_site ac))); ("ok", JBool (is_ok pushed))] ;!
    ok (writeJSON StatusOK res).

(** ** branches.go *)

Definition listBranches (handle : string) : J reply :=
  let! ac := resolveAccess handle capRead in
  let! branches := must_svc (ListBranches (site_ID (ac_site ac))) in
  ok (writeJSON StatusOK (JObj [("branches", JArr (toBranchWire <$> branches))])).

Definition createBranch (handle : string) (body : decoded CreateBranchBody) : J reply :=
  let! ac := resolveAccess handle capWrite in
  let! body := decode body in
  let! br := must_svc (CreateBranch (site_ID (ac_site ac)) (cbr_Name body) (cbr_From body)) in
  site_audit ac "branch.create" None [("branch", JStr (cbr_Name body)); ("from", JStr (cbr_From body))] ;!
  ok (writeJSON StatusCreated (toBranchWire br)).

Definition deleteBranch (handle branch : string) : J reply :=
  let! ac := resolveAccess handle capWrite in
  must_svc (DeleteBranch (site_ID (ac_site ac)) branch) ;!
  site_audit ac "branch.delete" None [("branch", JStr branch)] ;!
  ok noContent.

(** ** files.go *)

Definition listFiles (handle branch : string) : J reply :=
  let! ac := resolveAccess handle capRead in
  let! er := must_svc (ListFiles {|
    lf_SiteID := site_ID (ac_site ac); lf_Branch := branch; lf_Dir := query "dir"; lf_Ref := query "ref";
    lf_Recursive := (query "recursive" =? "true")%string |}) in
  ok (writeJSON StatusOK (JObj [("branch", JStr branch); ("files", JArr (toFileEntryWire <$> er.1)); ("ref", JStr er.2)])).

(** How content travels in JSON: the encoding and the text *)
Definition file_encoding (fc : FileContent) : string * string :=
  if fct_IsBinary fc || negb (utf8_valid (fct_Content fc))
  then ("base64", b64_encode b64_std true (fct_Content fc)) else ("utf-8", fct_Content fc).
Definition file_wire (fc : FileContent) : json := JObj [
  ("blobSha", JStr (fct_BlobSHA fc)); ("content", JStr (file_encoding fc).2);
  ("encoding", JStr (file_encoding fc).1); ("isBinary", JBool (fct_IsBinary fc));
  ("path", JStr (fct_Path fc)); ("sha", JStr (fct_SHA fc)); ("size", JInt (fct_Size fc))].
Definition readFile (handle branch : string) : J reply :=
  let! ac := resolveAccess handle capRead in
  let path := query "path" in
  guard_not (path =? "")%string (invalid "path is required" "path" "required") ;!
  let! fc := must_svc (ReadFile (site_ID (ac_site ac)) branch (query "ref") path) in
  ok (writeJSON StatusOK (file_wire fc)).

Definition decodeContent (content : string) (encoding : option string) : option bytes :=
  match encoding with
  | Some e => if (e =? "base64")%string then b64_decode b64_std true content else Some content
  | None => Some content
  end.
Definition write_wire (path branch : string) (committed : bool) (commit : string) (bytesWritten : option Z) : json :=
  JObj ([("branch", JStr branch)] ++ omitempty "bytesWritten" JInt bytesWritten ++
        [("commit", JStr commit); ("committed", JBool committed); ("path", JStr path); ("pushed", JBool false)]).
Definition writeFile (handle branch : string) (body : decoded WriteFileRequest) : J reply :=
  let! ac := resolveAccess handle capWrite in
  let! body := decode body in
  let! content := want (decodeContent (wfr_Content body) (wfr_Encoding body))
    (writeError StatusBadRequest codeValidation "invalid content encoding"
       (Some (validationDetails "content" (base64_error (wfr_Content body))))) in
  let commit := default true (wfr_Commit body) in
  let! ci := must_svc (WriteFile {|
    wf_SiteID := site_ID (ac_site ac); wf_Branch := branch; wf_Path := wfr_Path body; wf_Content := content;
    wf_BaseSHA := wfr_BaseSha body; wf_Commit := commit; wf_Message := derefStr (wfr_Message body);
    wf_Actor := editor ac |}) in
  site_audit ac "file.write" (emptyToNil (ci_SHA ci))
    [("base_sha", JStr (wfr_BaseSha body)); ("branch", JStr branch); ("path", JStr (wfr_Path body))] ;!
  ok (writeJSON StatusOK (write_wire (wfr_Path body) branch commit (ci_SHA ci) (Some (slen content)))).

Definition deleteFile (handle branch : string) : J reply :=
  let! ac := resolveAccess handle capWrite in
  let path := query "path" in
  let baseSha := query "baseSha" in
  guard_not ((path =? "")%string || (baseSha =? "")%string)
    (invalid "path and baseSha are required" "" "path and baseSha are required") ;!
  let! ci := must_svc (DeleteFile (site_ID (ac_site ac)) branch path baseSha (editor ac)) in
  site_audit ac "file.delete" (emptyToNil (ci_SHA ci))
    [("base_sha", JStr baseSha); ("branch", JStr branch); ("path", JStr path)] ;!
  ok (writeJSON StatusOK (toCommitWire ci)).

(** ** history.go *)

Definition commit (handle branch : string) (body : decoded CommitRequest) : J reply :=
  let! ac := resolveAccess handle capWrite in
  let! body := decode body in
  let! ci := must_svc (Commit {|
    cm_SiteID := site_ID (ac_site ac); cm_Branch := branch; cm_Message := derefStr (cmr_Message body);
    cm_BaseSHA := cmr_BaseSha body; cm_Actor := editor ac |}) in
  site_audit ac "commit" (emptyToNil (ci_SHA ci)) [("base_sha", JStr (cmr_BaseSha body)); ("branch", JStr branch)] ;!
  ok (writeJSON StatusOK (write_wire "" branch true (ci_SHA ci) None)).

Definition maxLogLimit : Z := 500.
(** A query value that Atoi accepts, or the default *)
Definition int_query (k : string) (dflt : Z) : Z :=
  let v := query k in
  if negb (v =? "")%string then default dflt (parse_int v) else dflt.
Definition log_limit : Z :=
  let limit := int_query "limit" defaultLogLimit in
  let limit := if (limit <? 1)%Z then defaultLogLimit else limit in
  if (maxLogLimit <? limit)%Z then maxLogLimit else limit.
(** The page and the cursor of the next one, of a log read one row too long *)
Definition log_page (limit : Z) (commits : list CommitInfo) : list CommitInfo * option string :=
  if (limit <? Z.of_nat (length commits))%Z
  then (take (Z.to_nat limit) commits, ci_SHA <$> commits !! Z.to_nat (limit - 1))
  else (commits, None).
Definition getLog (handle branch : string) : J reply :=
  let! ac := resolveAccess handle capRead in
  let! commits := must_svc (GetLog {|
    lo_SiteID := site_ID (ac_site ac); lo_Branch := branch; lo_Limit := (log_limit + 1)%Z;
    lo_Before := query "before"; lo_Path := query "path" |}) in
  let '(page, nextBefore) := log_page log_limit commits in
  ok (writeJSON StatusOK (JObj [("branch", JStr branch); ("commits", JArr (toCommitWire <$> page));
                                ("nextBefore", nullable JStr nextBefore)])).

Definition getDiff (handle : string) : J reply :=
  let! ac := resolveAccess handle capRead in
  let from := query "from" in
  guard_not (from =? "")%string (invalid "from is required" "from" "required") ;!
  let! res := must_svc (GetDiff {|
    df_SiteID := site_ID (ac_site ac); df_From := from; df_To := query "to"; df_Path := query "path";
    df_ContextLines := int_query "contextLines" 3; df_NameStatus := (query "nameStatus" =? "true")%string |}) in
  ok (writeJSON StatusOK (JObj [("files", JArr (toFileDiffWire <$> dr_Files res));
                                ("fromSha", JStr (dr_FromSHA res)); ("toSha", JStr (dr_ToSHA res))])).

Definition rollback (handle branch : string) (body : decoded RollbackRequest) : J reply :=
  let! ac := resolveAccess handle capWrite in
  let! body := decode body in
  let! ci := must_svc (Rollback (site_ID (ac_site ac)) branch (rbr_ToSha body) (rbr_BaseSha body) (editor ac)) in
  site_audit ac "rollback" (emptyToNil (ci_SHA ci))
    [("base_sha", JStr (rbr_BaseSha body)); ("branch", JStr branch); ("to_sha", JStr (rbr_ToSha body))] ;!
  ok (writeJSON StatusOK (toCommitWire ci)).

(** ** publish.go *)

Definition urlFor (label : string) : J string := λ tr,
  let scheme := if cf_Production cfg then "https" else "http" in
  let base := BaseDomain tr r in
  (tr, Ok (if (base =? "")%string then scheme +:+ "://" +:+ label
           else scheme +:+ "://" +:+ label +:+ "." +:+ base)).

Definition publish (handle : string) (body : decoded PublishRequest) : J reply :=
  let! ac := resolveAccess handle capPublish in
  guard_not (negb (ac_role ac =? SiteRoleOwner)%string && negb (site_PublishMode (ac_site ac) =? "direct")%string)
    (writeError StatusForbidden codeForbidden
       "this site requires publish requests; only the owner can publish directly" None) ;!
  let! body := decode body in
  let from := match pbr_From body with
              | Some f => if negb (f =? "")%string then f else BranchDraft
              | None => BranchDraft
              end in
  let! ci := must_svc (Publish {|
    pb_SiteID := site_ID (ac_site ac); pb_From := from; pb_BaseSHA := pbr_BaseSha body;
    pb_Message := derefStr (pbr_Message body); pb_Actor := editor ac |}) in
  site_audit ac "publish" (emptyToNil (ci_SHA ci)) [("base_sha", JStr (pbr_BaseSha body)); ("from", JStr from)] ;!
  let! url := urlFor (site_Handle (ac_site ac)) in
  ok (writeJSON StatusOK (JObj [
    ("from", JStr from); ("fromCommit", JStr (pbr_BaseSha body)); ("publishedCommit", JStr (ci_SHA ci));
    ("publishedUrl", JStr url); ("pushed", JBool false)])).

Definition purgeSiteCache (handle : string) : J reply :=
  let! ac := resolveAccess handle capPublish in
  let! newVersion := must_store (QBumpCacheVersion (site_ID (ac_site ac))) in
  site_audit ac "cache_purge" None
    [("cache_version", JInt newVersion); ("handle", JStr (site_Handle (ac_site ac)))] ;!
  ok (writeJSON StatusOK (JObj [("cacheVersion", JInt newVersion)])).

(** ** upload.go *)

Definition multipartFormMem : Z := (2 ^ 20)%Z.
Definition too_large : reply := writeError StatusRequestEntityTooLarge codeTooLarge "the upload is too large" None.
Definition bad_upload (message reason : string) : reply :=
  writeError StatusBadRequest codeValidation message (Some (validationDetails "" reason)).
(** [io.CopyN(tmp, file, max+1)]: reading stops one byte past the cap, before a
    later failure shows. *)
Definition copy_upload (file : file_part) : Res reply bytes :=
  if (cf_MaxUploadBytes cfg <? slen (fp_data file))%Z then Err too_large
  else match fp_fails file with
       | Some true => Err too_large
       | Some false => Err (bad_upload "could not read the upload" "stream error")
       | None => Ok (fp_data file)
       end.
Definition importZip (handle branch : string) (up : upload) : J reply :=
  let! ac := resolveAccess handle capWrite in
  let! part := lift match up_form up (cf_MaxUploadBytes cfg + multipartFormMem)%Z with
    | FormTooLarge => Err too_large
    | FormMalformed => Err (bad_upload "malformed multipart form" "could not parse upload")
    | Form None _ => Err (invalid "the 'file' part is required" "file" "required")
    | Form (Some file) baseSha => Ok (file, baseSha)
    end in
  let '(file, baseSha) := part in
  guard_not (negb (up_temp up))
    (writeError StatusInternalServerError codeInternal "could not stage the upload" None) ;!
  let! content := lift (copy_upload file) in
  let! ci := must_svc (ImportZip (site_ID (ac_site ac)) branch content (fp_Filename file) baseSha
                         (actorFor (ac_user ac) SourceUpload)) in
  audit (mkAudit (Some (su_UserID (ac_user ac))) (Some (site_ID (ac_site ac))) None "import" AuditSourceUpload
           (emptyToNil (ci_SHA ci))
           [("base_sha", JStr baseSha); ("branch", JStr branch); ("bytes", JInt (slen content));
            ("filename", JStr (fp_Filename file))]) ;!
  ok (writeJSON StatusOK (toCommitWire ci)).

(** ** preview.go *)

Definition previewGrantTTL : Z := (5 * 60 * second)%Z.
Definition previewGrant (handle branch : string) : J reply :=
  let! ac := resolveAccess handle capRead in
  let! signer := want (cf_PreviewGrant cfg)
    (writeError StatusNotFound codeNotFound "previews are not enabled" None) in
  guard_not ((branch =? "")%string || (branch =? BranchPublished)%string)
    (invalid "published is public and is not previewable" "branch" "not a preview branch") ;!
  lift match ValidateBranchName branch with Ok _ => Ok tt | Err e => Err (writeServiceError e) end ;!
  must_svc (ServedTree (site_ID (ac_site ac)) branch) ;!
  let! t := now in
  let exp := (t + previewGrantTTL)%Z in
  let grant := SignGrant signer (site_ID (ac_site ac)) branch exp in
  let! base := urlFor (site_Handle (ac_site ac) +:+ "--" +:+ branch) in
  site_audit ac "preview.grant" None [("branch", JStr branch)] ;!
  ok (writeJSON StatusOK (JObj [
    ("previewUrl", JStr (base +:+ "/?" +:+ PreviewGrantQueryParam +:+ "=" +:+ grant)); ("grant", JStr grant);
    ("branch", JStr branch); ("expiresAt", JTime exp)])).
End handlers.
