(* ===== verification/RestAccounts.v ===== *)
(** * REST handlers: tokens, members, administration, and the routes
    (api/tokens.go, members.go, admin.go, router.go)

    The handlers that work on the metadata store, the table of endpoints, and a
    whole request: session, CSRF check, handler. *)

From S2P Require Import Prelude Trace GoStrings Encoding SiteErrors Handle Zip SiteTypes Http Preview Access Wire.
From S2P Require Import ApiWorld Session Rest.

(** ** Tokens: the plaintext *)

Definition tokenPrefixStr : string := "kotoji_pat_".
Definition tokenRandomLen : nat := 30.
Definition tokenPrefixLen : nat := 12.
Definition base62Alphabet : string := "0123456789ABCDEFGHIJKLMNOPQRSTUVWXYZabcdefghijklmnopqrstuvwxyz".
(** The characters at the drawn indices; the first failing draw stops the loop. *)
Fixpoint randBase62 (draw : nat → option N) (n i : nat) : option string :=
  match n with
  | 0 => Some ""
  | S n => match draw i with
           | None => None
           | Some idx => String (default NUL (String.get (N.to_nat idx) base62Alphabet)) <$> randBase62 draw n (S i)
           end
  end.
Definition generateToken `{Crypto} (draw : nat → option N) : option (string * string * bytes) :=
  match randBase62 draw tokenRandomLen 0 with
  | None => None
  | Some random =>
      let plaintext := tokenPrefixStr +:+ random in
      Some (plaintext, str_take tokenPrefixLen plaintext, sha256 plaintext)
  end.

Definition validScopes (scopes : list string) : bool :=
  forallb (λ sc, (sc =? "read")%string || (sc =? "write")%string || (sc =? "publish")%string) scopes.

(** ** Bodies *)

Record CreateTokenRequest := mkCreateToken {
  ctr_Name : string; ctr_Scopes : list string; ctr_CanCreateSites : option bool; ctr_ExpiresAt : option time;
}.
Record AddMemberBody := mkAddMember { amb_Email : string; amb_Role : string }.
Record UserFlagsBody := mkUserFlags { ufb_IsAdmin : option bool; ufb_CanCreateSites : option bool }.
Record GitHubBody := mkGitHubBody {
  ghb_Enabled : option bool; ghb_Org : option string; ghb_Token : option string; ghb_WebhookSecret : option string;
  ghb_ClearToken : bool;
}.

Section handlers.
Context `{GoUnicode} `{Crypto} `{UUIDText} `{UUIDParse} `{GoText} `{World}.
Context (BaseDomain : trace → Request → string).
Context (cfg : ApiConfig) (r : Request) (user : option SessionUser).
Abbreviation query := (query r).
Abbreviation resolveAccess := (resolveAccess user).
Abbreviation signedIn := (signedIn user).

(** ** tokens.go *)

Definition token_fields (t : TokenRow) : list (string * json) := [
  ("canCreateSites", JBool (tr_CanCreateSites t)); ("createdAt", JTime (tr_CreatedAt t));
  ("expiresAt", nullable JTime (tr_ExpiresAt t)); ("id", juuid (tr_ID t));
  ("lastUsedAt", nullable JTime (tr_LastUsedAt t)); ("name", JStr (tr_Name t));
  ("revokedAt", nullable JTime (tr_RevokedAt t)); ("scopes", strings (tr_Scopes t))].
Definition toTokenSummary (t : TokenRow) : json :=
  JObj (token_fields t ++ [("tokenPrefix", JStr (tr_TokenPrefix t))]).
Definition toCreatedToken (t : TokenRow) (plaintext : string) : json :=
  JObj (token_fields t ++ [("token", JStr plaintext); ("tokenPrefix", JStr (tr_TokenPrefix t))]).

Definition listTokens : J reply :=
  let! u := signedIn in
  let! rows := must_store (QListUserTokens (su_UserID u)) in
  ok (writeJSON StatusOK (JObj [("tokens", JArr (toTokenSummary <$> rows))])).

Definition createToken (body : decoded CreateTokenRequest) : J reply :=
  let! u := signedIn in
  let! body := decode body in
  guard_not (ctr_Name body =? "")%string (invalid "name is required" "name" "required") ;!
  guard_not (bool_decide (ctr_Scopes body = [])) (invalid "at least one scope is required" "scopes" "min 1") ;!
  guard_not (negb (validScopes (ctr_Scopes body)))
    (invalid "invalid scope" "scopes" "must be subset of read|write|publish") ;!
  let! tok := λ tr, (tr, match generateToken (w_rand62 tr) with
    | Some t => Ok t
    | None => Err (writeError StatusInternalServerError codeInternal "could not generate a token" None)
    end) in
  let '(plaintext, prefix, hash) := tok in
  let canCreate := match ctr_CanCreateSites body with
                   | Some true => su_CanCreateSites u || su_IsAdmin u
                   | _ => false
                   end in
  let! row := must_store (QCreateUserToken (mkNewToken (su_UserID u) (ctr_Name body) prefix hash (ctr_Scopes body)
                                              canCreate (ctr_ExpiresAt body))) in
  audit (mkAudit (Some (su_UserID u)) None (Some (tr_ID row)) "token.create" AuditSourceEditor None
           [("can_create_sites", JBool canCreate); ("name", JStr (ctr_Name body));
            ("scopes", strings (ctr_Scopes body))]) ;!
  ok (writeJSON StatusCreated (toCreatedToken row plaintext)).

Definition revokeToken (tokenId : string) : J reply :=
  let! u := signedIn in
  let! id := want (uuid_Parse tokenId) (invalid "invalid token id" "tokenId" "must be a uuid") in
  must_store (QRevokeUserToken id (su_UserID u)) ;!
  audit (mkAudit (Some (su_UserID u)) None (Some id) "token.revoke" AuditSourceEditor None []) ;!
  ok noContent.

(** ** members.go *)

Definition member_wire (id : uuid) (email displayName role : string) (createdAt : option time) : json :=
  JObj (omitempty "createdAt" JTime createdAt ++
        [("displayName", JStr displayName); ("email", JStr email); ("role", JStr role); ("userId", juuid id)]).
Definition listMembers (handle : string) : J reply :=
  let! ac := resolveAccess handle capRead in
  let! rows := must_store (QListMembers (site_ID (ac_site ac))) in
  ok (writeJSON StatusOK (JObj [("members", JArr
    ((λ m, member_wire (mb_UserID m) (mb_Email m) (mb_DisplayName m) (mb_Role m) (mb_CreatedAt m)) <$> rows))])).

Definition validRole (role : string) : bool :=
  (role =? SiteRoleOwner)%string || (role =? SiteRoleEditor)%string || (role =? SiteRoleViewer)%string.
Definition bad_role : reply := invalid "invalid role" "role" "must be owner|editor|viewer".
Definition bad_user_id : reply := invalid "invalid user id" "userId" "must be a uuid".

(** The loop of isSoleOwner over the rows *)
Definition sole_owner (rows : list MemberRow) (userID : uuid) : bool :=
  let owners := List.filter (λ m, (mb_Role m =? SiteRoleOwner)%string) rows in
  existsb (λ m, bool_decide (mb_UserID m = userID)) owners && (length owners =? 1).
Definition isSoleOwner (siteID userID : uuid) : J (Res store_err bool) :=
  let! rows := store (QListMembers siteID) in
  ok match rows with Ok rows => Ok (sole_owner rows userID) | Err e => Err e end.
Definition refuseSoleOwner (siteID userID : uuid) (message : string) : J unit :=
  let! sole := isSoleOwner siteID userID in
  guard_not match sole with Ok b => b | Err _ => false end (writeError StatusConflict codeConflict message None).

Definition addMember (handle : string) (body : decoded AddMemberBody) : J reply :=
  let! ac := resolveAccess handle capOwner in
  let! body := decode body in
  guard_not (negb (validRole (amb_Role body))) bad_role ;!
  let! target := store (QGetUserByEmail (amb_Email body)) in
  let! target := lift match target with
    | Ok u => Ok u
    | Err NoRows => Err (invalid "no user with that email has signed in yet" "email" "unknown user")
    | Err e => Err (serviceError e)
    end in
  must_store (QAddMember (site_ID (ac_site ac)) (ur_ID target) (amb_Role body) (Some (su_UserID (ac_user ac)))) ;!
  site_audit ac "member.add" None [("role", JStr (amb_Role body)); ("user_id", juuid (ur_ID target))] ;!
  ok (writeJSON StatusOK
        (member_wire (ur_ID target) (ur_Email target) (ur_DisplayName target) (amb_Role body) None)).

Definition updateMemberRole (handle userId : string) (role : decoded string) : J reply :=
  let! ac := resolveAccess handle capOwner in
  let! userID := want (uuid_Parse userId) bad_user_id in
  let! role := decode role in
  guard_not (negb (validRole role)) bad_role ;!
  (if negb (role =? SiteRoleOwner)%string
   then refuseSoleOwner (site_ID (ac_site ac)) userID "cannot demote the sole owner" else ok tt) ;!
  let! member := store (QGetMember (site_ID (ac_site ac)) userID) in
  lift match member with
       | Ok _ => Ok tt
       | Err NoRows => Err (writeError StatusNotFound codeNotFound "member not found" None)
       | Err e => Err (serviceError e)
       end ;!
  must_store (QUpdateMemberRole (site_ID (ac_site ac)) userID role) ;!
  site_audit ac "member.role" None [("role", JStr role); ("user_id", juuid userID)] ;!
  let! target := must_store (QGetUserByID userID) in
  ok (writeJSON StatusOK (member_wire userID (ur_Email target) (ur_DisplayName target) role None)).

Definition removeMember (handle userId : string) : J reply :=
  let! ac := resolveAccess handle capOwner in
  let! userID := want (uuid_Parse userId) bad_user_id in
  refuseSoleOwner (site_ID (ac_site ac)) userID "cannot remove the sole owner" ;!
  must_store (QRemoveMember (site_ID (ac_site ac)) userID) ;!
  site_audit ac "member.remove" None [("user_id", juuid userID)] ;!
  ok noContent.

(** ** admin.go: the handlers behind RequireAdmin *)

Definition github_wire (enabled : bool) (org : string) (tokenSet webhookSecretSet : bool) : json :=
  JObj [("enabled", JBool enabled); ("org", JStr org); ("tokenSet", JBool tokenSet);
        ("webhookSecretSet", JBool webhookSecretSet)].
Definition effectiveGitHubAdminConfig : J json :=
  let! gh := must_store QGetGitHubConfig in
  ok (github_wire (if gh_EnabledSet gh then gh_Enabled gh else cf_GitHub_Enabled cfg)
        (if negb (gh_Org gh =? "")%string then gh_Org gh else cf_GitHub_Org cfg)
        (gh_TokenSet gh || negb (cf_GitHub_Token cfg =? "")%string)
        (negb (gh_WebhookSecret gh =? "")%string || negb (cf_GitHub_WebhookSecret cfg =? "")%string)).
Definition adminGetGitHub : J reply := let! v := effectiveGitHubAdminConfig in ok (writeJSON StatusOK v).

Definition is_set {A} (o : option A) : json := JBool (match o with Some _ => true | None => false end).
Definition nonempty (o : option string) : bool := match o with Some s => negb (s =? "")%string | None => false end.
(** [if actor, ok := auth.CurrentUser(...); ok { s.auditBestEffort(...) }] *)
Definition admin_audit (action : string) (meta : list (string * json)) : J unit :=
  match user with
  | Some u => audit (mkAudit (Some (su_UserID u)) None None action AuditSourceSystem None meta)
  | None => ok tt
  end.
Definition adminPutGitHub (body : decoded GitHubBody) : J reply :=
  let! body := decode body in
  must_store (QSetGitHubConfig (mkSetGitHub (ghb_Enabled body) (ghb_Org body) (ghb_WebhookSecret body)
                                  (ghb_Token body) (ghb_ClearToken body))) ;!
  admin_audit "admin.github.config"
    [("enabled_set", is_set (ghb_Enabled body)); ("org_set", is_set (ghb_Org body));
     ("token_cleared", JBool (ghb_ClearToken body)); ("token_set", JBool (nonempty (ghb_Token body)));
     ("webhook_secret_set", is_set (ghb_WebhookSecret body))] ;!
  adminGetGitHub.

Definition adminAuditDefaultLimit : Z := 50.
Definition adminAuditMaxLimit : Z := 200.
(** strconv.ParseInt(s, 10, 32) *)
Definition parseInt32 (s : string) : option Z :=
  match parse_int s with
  | Some n => if ((- 2 ^ 31 <=? n) && (n <? 2 ^ 31))%Z then Some n else None
  | None => None
  end.
Definition clampInt32 (n lo hi : Z) : Z := if (n <? lo)%Z then lo else if (hi <? n)%Z then hi else n.
Definition audit_limit : Z :=
  let v := query "limit" in
  if negb (v =? "")%string then
    match parseInt32 v with
    | Some n => if (0 <? n)%Z then clampInt32 n 1 adminAuditMaxLimit else adminAuditDefaultLimit
    | None => adminAuditDefaultLimit
    end
  else adminAuditDefaultLimit.
Definition toAuditEntry (a : AuditLog) : json := JObj [
  ("id", JInt (al_ID a)); ("actorId", nullable juuid (al_ActorUserID a)); ("siteId", nullable juuid (al_SiteID a));
  ("tokenId", nullable juuid (al_TokenID a)); ("action", JStr (al_Action a)); ("source", JStr (al_Source a));
  ("commitSha", nullable JStr (al_CommitSha a));
  ("metadata", if (al_Metadata a =? "")%string then JObj [] else unmarshal_object (al_Metadata a));
  ("createdAt", JTime (al_CreatedAt a))].
Definition adminSiteAudit (handle : string) : J reply :=
  let! st := svc (GetSiteByHandle handle) in
  let! st := lift match st with Ok st => Ok st | Err _ => Err (deny_reply e_site_not_found) end in
  let v := query "before" in
  let before := if negb (v =? "")%string then parse_int v else None in
  let! rows := must_store (QListAuditForSite (site_ID st) before audit_limit) in
  ok (writeJSON StatusOK (JObj [("audit", JArr (toAuditEntry <$> rows))])).

Definition adminSetUserFlags (userId : string) (body : decoded UserFlagsBody) : J reply :=
  let! userID := want (uuid_Parse userId) bad_user_id in
  let! body := decode body in
  let! cur := store (QGetUserByID userID) in
  let! cur := lift match cur with
    | Ok u => Ok u
    | Err NoRows => Err (writeError StatusNotFound codeNotFound "user not found" None)
    | Err e => Err (serviceError e)
    end in
  let isAdmin := default (ur_IsAdmin cur) (ufb_IsAdmin body) in
  let canCreate := default (ur_CanCreateSites cur) (ufb_CanCreateSites body) in
  must_store (QSetUserAdminFlags isAdmin canCreate userID) ;!
  admin_audit "admin.user.flags"
    [("can_create_sites", JBool canCreate); ("is_admin", JBool isAdmin); ("user_id", juuid userID)] ;!
  ok (writeJSON StatusOK (JObj [("userId", juuid userID); ("isAdmin", JBool isAdmin);
                                ("canCreateSites", JBool canCreate)])).
End handlers.
