(* ===== verification/Routes.v ===== *)
(** * The REST routes and a whole request (api/router.go)

    One constructor per route of mountAPI and mountAdmin, with the path values
    and the decoded body its handler reads; [route] gives its method and
    pattern, [handle] its handler, and [serve] the request as the middleware
    chain sees it: session, CSRF check, admin gate, handler. *)

From S2P Require Import Prelude Trace GoStrings Encoding SiteErrors Handle Zip SiteTypes Http Preview Access Wire.
From S2P Require Import ApiWorld Session Rest RestAccounts.

Inductive endpoint :=
| RListTokens | RCreateToken (b : decoded CreateTokenRequest) | RRevokeToken (tokenId : string)
| RListSites | RCreateSite (b : decoded CreateSiteRequest)
| RGetSite (h : string) | RUpdateSite (h : string) (b : decoded UpdateSiteRequest) | RDeleteSite (h : string)
| RRenameSite (h : string) (b : decoded string) | RMirrorSite (h : string)
| RListMembers (h : string) | RAddMember (h : string) (b : decoded AddMemberBody)
| RUpdateMemberRole (h userId : string) (b : decoded string) | RRemoveMember (h userId : string)
| RListBranches (h : string) | RCreateBranch (h : string) (b : decoded CreateBranchBody)
| RDeleteBranch (h branch : string) | RPreviewGrant (h branch : string)
| RListFiles (h branch : string) | RReadFile (h branch : string)
| RWriteFile (h branch : string) (b : decoded WriteFileRequest) | RDeleteFile (h branch : string)
| RImportZip (h branch : string) (up : upload)
| RCommit (h branch : string) (b : decoded CommitRequest) | RGetLog (h branch : string)
| RRollback (h branch : string) (b : decoded RollbackRequest) | RGetDiff (h : string)
| RPublish (h : string) (b : decoded PublishRequest) | RPurgeSiteCache (h : string)
| RAdminSiteAudit (h : string) | RAdminSetUserFlags (userId : string) (b : decoded UserFlagsBody)
| RAdminGetGitHub | RAdminPutGitHub (b : decoded GitHubBody).

Definition route (e : endpoint) : string * string :=
  match e with
  | RListTokens => ("GET", "/api/tokens") | RCreateToken _ => ("POST", "/api/tokens")
  | RRevokeToken _ => ("DELETE", "/api/tokens/{tokenId}")
  | RListSites => ("GET", "/api/sites") | RCreateSite _ => ("POST", "/api/sites")
  | RGetSite _ => ("GET", "/api/sites/{handle}") | RUpdateSite _ _ => ("PATCH", "/api/sites/{handle}")
  | RDeleteSite _ => ("DELETE", "/api/sites/{handle}") | RRenameSite _ _ => ("POST", "/api/sites/{handle}/rename")
  | RMirrorSite _ => ("POST", "/api/sites/{handle}/mirror")
  | RListMembers _ => ("GET", "/api/sites/{handle}/members")
  | RAddMember _ _ => ("POST", "/api/sites/{handle}/members")
  | RUpdateMemberRole _ _ _ => ("PATCH", "/api/sites/{handle}/members/{userId}")
  | RRemoveMember _ _ => ("DELETE", "/api/sites/{handle}/members/{userId}")
  | RListBranches _ => ("GET", "/api/sites/{handle}/branches")
  | RCreateBranch _ _ => ("POST", "/api/sites/{handle}/branches")
  | RDeleteBranch _ _ => ("DELETE", "/api/sites/{handle}/branches/{branch}")
  | RPreviewGrant _ _ => ("POST", "/api/sites/{handle}/branches/{branch}/preview-grant")
  | RListFiles _ _ => ("GET", "/api/sites/{handle}/branches/{branch}/files")
  | RReadFile _ _ => ("GET", "/api/sites/{handle}/branches/{branch}/file")
  | RWriteFile _ _ _ => ("PUT", "/api/sites/{handle}/branches/{branch}/file")
  | RDeleteFile _ _ => ("DELETE", "/api/sites/{handle}/branches/{branch}/file")
  | RImportZip _ _ _ => ("POST", "/api/sites/{handle}/branches/{branch}/import")
  | RCommit _ _ _ => ("POST", "/api/sites/{handle}/branches/{branch}/commit")
  | RGetLog _ _ => ("GET", "/api/sites/{handle}/branches/{branch}/log")
  | RRollback _ _ _ => ("POST", "/api/sites/{handle}/branches/{branch}/rollback")
  | RGetDiff _ => ("GET", "/api/sites/{handle}/diff")
  | RPublish _ _ => ("POST", "/api/sites/{handle}/publish")
  | RPurgeSiteCache _ => ("POST", "/api/sites/{handle}/cache/purge")
  | RAdminSiteAudit _ => ("GET", "/api/admin/sites/{handle}/audit")
  | RAdminSetUserFlags _ _ => ("PATCH", "/api/admin/users/{userId}/flags")
  | RAdminGetGitHub => ("GET", "/api/admin/github") | RAdminPutGitHub _ => ("PUT", "/api/admin/github")
  end.

Section serve.
Context `{GoUnicode} `{Crypto} `{UUIDText} `{UUIDParse} `{GoText} `{World}.
Context (BaseDomain : trace → Request → string).
Context (cfg : ApiConfig).

(** A handler behind RequireAdmin *)
Definition admin (user : option SessionUser) (h : J reply) : J reply := let! _ := lift (RequireAdmin user) in h.

Definition handle (r : Request) (user : option SessionUser) (e : endpoint) : J reply :=
  match e with
  | RListTokens => listTokens user | RCreateToken b => createToken user b | RRevokeToken id => revokeToken user id
  | RListSites => listSites user | RCreateSite b => createSite user b
  | RGetSite h => getSite user h | RUpdateSite h b => updateSite user h b | RDeleteSite h => deleteSite user h
  | RRenameSite h b => renameSite user h b | RMirrorSite h => mirrorSite user h
  | RListMembers h => listMembers user h | RAddMember h b => addMember user h b
  | RUpdateMemberRole h id b => updateMemberRole user h id b | RRemoveMember h id => removeMember user h id
  | RListBranches h => listBranches user h | RCreateBranch h b => createBranch user h b
  | RDeleteBranch h b => deleteBranch user h b | RPreviewGrant h b => previewGrant BaseDomain cfg r user h b
  | RListFiles h b => listFiles r user h b | RReadFile h b => readFile r user h b
  | RWriteFile h br b => writeFile user h br b | RDeleteFile h b => deleteFile r user h b
  | RImportZip h b up => importZip cfg user h b up
  | RCommit h br b => commit user h br b | RGetLog h b => getLog r user h b
  | RRollback h br b => rollback user h br b | RGetDiff h => getDiff r user h
  | RPublish h b => publish BaseDomain cfg r user h b | RPurgeSiteCache h => purgeSiteCache user h
  | RAdminSiteAudit h => admin user (adminSiteAudit r h)
  | RAdminSetUserFlags id b => admin user (adminSetUserFlags user id b)
  | RAdminGetGitHub => admin user (adminGetGitHub cfg)
  | RAdminPutGitHub b => admin user (adminPutGitHub cfg user b)
  end.

Definition serve (r : Request) (e : endpoint) : J reply :=
  let! user := SessionAuth (cf_Auth cfg) r in
  lift (csrf_guard (cf_Auth cfg) r) ;!
  handle r user e.
End serve.

(** ** The headers of every control-plane response *)

Definition controlPlaneCSP : string :=
  "default-src 'none'; frame-ancestors 'none'; base-uri 'none'; form-action 'none'".
Definition controlSecurityHeaders (w : Response) : Response :=
  foldl (λ w kv, set_header kv.1 kv.2 w) w
    [("X-Content-Type-Options", "nosniff"); ("X-Frame-Options", "DENY"); ("Referrer-Policy", "no-referrer");
     ("Content-Security-Policy", controlPlaneCSP); ("Cross-Origin-Opener-Policy", "same-origin");
     ("Cross-Origin-Resource-Policy", "same-origin")].
