(* ===== verification/RestSafety.v ===== *)
(** * Every effect of a REST request is one its caller may have

    [justified] says, for every request a handler can make of the service or the
    store, what the trace of the REST request must show before it: a live
    session for the cookie, a passed CSRF check, the site found by its handle,
    and a role on it (or the administrator flag) that reaches the capability. *)

From S2P Require Import Prelude Trace GoStrings Encoding SiteErrors Handle Zip SiteTypes Http Preview Access Wire.
From S2P Require Import ApiWorld Session Rest RestAccounts Routes.

(** Requests that change something beyond the session's last use *)
Definition svc_writes {A} (c : Svc A) : bool :=
  match c with
  | GetSite _ | GetSiteByHandle _ | ListSites _ | ListBranches _ | ListFiles _ | ReadFile _ _ _ _ | GetDiff _
  | GetLog _ | ServedTree _ _ => false
  | _ => true
  end.
Definition store_writes {A} (c : Store A) : bool :=
  match c with
  | QGetSession _ | QTouchSession _ | QGetRole _ _ | QListMembers _ | QGetMember _ _ | QListUserTokens _
  | QGetUserByEmail _ | QGetUserByID _ | QGetGitHubConfig | QListAuditForSite _ _ _ | QGetSiteByGitHubRepo _ => false
  | _ => true
  end.

Section rules.
Context `{UUIDText}.
Context (cfg : AuthConfig) (r : Request).

(** The user of the live session the request's cookie names *)
Definition caller (t : trace) (u : SessionUser) : Prop :=
  readCookie cfg r ≠ "" ∧ ∃ row, EvStore (QGetSession (readCookie cfg r)) (Ok row) ∈ t ∧ u = session_user row.
(** The role read for [u] on [st], or an administrator's ownership when no role could be read *)
Definition has_role (t : trace) (u : SessionUser) (st : Site) (role : string) : Prop :=
  (∃ h, EvSvc (GetSiteByHandle h) (Ok st) ∈ t) ∧
  (EvStore (QGetRole (site_ID st) (su_UserID u)) (Ok role) ∈ t ∨
   su_IsAdmin u = true ∧ role = SiteRoleOwner ∧ ∃ e, EvStore (QGetRole (site_ID st) (su_UserID u)) (Err e) ∈ t).
Definition may (t : trace) (u : SessionUser) (id : uuid) (cap : capability) : Prop :=
  ∃ st role, has_role t u st role ∧ site_ID st = id ∧ roleAllows role cap = true.
Definition may_publish (t : trace) (u : SessionUser) (id : uuid) : Prop :=
  ∃ st role, has_role t u st role ∧ site_ID st = id ∧ roleAllows role capPublish = true ∧
    (role = SiteRoleOwner ∨ site_PublishMode st = "direct").
Definition creator (u : SessionUser) : Prop := su_CanCreateSites u = true ∨ su_IsAdmin u = true.

Definition svc_allowed (t : trace) (u : SessionUser) {A} (c : Svc A) : Prop :=
  match c with
  | GetSiteByHandle _ => True
  | ListSites o => o = su_UserID u
  | CreateSite i => creator u ∧ cs_OwnerID i = su_UserID u ∧ cs_Actor i = actorFor u SourceEditor
  | GetSite id | RenameHandle id _ | SetRemote id _ | MirrorPush id _ => may t u id capOwner
  | DeleteSite id a => may t u id capOwner ∧ a = actorFor u SourceEditor
  | ListBranches id | ReadFile id _ _ _ | ServedTree id _ => may t u id capRead
  | ListFiles i => may t u (lf_SiteID i) capRead
  | GetDiff i => may t u (df_SiteID i) capRead
  | GetLog i => may t u (lo_SiteID i) capRead
  | CreateBranch id _ _ | DeleteBranch id _ => may t u id capWrite
  | WriteFile i => may t u (wf_SiteID i) capWrite ∧ wf_Actor i = actorFor u SourceEditor
  | DeleteFile id _ _ _ a | Rollback id _ _ _ a => may t u id capWrite ∧ a = actorFor u SourceEditor
  | Commit i => may t u (cm_SiteID i) capWrite ∧ cm_Actor i = actorFor u SourceEditor
  | ImportZip id _ _ _ _ a => may t u id capWrite ∧ a = actorFor u SourceUpload
  | Publish i => may_publish t u (pb_SiteID i) ∧ pb_Actor i = actorFor u SourceEditor
  | FetchAndUpdate _ _ => False
  end.
Definition store_allowed (t : trace) (u : SessionUser) {A} (c : Store A) : Prop :=
  match c with
  | QGetRole _ w | QListUserTokens w | QRevokeUserToken _ w => w = su_UserID u
  | QListMembers id => may t u id capRead
  | QGetMember id _ | QUpdateMemberRole id _ _ | QRemoveMember id _ => may t u id capOwner
  | QAddMember id _ _ by_ => may t u id capOwner ∧ by_ = Some (su_UserID u)
  | QCreateUserToken n => nt_UserID n = su_UserID u ∧ validScopes (nt_Scopes n) = true ∧
      (nt_CanCreateSites n = true → creator u)
  | QUpdateSiteSettings s => may t u (stg_ID s) capOwner
  | QBumpCacheVersion id => may t u id capPublish
  | QGetUserByEmail _ => ∃ id, may t u id capOwner
  | QGetUserByID _ => su_IsAdmin u = true ∨ ∃ id, may t u id capOwner
  | QSetUserAdminFlags _ _ _ | QGetGitHubConfig | QSetGitHubConfig _ | QListAuditForSite _ _ _ => su_IsAdmin u = true
  | QInsertAudit a => ad_ActorUserID a = Some (su_UserID u)
  | QGetSession _ | QTouchSession _ | QCreateSession _ | QDeleteSession _ | QGetSiteByGitHubRepo _ => False
  end.

(** The CSRF check as the request passed it; [changes] requires that it was not
    waived for a safe method. *)
Definition unforged (changes : bool) : Prop :=
  Verify cfg r = true ∧ (changes = true → isSafeMethod (rMethod r) = false).

Definition justified (t : trace) (e : event) : Prop :=
  match e with
  | EvSvc c _ => unforged (svc_writes c) ∧ ∃ u, caller t u ∧ svc_allowed t u c
  | EvStore (QGetSession id) _ => id = readCookie cfg r ∧ id ≠ ""
  | EvStore (QTouchSession id) _ => id = readCookie cfg r ∧ ∃ u, caller t u
  | EvStore c _ => unforged (store_writes c) ∧ ∃ u, caller t u ∧ store_allowed t u c
  end.
End rules.

(** ** Proofs *)

Section safety.
Context `{GoUnicode} `{Crypto} `{UUIDText} `{UUIDParse} `{GoText} `{World}.
Context (BaseDomain : trace → Request → string).
Context (cfg : ApiConfig) (r : Request) (user : option SessionUser).
Context (Hv : Verify (cf_Auth cfg) r = true).
Abbreviation just := (justified (cf_Auth cfg) r).
Abbreviation any_event := (λ _ : event, True).
Abbreviation job := (@Trace.job event reply any_event just).
Abbreviation caller := (caller (cf_Auth cfg) r).

Definition the_caller (t : trace) : Prop := match user with Some u => caller t u | None => True end.
Definition granted (cap : capability) (ac : access) (t : trace) : Prop :=
  caller t (ac_user ac) ∧ has_role t (ac_user ac) (ac_site ac) (ac_role ac) ∧ roleAllows (ac_role ac) cap = true.

Lemma caller_stable u : stable any_event (λ t, caller t u).
Proof. intros t e _ [Hc (row & Hin & ->)]. split; [done|]. exists row. rewrite elem_of_app. auto. Qed.
Lemma the_caller_stable : stable any_event the_caller.
Proof. unfold the_caller. destruct user; [apply caller_stable|done]. Qed.
Lemma granted_stable cap ac : stable any_event (granted cap ac).
Proof.
  intros t e He (Hc & [(h & Hh) Hr] & Ha). split; [by apply caller_stable|]. split; [|done]. split.
  - exists h. rewrite elem_of_app. auto.
  - destruct Hr as [Hr|(Hu & Ho & x & Hx)]; [left|right; split_and!; [done..|exists x]]; rewrite elem_of_app; auto.
Qed.
#[local] Hint Resolve the_caller_stable granted_stable : jobs.

(** What [granted] gives a request on the site found *)
Lemma granted_may cap ac t : granted cap ac t → may t (ac_user ac) (site_ID (ac_site ac)) cap.
Proof. intros (_ & Hr & Ha). by exists (ac_site ac), (ac_role ac). Qed.
Lemma svc_just {A} (c : Svc A) t u res :
  caller t u → svc_allowed t u c → (svc_writes c = true → isSafeMethod (rMethod r) = false) → just t (EvSvc c res).
Proof. intros. split; [done|]. eauto. Qed.
Lemma store_just {A} (c : Store A) t u res :
  caller t u → store_allowed t u c → (store_writes c = true → isSafeMethod (rMethod r) = false) →
  just t (EvStore c res).
Proof. intros Hu Ha Hw. destruct c; try by destruct Ha. all: split; [done|]; eauto. Qed.

(** The rules of the handlers: one step, one early return, one question *)
Ltac stab := solve [auto 10 with jobs].
Ltac step := apply job_seq; [stab| |intros ?].
Ltac early := first [by eapply job_any, job_guard|by eapply job_any, job_lift|by apply job_peek].

Lemma roleRow_job P site u :
  stable any_event P → (∀ t, P t → caller t u) →
  job P (roleRow site (su_UserID u)) (λ row t, match row with
    | RoleFound role => EvStore (QGetRole site (su_UserID u)) (Ok role) ∈ t
    | _ => ∃ e, EvStore (QGetRole site (su_UserID u)) (Err e) ∈ t
    end).
Proof.
  intros HP Hu. eapply job_bind; [done|apply asked_job; intros t res Ht; eapply store_just; [by apply Hu|done|done]|].
  intros [role|e]; apply job_ok; intros t [_ Ht]; [done|]. destruct e; simpl; eauto.
Qed.
Lemma effectiveRole_job P site u :
  stable any_event P → (∀ t, P t → caller t u) → job P (effectiveRole site u) anything.
Proof. intros HP Hu. apply job_seq; [done|by eapply job_any, roleRow_job|]. intros row. by apply job_ok. Qed.

Lemma verdict_job P usr row site cap Q :
  (∀ ac t, P t → Access.resolveAccess (λ _ _, row) usr site cap = Ok ac → Q ac t) → job P (verdict usr row site cap) Q.
Proof.
  intros HQ tr Ht HP. split; [by apply calmly_refl|]. simpl.
  destruct (Access.resolveAccess _ _ _ _) eqn:E; [|done]. intros ac [= <-]. by apply (HQ _ _ HP).
Qed.
Lemma resolveAccess_job handle cap :
  job the_caller (resolveAccess user handle cap) (granted cap).
Proof.
  unfold resolveAccess. destruct user as [u|] eqn:Eu; [|by apply verdict_job].
  assert (∀ t, the_caller t → caller t u) as Hu by (unfold the_caller; by rewrite Eu).
  eapply job_bind; [stab| |intros [st|e]].
  - apply asked_job. intros t res Ht. eapply svc_just; [by apply Hu|done|done].
  - eapply job_bind; [stab|apply roleRow_job; [stab|by intros t [Ht _]; apply Hu]|].
    intros row. apply verdict_job. intros ac t [[Hc Hst] Hrow]. cbn [Access.resolveAccess].
    unfold Access.effectiveRole. intros Hok.
    assert (∀ role, has_role t u st role → roleAllows role cap = true → granted cap (mkAccess st u role) t) as Hg.
    { intros role Hr Ha. split_and!; [by apply Hu|done|done]. }
    destruct row as [role| |].
    + destruct (roleAllows role cap) eqn:Ha; [|done]. injection Hok as <-. apply Hg; [|done].
      split; [by exists handle|by left].
    + destruct (su_IsAdmin u) eqn:Hadm; [|done]. destruct (roleAllows _ cap) eqn:Ha; [|done]. injection Hok as <-.
      apply Hg; [|done]. split; [by exists handle|by right].
    + destruct (su_IsAdmin u) eqn:Hadm; [|done]. destruct (roleAllows _ cap) eqn:Ha; [|done]. injection Hok as <-.
      apply Hg; [|done]. split; [by exists handle|by right].
  - by apply verdict_job.
Qed.

(** After the guard a handler keeps what the guard established. *)
Lemma guarded_job {A} handle cap (k : access → J A) :
  (∀ ac, job (granted cap ac) (k ac) anything) → job the_caller (bindM (resolveAccess user handle cap) k) anything.
Proof.
  intros Hk. eapply job_bind; [stab|apply resolveAccess_job|]. intros ac. eapply job_weaken; [apply Hk|]. by intros t [].
Qed.
Lemma granted_may_below cap cap' ac t :
  (minRankFor cap' ≤ minRankFor cap)%Z → granted cap ac t → may t (ac_user ac) (site_ID (ac_site ac)) cap'.
Proof.
  intros Hle (_ & Hr & Ha). exists (ac_site ac), (ac_role ac). split_and!; [done..|]. by eapply roleAllows_mono.
Qed.

Ltac allowed := first [solve [auto]|by eapply granted_may|solve [eapply granted_may_below; [|eassumption]; simpl; lia]|split; allowed|left; allowed|right; allowed
  |eexists; allowed].
(** A question of a guarded handler *)
Ltac ask_site := let Hg := fresh "Hg" in intros ? ? Hg; first [eapply svc_just|eapply store_just];
  [apply Hg|cbn [svc_allowed store_allowed]; allowed|cbn; intros; done].
Ltac ask_step := first
  [eapply job_any, must_svc_job; [stab|ask_site]
  |eapply job_any, must_store_job; [stab|ask_site]
  |apply audit_job; [stab|ask_site]
  |eapply job_any, asked_job; ask_site
  |early].
Ltac walk := cbv beta zeta; first [apply job_ok; done|apply job_fail|ask_step|case_match; walk
  |apply job_seq; [stab|walk|intros ?; walk]].

Lemma getSite_safe h : job the_caller (getSite user h) anything.
Proof. apply guarded_job; intros ac. walk. Qed.
Lemma listBranches_safe h : job the_caller (listBranches user h) anything.
Proof. apply guarded_job; intros ac. walk. Qed.
Lemma listFiles_safe h b : job the_caller (listFiles r user h b) anything.
Proof. apply guarded_job; intros ac. walk. Qed.
Lemma readFile_safe h b : job the_caller (readFile r user h b) anything.
Proof. apply guarded_job; intros ac. walk. Qed.
Lemma getLog_safe h b : job the_caller (getLog r user h b) anything.
Proof. apply guarded_job; intros ac. walk. Qed.
Lemma getDiff_safe h : job the_caller (getDiff r user h) anything.
Proof. apply guarded_job; intros ac. walk. Qed.
Lemma listMembers_safe h : job the_caller (listMembers user h) anything.
Proof. apply guarded_job; intros ac. walk. Qed.

(** *** Handlers that act for the user, on no particular site *)

Lemma signed_in_job {A} (k : SessionUser → J A) :
  (∀ u, user = Some u → job (λ t, caller t u) (k u) anything) → job the_caller (bindM (signedIn user) k) anything.
Proof.
  intros Hk. unfold signedIn. apply job_lift_bind. intros u Hu. destruct user as [w|] eqn:Eu; [|done].
  injection Hu as <-. eapply job_weaken; [by apply Hk|]. unfold the_caller. by rewrite Eu.
Qed.
Lemma admin_job {A} (k : J A) :
  (∀ u, user = Some u → su_IsAdmin u = true → job (λ t, caller t u) k anything) →
  job the_caller (bindM (lift (RequireAdmin user)) (λ _, k)) anything.
Proof.
  intros Hk. apply job_lift_bind. intros u Hu. unfold RequireAdmin in Hu. destruct user as [w|] eqn:Eu; [|done].
  destruct (su_IsAdmin w) eqn:Ha; [|done]. injection Hu as <-. eapply job_weaken; [by apply Hk|].
  unfold the_caller. by rewrite Eu.
Qed.
#[local] Hint Resolve caller_stable : jobs.

Lemma summaries_safe u sites : job (λ t, caller t u) (summaries u sites) anything.
Proof.
  induction sites as [|st sites IH]; simpl; [by apply job_ok|].
  apply job_seq; [stab|by apply effectiveRole_job; [stab|]|intros role].
  apply job_seq; [stab|exact IH|intros rest]. by apply job_ok.
Qed.
Lemma listSites_safe : job the_caller (listSites user) anything.
Proof.
  apply signed_in_job; intros u _. apply job_seq; [stab|ask_step|intros sites].
  apply job_seq; [stab|apply summaries_safe|intros out]. walk.
Qed.
Lemma listTokens_safe : job the_caller (listTokens user) anything.
Proof. apply signed_in_job; intros u _. walk. Qed.
Lemma adminGetGitHub_safe : job the_caller (admin user (adminGetGitHub cfg)) anything.
Proof. apply admin_job; intros u _ Ha. unfold adminGetGitHub, effectiveGitHubAdminConfig. walk. Qed.
Lemma adminSiteAudit_safe h : job the_caller (admin user (adminSiteAudit r h)) anything.
Proof. apply admin_job; intros u _ Ha. walk. Qed.

Section writes.
Context (Hm : isSafeMethod (rMethod r) = false).
Lemma updateSite_safe h b : job the_caller (updateSite user h b) anything.
Proof. apply guarded_job; intros ac. walk. Qed.
Lemma deleteSite_safe h : job the_caller (deleteSite user h) anything.
Proof. apply guarded_job; intros ac. walk. Qed.
Lemma renameSite_safe h b : job the_caller (renameSite user h b) anything.
Proof. apply guarded_job; intros ac. walk. Qed.
Lemma mirrorSite_safe h : job the_caller (mirrorSite user h) anything.
Proof. apply guarded_job; intros ac. walk. Qed.
Lemma createBranch_safe h b : job the_caller (createBranch user h b) anything.
Proof. apply guarded_job; intros ac. walk. Qed.
Lemma deleteBranch_safe h b : job the_caller (deleteBranch user h b) anything.
Proof. apply guarded_job; intros ac. walk. Qed.
Lemma writeFile_safe h br b : job the_caller (writeFile user h br b) anything.
Proof. apply guarded_job; intros ac. walk. Qed.
Lemma deleteFile_safe h b : job the_caller (deleteFile r user h b) anything.
Proof. apply guarded_job; intros ac. walk. Qed.
Lemma commit_safe h br b : job the_caller (commit user h br b) anything.
Proof. apply guarded_job; intros ac. walk. Qed.
Lemma rollback_safe h br b : job the_caller (rollback user h br b) anything.
Proof. apply guarded_job; intros ac. walk. Qed.
Lemma importZip_safe h b up : job the_caller (importZip cfg user h b up) anything.
Proof. apply guarded_job; intros ac. walk. Qed.
Lemma previewGrant_safe h b : job the_caller (previewGrant BaseDomain cfg r user h b) anything.
Proof. apply guarded_job; intros ac. walk. Qed.
Lemma purgeSiteCache_safe h : job the_caller (purgeSiteCache user h) anything.
Proof. apply guarded_job; intros ac. walk. Qed.
Lemma publish_safe h b : job the_caller (publish BaseDomain cfg r user h b) anything.
Proof.
  apply guarded_job; intros ac. apply job_guard_bind. intros Hmode.
  assert (∀ t, granted capPublish ac t → may_publish t (ac_user ac) (site_ID (ac_site ac))) as Hp.
  { intros t (_ & Hr & Ha). exists (ac_site ac), (ac_role ac). split_and!; [done..|].
    apply andb_false_iff in Hmode as [Hmode|Hmode]; apply negb_false_iff, String.eqb_eq in Hmode; auto. }
  walk.
Qed.
Lemma addMember_safe h b : job the_caller (addMember user h b) anything.
Proof. apply guarded_job; intros ac. walk. Qed.
Lemma updateMemberRole_safe h id b : job the_caller (updateMemberRole user h id b) anything.
Proof. apply guarded_job; intros ac. unfold refuseSoleOwner, isSoleOwner. walk. Qed.
Lemma removeMember_safe h id : job the_caller (removeMember user h id) anything.
Proof. apply guarded_job; intros ac. unfold refuseSoleOwner, isSoleOwner. walk. Qed.

Lemma createSite_safe b : job the_caller (createSite user b) anything.
Proof.
  apply signed_in_job; intros u _. apply job_guard_bind. intros Hg.
  assert (creator u) as Hc.
  { apply andb_false_iff in Hg as [Hg|Hg]; apply negb_false_iff in Hg; [by left|by right]. }
  walk.
Qed.
Lemma createToken_safe b : job the_caller (createToken user b) anything.
Proof.
  apply signed_in_job; intros u _. do 3 (apply job_seq; [stab|walk|intros ?]).
  apply job_guard_bind. intros Hs. apply negb_false_iff in Hs.
  apply job_seq; [stab|by apply job_peek|intros [[plaintext prefix] hash]].
  assert ((match ctr_CanCreateSites a with Some true => su_CanCreateSites u || su_IsAdmin u | _ => false end) = true →
          creator u) as Hc.
  { destruct (ctr_CanCreateSites a) as [[]|]; [|done..]. by intros [?|?]%orb_true_iff; [left|right]. }
  apply job_seq; [stab|ask_step|intros row]. walk.
Qed.
Lemma revokeToken_safe id : job the_caller (revokeToken user id) anything.
Proof. apply signed_in_job; intros u _. walk. Qed.
Lemma adminPutGitHub_safe b : job the_caller (admin user (adminPutGitHub cfg user b)) anything.
Proof.
  apply admin_job; intros u Hu Ha. unfold adminPutGitHub, admin_audit. rewrite Hu.
  unfold adminGetGitHub, effectiveGitHubAdminConfig. walk.
Qed.
Lemma adminSetUserFlags_safe id b : job the_caller (admin user (adminSetUserFlags user id b)) anything.
Proof. apply admin_job; intros u Hu Ha. unfold adminSetUserFlags, admin_audit. rewrite Hu. walk. Qed.
End writes.
End safety.

(** ** Whole requests *)

Section request.
Context `{GoUnicode} `{Crypto} `{UUIDText} `{UUIDParse} `{GoText} `{World}.
Context (BaseDomain : trace → Request → string).
Context (cfg : ApiConfig) (r : Request).
Abbreviation any_event := (λ _ : event, True).
Abbreviation job := (@Trace.job event reply any_event (justified (cf_Auth cfg) r)).
Abbreviation session_caller := (the_caller cfg r).

Lemma SessionAuth_job : job (λ _, True) (SessionAuth (cf_Auth cfg) r) session_caller.
Proof.
  unfold SessionAuth. destruct (String.eqb_spec (readCookie (cf_Auth cfg) r) "") as [_|Hid]; [by apply job_ok|].
  unfold Get. destruct (String.eqb_spec (readCookie (cf_Auth cfg) r) "") as [|_]; [done|].
  eapply job_bind with (Q := λ u t, match u with Ok u => caller (cf_Auth cfg) r t u | Err _ => True end);
    [done| |intros [u|e]; apply job_ok; by intros t [_ Hu]].
  eapply job_bind; [done|by apply asked_job|]. intros [row|e]; [|destruct e; by apply job_ok].
  assert (∀ t, EvStore (QGetSession (readCookie (cf_Auth cfg) r)) (Ok row) ∈ t →
               caller (cf_Auth cfg) r t (session_user row)) as Hc by (intros t Hin; split; eauto).
  assert (stable any_event (λ t : trace, True ∧ EvStore (QGetSession (readCookie (cf_Auth cfg) r)) (Ok row) ∈ t)) as Hst
    by auto with jobs.
  apply job_seq; [exact Hst|apply job_peek|intros t0]. apply job_seq; [exact Hst| |intros _].
  - destruct (isStale _ _ _); [|by apply job_ok]. apply job_seq; [exact Hst| |intros _; by apply job_ok].
    eapply job_any, asked_job. intros t res [_ Ht]. split; [done|]. eauto.
  - apply job_ok. intros t [_ Ht]. by apply Hc.
Qed.

Definition reads (e : endpoint) : bool := ((route e).1 =? "GET")%string.
Lemma handle_safe user e :
  Verify (cf_Auth cfg) r = true → (reads e = false → isSafeMethod (rMethod r) = false) →
  job (session_caller user) (handle BaseDomain cfg r user e) anything.
Proof.
  intros Hv Hm. destruct e; cbn [handle]; try specialize (Hm eq_refl);
    [by apply listTokens_safe|by apply createToken_safe|by apply revokeToken_safe|by apply listSites_safe
     |by apply createSite_safe|by apply getSite_safe|by apply updateSite_safe|by apply deleteSite_safe
     |by apply renameSite_safe|by apply mirrorSite_safe|by apply listMembers_safe|by apply addMember_safe
     |by apply updateMemberRole_safe|by apply removeMember_safe|by apply listBranches_safe
     |by apply createBranch_safe|by apply deleteBranch_safe|by apply previewGrant_safe
     |by apply listFiles_safe|by apply readFile_safe|by apply writeFile_safe|by apply deleteFile_safe
     |by apply importZip_safe|by apply commit_safe|by apply getLog_safe|by apply rollback_safe
     |by apply getDiff_safe|by apply publish_safe|by apply purgeSiteCache_safe|by apply adminSiteAudit_safe
     |by apply adminSetUserFlags_safe|by apply adminGetGitHub_safe|by apply adminPutGitHub_safe].
Qed.

Lemma serve_job e :
  rMethod r = (route e).1 → job (λ _, True) (serve BaseDomain cfg r e) anything.
Proof.
  intros Hm. eapply job_bind; [done|apply SessionAuth_job|]. intros user. apply job_lift_bind. intros [] Hv.
  assert (Verify (cf_Auth cfg) r = true) as Hver by (unfold csrf_guard in Hv; by destruct (Verify _ _)).
  eapply job_weaken; [apply handle_safe; [done|]|by intros t []].
  intros He. rewrite Hm. by destruct e.
Qed.

End request.
