(* ===== verification/RestFacts.v ===== *)
(** * What the REST handlers compute

    Files survive the wire, the log can be read page by page to its end, and a
    sample instance in which the theorems of RestSafety apply. *)

From S2P Require FakeEvents FakeTheorems.
From S2P Require Import Prelude SiteTree FakeService.
From S2P Require Import Prelude Trace GoStrings Encoding SiteErrors Handle Zip SiteTypes Http Preview Access Wire.
From S2P Require Import ApiWorld Session Rest RestAccounts Routes RestSafety.

(** ** File content *)

Lemma ascii_utf8 s : str_forall is_ascii s = true → utf8_valid s = true.
Proof.
  induction s as [|c s IH]; [done|]. cbn [str_forall]. intros [Hc Hs]%andb_true_iff.
  assert (between 0 127 c = true) as Hb.
  { unfold between, is_ascii in *. apply andb_true_iff. split; apply N.leb_le; [lia|]. apply N.ltb_lt in Hc. lia. }
  cbn [utf8_valid]. rewrite Hb. auto.
Qed.
Lemma b64_ascii al pad s : al = b64_std ∨ al = b64_url → str_forall is_ascii (b64_encode al pad s) = true.
Proof.
  intros Hal. apply b64_encode_forall; [|done]. intros n Hn.
  assert (forallb (λ i, is_ascii (sextet al (N.of_nat i))) (seq 0 64) = true) as Hall
    by (destruct Hal as [-> | ->]; vm_compute; done).
  rewrite forallb_forall in Hall. specialize (Hall (N.to_nat n)). rewrite N2Nat.id in Hall.
  apply Hall, in_seq. lia.
Qed.

(** A file read over the API can be written back unchanged.
  Whatever bytes a file holds, the text the read endpoint puts in its JSON reply
  is valid UTF-8, so that JSON carries it verbatim, and the write endpoint
  decodes that text, under the encoding the reply names, to the same bytes. *)
Theorem file_roundtrip (fc : FileContent) :
  utf8_valid (file_encoding fc).2 = true ∧
  decodeContent (file_encoding fc).2 (Some (file_encoding fc).1) = Some (fct_Content fc).
Proof.
  unfold file_encoding. destruct (fct_IsBinary fc || negb (utf8_valid (fct_Content fc))) eqn:E.
  - split; [apply ascii_utf8, b64_ascii; by left|]. apply b64_decode_encode. by left.
  - apply orb_false_iff in E as [_ Hu]. apply negb_false_iff in Hu. done.
Qed.

(** ** Reading a log page by page *)

(** The commits after [before] in a history, newest first *)
Fixpoint after (sha : string) (h : list CommitInfo) : list CommitInfo :=
  match h with
  | [] => []
  | c :: h => if (ci_SHA c =? sha)%string then h else after sha h
  end.
Definition older (before : string) (h : list CommitInfo) : list CommitInfo :=
  if (before =? "")%string then h else after before h.
Definition cursors (h : list CommitInfo) : list string := "" :: (ci_SHA <$> h).
(** What the service promises of GetLog without a path: the commits of the branch
    older than the cursor, newest first, as many as the limit it reads lets through *)
Definition reads_history (h : list CommitInfo) (limit : Z) (before : string) : list CommitInfo :=
  take (Z.to_nat (clampLimit limit)) (older before h).

(** A field of a JSON object *)
Definition field (k : string) (v : json) : option json :=
  match v with JObj l => snd <$> List.find (λ kv, (kv.1 =? k)%string) l | _ => None end.
(** The page of a reply and its cursor, as a client finds them *)
Definition page_of (rp : reply) : option (list json * option string) :=
  match rp_body rp ≫= field "commits", rp_body rp ≫= field "nextBefore" with
  | Some (JArr page), Some JNull => Some (page, None)
  | Some (JArr page), Some (JStr next) => Some (page, Some next)
  | _, _ => None
  end.

Lemma after_app c pre post : ci_SHA c ∉ ci_SHA <$> pre → after (ci_SHA c) (pre ++ c :: post) = post.
Proof.
  induction pre as [|x pre IH]; cbn [app after fmap list_fmap].
  - by rewrite String.eqb_refl.
  - rewrite not_elem_of_cons. intros [Hx Hn]. destruct (String.eqb_spec (ci_SHA x) (ci_SHA c)); [congruence|auto].
Qed.
Lemma log_page_spec (limit : Z) rest :
  (1 ≤ limit < defaultMaxLogLimit)%Z →
  let reply := log_page limit (take (Z.to_nat (clampLimit (limit + 1))) rest) in
  (Z.of_nat (length rest) ≤ limit ∧ reply = (rest, None))%Z ∨
  (∃ pre c post, rest = pre ++ c :: post ∧ post ≠ [] ∧ Z.of_nat (S (length pre)) = limit ∧
     reply = (pre ++ [c], Some (ci_SHA c))).
Proof.
  intros [Hl Hm]. cbv zeta. replace (clampLimit (limit + 1)) with (limit + 1)%Z.
  2: { unfold clampLimit. destruct (Z.leb_spec (limit + 1) 0); [lia|].
       destruct (Z.ltb_spec defaultMaxLogLimit (limit + 1)); lia. }
  unfold log_page. rewrite length_take.
  destruct (Z.ltb_spec limit (Z.of_nat (Z.to_nat (limit + 1) `min` length rest))) as [Hlt|Hle].
  - right. set (n := Z.to_nat (limit - 1)). destruct (lookup_lt_is_Some_2 rest n) as [c Hc]; [lia|].
    exists (take n rest), c, (drop (S n) rest). rewrite take_drop_middle by done. split; [done|]. split.
    { intros Hn%(f_equal length). rewrite length_drop in Hn. simpl in Hn. lia. }
    split; [rewrite length_take; lia|].
    rewrite take_take, lookup_take_lt, Hc by lia. cbn [fmap option_fmap option_map]. f_equal.
    replace (Z.to_nat limit `min` Z.to_nat (limit + 1)) with (S n) by lia. by apply take_S_r.
  - left. split; [lia|]. by rewrite take_ge by lia.
Qed.

Section paging.
Context `{GoUnicode} `{Crypto} `{UUIDText} `{UUIDParse} `{GoText} `{World}.
Context (BaseDomain : trace → Request → string) (cfg : ApiConfig).
(** The request of the client for the page after a cursor; the empty one asks for the first *)
Context (ask : string → Request) (site branch : string).

(** The client: it asks again from every cursor it is given, each request meeting
    the world as the ones before left it.  [None] when it runs out of requests or a
    reply is no page. *)
Fixpoint read_log (fuel : nat) (cursor : string) (tr : trace) : option (list json) :=
  match fuel with
  | 0 => None
  | S fuel =>
      match serve BaseDomain cfg (ask cursor) (RGetLog site branch) tr with
      | (tr, Ok rp) =>
          match page_of rp with
          | Some (page, None) => Some page
          | Some (page, Some next) => app page <$> read_log fuel next tr
          | None => None
          end
      | (_, Err _) => None
      end
  end.

(** The requests name the page size and the cursor, and no path. *)
Definition asks_pages (limit : Z) (h : list CommitInfo) : Prop := ∀ cursor, cursor ∈ cursors h →
  isSafeMethod (rMethod (ask cursor)) = true ∧ log_limit (ask cursor) = limit ∧
  query (ask cursor) "before" = cursor ∧ query (ask cursor) "path" = "".
(** The session of the client stays good for reading the site. *)
Definition may_read (id : uuid) (h : list CommitInfo) : Prop := ∀ cursor tr, cursor ∈ cursors h →
  ∃ user t1 ac t2, SessionAuth (cf_Auth cfg) (ask cursor) tr = (t1, Ok user) ∧
    resolveAccess user site capRead t1 = (t2, Ok ac) ∧ site_ID (ac_site ac) = id.
(** The service holds the history [h], which nobody changes meanwhile. *)
Definition holds_history (id : uuid) (h : list CommitInfo) : Prop := ∀ tr in_,
  lo_SiteID in_ = id → lo_Branch in_ = branch → lo_Path in_ = "" → lo_Before in_ ∈ cursors h →
  w_svc _ tr (GetLog in_) = Ok (reads_history h (lo_Limit in_) (lo_Before in_)).

Lemma serve_page limit id h cursor tr :
  asks_pages limit h → may_read id h → holds_history id h → cursor ∈ cursors h →
  ∃ t rp, serve BaseDomain cfg (ask cursor) (RGetLog site branch) tr = (t, Ok rp) ∧
    page_of rp = Some (let p := log_page limit (reads_history h (limit + 1) cursor) in (toCommitWire <$> p.1, p.2)).
Proof.
  intros Hask Hmay Hh Hc. destruct (Hask cursor Hc) as (Hm & Hl & Hb & Hp).
  destruct (Hmay cursor tr Hc) as (user & t1 & ac & t2 & Hs & Ha & Hid).
  unfold serve, bindM. rewrite Hs. unfold csrf_guard, Verify. rewrite Hm. cbn [lift handle].
  unfold getLog, bindM. rewrite Ha, Hl, Hb, Hp. unfold must_svc, svc, asked, bindM.
  rewrite Hh by done. cbn [lo_Limit lo_Before ok].
  destruct (log_page limit (reads_history h (limit + 1) cursor)) as [page next].
  eexists _, _. split; [reflexivity|]. by destruct next.
Qed.

(** C19 (termination): following the cursors of the log endpoint reads the whole
    history.  Take any session that may read the site and a service that holds a
    history of distinct commits and answers GetLog with the commits older than the
    cursor, newest first, at most as many as it reads at once.  A client that sends
    its requests to the log endpoint through the session and role checks, starting
    without a cursor and asking again with each nextBefore it is given, receives
    every commit exactly once, newest first, and is told to stop, within any
    number of requests that makes enough pages.  This is for page sizes from 1 up
    to 499: at 500, the largest the endpoint lets through, the log ends after one
    page (largest_page_truncates). *)
Theorem log_pages_complete (limit : Z) (id : uuid) (h : list CommitInfo) (fuel : nat) (tr : trace) :
  (1 ≤ limit < defaultMaxLogLimit)%Z → NoDup (cursors h) →
  asks_pages limit h → may_read id h → holds_history id h →
  1 ≤ fuel → (Z.of_nat (length h) ≤ Z.of_nat fuel * limit)%Z →
  read_log fuel "" tr = Some (toCommitWire <$> h).
Proof.
  intros Hl Hnd Hask Hmay Hh.
  cut (∀ fuel cursor rest pre tr, cursor ∈ cursors h → older cursor h = rest → h = pre ++ rest → 1 ≤ fuel →
    (Z.of_nat (length rest) ≤ Z.of_nat fuel * limit)%Z → read_log fuel cursor tr = Some (toCommitWire <$> rest)).
  { intros Hcut Hf Hn. by apply (Hcut _ _ _ []); [left|..]. }
  clear fuel tr. intros fuel. induction fuel as [|fuel IH]; intros cursor rest pre tr Hc Ho Heq Hf Hn; [lia|].
  cbn [read_log]. destruct (serve_page limit id h cursor tr Hask Hmay Hh Hc) as (t & rp & -> & ->).
  unfold reads_history. rewrite Ho. cbv zeta.
  destruct (log_page_spec limit rest Hl) as [[_ ->]|(p & c & post & -> & Hpost & Hlen & ->)]; [done|].
  cbn [fst snd]. assert (h = (pre ++ p) ++ c :: post) as Hsplit by (by rewrite <-app_assoc).
  apply NoDup_cons in Hnd as [Hne Hnd].
  assert (ci_SHA c ∈ ci_SHA <$> h) as Hin by (rewrite Hsplit, fmap_app, elem_of_app; right; left).
  rewrite (IH (ci_SHA c) post (pre ++ p ++ [c])).
  - cbn. by rewrite <-fmap_app, <-app_assoc.
  - by right.
  - unfold older. destruct (String.eqb_spec (ci_SHA c) "") as [Hz|_]; [by rewrite Hz in Hin|].
    rewrite Hsplit. apply after_app. rewrite Hsplit, fmap_app, fmap_cons in Hnd.
    apply NoDup_app in Hnd as (_ & Hd & _). intros Hi. apply (Hd _ Hi). left.
  - by rewrite Hsplit, <-!app_assoc.
  - rewrite length_app in Hn. destruct post; [done|]. simpl in Hn. destruct fuel; [|lia]. exfalso. lia.
  - rewrite length_app in Hn. simpl in Hn. lia.
Qed.

(** At the largest page size the endpoint lets through, the service cannot read
    the extra commit that tells there is more: the log ends after one page. *)
Lemma largest_page_truncates (id : uuid) (h : list CommitInfo) (fuel : nat) (tr : trace) :
  asks_pages maxLogLimit h → may_read id h → holds_history id h → 1 ≤ fuel →
  read_log fuel "" tr = Some (toCommitWire <$> take (Z.to_nat maxLogLimit) h).
Proof.
  intros Hask Hmay Hh Hf. destruct fuel as [|fuel]; [lia|]. cbn [read_log].
  destruct (serve_page maxLogLimit id h "" tr Hask Hmay Hh) as (t & rp & -> & ->); [left|].
  change (reads_history h (maxLogLimit + 1) "") with (take (Z.to_nat maxLogLimit) h).
  unfold log_page. rewrite length_take.
  destruct (Z.ltb_spec maxLogLimit (Z.of_nat (Z.to_nat maxLogLimit `min` length h))); [|done].
  unfold maxLogLimit in *. lia.
Qed.
End paging.

(** The in-memory service reads its log like that. *)
Lemma after_cursor (before : string) (l : list fakeCommit) :
  after before (toCommitInfo <$> l) = toCommitInfo <$> default [] (afterCursor l before).
Proof. induction l as [|c l IH]; [done|]. simpl. by destruct (fc_sha c =? before)%string. Qed.
Lemma fake_reads_history (f : FakeService) (s : fakeSite) (b : fakeBranch) (in_ : LogOptions) :
  FakeEvents.live (FakeEvents.core f) (lo_SiteID in_) s → fs_branches s !! lo_Branch in_ = Some b → lo_Path in_ = "" →
  lo_Before in_ ∈ cursors (toCommitInfo <$> rev b) →
  snd (FakeService.GetLog in_ f) = Ok (reads_history (toCommitInfo <$> rev b) (lo_Limit in_) (lo_Before in_)).
Proof.
  intros Hs Hb Hp Hc. unfold FakeService.GetLog, bindM, want. rewrite (FakeEvents.liveSite_live _ _ _ Hs), Hb.
  cbn [ok snd]. rewrite Hp. f_equal. unfold reads_history, older. rewrite fmap_take. f_equal.
  assert (∀ l : list fakeCommit, List.filter (λ c, ("" =? "")%string || commitTouchedPath b (fc_sha c) "") l = l) as ->
    by (intros l; induction l as [|c l IH]; [done|]; simpl in *; by rewrite IH).
  destruct (String.eqb_spec (lo_Before in_) "") as [_|Hne]; [done|]. rewrite after_cursor.
  apply elem_of_cons in Hc as [?|Hc]; [done|]. f_equal.
  assert (is_Some (afterCursor (rev b) (lo_Before in_))) as [x ->]; [|done].
  revert Hc. induction (rev b) as [|c l IH]; [by intros ?%elem_of_nil|]. cbn [fmap list_fmap afterCursor].
  destruct (String.eqb_spec (fc_sha c) (lo_Before in_)); [by eexists|].
  rewrite elem_of_cons. intros [Hc|Hc]; [by rewrite Hc in n|]. by apply IH.
Qed.

(** ** A sample instance *)

Definition sample_commit (sha : string) : CommitInfo := {|
  ci_SHA := sha; ci_ShortSHA := sha; ci_Message := "m"; ci_AuthorName := "Ann"; ci_AuthorEmail := "ann@example.com";
  ci_Committed := 0%Z; ci_Parents := []; ci_Via := "" |}.

#[local] Existing Instances ascii_only_unicode toy_crypto hex_uuid_text hex_uuid_parse.
Definition toy_text : GoText := {| base64_error := id; unmarshal_object := λ _, JObj [] |}.
#[local] Existing Instance toy_text.
Definition sample_site : Site := {|
  site_ID := 7%N; site_Handle := "notes"; site_OwnerID := 1%N; site_Visibility := "private";
  site_DefaultBranch := "draft"; site_GitHubRepo := ""; site_PublishMode := "request"; site_WebRoot := "";
  site_HasPublished := false; site_PublishedSHA := ""; site_PublishedAt := None; site_CacheVersion := 1%Z;
  site_Description := ""; site_CreatedAt := 0%Z; site_UpdatedAt := 0%Z |}.
Definition sample_session : SessionRow := mkSessionRow "s1" 1%N None "ann@example.com" "Ann" None false false.
(** Ann has a session, and [role] on the one site. *)
Definition sample_world (role : string) : World := {|
  w_svc := λ A tr c, match c in Svc A return Res err A with
    | GetSiteByHandle _ => Ok sample_site
    | Publish _ => Ok (sample_commit "f00d")
    | _ => Err (ESentinel ErrNotFound)
    end;
  w_store := λ A tr c, match c in Store A return Res store_err A with
    | QGetSession _ => Ok sample_session
    | QGetRole _ _ => Ok role
    | QInsertAudit _ | QTouchSession _ => Ok tt
    | _ => Err NoRows
    end;
  w_now := λ _, 0%Z; w_rand62 := λ _ i, Some (N.of_nat i); w_entropy := λ _, None |}.
Definition sample_api : ApiConfig := mkApiCfg sample_auth (50 * 2 ^ 20)%Z true None false "" "" "".
Definition sample_request (method : string) : Request :=
  mkRequest method "kotoji.example" "" "/" "/" "" {[ csrfHeader := ["tok"] ]} "" true
    [("__Host-kotoji_session", "s1"); ("__Host-kotoji_csrf", "tok")].
Definition publish_now : endpoint := RPublish "notes" (Body (mkPublish None "base" None) false).
Definition run_api (role : string) (e : endpoint) : trace * Res reply reply :=
  @serve _ _ _ _ _ (sample_world role) (λ _ _, "kotoji.example") sample_api (sample_request (route e).1) e [].

(** The owner publishes; an editor of a site in request mode is refused before anything is asked. *)
Example publish_by_owner : rp_status (reply_of (run_api "owner" publish_now).2) = 200%Z.
Proof. vm_compute. reflexivity. Qed.
Example publish_by_editor :
  rp_status (reply_of (run_api "editor" publish_now).2) = 403%Z ∧ length (run_api "editor" publish_now).1 = 4.
Proof. vm_compute. done. Qed.

Definition sample_publish : PublishInput := {|
  pb_SiteID := 7%N; pb_From := "draft"; pb_BaseSHA := "base"; pb_Message := "";
  pb_Actor := Build_Actor 1%N "Ann" "ann@example.com" "editor" None |}.

(** *** Ann reads the log of the draft branch, a commit at a time *)

Definition sample_log_state : FakeService := FakeTheorems.sample_state2.
Definition log_world : World := {|
  w_svc := λ A tr c, match c in Svc A return Res err A with
    | GetSiteByHandle _ => Ok sample_site
    | GetLog in_ => snd (FakeService.GetLog in_ sample_log_state)
    | _ => Err (ESentinel ErrNotFound)
    end;
  w_store := @w_store (sample_world "viewer"); w_now := λ _, 0%Z; w_rand62 := λ _ _, None; w_entropy := λ _, None |}.
#[local] Existing Instance log_world.
Definition ask_log (cursor : string) : Request :=
  mkRequest "GET" "kotoji.example" "" "/" "/" ("limit=1&before=" +:+ cursor) ∅ "" true [("__Host-kotoji_session", "s1")].
Definition log_history : list CommitInfo :=
  match sites sample_log_state !! 7%N with
  | Some s => toCommitInfo <$> rev (default [] (fs_branches s !! "draft"))
  | None => []
  end.

Lemma log_asks : asks_pages ask_log 1 log_history.
Proof.
  intros cursor Hc. assert (cursor ∈ [""; hex_pad 40 2; hex_pad 40 1]) as Hin by exact Hc.
  repeat (apply elem_of_cons in Hin as [->|Hin]; [vm_compute; done|]). by apply elem_of_nil in Hin.
Qed.
Lemma log_may : may_read sample_api ask_log "notes" 7%N log_history.
Proof.
  intros cursor tr _. eexists _, _, _, _. split; [vm_compute; reflexivity|]. split; [vm_compute; reflexivity|reflexivity].
Qed.
Lemma log_held : holds_history "draft" 7%N log_history.
Proof.
  intros tr in_ Hid Hb Hp Hc. cbn [w_svc log_world]. unfold log_history in *.
  destruct (sites sample_log_state !! 7%N) as [s|] eqn:Hs; [|vm_compute in Hs; discriminate Hs].
  destruct (fs_branches s !! "draft") as [b|] eqn:Hbr;
    [|vm_compute in Hs; injection Hs as <-; vm_compute in Hbr; discriminate Hbr].
  apply (fake_reads_history _ s); [|by rewrite Hb|done|done]. rewrite Hid. split; [exact Hs|].
  vm_compute in Hs. injection Hs as <-. reflexivity.
Qed.
Lemma log_pages_complete_witness :
  read_log (λ _ _, "kotoji.example") sample_api ask_log "notes" "draft" 2 "" [] =
    Some (toCommitWire <$> log_history) ∧ length log_history = 2.
Proof.
  split; [|vm_compute; reflexivity].
  apply (log_pages_complete (λ _ _, "kotoji.example") sample_api ask_log "notes" "draft" 1 7%N);
    [split; by vm_compute|apply (bool_decide_unpack _); vm_compute; exact I
    |exact log_asks|exact log_may|exact log_held|lia|vm_compute; discriminate].
Defined.
