(* ===== verification/Membership.v ===== *)
(** * A site keeps an owner (api/members.go over the site_members table)

    The membership table as the requests of a trace change it, and what the
    role and removal endpoints guarantee about it when the store answers
    truthfully.  A statement that fails may or may not have taken effect. *)

From S2P Require Import Prelude Trace GoStrings Encoding SiteErrors Handle Zip SiteTypes Http Preview Access Wire.
From S2P Require Import ApiWorld Session Rest RestAccounts Routes RestSafety RestFacts.

(** ** The table (db/queries/members.sql) *)

Abbreviation table := (gmap (uuid * uuid) string) (only parsing).
Definition effect {A} (c : Store A) (t : table) : table :=
  match c with
  | QAddMember s u role _ => <[(s, u) := role]> t
  | QUpdateMemberRole s u role => alter (λ _, role) (s, u) t
  | QRemoveMember s u => delete (s, u) t
  | _ => t
  end.
Definition table_step (t : table) (e : event) (t' : table) : Prop :=
  match e with
  | EvSvc _ _ => t' = t
  | EvStore c (Ok _) => t' = effect c t
  | EvStore c (Err _) => t' = t ∨ t' = effect c t
  end.
Inductive evolves : table → trace → table → Prop :=
| evolves_nil t : evolves t [] t
| evolves_cons t e t1 tr t2 : table_step t e t1 → evolves t1 tr t2 → evolves t (e :: tr) t2.

Definition owned (t : table) (s : uuid) : Prop := ∃ u, t !! (s, u) = Some SiteRoleOwner.
(** The rows are the members of [s]. *)
Definition lists (t : table) (s : uuid) (rows : list MemberRow) : Prop :=
  NoDup (mb_UserID <$> rows) ∧
  ∀ u role, t !! (s, u) = Some role ↔ ∃ m, m ∈ rows ∧ mb_UserID m = u ∧ mb_Role m = role.
Definition writes (e : event) : bool :=
  match e with
  | EvStore (QAddMember _ _ _ _) _ | EvStore (QUpdateMemberRole _ _ _) _ | EvStore (QRemoveMember _ _) _ => true
  | _ => false
  end.
Definition quiet (e : event) : Prop := writes e = false.
(** Every listing a run made succeeded, and showed the table as it was unless
    there had been writes. *)
Definition truthful (t0 : table) (tr : trace) : Prop :=
  (∀ pre s rows post, tr = pre ++ EvStore (QListMembers s) (Ok rows) :: post → Forall quiet pre → lists t0 s rows) ∧
  ∀ s e, EvStore (QListMembers s) (Err e) ∉ tr.

(** No grant of the run gives an owner of the table a lesser role. *)
Definition spares_owners (t0 : table) (tr : trace) : Prop :=
  ∀ s u role by_ r, EvStore (QAddMember s u role by_) r ∈ tr → role = SiteRoleOwner ∨ t0 !! (s, u) ≠ Some SiteRoleOwner.

Lemma effect_quiet {A} (c : Store A) r t : quiet (EvStore c r) → effect c t = t.
Proof. by destruct c. Qed.
Lemma evolves_quiet t tr t' : Forall quiet tr → evolves t tr t' → t' = t.
Proof.
  intros Hq He. induction He as [|t e t1 tr t2 Hs He IH]; [done|]. apply Forall_cons in Hq as [Hq Htr].
  rewrite (IH Htr). destruct e as [A c r|A c [a|x]]; simpl in Hs.
  - done.
  - by rewrite Hs, (effect_quiet c (Ok a)).
  - destruct Hs as [->| ->]; [done|]. by rewrite (effect_quiet c (Err x)).
Qed.
Lemma evolves_app t a b t' : evolves t (a ++ b) t' → ∃ m, evolves t a m ∧ evolves m b t'.
Proof.
  revert t. induction a as [|e a IH]; intros t He; [eexists; split; [constructor|done]|].
  inversion He as [|? ? t1 ? ? Hs Hr]; subst. apply IH in Hr as (m & Ha & Hb). exists m. split; [|done].
  by econstructor.
Qed.
Lemma evolves_refl_quiet t tr : Forall quiet tr → evolves t tr t.
Proof.
  intros Hq. induction Hq as [|e tr He Hq IH]; [constructor|]. econstructor; [|exact IH].
  destruct e as [A c r|A c [a|x]]; simpl; [done| |by left]. by rewrite (effect_quiet c (Ok a)).
Qed.

Lemma other_owner t s rows u :
  lists t s rows → owned t s → sole_owner rows u = false → ∃ u', u' ≠ u ∧ t !! (s, u') = Some SiteRoleOwner.
Proof.
  intros [Hnd Hl] [w Hw] Hs. destruct (decide (w = u)) as [->|Hwu]; [|by exists w].
  apply Hl in Hw as (m & Hm & Hu & Hr).
  unfold sole_owner in Hs. set (owners := List.filter _ rows) in Hs.
  assert (∀ x, x ∈ owners ↔ x ∈ rows ∧ mb_Role x = SiteRoleOwner) as Ho.
  { intros x. unfold owners. by rewrite list_elem_of_In, filter_In, <-list_elem_of_In, String.eqb_eq. }
  assert (m ∈ owners) as Hmo by by apply Ho.
  assert (existsb (λ m, bool_decide (mb_UserID m = u)) owners = true) as He.
  { apply existsb_exists. exists m. rewrite <-list_elem_of_In. split; [done|]. by apply bool_decide_eq_true. }
  rewrite He in Hs. cbn [andb] in Hs. apply Nat.eqb_neq in Hs.
  assert (∃ m', m' ∈ owners ∧ mb_UserID m' ≠ u) as (m' & Hm' & Hne).
  { assert (NoDup (mb_UserID <$> owners)) as Hno by by apply NoDup_fmap_filter.
    destruct owners as [|a [|b l]]; [by apply elem_of_nil in Hmo|done|].
    apply NoDup_cons in Hno as [Hab _]. destruct (decide (mb_UserID a = u)) as [Ha|Ha].
    - exists b. split; [right; left|]. intros Hb. apply Hab. simpl. rewrite Ha, Hb. left.
    - exists a. split; [left|done]. }
  exists (mb_UserID m'). split; [done|]. apply Ho in Hm' as [Hin Hro]. apply Hl. eauto.
Qed.

(** ** At most one write per request, after the check *)

Section writes.
Context `{GoUnicode} `{Crypto} `{UUIDText} `{UUIDParse} `{GoText} `{World}.
Abbreviation job := (@Trace.job event reply quiet (λ _ _, True)).

Lemma careful_any (tr : trace) : careful (λ _ _, True) tr.
Proof. done. Qed.

(** The listing [isSoleOwner] read does not name [u] as the only owner, or could not be read. *)
Definition checked (t : trace) (s u : uuid) : Prop :=
  (∃ rows, EvStore (QListMembers s) (Ok rows) ∈ t ∧ sole_owner rows u = false) ∨
  ∃ e, EvStore (QListMembers s) (Err e) ∈ t.
Definition sound_write (t : trace) (w : event) : Prop :=
  match w with
  | EvStore (QUpdateMemberRole s u role) _ => role = SiteRoleOwner ∨ checked t s u
  | EvStore (QRemoveMember s u) _ => checked t s u
  | _ => True
  end.
Definition one_write {A} (P : trace → Prop) (m : J A) : Prop :=
  ∀ tr, P tr → ∃ more, (m tr).1 = tr ++ more ∧
    (Forall quiet more ∨ ∃ m1 w m2, more = m1 ++ w :: m2 ∧ Forall quiet m1 ∧ Forall quiet m2 ∧ sound_write (tr ++ m1) w).

(** One checked write to a table that the listing showed as it is *)
Lemma checked_other t0 m1 w m2 s u :
  Forall quiet m1 → truthful t0 (m1 ++ w :: m2) → checked m1 s u → owned t0 s →
  ∃ u', u' ≠ u ∧ t0 !! (s, u') = Some SiteRoleOwner.
Proof.
  intros Hq [Hok Hno] Hc Ho. destruct Hc as [(rows & Hin & Hs)|(x & Hin)].
  - apply list_elem_of_split in Hin as (a & b & ->). eapply other_owner; [|done..].
    eapply (Hok a s rows (b ++ w :: m2)); [by rewrite <-app_assoc|]. by apply Forall_app in Hq as [? _].
  - destruct (Hno s x). rewrite elem_of_app. by left.
Qed.
Lemma write_keeps_owner t0 m1 w m2 t s :
  Forall quiet m1 → truthful t0 (m1 ++ w :: m2) → spares_owners t0 (m1 ++ w :: m2) → sound_write m1 w →
  writes w = true → table_step t0 w t → owned t0 s → owned t s.
Proof.
  intros Hq Htr Hg Hw Hwr Hst Ho. destruct w as [A c res|A c res]; [done|].
  assert (t = t0 ∨ t = effect c t0) as [->| ->] by (destruct res; simpl in Hst; tauto); [done|].
  destruct c; try done; cbn [sound_write effect] in *.
  - destruct Ho as [w Hw']. exists w. destruct (decide ((site, user) = (s, w))) as [[= -> ->]|Hne].
    + rewrite lookup_insert_eq. destruct (Hg s w role createdBy res) as [->|Hno]; [|done|by destruct Hno].
      rewrite elem_of_app. right; left.
    + by rewrite lookup_insert_ne.
  - destruct (decide (s = site)) as [->|Hs].
    + destruct Hw as [->|Hc].
      * destruct Ho as [w Hw]. exists w. destruct (decide (w = user)) as [->|Hwu].
        -- by rewrite lookup_alter_eq, Hw.
        -- by rewrite lookup_alter_ne by congruence.
      * destruct (checked_other _ _ _ _ _ _ Hq Htr Hc Ho) as (w & Hwu & Hw). exists w.
        by rewrite lookup_alter_ne by congruence.
    + destruct Ho as [w Hw']. exists w. by rewrite lookup_alter_ne by congruence.
  - destruct (decide (s = site)) as [->|Hs].
    + destruct (checked_other _ _ _ _ _ _ Hq Htr Hw Ho) as (w & Hwu & Hw'). exists w.
      by rewrite lookup_delete_ne by congruence.
    + destruct Ho as [w Hw']. exists w. by rewrite lookup_delete_ne by congruence.
Qed.

Lemma one_write_quiet {A} P (m : J A) Q : job P m Q → one_write P m.
Proof. intros Hm tr HP. destruct (Hm tr (careful_any tr) HP) as [(_ & more & Hq & ->) _]. eauto. Qed.
Lemma one_write_bind {A B} P (m : J A) Q (k : A → J B) :
  stable quiet P → job P m Q → (∀ a, one_write (λ t, P t ∧ Q a t) (k a)) → one_write P (bindM m k).
Proof.
  intros HP Hm Hk tr Ht. destruct (Hm tr (careful_any tr) Ht) as [(_ & more & Hq & Heq) HQ].
  unfold bindM. destruct (m tr) as [t1 [a|e]] eqn:Em; simpl in *; subst t1; [|by eauto].
  destruct (Hk a (tr ++ more)) as (more2 & -> & Hor); [split; [by eapply stable_app|auto]|].
  exists (more ++ more2). rewrite app_assoc. split; [done|].
  destruct Hor as [Hq2|(m1 & w & m2 & -> & Hq1 & Hq2 & Hw)]; [left; by apply Forall_app|].
  right. exists (more ++ m1), w, m2. rewrite <-!app_assoc in *. split_and!; [done|by apply Forall_app|done..].
Qed.
Lemma one_write_store {A B} P (c : Store A) (k : A → J B) :
  (∀ t r, P t → sound_write t (EvStore c r)) → (∀ a, job (λ _, True) (k a) anything) →
  one_write P (bindM (must_store c) k).
Proof.
  intros Hs Hk tr Ht. unfold must_store, store, asked, bindM.
  destruct (w_store A tr c) as [a|e] eqn:Ew; simpl.
  - destruct (Hk a (tr ++ [EvStore c (Ok a)]) (careful_any _) I) as [(_ & more & Hq & Heq) _].
    exists (EvStore c (Ok a) :: more). split; [etransitivity; [exact Heq|by rewrite <-app_assoc]|]. right.
    exists [], (EvStore c (Ok a)), more. rewrite app_nil_r. auto.
  - exists [EvStore c (Err e)]. split; [done|]. right. exists [], (EvStore c (Err e)), []. rewrite app_nil_r. auto.
Qed.
Lemma one_write_seq {A B} P (m : J A) (k : A → J B) :
  stable quiet P → job P m anything → (∀ a, one_write P (k a)) → one_write P (bindM m k).
Proof. intros HP Hm Hk. eapply one_write_bind; [done|exact Hm|]. intros a tr [Ht _]. by apply Hk. Qed.

(** *** The handlers *)

Ltac stab := solve [auto 10 with jobs].
Lemma ask_quiet {A X} P (answer : trace → Res X A) ev :
  (∀ r, quiet (ev r)) → job P (asked answer ev) (λ r t, ev r ∈ t).
Proof.
  intros Hq tr Ht HP. split; [by apply calmly_snoc|].
  simpl. intros a [= <-]. rewrite elem_of_app, list_elem_of_singleton. by right.
Qed.
Ltac quietly := cbv beta zeta; first [apply job_ok; done|apply job_fail|by eapply job_any, ask_quiet
  |by eapply job_any, job_guard|by eapply job_any, job_lift|by apply job_peek|case_match; quietly
  |apply job_seq; [stab|quietly|intros ?; quietly]].

Lemma resolveAccess_quiet user h cap : job (λ _, True) (resolveAccess user h cap) anything.
Proof. unfold resolveAccess, roleRow, verdict. quietly. Qed.
Lemma SessionAuth_quiet cfg r : job (λ _, True) (SessionAuth cfg r) anything.
Proof. unfold SessionAuth, Get, now. quietly. Qed.
Lemma site_audit_quiet ac a sha meta : job (λ _, True) (site_audit ac a sha meta) anything.
Proof. unfold site_audit, audit. quietly. Qed.
Lemma refuse_checked P s u m :
  stable quiet P → job P (refuseSoleOwner s u m) (λ _ t, checked t s u).
Proof.
  intros HP. unfold refuseSoleOwner, isSoleOwner.
  eapply job_bind with (Q := λ r t, match r with
    | Ok b => ∃ rows, EvStore (QListMembers s) (Ok rows) ∈ t ∧ b = sole_owner rows u
    | Err e => EvStore (QListMembers s) (Err e) ∈ t
    end); [done| |].
  - eapply job_bind; [done|by apply ask_quiet|]. intros [rows|e]; apply job_ok; intros t [_ Ht]; eauto.
  - intros b tr Ht [_ Hb]. split; [by apply calmly_refl|]. simpl. intros a Hok.
    destruct b as [b|e]; [|right; eauto]. destruct Hb as (rows & Hin & Hb). left. exists rows. split; [done|]. rewrite <-Hb.
    by destruct b.
Qed.

Lemma removeMember_once user h id : one_write (λ _, True) (removeMember user h id).
Proof.
  apply one_write_seq; [done|apply resolveAccess_quiet|intros ac].
  apply one_write_seq; [stab|by eapply job_any, job_lift|intros u].
  eapply one_write_bind; [stab|apply refuse_checked; stab|intros ok_].
  apply one_write_store; [by intros t r [_ Hc]|intros _].
  apply job_seq; [done|apply site_audit_quiet|intros _]. quietly.
Qed.
Lemma addMember_once user h b : one_write (λ _, True) (addMember user h b).
Proof.
  apply one_write_seq; [done|apply resolveAccess_quiet|intros ac].
  apply one_write_seq; [stab|unfold decode; quietly|intros body].
  apply one_write_seq; [stab|by eapply job_any, job_guard|intros _].
  apply one_write_seq; [stab|by eapply job_any, ask_quiet|intros found].
  apply one_write_seq; [stab|by eapply job_any, job_lift|intros target].
  apply one_write_store; [done|intros _].
  apply job_seq; [done|apply site_audit_quiet|intros _]. quietly.
Qed.
Lemma updateMemberRole_once user h id b : one_write (λ _, True) (updateMemberRole user h id b).
Proof.
  apply one_write_seq; [done|apply resolveAccess_quiet|intros ac].
  apply one_write_seq; [stab|by eapply job_any, job_lift|intros u].
  apply one_write_seq; [stab|by eapply job_any, job_lift|intros role].
  apply one_write_seq; [stab|by eapply job_any, job_guard|intros _].
  eapply one_write_bind with (Q := λ _ t, role = SiteRoleOwner ∨ checked t (site_ID (ac_site ac)) u); [stab| |intros ok_].
  { destruct (String.eqb_spec role SiteRoleOwner) as [->|]; [apply job_ok; by left|].
    eapply job_post; [apply refuse_checked; stab|]. by right. }
  assert (∀ s w, stable quiet (λ t, checked t s w)) as Hst.
  { intros s w t e _ [(rows & Hin & Hso)|(x & Hin)]; [left; exists rows|right; exists x];
      rewrite elem_of_app; auto. }
  assert (∀ r0 s w, stable quiet (λ t, r0 = SiteRoleOwner ∨ checked t s w)) as Hst'.
  { intros r0 s w t e He [?|?]; [by left|right; by apply Hst]. }
  apply one_write_seq; [stab|by eapply job_any, ask_quiet|intros m].
  apply one_write_seq; [stab|by eapply job_any, job_lift|intros _].
  apply one_write_store; [intros t r Ht; by destruct_and!|intros _].
  apply job_seq; [done|apply site_audit_quiet|intros _]. unfold must_store, store. quietly.
Qed.

(** *** Every other endpoint leaves the table alone *)

Lemma summaries_quiet u sites : job (λ _, True) (summaries u sites) anything.
Proof.
  induction sites as [|st sites IH]; simpl; [by apply job_ok|].
  apply job_seq; [done|unfold effectiveRole, roleRow; quietly|intros role].
  apply job_seq; [done|exact IH|intros rest]. by apply job_ok.
Qed.
Definition touches_members (e : endpoint) : bool :=
  match e with RAddMember _ _ | RUpdateMemberRole _ _ _ | RRemoveMember _ _ => true | _ => false end.
Context (BaseDomain : trace → Request → string) (cfg : ApiConfig).
Lemma handle_quiet r user e :
  touches_members e = false → job (λ _, True) (handle BaseDomain cfg r user e) anything.
Proof.
  intros He. destruct e; try done; cbn [handle].
  all: try (apply job_seq; [done|apply resolveAccess_quiet|intros ac]).
  all: unfold listTokens, createToken, revokeToken, createSite, admin, adminGetGitHub, adminPutGitHub, adminGetGitHub,
    effectiveGitHubAdminConfig, adminSiteAudit, adminSetUserFlags, admin_audit, signedIn, site_audit, audit,
    must_svc, must_store, store, svc, decode, urlFor, now.
  all: try quietly.
  unfold listSites, signedIn, must_svc, svc. apply job_seq; [done|quietly|intros u].
  apply job_seq; [done|quietly|intros sites]. apply job_seq; [done|apply summaries_quiet|intros out]. quietly.
Qed.
Lemma serve_once r e : one_write (λ _, True) (serve BaseDomain cfg r e).
Proof.
  apply one_write_seq; [done|apply SessionAuth_quiet|intros user].
  apply one_write_seq; [done|by eapply job_any, job_lift|intros _].
  destruct (touches_members e) eqn:Ht; [|eapply one_write_quiet; by apply handle_quiet].
  destruct e; try done; cbn [handle]; [apply addMember_once|apply updateMemberRole_once|apply removeMember_once].
Qed.

(** A site keeps an owner.  Start from a membership table in
  which a site has an owner, and let any REST request run alone against a store
  whose member listings succeed and tell the truth, a grant that gives an owner
  a lesser role apart.  Then the
  site still has an owner afterwards, whatever the request, whoever sends it,
  wherever it stops, and whether or not a statement that reports a failure took
  effect: the demotion or removal of the only owner is refused. *)
Lemma keeps_owner (r : Request) (e : endpoint) (t0 t : table) (s : uuid) :
  spares_owners t0 (serve BaseDomain cfg r e []).1 →
  truthful t0 (serve BaseDomain cfg r e []).1 → evolves t0 (serve BaseDomain cfg r e []).1 t →
  owned t0 s → owned t s.
Proof.
  intros Hg Htr Hev Ho. destruct (serve_once r e [] I) as (more & Heq & Hor).
  rewrite Heq in Hg, Htr, Hev. cbn [app] in *. clear Heq.
  destruct Hor as [Hq|(m1 & w & m2 & -> & Hq1 & Hq2 & Hw)]; [by rewrite (evolves_quiet _ _ _ Hq Hev)|].
  apply evolves_app in Hev as (t1 & Hev1 & Hev2). apply evolves_quiet in Hev1 as ->; [|done].
  inversion Hev2 as [|? ? t2 ? ? Hs Hev3]; subst. apply evolves_quiet in Hev3 as ->; [|done].
  destruct (writes w) eqn:Ew.
  - by apply (write_keeps_owner t0 m1 w m2).
  - assert (evolves t0 [w] t2) as Hw1 by (econstructor; [done|constructor]).
    apply evolves_quiet in Hw1 as ->; [done|]. by constructor.
Qed.
End writes.

(** ** A sample store *)

#[local] Existing Instances ascii_only_unicode toy_crypto hex_uuid_text hex_uuid_parse toy_text.

(** The table after a run in which every successful statement took effect *)
Definition current (t0 : table) (tr : trace) : table :=
  foldl (λ t e, match e with EvStore c (Ok _) => effect c t | _ => t end) t0 tr.
Definition user_email (u : uuid) : string := "u" +:+ digits 10 u +:+ "@example.com".
Definition rows_of (t : table) (s : uuid) : list MemberRow :=
  omap (λ kv, if decide (kv.1.1 = s) then Some (mkMemberRow kv.1.2 (user_email kv.1.2) "" kv.2 None) else None)
    (map_to_list t).
(** User 1 is signed in; the one site is 7; members are what the table says. *)
Definition table_world (t0 : table) : World := {|
  w_svc := λ A tr c, match c in Svc A return Res err A with
    | GetSiteByHandle _ => Ok sample_site
    | _ => Err (ESentinel ErrNotFound)
    end;
  w_store := λ A tr c, match c in Store A return Res store_err A with
    | QGetSession _ => Ok sample_session
    | QGetRole s u => match current t0 tr !! (s, u) with Some role => Ok role | None => Err NoRows end
    | QGetMember s u => match current t0 tr !! (s, u) with Some _ => Ok tt | None => Err NoRows end
    | QListMembers s => Ok (rows_of (current t0 tr) s)
    | QGetUserByEmail e => Ok (mkUserRow (if (e =? user_email 1%N)%string then 1%N else 2%N) e "" None false false)
    | QGetUserByID u => Ok (mkUserRow u (user_email u) "" None false false)
    | QInsertAudit _ | QTouchSession _ | QAddMember _ _ _ _ | QUpdateMemberRole _ _ _ | QRemoveMember _ _ => Ok tt
    | _ => Err NoRows
    end;
  w_now := λ _, 0%Z; w_rand62 := λ _ i, None; w_entropy := λ _, None |}.
Definition table_run (t0 : table) (e : endpoint) : trace * Res reply reply :=
  @serve _ _ _ _ _ (table_world t0) (λ _ _, "kotoji.example") sample_api (sample_request (route e).1) e [].
Definition two_members : table := {[ (7%N, 1%N) := SiteRoleOwner; (7%N, 2%N) := SiteRoleViewer ]}.
Definition remove_other : endpoint := RRemoveMember "notes" (hex_pad 32 2).

Example sole_owner_stays :
  rp_status (reply_of (table_run two_members (RRemoveMember "notes" (hex_pad 32 1))).2) = 409%Z ∧
  rp_status (reply_of (table_run two_members
    (RUpdateMemberRole "notes" (hex_pad 32 1) (Body SiteRoleViewer false))).2) = 409%Z ∧
  rp_status (reply_of (table_run two_members remove_other).2) = 204%Z.
Proof. vm_compute. done. Qed.

(** POST /members with the only owner's own email and a lesser role is not
    refused: the upsert demotes the only owner. *)
Example grant_demotes_sole_owner :
  let run := table_run two_members (RAddMember "notes" (Body (mkAddMember (user_email 1%N) SiteRoleViewer) false)) in
  rp_status (reply_of run.2) = 200%Z ∧
  current two_members run.1 = {[ (7%N, 1%N) := SiteRoleViewer; (7%N, 2%N) := SiteRoleViewer ]} ∧
  ¬ owned (current two_members run.1) 7%N.
Proof.
  intros run. assert (current two_members run.1 = {[ (7%N, 1%N) := SiteRoleViewer; (7%N, 2%N) := SiteRoleViewer ]}) as Hc
    by (vm_compute; reflexivity).
  split; [vm_compute; reflexivity|]. split; [exact Hc|]. rewrite Hc. intros [u Hu].
  apply lookup_insert_Some in Hu as [[_ Hu]|[_ Hu]]; [discriminate|].
  apply lookup_singleton_Some in Hu as [_ Hu]. discriminate.
Qed.
