(* ===== verification/Webhook.v ===== *)
(** * The GitHub webhook (webhook/github.go)

    One delivery, from the method check to the fast-forward of a site's
    published branch, over the same service and store as the REST handlers.
    Decoding the payload is encoding/json's: [parse_push] gives the ref and the
    repository's full name, or an error. *)

From S2P Require Import Prelude Trace GoStrings Encoding SiteErrors Handle Zip SiteTypes Http Preview Access Wire.
From S2P Require Import GitRemote ApiWorld Rest.

Definition signatureHeader : string := "X-Hub-Signature-256".
Definition eventHeader : string := "X-Github-Event".
Definition sigPrefix : string := "sha256=".
Definition maxBodyBytes : Z := (5 * 2 ^ 20)%Z.
Definition refPrefix : string := "refs/heads/".

Record pushEvent := mkPush { pe_Ref : string; pe_FullName : string }.
(** Status and text of the answer *)
Record answer := mkAnswer { an_status : Z; an_text : string }.
Definition writeOK (msg : string) : answer := mkAnswer StatusOK msg.
Abbreviation W := (@Trace.J event answer) (only parsing).

Section handler.
Context `{GoUnicode} `{Crypto} `{World}.
Context (parse_push : bytes → option pushEvent).
Context (Secret : string).

Definition verifySignature (header : string) (body : bytes) : bool :=
  if negb (has_prefix sigPrefix header) then false
  else match hex_decode (str_drop (String.length sigPrefix) header) with
       | None => false
       | Some got => (got =? hmac_sha256 Secret body)%string
       end.

Definition trackedBranch (st : SiteRecord) : string := BranchPublished.

Definition audit_push (siteID : uuid) (repo branch commitSHA kind : string) : W unit :=
  let! _ := store (QInsertAudit (mkAudit None (Some siteID) None "webhook.push" AuditSourceSystem (emptyToNil commitSHA)
              [("branch", JStr branch); ("kind", JStr kind); ("repo", JStr repo)])) in ok tt.

(** From the repository lookup on *)
Definition deliver (repo branch : string) : W answer :=
  let! st := store (QGetSiteByGitHubRepo repo) in
  let! st := lift match st with
    | Ok st => Ok st
    | Err NoRows => Err (writeOK "ignored: unknown repo")
    | Err (StoreFailed _) => Err (mkAnswer StatusInternalServerError "internal error")
    end in
  let tracked := trackedBranch st in
  guard_not (negb (branch =? tracked)%string) (writeOK "ignored: branch not tracked") ;!
  let! ci := svc (FetchAndUpdate (rec_ID st) tracked) in
  match ci with
  | Err e =>
      if errors_is e ErrPublishConflict then
        audit_push (rec_ID st) repo branch "" "non_fast_forward" ;!
        ok (writeOK "ignored: non-fast-forward (manual sync required)")
      else ok (mkAnswer StatusInternalServerError "update failed")
  | Ok ci => audit_push (rec_ID st) repo branch (ci_SHA ci) "fast_forward" ;! ok (writeOK "updated")
  end.

(** [body] is the request body; [None] when reading it fails. *)
Definition ServeHTTP (r : Request) (body : option bytes) : W answer :=
  guard_not (negb (rMethod r =? "POST")%string) (mkAnswer StatusMethodNotAllowed "method not allowed") ;!
  guard_not (Secret =? "")%string (mkAnswer StatusServiceUnavailable "webhook not configured") ;!
  let too_large := mkAnswer StatusRequestEntityTooLarge "request too large" in
  let! body := want body too_large in
  guard_not (maxBodyBytes <? slen body)%Z too_large ;!
  guard_not (negb (verifySignature (hget (rHeader r) signatureHeader) body))
    (mkAnswer StatusUnauthorized "invalid signature") ;!
  guard_not (negb (equal_fold (hget (rHeader r) eventHeader) "push")) (writeOK "ignored: not a push event") ;!
  let! ev := want (parse_push body) (mkAnswer StatusBadRequest "malformed push payload") in
  let repo := trim_space (pe_FullName ev) in
  let branch := trim_prefix refPrefix (pe_Ref ev) in
  guard_not ((repo =? "")%string || (branch =? pe_Ref ev)%string || (branch =? "")%string)
    (writeOK "ignored: no trackable branch ref") ;!
  deliver repo branch.

(** ** Authenticity *)

(** A delivery GitHub signed with the configured secret *)
Definition signed (r : Request) (body : bytes) : Prop :=
  rMethod r = "POST" ∧ Secret ≠ "" ∧ (slen body ≤ maxBodyBytes)%Z ∧
  ∃ digest, has_prefix sigPrefix (hget (rHeader r) signatureHeader) = true ∧
    hex_decode (str_drop (String.length sigPrefix) (hget (rHeader r) signatureHeader)) = Some digest ∧
    digest = hmac_sha256 Secret body.
(** A push to the published branch of a repository *)
Definition push_to_published (r : Request) (body : bytes) (repo : string) : Prop :=
  equal_fold (hget (rHeader r) eventHeader) "push" = true ∧ repo ≠ "" ∧
  ∃ ev, parse_push body = Some ev ∧ repo = trim_space (pe_FullName ev) ∧ pe_Ref ev = refPrefix +:+ BranchPublished.

Definition justified (r : Request) (body : option bytes) (t : trace) (e : event) : Prop :=
  ∃ b, body = Some b ∧ signed r b ∧
  match e with
  | EvStore c _ =>
      match c with
      | QGetSiteByGitHubRepo repo => t = [] ∧ repo ≠ "" ∧ ∃ ev, parse_push b = Some ev ∧ repo = trim_space (pe_FullName ev)
      | QInsertAudit a => ∃ st res, EvSvc (FetchAndUpdate (rec_ID st) BranchPublished) res ∈ t ∧
                          ad_SiteID a = Some (rec_ID st) ∧ ad_Source a = AuditSourceSystem
      | _ => False
      end
  | EvSvc c _ =>
      match c with
      | FetchAndUpdate id branch => ∃ repo st, push_to_published r b repo ∧ branch = BranchPublished ∧
          id = rec_ID st ∧ t = [EvStore (QGetSiteByGitHubRepo repo) (Ok st)]
      | _ => False
      end
  end.
End handler.

Section authenticity.
Context `{GoUnicode} `{Crypto} `{World}.
Context (parse_push : bytes → option pushEvent) (Secret : string) (r : Request) (body : option bytes).
Abbreviation just := (justified parse_push Secret r body).

(** A step of the handler: the next guard, and the branch on which it stops. *)
Ltac hook_next H := unfold bindM at 1, guard_not at 1 in H.
Ltac hook_halt := by left; subst.
(** What a delivery has passed when it looks its repository up *)
Lemma gate run :
  run = ServeHTTP parse_push Secret r body [] →
  run.1 = [] ∨
  ∃ b ev, body = Some b ∧ signed Secret r b ∧ equal_fold (hget (rHeader r) eventHeader) "push" = true ∧
    parse_push b = Some ev ∧ trim_space (pe_FullName ev) ≠ "" ∧
    pe_Ref ev = refPrefix +:+ trim_prefix refPrefix (pe_Ref ev) ∧
    run = deliver (trim_space (pe_FullName ev)) (trim_prefix refPrefix (pe_Ref ev)) [].
Proof.
  intros Hrun. unfold ServeHTTP in Hrun. hook_next Hrun.
  destruct (String.eqb_spec (rMethod r) "POST") as [Hpost|]; [|hook_halt]. cbn [negb] in Hrun.
  hook_next Hrun. destruct (String.eqb_spec Secret "") as [|Hsec]; [hook_halt|].
  unfold bindM at 1, want at 1 in Hrun. destruct body as [b|]; [|hook_halt].
  hook_next Hrun. destruct (Z.ltb_spec maxBodyBytes (slen b)) as [|Hlen]; [hook_halt|].
  hook_next Hrun. destruct (verifySignature _ _ b) eqn:Hsig; [|hook_halt]. cbn [negb] in Hrun.
  hook_next Hrun. destruct (equal_fold _ _) eqn:Hpush; [|hook_halt]. cbn [negb] in Hrun.
  unfold bindM at 1, want at 1 in Hrun. destruct (parse_push b) as [ev|] eqn:Hev; [|hook_halt]. cbv zeta in Hrun.
  hook_next Hrun. destruct (String.eqb_spec (trim_space (pe_FullName ev)) "") as [|Hrepo]; [hook_halt|].
  destruct (String.eqb_spec (trim_prefix refPrefix (pe_Ref ev)) (pe_Ref ev)) as [|Href]; [hook_halt|].
  destruct (String.eqb_spec (trim_prefix refPrefix (pe_Ref ev)) "") as [|Hbranch]; [hook_halt|].
  right. exists b, ev. split; [done|]. split.
  - split_and!; [done..|]. unfold verifySignature in Hsig.
    destruct (has_prefix _ _); [|done]. cbn [negb] in Hsig. destruct (hex_decode _) as [d|] eqn:Hd; [|done].
    exists d. by apply String.eqb_eq in Hsig.
  - split_and!; [done..| |done]. clear Hrun. unfold trim_prefix in *.
    destruct (has_prefix refPrefix (pe_Ref ev)) eqn:Hp; [|done].
    apply has_prefix_spec in Hp as [x Hx]. rewrite Hx at 1. f_equal. rewrite Hx. symmetry. apply str_drop_app.
Qed.

Lemma deliver_trace repo branch :
  ∃ st, (deliver repo branch []).1 = [EvStore (QGetSiteByGitHubRepo repo) st] ∨
  ∃ site res tail, st = Ok site ∧ branch = BranchPublished ∧
    (deliver repo branch []).1 =
      EvStore (QGetSiteByGitHubRepo repo) st :: EvSvc (FetchAndUpdate (rec_ID site) BranchPublished) res :: tail ∧
    (tail = [] ∨ ∃ a x, tail = [EvStore (QInsertAudit a) x] ∧ ad_SiteID a = Some (rec_ID site) ∧
                        ad_Source a = AuditSourceSystem).
Proof.
  exists (w_store SiteRecord [] (QGetSiteByGitHubRepo repo)).
  unfold deliver, store, svc, asked, audit_push, bindM, lift, guard_not. simpl.
  destruct (w_store SiteRecord [] (QGetSiteByGitHubRepo repo)) as [site|[|m]]; [|by left..].
  destruct (String.eqb_spec branch (trackedBranch site)) as [->|]; [|by left]. simpl. right.
  exists site. destruct (w_svc _ _ _) as [ci|x] eqn:Ec; [|destruct (errors_is x ErrPublishConflict)]; simpl.
  - eexists _, [_]. split_and!; [done..|]. right. eexists _, _. by split_and!.
  - eexists _, [_]. split_and!; [done..|]. right. eexists _, _. by split_and!.
  - eexists _, []. split_and!; [done..|]. by left.
Qed.

(** C17 (safety): only a signed push moves a site.  Whatever arrives at the
  webhook, and whatever the store and the service answer, a site is
  fast-forwarded only for a POST whose body, within the size cap, carries the
  HMAC-SHA256 of exactly its bytes under a non-empty configured secret, that is a
  push to refs/heads/published of a named repository, and only the site the store
  returned for that repository name, on its published branch, as the request's
  second and last question but for the audit row, which names the same site; and
  a delivery without that signature asks the store nothing. *)
Theorem webhook_authentic (pre : trace) (e : event) (post : trace) :
  (ServeHTTP parse_push Secret r body []).1 = pre ++ e :: post → just pre e.
Proof.
  intros Heq. destruct (gate _ eq_refl) as [Hnil|(b & ev & -> & Hs & Hp & Hev & Hr & Href & Hrun)];
    [rewrite Hnil in Heq; by destruct pre|].
  exists b. split; [done|]. split; [done|]. rewrite Hrun in Heq. clear Hrun.
  assert (trim_space (pe_FullName ev) ≠ "" ∧ ∃ ev', parse_push b = Some ev' ∧
          trim_space (pe_FullName ev) = trim_space (pe_FullName ev')) as Hrepo by eauto.
  destruct (deliver_trace (trim_space (pe_FullName ev)) (trim_prefix refPrefix (pe_Ref ev)))
    as [st [Ht|(site & res & tail & -> & Hb & Ht & Htail)]]; rewrite Ht in Heq.
  - destruct pre as [|x pre]; [by injection Heq as <- <-|]. by destruct pre.
  - destruct pre as [|x pre]; [by injection Heq as <- <-|]. injection Heq as <- Heq.
    destruct pre as [|y pre]; injection Heq as <- Heq.
    + exists (trim_space (pe_FullName ev)), site. split_and!; [|done..]. split_and!; [done..|].
      exists ev. split_and!; [done..|]. by rewrite Href, Hb.
    + destruct Htail as [->|(a & w & -> & Ha & Hsrc)]; [by destruct pre|].
      destruct pre as [|z pre]; [|by destruct pre]. injection Heq as <- <-.
      exists site, res. split_and!; [|done..]. apply elem_of_cons. right. by left.
Qed.
End authenticity.

(** ** Samples *)

#[local] Existing Instances ascii_only_unicode toy_crypto.
(** A stored site and the query on its github_repo column *)
Definition mirrored (repo : string) : SiteRecord := {|
  rec_ID := 7%N; rec_Handle := "notes"; rec_OwnerID := 1%N; rec_Visibility := "public"; rec_DefaultBranch := "draft";
  rec_PublishedSHA := None; rec_PublishedAt := None; rec_PublishMode := "request"; rec_GitHubRepo := Some repo;
  rec_WebRoot := ""; rec_Description := ""; rec_CacheVersion := 1%Z; rec_DeletedAt := None; rec_CreatedAt := 0%Z;
  rec_UpdatedAt := 0%Z |}.
Definition webhook_world (stored : string) : World := {|
  w_svc := λ A tr c, match c in Svc A return Res err A with
    | FetchAndUpdate _ _ => Ok {| ci_SHA := "f00d"; ci_ShortSHA := "f00d"; ci_Message := ""; ci_AuthorName := "";
        ci_AuthorEmail := ""; ci_Committed := 0%Z; ci_Parents := []; ci_Via := "" |}
    | _ => Err (ESentinel ErrNotFound)
    end;
  w_store := λ A tr c, match c in Store A return Res store_err A with
    | QGetSiteByGitHubRepo repo => if (repo =? stored)%string then Ok (mirrored stored) else Err NoRows
    | QInsertAudit _ => Ok tt
    | _ => Err NoRows
    end;
  w_now := λ _, 0%Z; w_rand62 := λ _ _, None; w_entropy := λ _, None |}.
Definition sample_delivery (signature : string) : Request :=
  mkRequest "POST" "kotoji.example" "" "/" "/" "" {[ signatureHeader := [signature]; eventHeader := ["push"] ]} "" true [].
Definition sample_payload (b : bytes) : option pushEvent := Some (mkPush "refs/heads/published" "acme/site").
Definition deliver_to (stored signature : string) : trace * Res answer answer :=
  @ServeHTTP _ _ (webhook_world stored) sample_payload "key" (sample_delivery signature) (Some "body") [].
Definition good_signature : string := "sha256=" +:+ hex_encode (hmac_sha256 "key" "body").

Example webhook_runs :
  (deliver_to "acme/site" good_signature).2 = Ok (writeOK "updated") ∧
  deliver_to "acme/site" "sha256=00" = ([], Err (mkAnswer StatusUnauthorized "invalid signature")).
Proof. vm_compute. done. Qed.
(** A site linked by URL, as the remote check accepts and stores it, is not found by its pushes. *)
Example url_linked_site_never_matches :
  GitRemote.validateRemoteURL "https://github.com/acme/site.git" = Ok tt ∧
  (deliver_to "https://github.com/acme/site.git" good_signature).2 = Err (writeOK "ignored: unknown repo").
Proof. vm_compute. done. Qed.
Lemma webhook_authentic_witness :
  justified sample_payload "key" (sample_delivery good_signature) (Some "body")
    (take 1 (deliver_to "acme/site" good_signature).1) (EvSvc (FetchAndUpdate 7%N "published") (Ok {|
       ci_SHA := "f00d"; ci_ShortSHA := "f00d"; ci_Message := ""; ci_AuthorName := "";
        ci_AuthorEmail := ""; ci_Committed := 0%Z; ci_Parents := []; ci_Via := "" |})).
Proof.
  apply (@webhook_authentic _ _ (webhook_world "acme/site") sample_payload "key" (sample_delivery good_signature)
           (Some "body") _ _ (drop 2 (deliver_to "acme/site" good_signature).1)).
  vm_compute. reflexivity.
Defined.
