(* ===== verification/Mcp.v ===== *)
(** * The MCP tools (mcpserver/registry.go, authz.go, tools.go)

    The eleven tools an AI client may call, as programs over the site service.
    [SiteService] is the interface of the service the tools use; the in-memory
    service is its instance [FakeSiteService].  The membership queries are the
    class [Members].  A tool call ends in a result, a business error the model
    sees ([TErr]) or a protocol error ([TProto]). *)

From S2P Require Import Prelude GoStrings Encoding SiteErrors SiteTypes Handle SitePath SiteTree.
From S2P Require Import Http FakeService Access.

(** ** The service the tools call *)

Class SiteService (S : Type) := {
  svc_GetSiteByHandle : string → M S err Site;
  svc_ListFiles : ListFilesInput → M S err (list FileEntry * string);
  svc_ReadFile : uuid → string → string → string → M S err FileContent;
  svc_WriteFile : WriteFileInput → M S err CommitInfo;
  svc_Commit : CommitInput → M S err CommitInfo;
  svc_Publish : PublishInput → M S err CommitInfo;
  svc_GetDiff : DiffOptions → M S err DiffResult;
  svc_GetLog : LogOptions → M S err (list CommitInfo);
  svc_Rollback : uuid → string → string → string → Actor → M S err CommitInfo;
  svc_CreateBranch : uuid → string → string → M S err Branch;
  svc_CreateSite : CreateSiteInput → M S err Site;
}.

Definition FakeSiteService `{GoUnicode} `{UUIDText} (clock : nat → time) (newID : uuid)
    : SiteService FakeService := {|
  svc_GetSiteByHandle := GetSiteByHandle;
  svc_ListFiles := ListFiles;
  svc_ReadFile := ReadFile;
  svc_WriteFile := WriteFile clock;
  svc_Commit := Commit;
  svc_Publish := Publish clock;
  svc_GetDiff := GetDiff;
  svc_GetLog := GetLog;
  svc_Rollback := Rollback clock;
  svc_CreateBranch := CreateBranch;
  svc_CreateSite := CreateSite clock newID;
|}.

(** ** Scopes and errors *)

Inductive scope := scopeRead | scopeWrite | scopePublish.
#[export] Instance scope_eq_dec : EqDecision scope.
Proof. solve_decision. Defined.
Definition scope_string (s : scope) : string :=
  match s with scopeRead => "read" | scopeWrite => "write" | scopePublish => "publish" end.

Inductive detail := DStr (s : string) | DStrs (l : list string) | DInt (z : Z).
Record toolErrorBody := mkToolErr {
  te_Code : string; te_Message : string; te_Details : list (string * detail); te_Retryable : bool;
}.
Inductive tool_out (A : Type) :=
| TOk (a : A)
| TErr (e : toolErrorBody)
| TProto (msg : string).
Arguments TOk {A} a.
Arguments TErr {A} e.
Arguments TProto {A} msg.

Definition retryableFor (code : string) : bool :=
  (code =? "conflict")%string || (code =? "rate_limited")%string.
Definition toolErr (code msg : string) (details : list (string * detail)) : toolErrorBody :=
  mkToolErr code msg details (retryableFor code).

(** [inl] is a tool result, [inr] a Go error. *)
Definition mapError (e : err) (action : string) : toolErrorBody + string :=
  if errors_is e ErrConflict then
    inl (toolErr "conflict" "branch moved since base_sha; re-read and retry"
      match e with
      | ConflictError _ expected actual paths =>
          [("expected", DStr expected); ("actual", DStr actual); ("current_sha", DStr actual);
           ("changed_paths", DStrs paths)]
      | _ => []
      end)
  else if errors_is e ErrPublishConflict then
    inl (toolErr "publish_conflict" "publish merge conflict"
      match e with PublishConflictError paths => [("paths", DStrs paths)] | _ => [] end)
  else if errors_is e ErrNotFound then inl (toolErr "not_found" "not found" [])
  else if errors_is e ErrHandleTaken then inl (toolErr "handle_taken" "handle already taken" [])
  else if errors_is e ErrBranchExists then inl (toolErr "branch_exists" "branch already exists" [])
  else if errors_is e ErrNothingToCommit then inl (toolErr "nothing_to_commit" "nothing to commit" [])
  else if errors_is e ErrForbidden then inl (toolErr "forbidden" "forbidden" [])
  else if errors_is e ErrReservedHandle then inl (toolErr "validation" "handle is reserved" [])
  else if errors_is e ErrValidation then
    inl (toolErr "validation"
      match e with ValidationError f r => f +:+ ": " +:+ r | _ => "validation failed" end [])
  else if errors_is e ErrZipTooLarge || errors_is e ErrZipTooManyFiles then
    inl (toolErr "too_large" "upload too large" [])
  else if errors_is e ErrQuotaExceeded then
    inl (toolErr "quota_exceeded" "per-site disk quota exceeded" [])
  else inr ("internal error during " +:+ action).
Definition mapped {A} (e : err) (action : string) : tool_out A :=
  match mapError e action with inl t => TErr t | inr m => TProto m end.

(** ** Authorisation *)

Record TokenInfo := mkToken {
  tk_UserID : uuid; tk_TokenID : uuid; tk_Scopes : list string; tk_CanCreateSites : bool;
}.

Record member_row := mkMember {
  mr_ID : uuid; mr_Handle : string; mr_Role : string; mr_DefaultBranch : string;
  mr_PublishedSHA : option string; mr_UpdatedAt : time;
}.
Class Members := {
  GetRole : uuid → uuid → role_row;
  ListSitesForUser : uuid → Res err (list member_row);
  (** the account's can_create_sites and is_admin flags *)
  GetUserByID : uuid → Res err (bool * bool);
}.

Definition roleScopes (role : string) : list scope :=
  if (role =? SiteRoleOwner)%string || (role =? SiteRoleEditor)%string
  then [scopeRead; scopeWrite; scopePublish]
  else if (role =? SiteRoleViewer)%string then [scopeRead] else [].
Definition intersectScopes (tokenScopes : list string) (role : string) : list scope :=
  List.filter (λ sc, existsb (λ t, (t =? scope_string sc)%string) tokenScopes) (roleScopes role).
Definition scopeStrings (l : list scope) : list string := scope_string <$> l.
Definition isSiteBusinessError (e : err) : bool :=
  errors_is e ErrNotFound || errors_is e ErrValidation || errors_is e ErrReservedHandle.

Record authorized := mkAuth { au_site : Site; au_role : string; au_scopes : list scope }.

(** ** Paths and content *)

Definition maxPathSegmentBytes : nat := 255.
Definition maxPathTotalBytes : nat := 1024.

Fixpoint checkContentSegs (segs : list string) : option toolErrorBody :=
  match segs with
  | [] => None
  | seg :: segs =>
      if maxPathSegmentBytes <? String.length seg
      then Some (toolErr "validation" "path: segment too long" [])
      else if (seg =? "..")%string
      then Some (toolErr "validation" ("path: must not contain " +:+ quoted ".." +:+ " segments") [])
      else if (seg =? ".git")%string
      then Some (toolErr "validation" ("path: must not reference the " +:+ quoted ".git" +:+ " directory") [])
      else checkContentSegs segs
  end.

Section paths.
Context `{GoUnicode}.

Definition mcpWriteDeniedExt : list string := [".mp4"; ".webm"; ".mp3"; ".wav"; ".pdf"].
Definition mcp_extAllowedForMCPWrite (p : string) : bool :=
  let ext := to_lower (path_ext p) in
  match assoc ext MIMEByExt with
  | None => false
  | Some _ => negb (existsb (λ d, (d =? ext)%string) mcpWriteDeniedExt)
  end.

Definition validateContentPath (p : string) (forWrite : bool) : string + toolErrorBody :=
  let bad m := inr (toolErr "validation" m []) in
  if (p =? "")%string then bad "path: must not be empty"
  else if contains_char NUL p then bad "path: must not contain NUL bytes"
  else if contains_char "\" p then bad "path: must use forward slashes"
  else if has_prefix "/" p then bad "path: must be repo-relative (no leading slash)"
  else if maxPathTotalBytes <? String.length p then bad "path: too long"
  else if negb (is_local p) then bad "path: must not escape the repo root"
  else
    let clean := path_clean p in
    if (clean =? ".")%string || (clean =? "")%string
    then bad "path: must reference a file, not the root"
    else match checkContentSegs (split slash clean) with
         | Some e => inr e
         | None =>
             if forWrite && negb (mcp_extAllowedForMCPWrite clean)
             then bad "path: file extension is not allowed for MCP write (text/static only)"
             else inl clean
         end.

Definition decodeContent (raw : string) (encoding : option string) : bytes + toolErrorBody :=
  let enc := match encoding with
             | Some e => if negb (e =? "")%string then to_lower e else "utf-8"
             | None => "utf-8"
             end in
  if (enc =? "utf-8")%string then inl raw
  else if (enc =? "base64")%string then
    match b64_decode b64_std true raw with
    | Some b => inl b
    | None => inr (toolErr "validation" "content: invalid base64" [])
    end
  else inr (toolErr "validation" "encoding: must be 'utf-8' or 'base64'" []).
End paths.

Record Limits := mkLimits {
  MaxFileBytes : Z; MaxReadBytes : Z; MaxDiffBytes : Z; MaxListItems : Z; MaxLogLimit : Z;
}.
Definition withDefaults (l : Limits) : Limits :=
  let d v dflt := if (v <=? 0)%Z then dflt else v in
  mkLimits (d (MaxFileBytes l) (5 * 2 ^ 20)%Z) (d (MaxReadBytes l) (2 ^ 20)%Z)
           (d (MaxDiffBytes l) (2 ^ 20)%Z) (d (MaxListItems l) 5000%Z) (d (MaxLogLimit l) 100%Z).

Definition actorFor (c : TokenInfo) : Actor :=
  Build_Actor (tk_UserID c) "" "" "mcp" (Some (tk_TokenID c)).
Definition branchOrDefault (b : option string) : string :=
  match b with Some s => if (s =? "")%string then BranchDraft else s | None => BranchDraft end.
Definition deref (s : option string) : string := default "" s.

(** ** Tool programs *)

Definition T (S A : Type) : Type := S → S * tool_out A.

Section tools.
Context `{GoUnicode} `{UUIDText} `{Members}.
Context {S : Type} `{SiteService S}.

Definition tret {A} (a : A) : T S A := λ s, (s, TOk a).
Definition terr {A} (e : toolErrorBody) : T S A := λ s, (s, TErr e).
Definition tbind {A B} (m : T S A) (f : A → T S B) : T S B :=
  λ s, match m s with
       | (s', TOk a) => f a s'
       | (s', TErr e) => (s', TErr e)
       | (s', TProto m) => (s', TProto m)
       end.
(** Call the service; its error becomes the tool's. *)
Definition tcall {A} (action : string) (m : M S err A) : T S A :=
  λ s, match m s with (s', Ok a) => (s', TOk a) | (s', Err e) => (s', mapped e action) end.
(** A check that fails with a tool error. *)
Definition tcheck {A} (r : A + toolErrorBody) : T S A :=
  λ s, (s, match r with inl a => TOk a | inr e => TErr e end).
Definition trequire (bad : bool) (e : toolErrorBody) : T S unit :=
  λ s, (s, if bad then TErr e else TOk tt).

Notation "'let?' x := m 'in' k" := (tbind m (λ x, k))
  (at level 10, x binder, m at level 100, k at level 200).

Definition authorizeSite (c : TokenInfo) (handle : string) (needed : scope) : T S authorized := λ st,
  if (handle =? "")%string then (st, TErr (toolErr "validation" "site: required" []))
  else match svc_GetSiteByHandle handle st with
       | (st, Err e) =>
           (st, if isSiteBusinessError e then TErr (toolErr "not_found" "site not found" [])
                else mapped e "authorize_site")
       | (st, Ok s) =>
           match GetRole (site_ID s) (tk_UserID c) with
           | RoleNone => (st, TErr (toolErr "not_found" "site not found" []))
           | RoleStoreError => (st, mapped (EOther "membership lookup") "authorize_site")
           | RoleFound role =>
               let eff := intersectScopes (tk_Scopes c) role in
               if negb (bool_decide (needed ∈ eff)) then
                 (st, TErr (toolErr "forbidden"
                    ("your effective access on this site does not grant " +:+ scope_string needed)
                    [("role", DStr role); ("effective_scopes", DStrs (scopeStrings eff))]))
               else (st, TOk (mkAuth s role eff))
           end
       end.

(** *** list_sites *)
Record SiteSummary := mkSummary {
  ss_UUID : string; ss_Handle : string; ss_Role : string; ss_EffectiveScopes : list string;
  ss_PublishedURL : string; ss_DraftURL : string; ss_DefaultBranch : string; ss_IsPublished : bool;
  ss_UpdatedAt : string;
  }.
Definition urlFor (Scheme BaseDomain label : string) : string :=
  let scheme := if (Scheme =? "")%string then "https" else Scheme in
  if (BaseDomain =? "")%string then scheme +:+ "://" +:+ label
  else scheme +:+ "://" +:+ label +:+ "." +:+ BaseDomain.
Context (Scheme BaseDomain : string) (limits : Limits).
Definition publishedURL (h : string) : string := urlFor Scheme BaseDomain h.
Definition previewURL (h branch : string) : string :=
  if (branch =? BranchPublished)%string then urlFor Scheme BaseDomain h
  else urlFor Scheme BaseDomain (h +:+ "--" +:+ branch).
Definition toSummary (c : TokenInfo) (row : member_row) : SiteSummary :=
  mkSummary (uuid_String (mr_ID row)) (mr_Handle row) (mr_Role row)
    (scopeStrings (intersectScopes (tk_Scopes c) (mr_Role row)))
    (publishedURL (mr_Handle row)) (previewURL (mr_Handle row) BranchDraft) (mr_DefaultBranch row)
    (match mr_PublishedSHA row with Some sha => negb (sha =? "")%string | None => false end)
    (rfc3339 (mr_UpdatedAt row)).
Definition listSites (c : TokenInfo) : T S (list SiteSummary) := λ st,
  (st, match ListSitesForUser (tk_UserID c) with
       | Err e => mapped e "list_sites"
       | Ok rows => TOk (toSummary c <$> rows)
       end).

(** *** list_files *)
Record ListFilesArgs := mkListFiles {
  la_Site : string; la_Branch : option string; la_Path : option string; la_Ref : option string;
  la_Recursive : option bool;
  }.
Record FileItem := mkItem { fi_Path : string; fi_Size : Z; fi_Mode : string }.
Record ListFilesResult := mkListFilesR {
  lr_Branch : string; lr_Commit : string; lr_Files : list FileItem; lr_Truncated : bool;
  }.
(** The loop over the entries: directories are skipped, and the first file
  beyond the cap stops it. *)
Fixpoint take_files (cap : Z) (acc : list FileItem) (es : list FileEntry) : list FileItem * bool :=
  match es with
  | [] => (acc, false)
  | e :: es =>
      if fe_IsDir e then take_files cap acc es
      else if (cap <=? Z.of_nat (length acc))%Z then (acc, true)
      else take_files cap (acc ++ [mkItem (fe_Path e) (fe_Size e) (fe_Mode e)]) es
  end.
Definition listFiles (c : TokenInfo) (in_ : ListFilesArgs) : T S ListFilesResult :=
  let? ac := authorizeSite c (la_Site in_) scopeRead in
  let dir := deref (la_Path in_) in
  let? dir := (if negb (dir =? "")%string then tcheck (validateContentPath dir false) else tret dir) in
  let branch := branchOrDefault (la_Branch in_) in
  let recursive := default false (la_Recursive in_) in
  let? er := tcall "list_files" (svc_ListFiles
    (Build_ListFilesInput (site_ID (au_site ac)) branch dir (deref (la_Ref in_)) recursive)) in
  let '(files, truncated) := take_files (MaxListItems limits) [] er.1 in
  tret (mkListFilesR branch er.2 files truncated).

(** *** read_file *)
Record ReadFileArgs := mkReadFile {
  ra_Site : string; ra_Path : string; ra_Branch : option string; ra_Ref : option string;
  }.
Record ReadFileResult := mkReadFileR {
  rr_Path : string; rr_Branch : string; rr_Commit : string; rr_BlobSHA : string;
  rr_Encoding : string; rr_Content : string; rr_Size : Z; rr_Truncated : bool;
  }.
Definition readFile (c : TokenInfo) (in_ : ReadFileArgs) : T S ReadFileResult :=
  let? ac := authorizeSite c (ra_Site in_) scopeRead in
  let? clean := tcheck (validateContentPath (ra_Path in_) false) in
  let branch := branchOrDefault (ra_Branch in_) in
  let? fc := tcall "read_file"
    (svc_ReadFile (site_ID (au_site ac)) branch (deref (ra_Ref in_)) clean) in
  let truncated := (MaxReadBytes limits <? Z.of_nat (String.length (fct_Content fc)))%Z in
  let content := if truncated then str_take (Z.to_nat (MaxReadBytes limits)) (fct_Content fc)
                 else fct_Content fc in
  tret (mkReadFileR (fct_Path fc) branch (fct_SHA fc) (fct_BlobSHA fc)
    (if fct_IsBinary fc then "base64" else "utf-8")
    (if fct_IsBinary fc then b64_encode b64_std true content else content)
    (fct_Size fc) truncated).

(** *** write_file *)
Record WriteFileArgs := mkWriteFile {
  wa_Site : string; wa_Path : string; wa_Content : string; wa_Encoding : option string;
  wa_BaseSHA : string; wa_Branch : option string; wa_Commit : option bool; wa_Message : option string;
  }.
Record WriteFileResult := mkWriteFileR {
  wr_Path : string; wr_Branch : string; wr_Committed : bool; wr_Commit : string; wr_BlobSHA : string;
  wr_Pushed : bool; wr_BytesWritten : Z; wr_Warnings : list string;
  }.
Definition writeFile (c : TokenInfo) (in_ : WriteFileArgs) : T S WriteFileResult :=
  let? ac := authorizeSite c (wa_Site in_) scopeWrite in
  let? clean := tcheck (validateContentPath (wa_Path in_) true) in
  let? _ := trequire (wa_BaseSHA in_ =? "")%string
              (toolErr "validation" "base_sha: required (no force overwrite in v1)" []) in
  let branch := branchOrDefault (wa_Branch in_) in
  let? _ := trequire (branch =? BranchPublished)%string
              (toolErr "validation" "branch: 'published' is not writable; use publish" []) in
  let? content := tcheck (decodeContent (wa_Content in_) (wa_Encoding in_)) in
  let? _ := trequire (MaxFileBytes limits <? Z.of_nat (String.length content))%Z
              (toolErr "too_large" ("content exceeds " +:+ itoa (MaxFileBytes limits) +:+ " bytes") []) in
  let commit := match wa_Commit in_ with Some b => b | None => true end in
  let? ci := tcall "write_file" (svc_WriteFile
    (Build_WriteFileInput (site_ID (au_site ac)) branch clean content (wa_BaseSHA in_) commit
       (deref (wa_Message in_)) (actorFor c))) in
  tret (mkWriteFileR clean branch commit (ci_SHA ci) "" true (Z.of_nat (String.length content)) []).

(** *** create_site *)
Record CreateSiteArgs := mkCreateSite {
  csa_Handle : string; csa_Init : option string; csa_Template : option string; csa_Private : option bool;
  }.
Record CreateSiteResult := mkCreateSiteR {
  csr_UUID : string; csr_Handle : string; csr_DraftURL : string; csr_DefaultBranch : string;
  csr_TokenHint : string;
  }.
Definition toCreateSiteResult (s : Site) : CreateSiteResult :=
  mkCreateSiteR (uuid_String (site_ID s)) (site_Handle s) (previewURL (site_Handle s) BranchDraft)
    (site_DefaultBranch s)
    "your existing token already covers this new site (you are its owner); use it directly via MCP".
Definition createSite (c : TokenInfo) (in_ : CreateSiteArgs) : T S CreateSiteResult :=
  let? _ := trequire (negb (tk_CanCreateSites c))
    (toolErr "forbidden" "this token cannot create sites; create the project in the dashboard" []) in
  λ st,
  match GetUserByID (tk_UserID c) with
  | Err e => (st, mapped e "create_site")
  | Ok (canCreate, isAdmin) =>
      if negb canCreate && negb isAdmin
      then (st, TErr (toolErr "forbidden" "your account is not allowed to create sites" []))
      else (let? s := tcall "create_site" (svc_CreateSite
              (Build_CreateSiteInput (csa_Handle in_) (tk_UserID c) "private" "" "" None "" (actorFor c))) in
            tret (toCreateSiteResult s)) st
  end.

(** *** save *)
Record SaveArgs := mkSave {
  sa_Site : string; sa_Branch : option string; sa_BaseSHA : string; sa_Message : option string;
  }.
Record SaveResult := mkSaveR {
  sr_Branch : string; sr_Commit : string; sr_NoOp : bool; sr_Pushed : bool; sr_FilesChanged : Z;
  }.
Definition isNothingToCommit (e : err) : bool := errors_is e ErrNothingToCommit.
Definition save (c : TokenInfo) (in_ : SaveArgs) : T S SaveResult :=
  let? ac := authorizeSite c (sa_Site in_) scopeWrite in
  let? _ := trequire (sa_BaseSHA in_ =? "")%string (toolErr "validation" "base_sha: required" []) in
  let branch := branchOrDefault (sa_Branch in_) in
  let? _ := trequire (branch =? BranchPublished)%string
              (toolErr "validation" "branch: 'published' is not committable; use publish" []) in
  λ st,
  match svc_Commit (Build_CommitInput (site_ID (au_site ac)) branch (deref (sa_Message in_))
                      (sa_BaseSHA in_) (actorFor c)) st with
  | (st, Err e) =>
      (st, if isNothingToCommit e then TOk (mkSaveR branch (sa_BaseSHA in_) true true 0)
           else mapped e "save")
  | (st, Ok ci) => (st, TOk (mkSaveR branch (ci_SHA ci) false true (Z.of_nat (length (ci_Parents ci)))))
  end.

(** *** publish *)
Record PublishArgs := mkPublish {
  pa_Site : string; pa_From : option string; pa_BaseSHA : string; pa_Message : option string;
  }.
Record PublishResult := mkPublishR {
  pr_PublishedCommit : string; pr_PublishedURL : string; pr_From : string; pr_FromCommit : string;
  pr_Pushed : bool; pr_Redeploy : string;
  }.
Definition publish (c : TokenInfo) (in_ : PublishArgs) : T S PublishResult :=
  let? ac := authorizeSite c (pa_Site in_) scopePublish in
  let? _ := trequire (negb (au_role ac =? SiteRoleOwner)%string &&
                      negb (site_PublishMode (au_site ac) =? "direct")%string)
    (toolErr "forbidden" "this site requires publish requests; only the owner can publish directly" []) in
  let? _ := trequire (pa_BaseSHA in_ =? "")%string
              (toolErr "validation" "base_sha: required (tip of the source branch)" []) in
  let from := branchOrDefault (pa_From in_) in
  let? ci := tcall "publish" (svc_Publish
    (Build_PublishInput (site_ID (au_site ac)) from (pa_BaseSHA in_) (deref (pa_Message in_))
       (actorFor c))) in
  tret (mkPublishR (ci_SHA ci) (publishedURL (site_Handle (au_site ac))) from (pa_BaseSHA in_)
    true "live").

(** *** get_diff *)
Record GetDiffArgs := mkGetDiff {
  ga_Site : string; ga_From : option string; ga_To : option string; ga_Commit : option string;
  ga_Path : option string; ga_ContextLines : option Z; ga_Format : option string;
  }.
Record DiffFile := mkDiffFile {
  dfi_Path : string; dfi_Status : string; dfi_OldPath : option string; dfi_Additions : Z;
  dfi_Deletions : Z; dfi_Patch : string;
  }.
Record McpDiffResult := mkDiffR {
  md_From : string; md_To : string; md_FromCommit : string; md_ToCommit : string;
  md_Files : list DiffFile; md_Truncated : bool;
  }.
(** Patches are dropped once the total budget is exhausted. *)
Fixpoint budget_files (nameStatus : bool) (budget : Z) (fs : list FileDiff) : list DiffFile * bool :=
  match fs with
  | [] => ([], false)
  | fd :: fs =>
      let n := Z.of_nat (String.length (fd_UnifiedPatch fd)) in
      let fits := (n <=? budget)%Z in
      let keep := negb nameStatus && fits in
      let '(rest, tr) := budget_files nameStatus (if keep then budget - n else budget)%Z fs in
      (mkDiffFile (fd_Path fd) (fd_Status fd)
         (if (fd_OldPath fd =? "")%string then None else Some (fd_OldPath fd))
         (fd_Additions fd) (fd_Deletions fd) (if keep then fd_UnifiedPatch fd else "") :: rest,
       (negb nameStatus && negb fits) || tr)
  end.
Definition getDiff (c : TokenInfo) (in_ : GetDiffArgs) : T S McpDiffResult :=
  let? ac := authorizeSite c (ga_Site in_) scopeRead in
  let commit := deref (ga_Commit in_) in
  let single := negb (commit =? "")%string in
  let from := if single then commit +:+ "^" else deref (ga_From in_) in
  let to := if single then commit else deref (ga_To in_) in
  let? _ := trequire (from =? "")%string (toolErr "validation" "from or commit is required" []) in
  let contextLines := default 3%Z (ga_ContextLines in_) in
  let nameStatus := match ga_Format in_ with
                    | Some f => (to_lower f =? "name-status")%string
                    | None => false
                    end in
  let? dr := tcall "get_diff" (svc_GetDiff
    (Build_DiffOptions (site_ID (au_site ac)) from to (deref (ga_Path in_)) contextLines nameStatus)) in
  let '(files, truncated) := budget_files nameStatus (MaxDiffBytes limits) (dr_Files dr) in
  tret (mkDiffR from to (dr_FromSHA dr) (dr_ToSHA dr) files truncated).

(** *** get_log *)
Record GetLogArgs := mkGetLog {
  gl_Site : string; gl_Branch : option string; gl_Path : option string; gl_Limit : option Z;
  gl_Before : option string;
  }.
Record LogCommit := mkLogCommit {
  lc_SHA : string; lc_Short : string; lc_Author : string; lc_Via : string; lc_Message : string;
  lc_CommittedAt : string; lc_FilesChanged : Z;
  }.
Record LogResult := mkLogR { lg_Branch : string; lg_Commits : list LogCommit; lg_NextBefore : option string }.
Definition toLogCommit (ci : CommitInfo) : LogCommit :=
  mkLogCommit (ci_SHA ci) (ci_ShortSHA ci) (ci_AuthorEmail ci) (ci_Via ci) (ci_Message ci)
    (rfc3339 (ci_Committed ci)) (Z.of_nat (length (ci_Parents ci))).
Definition getLog (c : TokenInfo) (in_ : GetLogArgs) : T S LogResult :=
  let? ac := authorizeSite c (gl_Site in_) scopeRead in
  let branch := branchOrDefault (gl_Branch in_) in
  let limit := default 20%Z (gl_Limit in_) in
  let? _ := trequire ((limit <? 1)%Z || (MaxLogLimit limits <? limit)%Z)
    (toolErr "validation" ("limit: must be 1.." +:+ itoa (MaxLogLimit limits)) []) in
  let? commits := tcall "get_log" (svc_GetLog
    (Build_LogOptions (site_ID (au_site ac)) branch limit (deref (gl_Before in_)) (deref (gl_Path in_)))) in
  let out := toLogCommit <$> commits in
  tret (mkLogR branch out
    (if (Z.of_nat (length out) =? limit)%Z && (0 <? limit)%Z
     then lc_SHA <$> last out else None)).

(** *** rollback *)
Record RollbackArgs := mkRollback {
  ro_Site : string; ro_Branch : option string; ro_ToSHA : string; ro_BaseSHA : string;
  ro_Message : option string;
  }.
Record RollbackResult := mkRollbackR {
  rb_Branch : string; rb_Commit : string; rb_RestoredFrom : string; rb_Pushed : bool;
  }.
Definition rollback (c : TokenInfo) (in_ : RollbackArgs) : T S RollbackResult :=
  let? ac := authorizeSite c (ro_Site in_) scopeWrite in
  let? _ := trequire (ro_ToSHA in_ =? "")%string (toolErr "validation" "to_sha: required" []) in
  let? _ := trequire (ro_BaseSHA in_ =? "")%string (toolErr "validation" "base_sha: required" []) in
  let branch := branchOrDefault (ro_Branch in_) in
  let? _ := trequire (branch =? BranchPublished)%string
    (toolErr "validation" "branch: 'published' is not rollback-able; publish from a rolled-back draft" []) in
  let? ci := tcall "rollback"
    (svc_Rollback (site_ID (au_site ac)) branch (ro_ToSHA in_) (ro_BaseSHA in_) (actorFor c)) in
  tret (mkRollbackR branch (ci_SHA ci) (ro_ToSHA in_) true).

(** *** create_branch *)
Record CreateBranchArgs := mkCreateBranch { cb_Site : string; cb_Name : string; cb_From : option string }.
Record CreateBranchResult := mkCreateBranchR { cbr_Name : string; cbr_HeadSHA : string; cbr_PreviewSubdomain : string }.
Definition createBranch (c : TokenInfo) (in_ : CreateBranchArgs) : T S CreateBranchResult :=
  let? ac := authorizeSite c (cb_Site in_) scopeWrite in
  let? _ := trequire (cb_Name in_ =? "")%string (toolErr "validation" "name: required" []) in
  let from := match cb_From in_ with
              | Some f => if (f =? "")%string then "draft" else f
              | None => "draft"
              end in
  let? b := tcall "create_branch" (svc_CreateBranch (site_ID (au_site ac)) (cb_Name in_) from) in
  tret (mkCreateBranchR (br_Name b) (br_HeadSHA b) (br_PreviewSubdomain b)).

(** ** The registry *)

Inductive tool_call :=
| TListSites | TListFiles (a : ListFilesArgs) | TReadFile (a : ReadFileArgs)
| TWriteFile (a : WriteFileArgs) | TCreateSite (a : CreateSiteArgs) | TSave (a : SaveArgs)
| TPublish (a : PublishArgs) | TGetDiff (a : GetDiffArgs) | TGetLog (a : GetLogArgs)
| TRollback (a : RollbackArgs) | TCreateBranch (a : CreateBranchArgs).

Definition tdiscard {A} (m : T S A) : T S unit := tbind m (λ _, tret tt).
Definition run_tool (c : TokenInfo) (k : tool_call) : T S unit :=
  match k with
  | TListSites => tdiscard (listSites c)
  | TListFiles a => tdiscard (listFiles c a)
  | TReadFile a => tdiscard (readFile c a)
  | TWriteFile a => tdiscard (writeFile c a)
  | TCreateSite a => tdiscard (createSite c a)
  | TSave a => tdiscard (save c a)
  | TPublish a => tdiscard (publish c a)
  | TGetDiff a => tdiscard (getDiff c a)
  | TGetLog a => tdiscard (getLog c a)
  | TRollback a => tdiscard (rollback c a)
  | TCreateBranch a => tdiscard (createBranch c a)
  end.

(** The rate gate of [guard]: the limiter's answer and its back-off hint, in
  nanoseconds, rounded up to seconds. *)
Definition guard (principal : option TokenInfo) (allow : uuid → bool * Z) (k : tool_call) : T S unit :=
  match principal with
  | None => terr (toolErr "unauthenticated" "invalid or missing token" [])
  | Some c =>
      let '(okAllow, retryAfter) := allow (tk_TokenID c) in
      if negb okAllow then
        terr (toolErr "rate_limited" "rate limit exceeded; back off and retry"
                [("retry_after", DInt ((retryAfter + 999000000) / 1000000000)%Z)])
      else run_tool c k
  end.
End tools.
