(* ===== verification/McpFacts.v ===== *)
(** * What an MCP token can do

    Over the in-memory service: every tool, whatever its arguments, is at most one
    call that changes something, and the events of that service bound its effects.
    Over any service: every call a tool makes, reads included, is recorded and
    justified by the membership and the scopes of the token. *)

From S2P Require Import Prelude GoStrings SiteErrors SiteTypes Handle SitePath Zip SiteTree.
From S2P Require Import FakeService.
From S2P Require Import FakeEvents FakeRuns FakeFacts FakeTheorems Access Mcp.

Section mcp.
Context `{GoUnicode} `{UUIDText} `{Members}.
Context (clock : nat → time) (newID : uuid).
#[local] Instance fake_svc : SiteService FakeService := FakeSiteService clock newID.

(** A program that never changes the state. *)
Definition tquiet {A} (m : T FakeService A) : Prop := ∀ f, (m f).1 = f.
(** From [f], [m] does nothing, or makes one call of the service among [P]. *)
Definition steps_at (f : FakeService) (P : call → Prop) {A} (m : T FakeService A) : Prop :=
  (m f).1 = f ∨ ∃ k r, P k ∧ exec clock k f = ((m f).1, r).

Lemma quiet_steps f P {A} (m : T FakeService A) : tquiet m → steps_at f P m.
Proof. intros Hm. by left. Qed.
Lemma steps_bind f P {A B} (m : T FakeService A) (k : A → T FakeService B) :
  tquiet m → (∀ a, m f = (f, TOk a) → steps_at f P (k a)) → steps_at f P (tbind m k).
Proof.
  intros Hm Hk. specialize (Hm f). unfold steps_at, tbind.
  destruct (m f) as [f1 [a|e|p]]; simpl in Hm; subst f1; [by apply Hk|by left..].
Qed.
Lemma steps_then f P {A B} (m : T FakeService A) (k : A → T FakeService B) :
  steps_at f P m → (∀ a, tquiet (k a)) → steps_at f P (tbind m k).
Proof.
  unfold steps_at, tbind. intros Hm Hk. destruct (m f) as [f1 [a|e|p]]; simpl in *; [|done..].
  rewrite (Hk a f1). done.
Qed.
Lemma steps_call f (P : call → Prop) action {A} k (m : M FakeService err A) :
  exec clock k = discard m → P k → steps_at f P (tcall action m).
Proof.
  intros Hex HP. right. exists k. unfold tcall. rewrite Hex. unfold discard, bindM.
  destruct (m f) as [f1 [a|e]]; eauto.
Qed.
Lemma quiet_ret {A} (a : A) : tquiet (tret a).
Proof. done. Qed.
Lemma quiet_check {A} (r : A + toolErrorBody) : tquiet (tcheck r).
Proof. done. Qed.
Lemma quiet_require b e : tquiet (trequire b e).
Proof. done. Qed.

(** The authorisation a tool call rests on. *)
Definition grants (c : TokenInfo) (f : FakeService) (h : string) (sc : scope)
    (ac : authorized) (id : uuid) (s : fakeSite) : Prop :=
  live (core f) id s ∧ rec_Handle (fs_rec s) = to_lower h ∧ au_site ac = toSite (fs_rec s) ∧
  GetRole (site_ID (au_site ac)) (tk_UserID c) = RoleFound (au_role ac) ∧
  scope_string sc ∈ tk_Scopes c ∧ sc ∈ roleScopes (au_role ac).

Lemma intersectScopes_spec sc toks role :
  sc ∈ intersectScopes toks role ↔ scope_string sc ∈ toks ∧ sc ∈ roleScopes role.
Proof.
  unfold intersectScopes. rewrite list_elem_of_In, filter_In, <-list_elem_of_In, existsb_exists.
  split.
  - intros (Hr & t & Hin & ->%String.eqb_eq). by rewrite list_elem_of_In.
  - intros [Ht Hr]. split; [done|]. exists (scope_string sc).
    by rewrite <-list_elem_of_In, String.eqb_refl.
Qed.

Lemma quiet_authorize c h sc : tquiet (authorizeSite c h sc).
Proof.
  intros f. unfold authorizeSite. destruct (h =? "")%string; [done|].
  assert ((svc_GetSiteByHandle h f).1 = f) as Hg.
  { change (svc_GetSiteByHandle h f) with (GetSiteByHandle h f).
    unfold GetSiteByHandle, bindM, findLive, want. by destruct (List.find _ _). }
  destruct (svc_GetSiteByHandle h f) as [f1 [s|e]]; simpl in Hg; subst f1; [|done].
  destruct (GetRole _ _); [|done..]. by destruct (negb _).
Qed.
Lemma authorize_ok c h sc f f' ac :
  authorizeSite c h sc f = (f', TOk ac) → ∃ id s, grants c f h sc ac id s.
Proof.
  unfold authorizeSite. destruct (h =? "")%string; [done|].
  change (svc_GetSiteByHandle h f) with (GetSiteByHandle h f).
  destruct (GetSiteByHandle h f) as [f1 [s|e]] eqn:Hg.
  2:{ destruct (isSiteBusinessError e); [done|]. unfold mapped. by destruct (mapError e _). }
  apply bindM_ok_inv in Hg as (f2 & o & [-> Hs]%findLive_ok & Hg).
  apply bindM_ok_inv in Hg as (f3 & x & [-> ->]%want_ok & [= <- <-]).
  destruct Hs as (id & Hl & Hh).
  destruct (GetRole (site_ID (toSite (fs_rec x))) (tk_UserID c)) as [role| |] eqn:Hr; [|done..].
  destruct (bool_decide _) eqn:Hd; [|done]. cbn [negb]. intros [= _ <-].
  apply bool_decide_eq_true, intersectScopes_spec in Hd. exists id, x. unfold grants. simpl. done.
Qed.

(** *** Which call of the service a tool may make *)

Definition call_site (k : call) : option uuid :=
  match k with
  | CListFiles in_ => Some (lf_SiteID in_)
  | CReadFile id _ _ _ => Some id
  | CGetDiff in_ => Some (df_SiteID in_)
  | CGetLog in_ => Some (lo_SiteID in_)
  | CWriteFile in_ => Some (wf_SiteID in_)
  | CCommit in_ => Some (cm_SiteID in_)
  | CRollback id _ _ _ _ => Some id
  | CCreateBranch id _ _ => Some id
  | CPublish in_ => Some (pb_SiteID in_)
  | _ => None
  end.
Definition call_scope (k : call) : scope :=
  match k with
  | CWriteFile _ | CCommit _ | CRollback _ _ _ _ _ | CCreateBranch _ _ _ => scopeWrite
  | CPublish _ => scopePublish
  | _ => scopeRead
  end.

(** A call on the site named by [h], by a member whose role and whose token's
  scopes both allow it; publishing also needs ownership or direct mode. *)
Definition site_call (c : TokenInfo) (f : FakeService) (h : string) (k : call) : Prop :=
  ∃ ac id s, grants c f h (call_scope k) ac id s ∧ call_site k = Some (rec_ID (fs_rec s)) ∧
    (call_scope k = scopePublish → au_role ac = SiteRoleOwner ∨ rec_PublishMode (fs_rec s) = "direct").

Definition tool_site (k : tool_call) : option string :=
  match k with
  | TListSites | TCreateSite _ => None
  | TListFiles a => Some (la_Site a) | TReadFile a => Some (ra_Site a)
  | TWriteFile a => Some (wa_Site a) | TSave a => Some (sa_Site a)
  | TPublish a => Some (pa_Site a) | TGetDiff a => Some (ga_Site a)
  | TGetLog a => Some (gl_Site a) | TRollback a => Some (ro_Site a)
  | TCreateBranch a => Some (cb_Site a)
  end.
Definition tool_scope (k : tool_call) : scope :=
  match k with
  | TListSites | TListFiles _ | TReadFile _ | TGetDiff _ | TGetLog _ => scopeRead
  | TWriteFile _ | TSave _ | TRollback _ | TCreateBranch _ | TCreateSite _ => scopeWrite
  | TPublish _ => scopePublish
  end.

(** The gates of create_site. *)
Definition may_create (c : TokenInfo) : Prop :=
  tk_CanCreateSites c = true ∧ ∃ cc ad, GetUserByID (tk_UserID c) = Ok (cc, ad) ∧ (cc || ad = true).

Definition tool_makes (c : TokenInfo) (f : FakeService) (k : tool_call) (kk : call) : Prop :=
  match tool_site k with
  | Some h => site_call c f h kk ∧ call_scope kk = tool_scope k
  | None => ∃ a in_, k = TCreateSite a ∧ kk = CCreateSite newID in_ ∧ cs_Handle in_ = csa_Handle a ∧ may_create c
  end.

Lemma grants_site c f h k ac id s :
  grants c f h (call_scope k) ac id s → call_site k = Some (site_ID (au_site ac)) →
  (call_scope k = scopePublish → au_role ac = SiteRoleOwner ∨ site_PublishMode (au_site ac) = "direct") →
  site_call c f h k.
Proof.
  intros Hg Hk Hp. exists ac, id, s. split; [done|]. destruct Hg as (_ & _ & E & _).
  rewrite E in Hk, Hp. done.
Qed.

Ltac step :=
  lazymatch goal with
  | |- steps_at _ _ (tbind (tcall _ _) _) => apply steps_then; [|intros ?]
  | |- steps_at _ _ (tbind _ _) => apply steps_bind; [|intros ? ?]
  | |- tquiet (trequire _ _) => apply quiet_require
  | |- tquiet (tcheck _) => apply quiet_check
  | |- tquiet (tret _) => apply quiet_ret
  | |- tquiet (authorizeSite _ _ _) => apply quiet_authorize
  | |- tquiet (match ?x with _ => _ end) => destruct x
  end.
Ltac calls k := eapply (steps_call _ _ _ k); [reflexivity|split; [|reflexivity]].
Ltac granted :=
  match goal with
  | H : authorizeSite _ _ _ _ = _ |- _ => apply authorize_ok in H as (? & ? & H)
  end;
  eapply grants_site; [eassumption|reflexivity|try done].

Lemma run_tool_steps Scheme BaseDomain limits c k f :
  steps_at f (tool_makes c f k) (run_tool Scheme BaseDomain limits c k).
Proof.
  destruct k as [|a|a|a|h|a|a|a|a|a|a]; unfold run_tool, tdiscard; apply steps_then; try done; unfold tool_makes;
    cbn [tool_site tool_scope].
  - apply quiet_steps. done.
  - unfold listFiles. repeat step. calls uconstr:(CListFiles _). granted.
  - unfold readFile. repeat step. calls uconstr:(CReadFile _ _ _ _). granted.
  - unfold writeFile. repeat step. calls uconstr:(CWriteFile _). granted.
  - unfold createSite. apply steps_bind; [apply quiet_require|]. intros [] Hc.
    assert (tk_CanCreateSites c = true) as Hcan.
    { unfold trequire in Hc. destruct (tk_CanCreateSites c); done. }
    unfold steps_at. destruct (GetUserByID (tk_UserID c)) as [[cc ad]|e] eqn:Hu; [|by left].
    destruct (negb cc && negb ad) eqn:Hg; [by left|].
    apply steps_then; [|intros ?; apply quiet_ret].
    eapply (steps_call _ _ _ (CCreateSite newID _)); [reflexivity|]. eexists _, _. split_and!; [done|done|done|split; [done|]].
    exists cc, ad. split; [done|]. by destruct cc, ad.
  - unfold save. repeat step. right.
    set (in_ := Build_CommitInput (site_ID (au_site a0)) (branchOrDefault (sa_Branch a))
                  (deref (sa_Message a)) (sa_BaseSHA a) (actorFor c)).
    exists (CCommit in_), (exec clock (CCommit in_) f).2. split; [split; [granted|reflexivity]|].
    cbn [exec]. unfold discard, bindM. change (svc_Commit in_ f) with (Commit in_ f).
    destruct (Commit in_ f) as [f1 [ci|e]]; reflexivity.
  - unfold publish. repeat step. calls uconstr:(CPublish _). granted. intros _.
    match goal with H : trequire (negb _ && _) _ _ = _ |- _ => unfold trequire in H end.
    destruct (String.eqb_spec (au_role a0) SiteRoleOwner); [by left|right].
    by destruct (String.eqb_spec (site_PublishMode (au_site a0)) "direct").
  - unfold getDiff. repeat step. calls uconstr:(CGetDiff _). granted.
  - unfold getLog. repeat step. calls uconstr:(CGetLog _). granted.
  - unfold rollback. repeat step. calls uconstr:(CRollback _ _ _ _ _). granted.
  - unfold createBranch. repeat step. calls uconstr:(CCreateBranch _ _ _). granted.
Qed.

(** *** Effects *)

(** Everything but one site is as it was, and what readers of the published
  branch of that site see too. *)
Definition only_site (id : uuid) (g g' : Core) : Prop :=
  c_redirects g' = c_redirects g ∧ ∀ id', id' ≠ id → c_sites g' !! id' = c_sites g !! id'.
Definition published_kept (id : uuid) (g g' : Core) : Prop :=
  ∀ s', c_sites g' !! id = Some s' → ∃ s, c_sites g !! id = Some s ∧
    fs_branches s' !! BranchPublished = fs_branches s !! BranchPublished ∧
    rec_PublishedSHA (fs_rec s') = rec_PublishedSHA (fs_rec s).

Lemma upd_only id g c c' :
  c_redirects c' = c_redirects c → c_sites c' = alter g id (c_sites c) → only_site id c c'.
Proof. intros Hr Hs. split; [done|]. intros id' Hne. by rewrite Hs, lookup_alter_ne. Qed.
Lemma upd_published id g c c' :
  c_sites c' = alter g id (c_sites c) →
  (∀ s, fs_branches (g s) !! BranchPublished = fs_branches s !! BranchPublished ∧
        rec_PublishedSHA (fs_rec (g s)) = rec_PublishedSHA (fs_rec s)) →
  published_kept id c c'.
Proof.
  intros Hs Hg s' Hs'. rewrite Hs, lookup_alter_eq in Hs'.
  apply fmap_Some in Hs' as (s & Hs0 & ->). exists s. split; [done|]. apply Hg.
Qed.

Lemma site_call_effect kk id f f' r :
  call_site kk = Some id → exec clock kk f = (f', r) →
  core f' = core f ∨
  (call_scope kk ≠ scopeRead ∧ only_site id (core f) (core f') ∧
   (call_scope kk ≠ scopePublish → published_kept id (core f) (core f'))).
Proof.
  intros Hid (e & Hal & Hok & Hc)%exec_refines; [|by destruct kk].
  destruct e as [|id0 s|id0 h t|id0 t|id0 name b|id0 name|id0 n b x t|id0 fr b x t|id0 b x t|id0 url];
    [by left|right; rewrite Hc..].
  - by destruct Hal as (in_ & ->).
  - by destruct Hal as (h0 & ->).
  - by destruct Hal as (a & ->).
  - destruct Hal as (from & ->). simpl in Hid. injection Hid as ->.
    destruct Hok as (s & b0 & x & _ & _ & Hn & _). split; [done|]. split; [by eapply upd_only|]. intros _.
    eapply upd_published; [done|]. intros s0. simpl. by rewrite lookup_insert_ne.
  - by rewrite Hal in Hid.
  - destruct Hok as (s & _ & Hn & _).
    assert (id0 = id ∧ call_scope kk = scopeWrite) as [-> ->].
    { destruct Hal as [(in_ & -> & <- & <-)|[(p & base & a & ->)|[(src & base & a & ->)|(to & base & a & ->)]]];
        by simplify_eq/=. }
    split; [done|]. split; [by eapply upd_only|]. intros _.
    eapply upd_published; [done|]. intros s0. simpl. by rewrite lookup_insert_ne.
  - destruct Hal as (in_ & -> & <-). simpl in Hid. injection Hid as <-. split; [done|].
    split; [by eapply upd_only|]. by intros [].
  - destruct Hal as (in_ & -> & <-). simpl in Hid. injection Hid as <-. split; [done|].
    split; [by eapply upd_only|]. by intros [].
  - by rewrite Hal in Hid.
Qed.

Lemma roleScopes_inv sc role : sc ∈ roleScopes role →
  role = SiteRoleOwner ∨ role = SiteRoleEditor ∨ role = SiteRoleViewer ∧ sc = scopeRead.
Proof.
  unfold roleScopes. destruct (String.eqb_spec role SiteRoleOwner), (String.eqb_spec role SiteRoleEditor);
    cbn [orb]; auto. destruct (String.eqb_spec role SiteRoleViewer); [|by intros ?%elem_of_nil].
  intros ->%list_elem_of_singleton. auto.
Qed.
Lemma roleScopes_editor sc role :
  sc ∈ roleScopes role → sc ≠ scopeRead → role = SiteRoleOwner ∨ role = SiteRoleEditor.
Proof.
  unfold roleScopes. destruct (String.eqb_spec role SiteRoleOwner), (String.eqb_spec role SiteRoleEditor);
    cbn [orb]; [by left|by left|by right|].
  destruct (_ =? _)%string; rewrite ?elem_of_cons, ?elem_of_nil; intros; by destruct_or?.
Qed.

(** What a token can change, over the in-memory service.  Whatever
  tool is called with whatever arguments, either nothing changes; or a site is
  created, with the token's and the account's permission to do so; or the
  tool was a write or a publish, its scope is one of the token's, the token's
  owner is at this moment owner or editor of the live site the argument
  names, that site is the only one touched, and its published branch is
  touched by the publish tool alone, whose caller owns the site unless the
  site is in direct mode. *)
Theorem tool_effects (Scheme BaseDomain : string) (limits : Limits) (c : TokenInfo) (k : tool_call)
    (f f' : FakeService) (r : tool_out unit) :
  wf (core f) → sites f !! newID = None →
  run_tool Scheme BaseDomain limits c k f = (f', r) →
  core f' = core f ∨
  (∃ h, k = TCreateSite h ∧ may_create c ∧ only_site newID (core f) (core f')) ∨
  ∃ h id s role,
    tool_site k = Some h ∧ live (core f) id s ∧ rec_Handle (fs_rec s) = to_lower h ∧
    tool_scope k ≠ scopeRead ∧ scope_string (tool_scope k) ∈ tk_Scopes c ∧
    GetRole id (tk_UserID c) = RoleFound role ∧ (role = SiteRoleOwner ∨ role = SiteRoleEditor) ∧
    only_site id (core f) (core f') ∧
    (if decide (tool_scope k = scopePublish)
     then role = SiteRoleOwner ∨ rec_PublishMode (fs_rec s) = "direct"
     else published_kept id (core f) (core f')).
Proof.
  intros Hwf Hfresh Hrun.
  destruct (run_tool_steps Scheme BaseDomain limits c k f) as [Hq|(kk & r' & Hk & Hex)];
    rewrite Hrun in *; simpl in *; [subst f'; by left|].
  unfold tool_makes in Hk. destruct (tool_site k) as [h|] eqn:Hsite.
  - destruct Hk as [(ac & id & s & Hg & Hid & Hp) Hsc].
    destruct Hg as (Hl & Hh & Hac & Hrole & Htok & Hrs).
    assert (rec_ID (fs_rec s) = id) as Eid by apply (ws_id _ _ _ (wf_sites _ Hwf id s (proj1 Hl))).
    rewrite Hac in Hrole. simpl in Hrole. rewrite Eid in Hid, Hrole.
    destruct (site_call_effect kk id f f' r') as [Hq|(Hnr & Ho & Hpk)]; [done..|by left|].
    right; right. exists h, id, s, (au_role ac). rewrite Hsc in *.
    split_and!; try done; [by eapply roleScopes_editor|].
    case_decide; auto.
  - destruct Hk as (h & in_ & -> & -> & _ & Hmay).
    apply exec_refines in Hex as (e & Hal & Hok & Hc); [|done].
    destruct e; try by destruct_or?; destruct_and?; try (by left); naive_solver.
    destruct Hal as (in0 & [= -> ->]). right; left. exists h. split; [done|]. split; [done|].
    rewrite Hc. split; [done|]. intros id' Hne. simpl. by rewrite lookup_insert_ne.
Qed.
End mcp.

(** ** Over any service

    A tool is run over an arbitrary implementation of the service and a record of
    the calls it makes, reads included. *)

Inductive asked :=
| Lookup (h : string) (r : Res err Site)
| Creates (in_ : CreateSiteInput)
| Asked (q : call).

Definition call_actor (q : call) : option Actor :=
  match q with
  | CWriteFile in_ => Some (wf_Actor in_) | CCommit in_ => Some (cm_Actor in_)
  | CPublish in_ => Some (pb_Actor in_) | CRollback _ _ _ _ a => Some a
  | _ => None
  end.

Section traced.
Context `{GoUnicode} `{UUIDText} `{Members}.
Context {S : Type} (inner : SiteService S).
#[local] Existing Instance inner.
Abbreviation recorded := (S * list asked)%type.

Definition recording {A} (a : Res err A → asked) (m : M S err A) : M recorded err A :=
  λ st, let x := m st.1 in ((x.1, st.2 ++ [a x.2]), x.2).
Definition asking {A} (q : call) (m : M S err A) : M recorded err A := recording (λ _, Asked q) m.
Definition traced : SiteService recorded := {|
  svc_GetSiteByHandle h := recording (Lookup h) (svc_GetSiteByHandle h);
  svc_ListFiles i := asking (CListFiles i) (svc_ListFiles i);
  svc_ReadFile id b r p := asking (CReadFile id b r p) (svc_ReadFile id b r p);
  svc_WriteFile i := asking (CWriteFile i) (svc_WriteFile i);
  svc_Commit i := asking (CCommit i) (svc_Commit i);
  svc_Publish i := asking (CPublish i) (svc_Publish i);
  svc_GetDiff i := asking (CGetDiff i) (svc_GetDiff i);
  svc_GetLog i := asking (CGetLog i) (svc_GetLog i);
  svc_Rollback id b t base a := asking (CRollback id b t base a) (svc_Rollback id b t base a);
  svc_CreateBranch id n f := asking (CCreateBranch id n f) (svc_CreateBranch id n f);
  svc_CreateSite i := recording (λ _, Creates i) (svc_CreateSite i);
|}.
#[local] Existing Instance traced.

Section one_tool.
Context (c : TokenInfo) (k : tool_call).

(** The site [h] names was looked up and found to be [st]; the membership of the
    token's owner in it and the scopes of the token both allow [sc]. *)
Definition allows (sc : scope) (h : string) (st : Site) (role : string) (t : list asked) : Prop :=
  Lookup h (Ok st) ∈ t ∧ GetRole (site_ID st) (tk_UserID c) = RoleFound role ∧ scope_string sc ∈ tk_Scopes c ∧
  (role = SiteRoleOwner ∨ role = SiteRoleEditor ∨ role = SiteRoleViewer ∧ sc = scopeRead).
(** The calls a tool may make, after the calls [t] *)
Definition justified (t : list asked) (a : asked) : Prop :=
  match a with
  | Lookup h _ => tool_site k = Some h
  | Creates in_ => ∃ a, k = TCreateSite a ∧ cs_Handle in_ = csa_Handle a ∧ cs_OwnerID in_ = tk_UserID c ∧
      cs_Actor in_ = actorFor c ∧ may_create c
  | Asked q => ∃ h st role, tool_site k = Some h ∧ allows (tool_scope k) h st role t ∧
      call_site q = Some (site_ID st) ∧ call_scope q = tool_scope k ∧
      (∀ a, call_actor q = Some a → a = actorFor c) ∧
      (tool_scope k = scopePublish → role = SiteRoleOwner ∨ site_PublishMode st = "direct")
  end.

(** From any state, [m] over the record does what [m'] does, and its calls are justified. *)
Definition runs (P : list asked → Prop) {A} (m : T recorded A) (m' : T S A) : Prop := ∀ s t, P t →
  ∃ u, m (s, t) = (((m' s).1, t ++ u), (m' s).2) ∧
       ∀ pre a post, u = pre ++ a :: post → justified (t ++ pre) a.

Lemma runs_quiet P {A} (r : tool_out A) : runs P (λ st, (st, r)) (λ st, (st, r)).
Proof. intros s t _. exists []. rewrite app_nil_r. split; [done|]. by intros [] ? ?. Qed.
Lemma runs_check P {A B} (r : A + toolErrorBody) (f : A → T recorded B) (g : A → T S B) :
  (∀ a, r = inl a → runs P (f a) (g a)) → runs P (tbind (tcheck r) f) (tbind (tcheck r) g).
Proof. intros Hk. destruct r as [a|e]; [by apply Hk|apply (runs_quiet P (TErr e))]. Qed.
Lemma runs_require P {B} b e (f : unit → T recorded B) (g : unit → T S B) :
  (b = false → runs P (f tt) (g tt)) → runs P (tbind (trequire b e) f) (tbind (trequire b e) g).
Proof. intros Hk. destruct b; [apply (runs_quiet P (TErr e))|by apply Hk]. Qed.
Lemma runs_ret P {A B} (a : A) (f : A → T recorded B) (g : A → T S B) :
  runs P (f a) (g a) → runs P (tbind (tret a) f) (tbind (tret a) g).
Proof. done. Qed.
(** One call of the service, and nothing after it *)
Lemma runs_final (P : list asked → Prop) {A B} (a : asked) (m : M S err A) (out : Res err A → tool_out B)
    (p : T recorded B) (p' : T S B) :
  (∀ t, P t → justified t a) →
  (∀ st, p st = ((recording (λ _, a) m st).1, out (recording (λ _, a) m st).2)) →
  (∀ s, p' s = ((m s).1, out (m s).2)) → runs P p p'.
Proof.
  intros Hj Hp Hp' s t Ht. exists [a]. rewrite Hp, Hp'. split; [done|].
  intros [|x pre] b post Heq; [|by destruct pre]. injection Heq as <- _. rewrite app_nil_r. by apply Hj.
Qed.
Lemma runs_call (P : list asked → Prop) action {A B} (a : asked) (m : M S err A)
    (f : A → T recorded B) (f' : A → T S B) :
  (∀ x st s, f x st = (st, (f' x s).2)) → (∀ x s, (f' x s).1 = s) → (∀ t, P t → justified t a) →
  runs P (tbind (tcall action (recording (λ _, a) m)) f) (tbind (tcall action m) f').
Proof.
  intros Hf Hf' Hj s t Ht. exists [a]. split.
  - unfold tbind, tcall, recording, mapped. cbn [fst snd]. destruct (m s) as [s1 [y|e]]; cbn [fst snd].
    + by rewrite (Hf y _ s1), (Hf' y s1).
    + by destruct (mapError e action).
  - intros [|x pre] b post Heq; [|by destruct pre]. injection Heq as <- _. rewrite app_nil_r. by apply Hj.
Qed.
Lemma runs_discard P {A} (m : T recorded A) (m' : T S A) : runs P m m' → runs P (tdiscard m) (tdiscard m').
Proof.
  intros Hm s t Ht. destruct (Hm s t Ht) as (u & Hu & Hj). exists u. split; [|done].
  unfold tdiscard, tbind. rewrite Hu. by destruct (m' s) as [s1 [a|e|e]].
Qed.
(** The lookup and the membership check in front of every tool of a site *)
Lemma runs_authorize P h sc {B} (f : authorized → T recorded B) (g : authorized → T S B) :
  tool_site k = Some h → (∀ ac, runs (allows sc h (au_site ac) (au_role ac)) (f ac) (g ac)) →
  runs P (tbind (authorizeSite c h sc) f) (tbind (authorizeSite c h sc) g).
Proof.
  intros Hh Hk s t Ht. unfold tbind, authorizeSite. destruct (h =? "")%string.
  { exists []. rewrite app_nil_r. split; [done|]. by intros [] ? ?. }
  assert (svc_GetSiteByHandle h (s, t) = (((svc_GetSiteByHandle h s).1, t ++ [Lookup h (svc_GetSiteByHandle h s).2]),
    (svc_GetSiteByHandle h s).2)) as -> by done.
  assert (∀ r pre a post, [Lookup h r] = pre ++ a :: post → justified (t ++ pre) a) as Hone.
  { intros r [|x pre] a post Heq; [|by destruct pre]. by injection Heq as <- _. }
  destruct (svc_GetSiteByHandle h s) as [s1 [st|e]]; cbn [fst snd];
    [|exists [Lookup h (Err e)]; split; [|by apply Hone];
      destruct (isSiteBusinessError e); [done|]; unfold mapped; by destruct (mapError _ _)].
  destruct (GetRole (site_ID st) (tk_UserID c)) as [role| |] eqn:Hr;
    [|exists [Lookup h (Ok st)]; split; [|by apply Hone]; done..].
  destruct (bool_decide _) eqn:Hd; cbn [negb]; [|exists [Lookup h (Ok st)]; split; [done|by apply Hone]].
  apply bool_decide_eq_true, intersectScopes_spec in Hd as [Hs Hrs].
  destruct (Hk (mkAuth st role (intersectScopes (tk_Scopes c) role)) s1 (t ++ [Lookup h (Ok st)])) as (u & Hu & Hj).
  { split_and!; [rewrite elem_of_app; right; left|done|done|by apply roleScopes_inv]. }
  exists (Lookup h (Ok st) :: u). cbn. rewrite Hu. split; [by rewrite <-app_assoc|].
  intros [|x pre] a post Heq; injection Heq as <- Heq; [done|]. apply Hj in Heq. by rewrite <-app_assoc in Heq.
Qed.
Lemma allowed_call h ac q t :
  tool_site k = Some h → allows (tool_scope k) h (au_site ac) (au_role ac) t → call_site q = Some (site_ID (au_site ac)) →
  call_scope q = tool_scope k → (∀ a, call_actor q = Some a → a = actorFor c) →
  (tool_scope k = scopePublish → au_role ac = SiteRoleOwner ∨ site_PublishMode (au_site ac) = "direct") →
  justified t (Asked q).
Proof. intros. by exists h, (au_site ac), (au_role ac). Qed.
End one_tool.

Ltac walk := cbv beta zeta;
  lazymatch goal with
  | |- runs _ _ _ (tbind (authorizeSite _ _ _) _) _ => apply runs_authorize; [reflexivity|intros ac; walk]
  | |- runs _ _ _ (tbind (trequire _ _) _) _ => apply runs_require; let E := fresh "Hchk" in intros E; walk
  | |- runs _ _ _ (tbind (tcheck _) _) _ => apply runs_check; intros ? ?; walk
  | |- runs _ _ _ (tbind (if ?b then _ else _) _) _ => destruct b; walk
  | |- runs _ _ _ (tbind (tret _) _) _ => apply runs_ret; walk
  | |- runs _ _ _ (tbind (tcall _ _) _) _ =>
      eapply runs_call; [intros; unfold tret; repeat case_match; reflexivity..|intros t Ht; eapply allowed_call;
        [reflexivity|exact Ht|reflexivity|reflexivity|by intros ? [= <-]|try done]]
  | |- _ => idtac
  end.

Lemma run_tool_runs Scheme BaseDomain limits c k :
  runs c k (λ _, True) (run_tool Scheme BaseDomain limits c k) (run_tool Scheme BaseDomain limits c k).
Proof.
  destruct k as [|a|a|a|h|a|a|a|a|a|a]; unfold run_tool; apply runs_discard.
  - apply (runs_quiet _ _ _ (match ListSitesForUser (tk_UserID c) with
      Err e => mapped e "list_sites" | Ok rows => TOk (toSummary Scheme BaseDomain c <$> rows) end)).
  - unfold listFiles. walk.
  - unfold readFile. walk.
  - unfold writeFile. walk.
  - apply runs_require. intros Hcan%negb_false_iff.
    destruct (GetUserByID (tk_UserID c)) as [[cc ad]|e] eqn:Hu; [|apply (runs_quiet _ _ _ (mapped e "create_site"))].
    destruct (negb cc && negb ad) eqn:Hg; [apply (runs_quiet _ _ _ (TErr _))|].
    apply (runs_call c (TCreateSite h) (λ _, True) "create_site" (Creates _)); [done..|]. intros t _.
    exists h. split_and!; [done..|]. split; [done|]. exists cc, ad. split; [done|]. by destruct cc, ad.
  - unfold save. walk. set (b := branchOrDefault (sa_Branch a)).
    set (in_ := Build_CommitInput (site_ID (au_site ac)) b (deref (sa_Message a)) (sa_BaseSHA a) (actorFor c)).
    apply (runs_final _ _ _ (Asked (CCommit in_)) (svc_Commit in_) (λ r, match r with
      | Err e => if isNothingToCommit e then TOk (mkSaveR b (sa_BaseSHA a) true true 0) else mapped e "save"
      | Ok ci => TOk (mkSaveR b (ci_SHA ci) false true (Z.of_nat (length (ci_Parents ci)))) end)).
    + intros t Ht. eapply allowed_call; [reflexivity|exact Ht|reflexivity|reflexivity|by intros ? [= <-]|done].
    + intros st. change (svc_Commit in_ st) with (recording (λ _, Asked (CCommit in_)) (svc_Commit in_) st).
      destruct (recording (λ _, Asked (CCommit in_)) (svc_Commit in_) st) as [s1 [ci|e]]; [done|].
      cbn. by destruct (isNothingToCommit e).
    + intros s. destruct (svc_Commit in_ s) as [s1 [ci|e]]; [done|]. cbn. by destruct (isNothingToCommit e).
  - unfold publish. walk. intros _. destruct (String.eqb_spec (au_role ac) SiteRoleOwner); [by left|right].
    by destruct (String.eqb_spec (site_PublishMode (au_site ac)) "direct").
  - unfold getDiff. walk.
  - unfold getLog. walk.
  - unfold rollback. walk.
  - unfold createBranch. walk.
Qed.

(** C20 (safety): an MCP token is capped by its owner's membership and by its scopes.
    Let any tool be called, with any arguments, by any principal, over any
    implementation of the site service, whatever it answers; recording its calls
    changes nothing of what it does.  Without a principal, and when the rate limiter
    refuses, the service is asked nothing.  Otherwise every call of the service,
    those that only read included, is one of these.  The lookup of the site the
    arguments name.  A call on the site found by that lookup, of the kind of the
    tool (reading, writing, publishing), where the token carries the scope of that
    kind and its owner has a role in the site that allows it: owner or editor, or
    viewer for reading; publishing needs an owner unless the site is in direct
    mode; what is written is attributed to the token.  Or, for create_site alone, the
    creation of a site owned by the token's owner, where the token may create sites and the
    account may or is an administrator: the scopes of the token are not
    looked at there.  list_sites asks the service nothing. *)
Theorem mcp_capped (Scheme BaseDomain : string) (limits : Limits) (principal : option TokenInfo)
    (allow : uuid → bool * Z) (k : tool_call) (s : S) :
  ∃ tr, (guard Scheme BaseDomain limits principal allow k : T recorded unit) (s, []) =
      (((guard Scheme BaseDomain limits principal allow k s).1, tr), (guard Scheme BaseDomain limits principal allow k s).2) ∧
    ∀ pre a post, tr = pre ++ a :: post →
      ∃ c, principal = Some c ∧ (allow (tk_TokenID c)).1 = true ∧ justified c k pre a.
Proof.
  unfold guard. destruct principal as [c|]; [|exists []; split; [done|]; by intros [] ? ?].
  destruct (allow (tk_TokenID c)) as [[] wait] eqn:Ha; cbn [negb]; [|exists []; split; [done|]; by intros [] ? ?].
  destruct (run_tool_runs Scheme BaseDomain limits c k s []) as (tr & Hr & Hj); [done|].
  exists tr. split; [exact Hr|]. intros pre a post Heq. exists c. rewrite Ha. split_and!; [done..|]. by eapply Hj.
Qed.
End traced.

(** ** A token at work *)

Definition sample_members (role : string) : Members := {|
  GetRole := λ id u, if decide (id = 7%N ∧ u = 3%N) then RoleFound role else RoleNone;
  ListSitesForUser := λ _, Ok []; GetUserByID := λ _, Ok (false, false);
|}.
Definition sample_token : TokenInfo := mkToken 3%N 9%N ["read"; "write"; "publish"] false.
Definition sample_tool (base : string) : tool_call :=
  TWriteFile (mkWriteFile "my-site" "a.txt" "one" None base None None None).

Lemma tool_effects_sample :
  (let f' := (@run_tool ascii_only_unicode sample_uuid (sample_members "viewer") FakeService
      (@FakeSiteService ascii_only_unicode sample_uuid sample_clock 8%N) "https" "x.test"
      (mkLimits 100 100 100 100 100) sample_token (sample_tool (sha 1)) sample_state).1 in
   core f' = core sample_state) ∧
  (let f' := (@run_tool ascii_only_unicode sample_uuid (sample_members "editor") FakeService
      (@FakeSiteService ascii_only_unicode sample_uuid sample_clock 8%N) "https" "x.test"
      (mkLimits 100 100 100 100 100) sample_token (sample_tool (sha 1)) sample_state).1 in
   seqno f' ≠ seqno sample_state ∧ published_kept 7%N (core sample_state) (core f')).
Proof.
  assert (@wf ascii_only_unicode (core sample_state)) as Hwf
    by exact (@reachable_is_wf ascii_only_unicode sample_uuid sample_clock _ sample_reachable).
  split; intros f'.
  - edestruct (@tool_effects ascii_only_unicode sample_uuid (sample_members "viewer") sample_clock 8%N
      "https" "x.test" (mkLimits 100 100 100 100 100) sample_token (sample_tool (sha 1)) sample_state)
      as [Hq|[(h & Hh & _)|(h & id & s & role & _ & _ & _ & _ & _ & Hrole & Hr & _)]];
      [exact Hwf|vm_compute; reflexivity|apply surjective_pairing|exact Hq|discriminate Hh|].
    simpl in Hrole. case_decide; [|discriminate Hrole]. injection Hrole as <-.
    destruct Hr as [Hr|Hr]; discriminate Hr.
  - assert (seqno f' ≠ seqno sample_state) as Hne by (vm_compute; discriminate).
    split; [exact Hne|].
    edestruct (@tool_effects ascii_only_unicode sample_uuid (sample_members "editor") sample_clock 8%N
      "https" "x.test" (mkLimits 100 100 100 100 100) sample_token (sample_tool (sha 1)) sample_state)
      as [Hq|[(h & Hh & _)|(h & id & s & role & _ & _ & _ & _ & _ & Hrole & _ & _ & Hk)]];
      [exact Hwf|vm_compute; reflexivity|apply surjective_pairing| |discriminate Hh|].
    + destruct Hne. apply (f_equal c_seq) in Hq. exact Hq.
    + rewrite decide_False in Hk by discriminate. simpl in Hrole. case_decide as Hi; [|discriminate Hrole].
      destruct Hi as [-> _]. exact Hk.
Qed.

(** A viewer reads a file: the site is looked up, then the file is read.  Someone whose
    role allows nothing gets no further than the lookup. *)
Definition sample_read : tool_call := TReadFile (mkReadFile "my-site" "index.html" None None).
Definition sample_service : SiteService FakeService := @FakeSiteService ascii_only_unicode sample_uuid sample_clock 8%N.
Definition sample_trace (role : string) : list asked :=
  (@guard ascii_only_unicode sample_uuid (sample_members role) (FakeService * list asked) (@traced FakeService sample_service)
    "https" "x.test" (mkLimits 100 100 100 100 100) (Some sample_token) (λ _, (true, 0%Z)) sample_read (sample_state, [])).1.2.
Lemma mcp_capped_witness :
  (∃ a, sample_trace "viewer" !! 1 = Some a ∧
     @justified (sample_members "viewer") sample_token sample_read (take 1 (sample_trace "viewer")) a) ∧
  length (sample_trace "stranger") = 1.
Proof.
  split; [|vm_compute; reflexivity].
  destruct (@mcp_capped ascii_only_unicode sample_uuid (sample_members "viewer") FakeService sample_service "https" "x.test"
    (mkLimits 100 100 100 100 100) (Some sample_token) (λ _, (true, 0%Z)) sample_read sample_state) as (tr & Hr & Hj).
  assert (tr = sample_trace "viewer") as -> by (apply (f_equal (λ x, x.1.2)) in Hr; symmetry; exact Hr).
  destruct (sample_trace "viewer" !! 1) as [a|] eqn:Ha; [|vm_compute in Ha; discriminate Ha].
  exists a. split; [reflexivity|].
  destruct (Hj (take 1 (sample_trace "viewer")) a (drop 2 (sample_trace "viewer"))) as (c & [= <-] & _ & Hc); [|exact Hc].
  symmetry. by apply take_drop_middle.
Defined.
