(* ===== verification/Tokens.v ===== *)
(** * Personal access tokens: issue, store, verify
    (api/tokens.go, db/queries/tokens.sql, mcpserver/verifier.go, limits.go)

    The table of user tokens with its lookup query, the verifier of bearer
    tokens over it, and the per-tool rate limiter.  The issuing handler is in
    RestAccounts. *)

From S2P Require Import Prelude Trace GoStrings Encoding SiteErrors SiteTypes SiteTree Handle SitePath Http Preview.
From S2P Require Import Access FakeService Mcp RateLimit Wire ApiWorld Session Rest RestAccounts.

(** ** The user_tokens table joined with its owners *)

Record user_token := mkUserToken {
  ut_ID : uuid; ut_UserID : uuid; ut_TokenPrefix : string; ut_TokenHash : bytes; ut_Scopes : list string;
  ut_CanCreateSites : bool; ut_ExpiresAt : option time; ut_RevokedAt : option time;
  ut_UserActive : bool; ut_UserCanCreateSites : bool;
}.
(** The WHERE clause of GetUserTokenByPrefix, at the database's clock *)
Definition token_active (dbnow : time) (t : user_token) : bool :=
  match ut_RevokedAt t with Some _ => false | None => true end &&
  match ut_ExpiresAt t with Some e => (dbnow <? e)%Z | None => true end &&
  ut_UserActive t.
Definition GetUserTokenByPrefix (db : list user_token) (dbnow : time) (prefix : string) : list user_token :=
  List.filter (λ t, (ut_TokenPrefix t =? prefix)%string && token_active dbnow t) db.

(** ** verifier.go *)

Definition tokenPrefix : string := "kotoji_pat_".
Definition prefixLen : nat := 12.
(** time.Date(9999, 1, 1, 0, 0, 0, 0, time.UTC) *)
Definition noExpiry : time := (253370764800 * second)%Z.

Inductive verify_err := InvalidToken (why : string) | LookupFailed (e : store_err).
Record auth_info := mkAuthInfo { ai_Scopes : list string; ai_Expiration : time; ai_UserID : uuid; ai_Claims : TokenInfo }.

Section verifier.
Context `{Crypto}.
(** The second component is the token whose last use is recorded. *)
Definition Verify (lookup : string → Res store_err (list user_token)) (clock : time) (token : string)
    : Res verify_err (auth_info * uuid) :=
  if negb (has_prefix tokenPrefix token) then Err (InvalidToken "malformed token")
  else if String.length token <? prefixLen then Err (InvalidToken "short token")
  else
    match lookup (str_take prefixLen token) with
    | Err e => Err (LookupFailed e)
    | Ok rows =>
        match List.find (λ t, (ut_TokenHash t =? sha256 token)%string) rows with
        | None => Err (InvalidToken "unknown token")
        | Some m =>
            let info exp := (mkAuthInfo (ut_Scopes m) exp (ut_UserID m)
              (mkToken (ut_UserID m) (ut_ID m) (ut_Scopes m) (ut_CanCreateSites m && ut_UserCanCreateSites m)), ut_ID m) in
            match ut_ExpiresAt m with
            | Some e => if negb (clock <? e)%Z then Err (InvalidToken "expired token") else Ok (info e)
            | None => Ok (info noExpiry)
            end
        end
    end.
End verifier.

(** ** limits.go: the per-tool limiter

    A bucket of golang.org/x/time/rate as this code uses it: a reservation for
    one call either has a delay or is impossible, and can be cancelled. *)
Class ReserveBucket := {
  rbucket : Type;
  NewLimiter : Rate → Z → rbucket;
  Reserve : rbucket → time → rbucket * option Z;
  CancelReservation : rbucket → rbucket;
}.
Inductive toolClass := classRead | classWrite | classPublish | classCreate.
#[export] Instance toolClass_eq_dec : EqDecision toolClass.
Proof. solve_decision. Defined.
#[export] Instance toolClass_countable : Countable toolClass.
Proof.
  refine (inj_countable' (λ c, match c with classRead => 0 | classWrite => 1 | classPublish => 2 | classCreate => 3 end)
    (λ n, match n with 0 => classRead | 1 => classWrite | 2 => classPublish | _ => classCreate end) _). by intros [].
Defined.
(** Calls per minute and burst *)
Definition rateSetting (c : toolClass) : Z * Z :=
  match c with classRead => (120, 30) | classWrite => (30, 10) | classPublish => (6, 3) | classCreate => (3, 3) end%Z.

Section limiter.
Context `{ReserveBucket}.
Abbreviation memoryLimiter := (gmap (uuid * toolClass) rbucket) (only parsing).
Definition AllowTool (tokenID : uuid) (c : toolClass) (now : time) (m : memoryLimiter) : memoryLimiter * (bool * Z) :=
  let lim := match m !! (tokenID, c) with
             | Some lim => lim
             | None => NewLimiter (mkRate (rateSetting c).1 60) (rateSetting c).2
             end in
  match Reserve lim now with
  | (lim, None) => (<[(tokenID, c) := lim]> m, (false, second))
  | (lim, Some delay) =>
      if (0 <? delay)%Z then (<[(tokenID, c) := CancelReservation lim]> m, (false, delay))
      else (<[(tokenID, c) := lim]> m, (true, 0%Z))
  end.

(** A call moves only the bucket of its own token and class, and a refusal
    always tells how long to wait. *)
Lemma AllowTool_own tokenID c now m m' ok_ wait :
  AllowTool tokenID c now m = (m', (ok_, wait)) →
  (∀ k, k ≠ (tokenID, c) → m' !! k = m !! k) ∧ (ok_ = false → (0 < wait)%Z).
Proof.
  unfold AllowTool. destruct (Reserve _ now) as [lim [delay|]]; [destruct (Z.ltb_spec 0 delay)|];
    intros [= <- <- <-]; (split; [intros k Hk; by rewrite lookup_insert_ne|done]).
Qed.
End limiter.

(** ** Facts *)

Section facts.
Context `{Crypto}.

Lemma randBase62_length draw n i s : randBase62 draw n i = Some s → String.length s = n.
Proof.
  revert i s. induction n as [|n IH]; intros i s; simpl; [by intros [= <-]|].
  destruct (draw i); [|done]. destruct (randBase62 draw n (S i)) as [r|] eqn:E; [|done]. intros [= <-].
  simpl. f_equal. by eapply IH.
Qed.

Lemma generateToken_spec draw plaintext prefix hash :
  generateToken draw = Some (plaintext, prefix, hash) →
  has_prefix tokenPrefix plaintext = true ∧ String.length plaintext = 41 ∧
  prefix = str_take prefixLen plaintext ∧ hash = sha256 plaintext.
Proof.
  unfold generateToken. destruct (randBase62 draw tokenRandomLen 0) as [r|] eqn:E; [|done]. intros Hg.
  injection Hg as <- <- <-. apply randBase62_length in E.
  split_and!; [exact (has_prefix_app tokenPrefixStr r)| |done..]. simpl. by rewrite E.
Qed.

(** The claims a row gives *)
Definition claims (t : user_token) : auth_info * uuid :=
  (mkAuthInfo (ut_Scopes t) (default noExpiry (ut_ExpiresAt t)) (ut_UserID t)
     (mkToken (ut_UserID t) (ut_ID t) (ut_Scopes t) (ut_CanCreateSites t && ut_UserCanCreateSites t)), ut_ID t).
Definition unexpired (now : time) (t : user_token) : Prop := ∀ e, ut_ExpiresAt t = Some e → (now < e)%Z.

(** C18 (functional): who a bearer token authenticates.  Over a table of tokens
  whose hashes are distinct, the verifier accepts a token exactly when the table
  holds an unrevoked, unexpired token of an active user with that token's prefix
  and the SHA-256 of that very token; it then acts as that row's owner, with that
  row's scopes, may create sites only if both the token and its owner may, and
  records the use of that row.  In particular a token as the API issues it is
  found by the prefix and the hash it is stored under, and by no other row.  A
  store failure is never taken for a bad token. *)
Theorem Verify_exact (db : list user_token) (dbnow clock : time) (token : string) (v : auth_info * uuid) :
  NoDup (ut_TokenHash <$> db) →
  (Verify (λ p, Ok (GetUserTokenByPrefix db dbnow p)) clock token = Ok v ↔
   has_prefix tokenPrefix token = true ∧ prefixLen ≤ String.length token ∧
   ∃ t, t ∈ db ∧ ut_TokenPrefix t = str_take prefixLen token ∧ ut_TokenHash t = sha256 token ∧
        ut_RevokedAt t = None ∧ ut_UserActive t = true ∧ unexpired dbnow t ∧ unexpired clock t ∧ v = claims t) ∧
  (∀ e, has_prefix tokenPrefix token = true → prefixLen ≤ String.length token →
        Verify (λ _, Err e) clock token = Err (LookupFailed e)) ∧
  (∀ draw prefix hash, generateToken draw = Some (token, prefix, hash) →
        has_prefix tokenPrefix token = true ∧ prefixLen ≤ String.length token ∧
        prefix = str_take prefixLen token ∧ hash = sha256 token).
Proof.
  intros Hnd. rewrite <-Logic.and_assoc. split.
  2: { intros draw prefix hash (-> & Hl & -> & ->)%generateToken_spec. rewrite Hl. unfold prefixLen. split_and!; [done|lia|done..]. }
  unfold Verify. destruct (has_prefix tokenPrefix token); cbn [negb]; [|by split; [split; [done|intros [? _]]|]].
  destruct (Nat.ltb_spec (String.length token) prefixLen) as [Hs|Hs]; [split; [split; [done|lia]|lia]|].
  split; [|done]. set (p := λ t, (ut_TokenHash t =? sha256 token)%string). set (rows := GetUserTokenByPrefix db dbnow _).
  assert (∀ t, t ∈ rows ↔ t ∈ db ∧ ut_TokenPrefix t = str_take prefixLen token ∧ ut_RevokedAt t = None ∧
                          ut_UserActive t = true ∧ unexpired dbnow t) as Hrows.
  { intros t. unfold rows, GetUserTokenByPrefix, token_active, unexpired.
    rewrite list_elem_of_In, filter_In, <-list_elem_of_In, !andb_true_iff, String.eqb_eq.
    destruct (ut_RevokedAt t), (ut_ExpiresAt t); rewrite ?Z.ltb_lt; naive_solver. }
  assert (∀ t, match ut_ExpiresAt t with
               | Some e => if negb (clock <? e)%Z then Err (InvalidToken "expired token") else Ok (claims t)
               | None => Ok (claims t) end = Ok v ↔ unexpired clock t ∧ v = claims t) as Hexp.
  { intros t. unfold unexpired. destruct (ut_ExpiresAt t) as [e|].
    - destruct (Z.ltb_spec clock e) as [Hlt|Hge]; cbn [negb]; split; [|by intros [_ ->]|done|].
      + intros [= ->]. split; [by intros ? [= <-]|done].
      + intros [Hlt _]. specialize (Hlt e eq_refl). lia.
    - split; [|by intros [_ ->]]. intros [= ->]. by split. }
  assert (∀ t, List.find p rows = Some t ↔ t ∈ rows ∧ ut_TokenHash t = sha256 token) as Hfind.
  { intros t. split.
    - intros [Hin Hp]%find_some. by rewrite list_elem_of_In, <-(String.eqb_eq (ut_TokenHash t)).
    - intros [Hin Hh]. eapply (find_unique ut_TokenHash); [by apply NoDup_fmap_filter| |done|by apply String.eqb_eq].
      by intros a b ->%String.eqb_eq ->%String.eqb_eq. }
  split.
  - destruct (List.find p rows) as [t|] eqn:Ef; [|done]. destruct (proj1 (Hfind t) eq_refl) as [Hin Hh]. intros Hok.
    assert (unexpired clock t ∧ v = claims t) as [He ->].
    { apply Hexp. unfold claims. destruct (ut_ExpiresAt t); exact Hok. }
    apply Hrows in Hin. split_and!; [done..|]. exists t. tauto.
  - intros (_ & _ & t & Hdb & Hpre & Hh & Hrev & Hact & Hdbe & Hce & ->).
    assert (List.find p rows = Some t) as -> by (apply Hfind; split; [by apply Hrows|done]).
    assert (unexpired clock t ∧ claims t = claims t) as Hok by done. revert Hok. clear -t.
    unfold claims, unexpired. destruct (ut_ExpiresAt t) as [e|]; [|done]. intros [Hlt _].
    specialize (Hlt e eq_refl). apply Z.ltb_lt in Hlt. by rewrite Hlt.
Qed.
End facts.

(** ** Samples *)

#[local] Existing Instances ascii_only_unicode toy_crypto hex_uuid_text.
Definition sample_draw (i : nat) : option N := Some (N.of_nat (i + 10)).
Definition sample_token : string := default "" ((λ x, x.1.1) <$> generateToken sample_draw).
Definition sample_row : user_token := {|
  ut_ID := 9%N; ut_UserID := 1%N; ut_TokenPrefix := str_take 12 sample_token; ut_TokenHash := sha256 sample_token;
  ut_Scopes := ["read"]; ut_CanCreateSites := true; ut_ExpiresAt := None; ut_RevokedAt := None;
  ut_UserActive := true; ut_UserCanCreateSites := false |}.
Lemma Verify_exact_witness :
  sample_token = "kotoji_pat_ABCDEFGHIJKLMNOPQRSTUVWXYZabcd" ∧
  Verify (λ p, Ok (GetUserTokenByPrefix [sample_row] 0%Z p)) 0%Z sample_token = Ok (claims sample_row).
Proof.
  split; [vm_compute; reflexivity|].
  apply (Verify_exact [sample_row] 0%Z 0%Z sample_token (claims sample_row)).
  - apply NoDup_singleton.
  - split; [vm_compute; reflexivity|]. split; [apply (bool_decide_unpack _); vm_compute; exact I|].
    exists sample_row. split; [by left|]. by split_and!.
Defined.

(** Eleven of the twelve stored characters are the same for every token. *)
Lemma prefix_is_constant draw plaintext prefix hash :
  generateToken draw = Some (plaintext, prefix, hash) → ∃ c, prefix = tokenPrefix +:+ String c "".
Proof.
  unfold generateToken. destruct (randBase62 draw tokenRandomLen 0) as [r|] eqn:E; [|done]. intros Hg.
  injection Hg as <- <- <-. apply randBase62_length in E. destruct r as [|c r]; [done|]. by exists c.
Qed.

(** An administrator without can_create_sites asks for a token that may create
    sites: it is stored as one, and verifies as one that may not. *)
Definition admin_session : SessionUser := mkUser "s1" 1%N "root@example.com" "Root" None true false.
Definition issuing_world : World := {|
  w_svc := λ _ _ _, Err (ESentinel ErrNotFound);
  w_store := λ A tr c, match c in Store A return Res store_err A with
    | QCreateUserToken n => Ok (mkTokenRow 9%N (nt_Name n) (nt_TokenPrefix n) (nt_Scopes n) (nt_CanCreateSites n) 0%Z None
                                  (nt_ExpiresAt n) None)
    | QInsertAudit _ => Ok tt
    | _ => Err NoRows
    end;
  w_now := λ _, 0%Z; w_rand62 := λ _, sample_draw; w_entropy := λ _, None |}.
Definition stored_flag (tr : trace) : option bool :=
  head (omap (λ e, match e with EvStore (QCreateUserToken n) _ => Some (nt_CanCreateSites n) | _ => None end) tr).
Example admin_token_loses_flag :
  let body := Body (mkCreateToken "ci" ["write"] (Some true) None) false in
  stored_flag (@createToken _ _ issuing_world (Some admin_session) body []).1 = Some true ∧
  tk_CanCreateSites (ai_Claims (claims sample_row).1) = false ∧ ut_CanCreateSites sample_row = true.
Proof. vm_compute. done. Qed.
