(* ===== verification/TlsEdge.v ===== *)
(** * On-demand certificate issuance (tlsedge/decision.go, engine.go)

    The gate CertMagic consults before it asks the CA for a certificate.
    [Decider] holds the three seams; the memo of existence answers is the state.
    A handshake takes the cache mutex twice, around the lookup and around the
    store, with the database query in between: [meanwhile] is what other
    handshakes did to the cache between the two.  The engine around the gate is
    the second half: its construction, the handlers of its two listeners, and
    [Run], their life; CertMagic and the sockets answer as they like. *)

From S2P Require Import Prelude GoStrings SiteTypes Http Resolver Preview.
From S2P Require Serve.

Definition existsLookupTimeout : Z := (3 * second)%Z.
Definition existsCacheTTL : Z := (30 * second)%Z.
Definition existsNegCacheTTL : Z := (10 * second)%Z.

Record existsCacheEntry := mkExists { ex_exists : bool; ex_expires : time }.
Definition cache : Type := gmap string existsCacheEntry.

(** The control host is read at each handshake; a lookup may fail. *)
Record Decider := mkDecider {
  d_controlHost : time → string;
  d_resolver : Request → Res verr Target;
  d_siteExists : time → string → Res string bool;
}.

Definition NewDecider (controlHost : option (time → string)) (resolver : option (Request → Res verr Target))
    (siteExists : option (time → string → Res string bool)) : Res string (Decider * cache) :=
  match controlHost, resolver, siteExists with
  | None, _, _ => Err "tlsedge: NewDecider requires a non-nil ControlHostFunc"
  | _, None, _ => Err "tlsedge: NewDecider requires a non-nil resolve.Resolver"
  | _, _, None => Err "tlsedge: NewDecider requires a non-nil SiteExistsFunc"
  | Some ch, Some re, Some se => Ok (mkDecider ch re se, ∅)
  end.

(** The refusals, all wrapping errRefused. *)
Inductive refusal :=
| RefEmptyHost
| RefResolve (e : verr)
| RefNotProject (host : string)
| RefLookup (handle err : string)
| RefNoSite (handle : string).

Section gate.
Context `{GoUnicode}.

Definition normalizeHost (h : string) : string :=
  let h := to_lower (trim_space h) in
  if (h =? "")%string then ""
  else if has_prefix "[" h then
    match index_byte "]" h with Some e => str_take (e + 1) h | None => h end
  else
    match last_index_byte ":" h with
    | Some i => if negb (contains ":" (str_take i h)) then str_take i h else h
    | None => h
    end.

Definition syntheticRequest (host : string) : Request :=
  mkRequest "GET" host host "/" "/" "" ∅ "" false [].

(** The first critical section *)
Definition cache_fresh (now : time) (handle : string) (c : cache) : option bool :=
  match c !! handle with
  | Some e => if (now <? ex_expires e)%Z then Some (ex_exists e) else None
  | None => None
  end.
(** The second critical section *)
Definition cache_put (now : time) (handle : string) (b : bool) (c : cache) : cache :=
  let ttl := if negb b then existsNegCacheTTL else existsCacheTTL in
  <[handle := mkExists b (now + ttl)%Z]> c.

(** [ctxErr] is the handshake context's error, [None] while it is alive. *)
Definition existsCached (d : Decider) (ctxErr : option string) (now : time) (meanwhile : cache → cache)
    (handle : string) (c : cache) : cache * Res string bool :=
  match cache_fresh now handle c with
  | Some b => (c, Ok b)
  | None =>
      match ctxErr with
      | Some e => (meanwhile c, Err e)
      | None =>
          match d_siteExists d now handle with
          | Err e => (meanwhile c, Err e)
          | Ok b => (cache_put now handle b (meanwhile c), Ok b)
          end
      end
  end.

Definition Allow (d : Decider) (ctxErr : option string) (now : time) (meanwhile : cache → cache)
    (name : string) (c : cache) : cache * Res refusal unit :=
  let host := normalizeHost name in
  if (host =? "")%string then (c, Err RefEmptyHost)
  else
    let ch := normalizeHost (d_controlHost d now) in
    if negb (ch =? "")%string && (host =? ch)%string then (c, Ok tt)
    else
      match d_resolver d (syntheticRequest host) with
      | Err e => (c, Err (RefResolve e))
      | Ok target =>
          if tIsControl target then (c, Ok tt)
          else if (tHandle target =? "")%string then (c, Err (RefNotProject host))
          else
            match existsCached d ctxErr now meanwhile (tHandle target) c with
            | (c, Err e) => (c, Err (RefLookup (tHandle target) e))
            | (c, Ok false) => (c, Err (RefNoSite (tHandle target)))
            | (c, Ok true) => (c, Ok tt)
            end
      end.

(** ** Facts

    [log] lists the definitive answers of the database: when the handshake that
    asked began, for which handle, and the answer. *)

Inductive greach : cache → list (time * string * bool) → Prop :=
| greach_new : greach ∅ []
| greach_put c log now h b : greach c log → greach (cache_put now h b c) ((now, h, b) :: log).

Definition ttl_of (b : bool) : Z := if negb b then existsNegCacheTTL else existsCacheTTL.

Lemma greach_entry c log h e :
  greach c log → c !! h = Some e →
  ∃ t0, (t0, h, ex_exists e) ∈ log ∧ ex_expires e = (t0 + ttl_of (ex_exists e))%Z.
Proof.
  intros Hc. revert e. induction Hc as [|c log now h' b Hc IH]; intros e He; [done|].
  unfold cache_put in He. apply lookup_insert_Some in He as [[<- <-]|[_ He]].
  - exists now. split; [left|done].
  - destruct (IH e He) as (t0 & Hin & Hx). exists t0. split; [by right|done].
Qed.

(** Other handshakes only add definitive answers. *)
Definition interference (meanwhile : cache → cache) : Prop :=
  ∀ c log, greach c log → ∃ more, greach (meanwhile c) (more ++ log).

(** What the gate knows about [handle] at [now]: an answer it has in the cache,
    or the one it gets. *)
Definition known (d : Decider) (ctxErr : option string) (now : time) (log : list (time * string * bool))
    (handle : string) (b : bool) : Prop :=
  (∃ t0, (t0, handle, b) ∈ log ∧ (now < t0 + ttl_of b)%Z) ∨
  (ctxErr = None ∧ d_siteExists d now handle = Ok b).

Lemma existsCached_spec d ctxErr now meanwhile h c log :
  greach c log → interference meanwhile →
  (∃ more, greach (existsCached d ctxErr now meanwhile h c).1 (more ++ log)) ∧
  match (existsCached d ctxErr now meanwhile h c).2 with
  | Ok b => known d ctxErr now log h b
  | Err e => cache_fresh now h c = None ∧ (ctxErr = Some e ∨ d_siteExists d now h = Err e)
  end.
Proof.
  intros Hc Hm. unfold existsCached. destruct (cache_fresh now h c) as [b|] eqn:Hf.
  - split; [by exists []|]. simpl. left. unfold cache_fresh in Hf.
    destruct (c !! h) as [e|] eqn:He; [|done]. destruct (Z.ltb_spec now (ex_expires e)); [|done].
    injection Hf as <-. destruct (greach_entry _ _ _ _ Hc He) as (t0 & Hin & Hx). exists t0. split; [done|lia].
  - destruct (Hm _ _ Hc) as [more Hm']. destruct ctxErr as [e|]; [split; [by exists more|]; simpl; auto|].
    destruct (d_siteExists d now h) as [b|e] eqn:Hd; (split; [|simpl; auto]).
    + exists ((now, h, b) :: more). simpl. by constructor.
    + by right.
    + by exists more.
Qed.

(** A failed lookup stores nothing. *)
Lemma existsCached_err d ctxErr now meanwhile h c c' e :
  existsCached d ctxErr now meanwhile h c = (c', Err e) → c' = meanwhile c.
Proof.
  unfold existsCached. destruct (cache_fresh now h c); [done|]. destruct ctxErr; [by intros [= ]|].
  destruct (d_siteExists d now h); by intros [=].
Qed.

(** Step 3 of [Allow], for the handle of the resolved target *)
Lemma gate_lookup d ctxErr now meanwhile host ch t c log c' r :
  greach c log → interference meanwhile → host ≠ "" → tHandle t ≠ "" →
  d_resolver d (syntheticRequest host) = Ok t →
  match existsCached d ctxErr now meanwhile (tHandle t) c with
  | (c, Err e) => (c, Err (RefLookup (tHandle t) e))
  | (c, Ok false) => (c, Err (RefNoSite (tHandle t)))
  | (c, Ok true) => (c, Ok tt)
  end = (c', r) →
  (∃ more, greach c' (more ++ log)) ∧
  (r = Ok tt → host ≠ "" ∧ (host = ch ∨
     ∃ t0, Ok t = @Ok verr _ t0 ∧ (tIsControl t0 = true ∨ tHandle t0 ≠ "" ∧ known d ctxErr now log (tHandle t0) true))) ∧
  (∀ h e, r = Err (RefLookup h e) → c' = meanwhile c) ∧
  (∀ t0, host ≠ "" → Ok t = @Ok verr _ t0 → tHandle t0 ≠ "" → ctxErr = None →
     d_siteExists d now (tHandle t0) = Ok true →
     (∀ u, (u, tHandle t0, false) ∈ log → (u + existsNegCacheTTL ≤ now)%Z) → r = Ok tt).
Proof.
  intros Hc Hm Hne Hh Hr Ha.
  destruct (existsCached_spec d ctxErr now meanwhile (tHandle t) c log Hc Hm) as [Hg Hk].
  destruct (existsCached d ctxErr now meanwhile (tHandle t) c) as [c1 [[|]|e]] eqn:He;
    simpl in Hg, Hk; injection Ha as <- <-; (split; [exact Hg|]).
  - split_and!; [|done|done]. intros _. split; [done|]. right. exists t. auto.
  - split_and!; [done|done|]. intros t0 _ [= <-] _ Hctx Hs Hneg. exfalso.
    destruct Hk as [(u & Hin & Hu)|[_ Hs']]; [|congruence]. apply Hneg in Hin. unfold ttl_of in Hu. simpl in Hu. lia.
  - split_and!; [done| |].
    + intros h e' _. by eapply existsCached_err.
    + intros t0 _ [= <-] _ Hctx Hs Hneg. destruct Hk as [_ [?|?]]; congruence.
Qed.

(** The issuance gate.  Whatever other handshakes do meanwhile, a
    certificate is allowed only for the control host or for a name the resolver
    maps to the control plane or to a handle whose existence the database
    confirmed, at this handshake or less than 30 seconds before; a failing or
    cancelled lookup is a refusal that leaves no trace in the cache; and a site
    the database knows is allowed as soon as its last negative answer is 10
    seconds old. *)
Theorem issuance_gate d ctxErr now meanwhile name c log c' r :
  greach c log → interference meanwhile → Allow d ctxErr now meanwhile name c = (c', r) →
  let host := normalizeHost name in
  (∃ more, greach c' (more ++ log)) ∧
  (r = Ok tt → host ≠ "" ∧
     (host = normalizeHost (d_controlHost d now) ∨
      ∃ t, d_resolver d (syntheticRequest host) = Ok t ∧
        (tIsControl t = true ∨ tHandle t ≠ "" ∧ known d ctxErr now log (tHandle t) true))) ∧
  (∀ h e, r = Err (RefLookup h e) → c' = meanwhile c) ∧
  (∀ t, host ≠ "" → d_resolver d (syntheticRequest host) = Ok t → tHandle t ≠ "" →
     ctxErr = None → d_siteExists d now (tHandle t) = Ok true →
     (∀ t0, (t0, tHandle t, false) ∈ log → (t0 + existsNegCacheTTL ≤ now)%Z) → r = Ok tt).
Proof.
  intros Hc Hm Ha host. unfold Allow in Ha. fold host in Ha. cbv zeta in Ha.
  destruct (String.eqb_spec host "") as [E|Hne].
  { injection Ha as <- <-. split_and!; [by exists []|done|done|done]. }
  set (ch := normalizeHost (d_controlHost d now)) in *.
  destruct (negb (ch =? "")%string && (host =? ch)%string) eqn:Hch.
  { injection Ha as <- <-. apply andb_true_iff in Hch as [_ Hch%String.eqb_eq].
    split_and!; [by exists []|auto|done|done]. }
  destruct (d_resolver d (syntheticRequest host)) as [t|e] eqn:Hr.
  2: { injection Ha as <- <-. split_and!; [by exists []|done|done|done]. }
  destruct (tIsControl t) eqn:Hctl.
  { injection Ha as <- <-. split_and!; [by exists []|eauto 6|done|done]. }
  destruct (String.eqb_spec (tHandle t) "") as [E|Hh].
  { injection Ha as <- <-. split_and!; [by exists []|done|done|by intros ? _ [= <-]]. }
  exact (gate_lookup d ctxErr now meanwhile host ch t c log c' r Hc Hm Hne Hh Hr Ha).
Qed.
End gate.

(** ** A gate *)

Definition sample_decider : Decider := mkDecider
  (λ _, "app.hosting.example.com")
  (λ r, match @Resolve ascii_only_unicode (@builtinValidator ascii_only_unicode)
                (@NewResolverWith ascii_only_unicode sample_config) r with Ok t => Ok t | Err e => Err (VResolve e) end)
  (λ _ h, Ok (h =? "expense-calc")%string).

Lemma issuance_gate_witness :
  let r := @Allow ascii_only_unicode sample_decider None 0%Z id "expense-calc.hosting.example.com" ∅ in
  r.2 = Ok tt ∧ ∃ more, greach r.1 more.
Proof.
  intros r.
  destruct (@issuance_gate ascii_only_unicode sample_decider None 0%Z id "expense-calc.hosting.example.com" ∅ [] r.1 r.2)
    as ([more Hm] & _ & _ & Hok); [constructor|intros c log Hc; by exists []|apply surjective_pairing|].
  split; [|exists more; by rewrite app_nil_r in Hm].
  apply (Hok (mkTarget "expense-calc" "published" false false SourceHost ""));
    [vm_compute; discriminate|vm_compute; reflexivity|discriminate|reflexivity|reflexivity|intros t0 Hin; inversion Hin].
Defined.

(** Only the handle is looked up: any branch label of an existing site passes. *)
Example allow_any_branch :
  (λ b, (@Allow ascii_only_unicode sample_decider None 0%Z id ("expense-calc--" +:+ b +:+ ".hosting.example.com") ∅).2)
    <$> ["x1"; "x2"; "no-such-branch"] = [Ok tt; Ok tt; Ok tt].
Proof. vm_compute. reflexivity. Qed.

(** Expired answers are overwritten, never removed. *)
Lemma cache_never_shrinks now h b (c : cache) h' :
  is_Some (c !! h') → is_Some (cache_put now h b c !! h').
Proof. intros Hs. unfold cache_put. apply lookup_insert_is_Some'. by right. Qed.

(** ** engine.go *)

Definition shutdownTimeout : Z := (15 * second)%Z.
Definition readHeaderTimeout : Z := (10 * second)%Z.
Definition readTimeout : Z := (30 * second)%Z.
Definition writeTimeout : Z := (120 * second)%Z.
Definition idleTimeout : Z := (120 * second)%Z.

(** The directories CertMagic names *)
Class CertMagic := { LetsEncryptStagingCA : string; LetsEncryptProductionCA : string }.
Record CA := mkCA {
  DirectoryURL : string; TrustedRoots : option (list bytes); AltHTTPPort : Z; AltTLSALPNPort : Z; DisableHTTPChallenge : bool;
}.
Definition LetsEncryptCA `{CertMagic} (staging : bool) : CA :=
  if staging then mkCA LetsEncryptStagingCA None 0 0 false else mkCA LetsEncryptProductionCA None 0 0 false.

(** A handler, as the net/http server calls it *)
Definition http_handler : Type := Request → Response → Response.
Record EngineConfig := mkEngineCfg {
  ec_Handler : option http_handler; ec_Decider : option Decider; ec_StorageDir : string; ec_CA : CA; ec_Email : string;
  ec_TLSAddr : string; ec_HTTPAddr : string;
}.
Record Server := mkServer {
  srv_Addr : string; srv_Handler : http_handler; srv_ReadHeaderTimeout : Z; srv_ReadTimeout : Z; srv_WriteTimeout : Z; srv_IdleTimeout : Z;
}.
(** What CertMagic is set up with, and the two servers.  The list of issuers, a
    seam of the tests, is left out. *)
Record Engine := mkEngine { en_storage : string; en_decider : Decider; en_CA : CA; en_Email : string; en_tls : Server; en_http : Server }.

Definition hstsHeader : string := "Strict-Transport-Security".
Definition hstsValue : string := "max-age=31536000; includeSubDomains".
Definition hstsHandler (next : http_handler) : http_handler := λ r w, next r (set_header hstsHeader hstsValue w).
Definition redirectTarget (r : Request) : string :=
  let host := match split_host_port (rHost r) with Some (h, _) => h | None => rHost r end in
  "https://" +:+ host +:+ request_uri r.
Definition redirectHandler `{Serve.GoHTTP} : http_handler := λ r w, Serve.http_Redirect r (redirectTarget r) StatusMovedPermanently w.

Section engine.
(** HTTPChallengeHandler of CertMagic's ACME issuer: it answers challenges itself
    and leaves the rest to the handler it wraps. *)
Context `{Serve.GoHTTP} (challenge : http_handler → http_handler).

Definition server (addr : string) (h : http_handler) : Server :=
  mkServer addr h readHeaderTimeout readTimeout writeTimeout idleTimeout.
Definition New (cfg : EngineConfig) : Res string Engine :=
  match ec_Handler cfg, ec_Decider cfg with
  | None, _ => Err "tlsedge: Config.Handler is required"
  | _, None => Err "tlsedge: Config.Decider is required"
  | Some handler, Some decider =>
      if (ec_StorageDir cfg =? "")%string then Err "tlsedge: Config.StorageDir is required"
      else
        let tlsAddr := if (ec_TLSAddr cfg =? "")%string then ":443" else ec_TLSAddr cfg in
        let httpAddr := if (ec_HTTPAddr cfg =? "")%string then ":80" else ec_HTTPAddr cfg in
        Ok (mkEngine (ec_StorageDir cfg) decider (ec_CA cfg) (ec_Email cfg)
              (server tlsAddr (hstsHandler handler)) (server httpAddr (challenge redirectHandler)))
  end.

(** *** Run *)

Inductive listener := TLSListener | HTTPListener.
#[export] Instance listener_eq : EqDecision listener.
Proof. solve_decision. Defined.
Inductive lifecycle := Bound (l : listener) | Closed (l : listener) | Drained (l : listener) | CacheStopped.
(** What ends the wait: the context, or the first error of a listener *)
Inductive wake := CtxDone | ListenerError (e : string).
(** [drain]: the error of Shutdown, if any.  The first error is the one kept. *)
Definition first_error (a b : option string) : option string := match a with Some _ => a | None => b end.
Definition shutdown (drain : listener → option string) (runErr : option string) : list lifecycle * option string :=
  ([Drained TLSListener; Drained HTTPListener; CacheStopped],
   first_error (first_error runErr (drain TLSListener)) (drain HTTPListener)).
Definition Run (e : Engine) (bindTLS bindHTTP : option string) (woken : wake) (drain : listener → option string) :
    list lifecycle * option string :=
  match bindTLS with
  | Some err => ([], Some ("tlsedge: bind " +:+ srv_Addr (en_tls e) +:+ ": " +:+ err))
  | None =>
      match bindHTTP with
      | Some err => ([Bound TLSListener; Closed TLSListener], Some ("tlsedge: bind " +:+ srv_Addr (en_http e) +:+ ": " +:+ err))
      | None =>
          let '(tr, runErr) := shutdown drain (match woken with CtxDone => None | ListenerError err => Some err end) in
          (Bound TLSListener :: Bound HTTPListener :: tr, runErr)
      end
  end.

(** Every listener that was bound is released, whatever fails, once each. *)
Lemma Run_releases e bindTLS bindHTTP woken drain l :
  let tr := (Run e bindTLS bindHTTP woken drain).1 in
  Bound l ∈ tr → Closed l ∈ tr ∨ Drained l ∈ tr ∧ CacheStopped ∈ tr.
Proof. unfold Run, shutdown. destruct bindTLS, bindHTTP, l; cbn; set_solver. Qed.
(** A clean stop is one the context asked for and in which both servers drained. *)
Lemma Run_clean e bindTLS bindHTTP woken drain :
  (Run e bindTLS bindHTTP woken drain).2 = None ↔
  bindTLS = None ∧ bindHTTP = None ∧ woken = CtxDone ∧ ∀ l, drain l = None.
Proof.
  unfold Run, shutdown. destruct bindTLS; [by split; [|intros (? & _)]|]. destruct bindHTTP; [by split; [|intros (_ & ? & _)]|].
  destruct woken; cbn; [|by split; [|intros (_ & _ & ? & _)]]. split.
  - intros E. split_and!; [done..|]. destruct (drain TLSListener) eqn:E1, (drain HTTPListener) eqn:E2; try done. by intros [].
  - intros (_ & _ & _ & Hd). by rewrite !Hd.
Qed.

(** Everything the TLS listener serves says HSTS, unless the handler behind it sets
    that header itself. *)
Lemma hsts_sent cfg e h r code hd : New cfg = Ok e → ec_Handler cfg = Some h →
  (∀ r w, ∀ code hd, wSent w = None → wSent (h r w) = Some (code, hd) → hget hd hstsHeader = hget (wHeader w) hstsHeader) →
  wSent (srv_Handler (en_tls e) r newResponse) = Some (code, hd) → hget hd hstsHeader = hstsValue.
Proof.
  unfold New. intros He Hh Hkeep Hs. rewrite Hh in He. destruct (ec_Decider cfg); [|done]. case_match; [done|]. injection He as <-.
  cbn in Hs. unfold hstsHandler in Hs. eapply Hkeep in Hs; [|done]. rewrite Hs. apply hget_set.
Qed.
(** The other listener answers everything but challenges by a permanent redirect. *)
Lemma redirect_sent r : ∃ hd, wSent (redirectHandler r newResponse) = Some (StatusMovedPermanently, hd) ∧
  hget hd "Location" = Serve.redirect_location r (redirectTarget r).
Proof.
  unfold redirectHandler, Serve.http_Redirect. cbv zeta. set (u := redirectTarget r).
  change (hget (wHeader newResponse) "Content-Type") with "". cbn [String.eqb negb andb].
  set (loc := Serve.redirect_location r u). destruct (rMethod r =? "GET")%string; cbn [orb]; [|destruct (Serve.is_HEAD r)];
    eexists; (split; [reflexivity|]); cbn [wHeader set_header]; rewrite ?hget_set; try done; rewrite hget_set_ne by done; apply hget_set.
Qed.
End engine.
(** The path and query are kept, the port is not; an IPv6 host loses its brackets
    with it, and the target is no URL. *)
Example redirect_targets :
  redirectTarget (mkRequest "GET" "a.kotoji.example:80" "" "/x y" "/x%20y" "q=1" ∅ "" false []) = "https://a.kotoji.example/x%20y?q=1" ∧
  redirectTarget (host_request "[2001:db8::1]:80") = "https://2001:db8::1/" ∧
  redirectTarget (host_request "[2001:db8::1]") = "https://[2001:db8::1]/".
Proof. vm_compute. done. Qed.
