(* ===== verification/Ops.v ===== *)
(** * Background jobs (ops/ops.go, ops/scheduler.go, ops/osfs.go)

    The soft-delete reaper, the gc pass and the startup consistency check, with
    the loop that runs them.  Store, git, file system, clock and context are the
    environment [Env]: an answer may depend on everything done so far, so failures
    and concurrent changes are covered.  A job appends what it asked and was told
    to the trace; a Go error is the error of [M]. *)

From S2P Require Import Prelude Trace GoStrings SiteTypes Http Preview.

Definition DefaultSoftDeleteGrace : Z := (720 * 3600 * second)%Z.
Definition DefaultInterval : Z := (3600 * second)%Z.
Definition lockFileName : string := "kotoji.lock".
Definition gitDirName : string := ".git".

Record SoftDeletedSite := mkDeleted { ds_ID : uuid; ds_Handle : string; ds_DeletedAt : time }.

(** What a job asks of its environment, with the answer it got *)
Inductive event :=
| EvExists (path : string) (r : Res string bool)
| EvListDir (dir : string) (r : Res string (list string))
| EvMkdirAll (dir : string) (r : Res string unit)
| EvRemoveAll (path : string) (r : Res string unit)
| EvRemove (path : string) (r : Res string unit)
| EvGit (repoDir : string) (args : list string) (r : Res string unit)
| EvListSitesPastGrace (cutoff : time) (r : Res string (list SoftDeletedSite))
| EvHardDeleteSite (id : uuid) (r : Res string unit)
| EvListLiveSiteIDs (r : Res string (list uuid))
| EvInsertSystemAudit (id : uuid) (action : string) (meta : list (string * string)).
Definition trace : Type := list event.

Class Env := {
  env_now : trace → time;
  env_ctxErr : trace → option string;
  env_Exists : trace → string → Res string bool;
  env_ListDir : trace → string → Res string (list string);
  env_MkdirAll : trace → string → Res string unit;
  env_RemoveAll : trace → string → Res string unit;
  env_Remove : trace → string → Res string unit;
  env_Git : trace → string → list string → Res string unit;
  env_ListSitesPastGrace : trace → time → Res string (list SoftDeletedSite);
  env_HardDeleteSite : trace → uuid → Res string unit;
  env_ListLiveSiteIDs : trace → Res string (list uuid);
}.

Record Config := mkOps {
  SitesDir : string; BackupDir : string; Grace : Z; Interval : Z; EnableReaper : bool; EnableGC : bool;
}.
Definition New (c : Config) : Config :=
  mkOps (SitesDir c) (BackupDir c)
    (if (Grace c <=? 0)%Z then DefaultSoftDeleteGrace else Grace c)
    (if (Interval c <=? 0)%Z then DefaultInterval else Interval c)
    (EnableReaper c) (EnableGC c).

(** [t.UTC().Format("20060102T150405Z")] *)
Definition stamp (ns : Z) : string :=
  (let s := ns / 1000000000 in
   let tod := s mod 86400 in
   let '(y, m, d) := civil (s / 86400) in
   pad 4 y +:+ pad 2 m +:+ pad 2 d +:+ "T" +:+
   pad 2 (tod / 3600) +:+ pad 2 (tod mod 3600 / 60) +:+ pad 2 (tod mod 60) +:+ "Z")%Z.
Example stamp_sample : stamp 1136239445000000000 = "20060102T220405Z".
Proof. vm_compute. reflexivity. Qed.

Record ReapResult := mkReap { Reaped : nat; Skipped : nat; Errors : list string }.
Record ConsistencyResult := mkConsistency {
  ClearedLocks : list string; OrphanRepos : list string; DanglingRows : list string;
}.

Section jobs.
Context `{UUIDText} `{UUIDParse} `{Env}.
Context (cfg : Config).

(** ** Asking the environment *)

Abbreviation J := (@Trace.J event string).
Definition Exists (p : string) : J bool := ask (λ tr, env_Exists tr p) (EvExists p).
Definition ListDir (d : string) : J (list string) := ask (λ tr, env_ListDir tr d) (EvListDir d).
Definition MkdirAll (d : string) : J unit := ask (λ tr, env_MkdirAll tr d) (EvMkdirAll d).
Definition RemoveAll (p : string) : J unit := ask (λ tr, env_RemoveAll tr p) (EvRemoveAll p).
Definition Remove (p : string) : J unit := ask (λ tr, env_Remove tr p) (EvRemove p).
Definition Git (repo : string) (args : list string) : J unit :=
  ask (λ tr, env_Git tr repo args) (EvGit repo args).
Definition ListSitesPastGrace (cutoff : time) : J (list SoftDeletedSite) :=
  ask (λ tr, env_ListSitesPastGrace tr cutoff) (EvListSitesPastGrace cutoff).
Definition HardDeleteSite (id : uuid) : J unit := ask (λ tr, env_HardDeleteSite tr id) (EvHardDeleteSite id).
Definition ListLiveSiteIDs : J (list uuid) := ask env_ListLiveSiteIDs EvListLiveSiteIDs.
(** Best effort: the error is dropped. *)
Definition InsertSystemAudit (id : uuid) (action : string) (meta : list (string * string)) : J unit :=
  λ tr, (tr ++ [EvInsertSystemAudit id action meta], Ok tt).
Definition now : J time := λ tr, (tr, Ok (env_now tr)).
(** [fmt.Errorf("what: %w", err)] *)
Definition wrapf {A} (what : string) (m : J A) : J A :=
  λ tr, match m tr with (tr, Err e) => (tr, Err (what +:+ ": " +:+ e)) | r => r end.
Definition repoDir (id : uuid) : string := filepath_Join [SitesDir cfg; uuid_String id].
Definition gitDir (id : uuid) : string := filepath_Join [repoDir id; gitDirName].

(** ** The reaper *)

Definition bundle (id : uuid) (repo : string) : J unit :=
  guard_not (BackupDir cfg =? "")%string "backup dir not configured" ;!
  let dst := filepath_Join [BackupDir cfg; uuid_String id] in
  wrapf "mkdir backup" (MkdirAll dst) ;!
  let! t := now in
  let out := filepath_Join [dst; stamp t +:+ ".bundle"] in
  try_ (Git repo ["bundle"; "create"; out; "--all"]) ;!
  ok tt.

Inductive outcome := OReaped | OSkipped.
Definition reapOne (s : SoftDeletedSite) : J outcome :=
  let repo := repoDir (ds_ID s) in
  let! ex := wrapf "stat repo" (Exists (filepath_Join [repo; gitDirName])) in
  if negb ex then
    wrapf "hard-delete (no repo)" (HardDeleteSite (ds_ID s)) ;!
    ok OSkipped
  else
    wrapf "bundle" (bundle (ds_ID s) repo) ;!
    wrapf "remove repo" (RemoveAll repo) ;!
    wrapf "hard-delete" (HardDeleteSite (ds_ID s)) ;!
    InsertSystemAudit (ds_ID s) "site.reap"
      [("handle", ds_Handle s); ("deleted_at", rfc3339 (ds_DeletedAt s))] ;!
    ok OReaped.

(** The pass: a result, and an error when it was cut short *)
Definition reap_error (s : SoftDeletedSite) (e : string) : string :=
  ds_Handle s +:+ " (" +:+ uuid_String (ds_ID s) +:+ "): " +:+ e.
Fixpoint reap_loop (l : list SoftDeletedSite) (res : ReapResult) (tr : trace)
    : trace * (ReapResult * option string) :=
  match l with
  | [] => (tr, (res, None))
  | s :: l =>
      match env_ctxErr tr with
      | Some e => (tr, (res, Some e))
      | None =>
          match reapOne s tr with
          | (tr, Ok OReaped) => reap_loop l (mkReap (Datatypes.S (Reaped res)) (Skipped res) (Errors res)) tr
          | (tr, Ok OSkipped) => reap_loop l (mkReap (Reaped res) (Datatypes.S (Skipped res)) (Errors res)) tr
          | (tr, Err e) => reap_loop l (mkReap (Reaped res) (Skipped res) (Errors res ++ [reap_error s e])) tr
          end
      end
  end.
Definition Reap (tr : trace) : trace * (ReapResult * option string) :=
  let cutoff := (env_now tr - Grace cfg)%Z in
  match ListSitesPastGrace cutoff tr with
  | (tr, Err e) => (tr, (mkReap 0 0 [], Some ("ops: list past-grace: " +:+ e)))
  | (tr, Ok sites) => reap_loop sites (mkReap 0 0 []) tr
  end.

(** ** Garbage collection *)

Fixpoint gc_loop (ids : list uuid) (tr : trace) : trace * option string :=
  match ids with
  | [] => (tr, None)
  | id :: ids =>
      match env_ctxErr tr with
      | Some e => (tr, Some e)
      | None =>
          let repo := repoDir id in
          match Exists (filepath_Join [repo; gitDirName]) tr with
          | (tr, Ok true) => gc_loop ids (Git repo ["gc"; "--auto"] tr).1
          | (tr, _) => gc_loop ids tr
          end
      end
  end.
Definition GC (tr : trace) : trace * option string :=
  if negb (EnableGC cfg) then (tr, None)
  else match ListLiveSiteIDs tr with
       | (tr, Err e) => (tr, Some ("ops: list live sites: " +:+ e))
       | (tr, Ok ids) => gc_loop ids tr
       end.

(** ** The startup check *)

(** One directory entry: the entry's name when it is a repository, and the
    result so far *)
Definition scan_step (live : list string) (name : string) (acc : list string * ConsistencyResult) (tr : trace)
    : trace * (list string * ConsistencyResult) :=
  let repo := filepath_Join [SitesDir cfg; name] in
  let '(onDisk, res) := acc in
  match Exists (filepath_Join [repo; gitDirName]) tr with
  | (tr, Ok true) =>
      let onDisk := onDisk ++ [name] in
      let lockPath := filepath_Join [repo; gitDirName; lockFileName] in
      let '(tr, cleared) :=
        match Exists lockPath tr with
        | (tr, Ok true) =>
            match Remove lockPath tr with
            | (tr, Ok _) => (tr, ClearedLocks res ++ [repo])
            | (tr, Err _) => (tr, ClearedLocks res)
            end
        | (tr, _) => (tr, ClearedLocks res)
        end in
      let orphans :=
        if bool_decide (is_Some (uuid_Parse name)) && negb (bool_decide (name ∈ live))
        then OrphanRepos res ++ [repo] else OrphanRepos res in
      (tr, (onDisk, mkConsistency cleared orphans (DanglingRows res)))
  | (tr, _) => (tr, acc)
  end.
Fixpoint scan (live names : list string) (acc : list string * ConsistencyResult) (tr : trace)
    : trace * (list string * ConsistencyResult) :=
  match names with
  | [] => (tr, acc)
  | name :: names => let '(tr, acc) := scan_step live name acc tr in scan live names acc tr
  end.
Definition Consistency (tr : trace) : trace * (ConsistencyResult * option string) :=
  let empty := mkConsistency [] [] [] in
  match ListLiveSiteIDs tr with
  | (tr, Err e) => (tr, (empty, Some ("ops: list live sites: " +:+ e)))
  | (tr, Ok liveIDs) =>
      let live := uuid_String <$> liveIDs in
      match ListDir (SitesDir cfg) tr with
      | (tr, Err e) => (tr, (empty, Some ("ops: list sites dir: " +:+ e)))
      | (tr, Ok names) =>
          let '(tr, (onDisk, res)) := scan live names ([], empty) tr in
          let dangling := List.filter (λ id, negb (bool_decide (id ∈ onDisk))) live in
          (tr, (mkConsistency (ClearedLocks res) (OrphanRepos res) dangling, None))
      end
  end.

(** ** The scheduler: one check, one pass at once, then one pass per tick *)

Definition runOnce (tr : trace) : trace :=
  let tr := if EnableReaper cfg then (Reap tr).1 else tr in
  if EnableGC cfg then (GC tr).1 else tr.
Fixpoint ticks (n : nat) (tr : trace) : trace :=
  match n with 0 => tr | Datatypes.S n => ticks n (runOnce tr) end.
Definition loop (n : nat) (tr : trace) : trace := ticks n (runOnce (Consistency tr).1).
End jobs.

(** ** What a run may do *)

Section safety.
Context `{UUIDText} `{UUIDParse} `{Env}.
Context (cfg : Config).

(** The reaper is on, and [s] was listed as past its grace period by an earlier
    query, whose cutoff was the clock reading then minus the grace period. *)
Definition past_grace (before : trace) (s : SoftDeletedSite) : Prop :=
  EnableReaper cfg = true ∧ ∃ pre l post, before = pre ++ EvListSitesPastGrace (env_now pre - Grace cfg)%Z (Ok l) :: post ∧ s ∈ l.
(** git was asked for a bundle of all refs into the backup directory, which exists. *)
Definition bundle_tried (before : trace) (s : SoftDeletedSite) : Prop :=
  BackupDir cfg ≠ "" ∧
  let dst := filepath_Join [BackupDir cfg; uuid_String (ds_ID s)] in
  EvMkdirAll dst (Ok tt) ∈ before ∧
  ∃ t r, EvGit (repoDir cfg (ds_ID s))
    ["bundle"; "create"; filepath_Join [dst; stamp t +:+ ".bundle"]; "--all"] r ∈ before.
(** The repository was seen to be gone, or its removal succeeded. *)
Definition repo_gone (before : trace) (id : uuid) : Prop :=
  EvExists (gitDir cfg id) (Ok false) ∈ before ∨ EvRemoveAll (repoDir cfg id) (Ok tt) ∈ before.

(** The effects that destroy something, and what must have come before; the
    listing is the store's. *)
Definition justified (before : trace) (e : event) : Prop :=
  match e with
  | EvRemoveAll p _ => ∃ s, past_grace before s ∧ p = repoDir cfg (ds_ID s) ∧ bundle_tried before s
  | EvHardDeleteSite id _ => ∃ s, past_grace before s ∧ id = ds_ID s ∧ repo_gone before id
  | EvRemove p _ => ∃ name, p = filepath_Join [filepath_Join [SitesDir cfg; name]; gitDirName; lockFileName] ∧
      EvExists (filepath_Join [filepath_Join [SitesDir cfg; name]; gitDirName]) (Ok true) ∈ before
  | EvListSitesPastGrace cutoff r => r = env_ListSitesPastGrace before cutoff
  | _ => True
  end.
Definition calm (e : event) : Prop := True.
Abbreviation careful := (@Trace.careful event justified).
Abbreviation extends := (@Trace.extends event justified).
Abbreviation job := (@Trace.job event string calm justified).
Abbreviation stable := (@Trace.stable event calm).

Lemma past_grace_app before more s : past_grace before s → past_grace (before ++ more) s.
Proof.
  intros (Hon & pre & l & post & -> & Hs). split; [done|]. exists pre, l, (post ++ more). split; [|done].
  by rewrite <-app_assoc.
Qed.
(** An effect that destroys nothing needs no justification. *)
Definition harmless (e : event) : Prop :=
  match e with EvRemoveAll _ _ | EvHardDeleteSite _ _ | EvRemove _ _ | EvListSitesPastGrace _ _ => False | _ => True end.
Lemma careful_harmless tr e : careful tr → harmless e → careful (tr ++ [e]).
Proof. intros Ht He. apply careful_snoc; [done|]. by destruct e. Qed.

Lemma extends_harmless t1 t2 e : extends t1 t2 → harmless e → extends t1 (t2 ++ [e]).
Proof. intros Hx He. apply extends_snoc; [done|]. by destruct e. Qed.

Lemma job_wrapf {A} P what (m : J A) Q : job P m Q → job P (wrapf what m) Q.
Proof.
  intros Hm tr Ht HP. destruct (Hm tr Ht HP) as [Hx HQ]. unfold wrapf.
  by destruct (m tr) as [t1 [a|e]].
Qed.
Lemma job_now P : job P now (λ _, P).
Proof. intros tr Ht HP. split; [by apply calmly_refl|]. simpl. by intros ? [= <-]. Qed.
Lemma job_audit P id action meta : job P (InsertSystemAudit id action meta) (λ _ _, True).
Proof. intros tr Ht HP. split; [|done]. by apply calmly_snoc. Qed.
Lemma stable_bundle s : stable (λ t, bundle_tried t s).
Proof.
  intros t e _ (Hb & Hmk & u & r & Hg). split; [done|]. simpl in *. rewrite elem_of_app. split; [by left|].
  exists u, r. rewrite elem_of_app. by left.
Qed.
Lemma stable_past s : stable (λ t, past_grace t s).
Proof. intros t e _. apply past_grace_app. Qed.
#[local] Hint Resolve stable_bundle stable_past : jobs.

Lemma bundle_job (P : trace → Prop) s :
  stable P → job P (bundle cfg (ds_ID s) (repoDir cfg (ds_ID s))) (λ _ t, bundle_tried t s).
Proof.
  intros HP. unfold bundle. eapply job_bind; [exact HP|apply job_guard|]. intros ?.
  eapply job_bind; [auto with jobs|by apply job_wrapf, job_ask|]. intros [].
  eapply job_bind; [auto with jobs|apply job_now|]. intros t.
  eapply job_bind; [auto 6 with jobs|by apply job_try_ask|]. intros r.
  apply job_ok. intros tr [(((_ & Hb) & Hmk) & _) Hg]. split; [by apply String.eqb_neq|]. simpl. eauto.
Qed.
Lemma reapOne_job s : job (λ t, past_grace t s) (reapOne cfg s) (λ _ _, True).
Proof.
  unfold reapOne. eapply job_bind; [auto with jobs|by apply job_wrapf, job_ask|]. intros ex.
  destruct ex; cbn [negb].
  - eapply job_bind; [auto with jobs|apply job_wrapf, bundle_job; auto with jobs|]. intros [].
    eapply job_bind; [auto with jobs| |].
    { apply job_wrapf, job_ask; [done|]. intros tr [[Hs _] Hb]. simpl. eauto. }
    intros []. eapply job_bind; [auto 6 with jobs| |].
    { apply job_wrapf, job_ask; [done|]. intros tr [[[Hs _] _] Hr]. simpl. exists s. split_and!; [done..|by right]. }
    intros []. eapply job_bind; [auto 7 with jobs|apply job_audit|]. intros ?. by apply job_ok.
  - eapply job_bind; [auto with jobs| |intros []; by apply job_ok].
    apply job_wrapf, job_ask; [done|]. intros tr [Hs He]. simpl. exists s. split_and!; [done..|by left].
Qed.

(** *** The loops *)

Lemma reap_loop_extends l res tr :
  careful tr → Forall (past_grace tr) l → extends tr (reap_loop cfg l res tr).1.
Proof.
  revert res tr. induction l as [|s l IH]; intros res tr Ht Hl; simpl; [by apply extends_refl|].
  apply Forall_cons_1 in Hl as [Hs Hl].
  destruct (env_ctxErr tr); [by apply extends_refl|].
  destruct (reapOne_job s tr Ht Hs) as [Hx%calmly_extends _]. pose proof Hx as [Hc [more Hmore]].
  assert (Forall (past_grace (reapOne cfg s tr).1) l) as Hl'.
  { rewrite Hmore. eapply Forall_impl; [exact Hl|]. intros ?. apply past_grace_app. }
  destruct (reapOne cfg s tr) as [tr' [[]|e]]; simpl in *;
    (eapply extends_trans; [exact Hx|by apply IH]).
Qed.
Lemma Reap_extends tr : EnableReaper cfg = true → careful tr → extends tr (Reap cfg tr).1.
Proof.
  intros Hon Ht. unfold Reap, ListSitesPastGrace, ask. cbv zeta.
  destruct (env_ListSitesPastGrace _ _) as [l|e] eqn:Hl; simpl;
    [|by apply extends_snoc; [apply extends_refl|]].
  assert (extends tr (tr ++ [EvListSitesPastGrace (env_now tr - Grace cfg)%Z (Ok l)])) as Hx
    by (by apply extends_snoc; [apply extends_refl|]).
  eapply extends_trans; [exact Hx|]. apply reap_loop_extends; [apply Hx|]. apply Forall_forall. intros s Hs.
  split; [done|]. by exists tr, l, [].
Qed.
Lemma gc_loop_extends ids tr : careful tr → extends tr (gc_loop cfg ids tr).1.
Proof.
  revert tr. induction ids as [|id ids IH]; intros tr Ht; simpl; [by apply extends_refl|].
  destruct (env_ctxErr tr); [by apply extends_refl|]. unfold Exists, Git, ask. simpl.
  assert (extends tr (tr ++ [EvExists (filepath_Join [repoDir cfg id; gitDirName])
            (env_Exists tr (filepath_Join [repoDir cfg id; gitDirName]))])) as Hx
    by (by apply extends_harmless; [apply extends_refl|]).
  destruct (env_Exists _ _) as [[|]|e]; (eapply extends_trans; [|apply IH]); try done; try apply Hx.
  - by apply extends_harmless.
  - by apply careful_harmless; [apply Hx|].
Qed.
Lemma GC_extends tr : careful tr → extends tr (GC cfg tr).1.
Proof.
  intros Ht. unfold GC, ListLiveSiteIDs, ask. destruct (negb _); [by apply extends_refl|].
  assert (extends tr (tr ++ [EvListLiveSiteIDs (env_ListLiveSiteIDs tr)])) as Hx
    by (by apply extends_harmless; [apply extends_refl|]).
  destruct (env_ListLiveSiteIDs tr) as [ids|e]; simpl; [|done].
  eapply extends_trans; [exact Hx|]. apply gc_loop_extends, Hx.
Qed.
Lemma scan_step_extends live name acc tr : careful tr → extends tr (scan_step cfg live name acc tr).1.
Proof.
  intros Ht. unfold scan_step. destruct acc as [onDisk res]. unfold Exists, Remove, ask. cbv zeta.
  set (git := filepath_Join [_; gitDirName]). set (lock := filepath_Join [_; gitDirName; lockFileName]).
  assert (∀ r, extends tr (tr ++ [EvExists git r])) as Hx
    by (intros r; by apply extends_harmless; [apply extends_refl|]).
  destruct (env_Exists tr git) as [[|]|e]; simpl; [|apply Hx..].
  assert (∀ r, extends tr ((tr ++ [EvExists git (Ok true)]) ++ [EvExists lock r])) as Hy
    by (intros r; by apply extends_harmless).
  destruct (env_Exists _ lock) as [[|]|e]; simpl; [|apply Hy..].
  assert (∀ r, extends tr (((tr ++ [EvExists git (Ok true)]) ++ [EvExists lock (Ok true)]) ++ [EvRemove lock r])) as Hz.
  { intros r. apply extends_snoc; [apply Hy|]. exists name. split; [done|].
    rewrite !elem_of_app, !list_elem_of_singleton. by left; right. }
  destruct (env_Remove _ lock); simpl; apply Hz.
Qed.
Lemma Consistency_extends tr : careful tr → extends tr (Consistency cfg tr).1.
Proof.
  intros Ht. unfold Consistency, ListLiveSiteIDs, ListDir, ask. cbv zeta.
  assert (∀ r, extends tr (tr ++ [EvListLiveSiteIDs r])) as Hx
    by (intros r; by apply extends_harmless; [apply extends_refl|]).
  destruct (env_ListLiveSiteIDs tr) as [ids|e]; simpl; [|apply Hx].
  assert (∀ r, extends tr ((tr ++ [EvListLiveSiteIDs (Ok ids)]) ++ [EvListDir (SitesDir cfg) r])) as Hy
    by (intros r; by apply extends_harmless).
  destruct (env_ListDir _ _) as [names|e]; simpl; [|apply Hy].
  set (acc := ([], mkConsistency [] [] [])). set (t0 := (tr ++ _) ++ _).
  assert (∀ names acc t0, extends tr t0 → extends tr (scan cfg (uuid_String <$> ids) names acc t0).1) as Hscan.
  { clear. induction names as [|n names IH]; intros acc t0 Hx; simpl; [done|].
    pose proof (scan_step_extends (uuid_String <$> ids) n acc t0 (proj1 Hx)) as Hs.
    destruct (scan_step _ _ _ _) as [t1 acc1]. apply IH. by eapply extends_trans. }
  specialize (Hscan names acc t0 (Hy _)). by destruct (scan _ _ _ _ _) as [t1 [onDisk res]].
Qed.
Lemma runOnce_extends tr : careful tr → extends tr (runOnce cfg tr).
Proof.
  intros Ht. unfold runOnce. cbv zeta.
  assert (extends tr (if EnableReaper cfg then (Reap cfg tr).1 else tr)) as Hx
    by (destruct (EnableReaper cfg) eqn:Hon; [by apply Reap_extends|by apply extends_refl]).
  destruct (EnableGC cfg); [|done]. eapply extends_trans; [done|]. apply GC_extends, Hx.
Qed.
Lemma ticks_extends n tr : careful tr → extends tr (ticks cfg n tr).
Proof.
  revert tr. induction n as [|n IH]; intros tr Ht; simpl; [by apply extends_refl|].
  pose proof (runOnce_extends tr Ht) as Hx. eapply extends_trans; [exact Hx|]. apply IH, Hx.
Qed.

Lemma loop_careful n : careful (loop cfg n []).
Proof.
  unfold loop. pose proof (Consistency_extends [] (careful_nil _)) as Hc.
  pose proof (runOnce_extends _ (proj1 Hc)) as Hr. apply (ticks_extends n _ (proj1 Hr)).
Qed.

(** C25 (safety): what the background jobs may destroy.  In every run of the
    scheduler, of any length and with any answers and failures of the store,
    git and the file system: a repository is removed only when the reaper is on,
    its site was listed as past the grace period, the backup directory exists and
    git was asked to bundle the repository into it; a site's row is deleted only
    when, moreover, its repository was seen to be gone or its removal succeeded;
    and the only file the startup check removes is the lock file of a
    repository. *)
Theorem reaper_safe (n : nat) (pre : trace) (e : event) (post : trace) :
  loop cfg n [] = pre ++ e :: post → justified pre e.
Proof. apply loop_careful. Qed.

Lemma reap_loop_counts l res tr res' :
  (reap_loop cfg l res tr).2 = (res', None) →
  Reaped res' + Skipped res' + length (Errors res') =
  length l + (Reaped res + Skipped res + length (Errors res)).
Proof.
  revert res tr. induction l as [|s l IH]; intros res tr; simpl; [by intros [= <-]|].
  destruct (env_ctxErr tr); [done|].
  destruct (reapOne cfg s tr) as [tr' [[]|e]]; intros ->%IH; simpl; rewrite ?length_app; simpl; lia.
Qed.

(** A reaper pass accounts for every site.  Unless its context
    is cancelled or the listing fails, the pass handles every listed site, each
    counted once as reaped, as skipped because its repository was gone, or as
    failed. *)
Theorem Reap_accounts (tr : trace) (res : ReapResult) :
  (Reap cfg tr).2 = (res, None) →
  ∃ l, env_ListSitesPastGrace tr (env_now tr - Grace cfg)%Z = Ok l ∧
    Reaped res + Skipped res + length (Errors res) = length l.
Proof.
  unfold Reap, ListSitesPastGrace, ask. cbv zeta.
  destruct (env_ListSitesPastGrace _ _) as [l|e]; [|done]. intros Hr%reap_loop_counts.
  exists l. split; [done|]. simpl in Hr. lia.
Qed.
End safety.

(** ** The production seams (osfs.go) *)

(** What a system call of package os answers *)
Inductive os_err := ErrNotExist | ErrOS (msg : string).
Definition os_text (e : os_err) : string := match e with ErrNotExist => "file does not exist" | ErrOS m => m end.
Definition OSFS_Exists (stat : Res os_err unit) : Res string bool :=
  match stat with Ok _ => Ok true | Err ErrNotExist => Ok false | Err e => Err (os_text e) end.
Definition OSFS_ListDir (entries : Res os_err (list string)) : Res string (list string) :=
  match entries with Ok names => Ok names | Err ErrNotExist => Ok [] | Err e => Err (os_text e) end.
Definition OSFS_Remove (remove : Res os_err unit) : Res string unit :=
  match remove with Ok _ | Err ErrNotExist => Ok tt | Err e => Err (os_text e) end.

Definition scrubbedEnv : list string := [
  "GIT_TERMINAL_PROMPT=0"; "GIT_ASKPASS=/bin/false"; "GIT_CONFIG_NOSYSTEM=1"; "GIT_CONFIG_GLOBAL=/dev/null";
  "HOME=/nonexistent"; "LC_ALL=C"; "PATH=/usr/local/bin:/usr/bin:/bin"].
Definition NewExecGitRunner (gitBin : string) : string := if (gitBin =? "")%string then "git" else gitBin.
Definition join_args (args : list string) : string := join " " args.
(** [exec bin args env] is the child: its output, and what it wrote to stderr when it failed. *)
Definition ExecGitRunner_Run (exec : string → list string → list string → bytes * option string) (ctxErr : option string)
    (gitBin repoDir : string) (args : list string) : bytes * option string :=
  let '(out, failed) := exec (NewExecGitRunner gitBin) (["-C"; repoDir] ++ args) scrubbedEnv in
  match failed with
  | None => (out, None)
  | Some stderr => (out, Some (match ctxErr with Some e => e | None => "ops: git " +:+ join_args args +:+ ": " +:+ stderr end))
  end.

(** ** Runs *)

(** One deleted site whose repository exists; [git] is git's answer. *)
Definition sample_env (git : Res string unit) : Env := {|
  env_now _ := (10 * DefaultSoftDeleteGrace)%Z; env_ctxErr _ := None;
  env_Exists _ p := Ok (p =? "/data/sites/" +:+ digits 16 7 +:+ "/.git")%string;
  env_ListDir _ _ := Ok [digits 16 7]; env_MkdirAll _ _ := Ok tt; env_RemoveAll _ _ := Ok tt;
  env_Remove _ _ := Ok tt; env_Git _ _ _ := git;
  env_ListSitesPastGrace _ _ := Ok [mkDeleted 7%N "old-site" 0%Z];
  env_HardDeleteSite _ _ := Ok tt; env_ListLiveSiteIDs _ := Ok [];
|}.
Definition sample_ids : UUIDText := {| uuid_String := digits 16 |}.
Definition sample_ops : Config := New (mkOps "/data/sites" "/backup" 0 0 true true).

(** A bundle that fails for whatever reason does not stop the removal. *)
Example bundle_failure_reaps :
  let r := @Reap sample_ids (sample_env (Err "No space left on device")) sample_ops [] in
  r.2 = (mkReap 1 0 [], None) ∧ r.1 !! 4 = Some (EvRemoveAll "/data/sites/7" (Ok tt)).
Proof. vm_compute. split; reflexivity. Qed.
(** The repository of a deleted site is reported as an orphan. *)
Example deleted_repo_is_orphan :
  (@Consistency sample_ids {| uuid_Parse _ := Some 7%N |} (sample_env (Ok tt)) sample_ops []).2
  = (mkConsistency [] ["/data/sites/7"] [], None).
Proof. vm_compute. reflexivity. Qed.

Lemma Reap_accounts_witness :
  ∃ l, @env_ListSitesPastGrace (sample_env (Ok tt)) [] (9 * DefaultSoftDeleteGrace)%Z = Ok l ∧ 1 = length l.
Proof.
  destruct (@Reap_accounts sample_ids (sample_env (Ok tt)) sample_ops [] (mkReap 1 0 []))
    as (l & Hl & Hn); [vm_compute; reflexivity|]. exists l. split; [exact Hl|exact Hn].
Defined.

Lemma reaper_safe_witness :
  let E := sample_env (Ok tt) in
  let tr := @loop sample_ids {| uuid_Parse _ := Some 7%N |} E sample_ops 0 [] in
  tr !! 9 = Some (EvHardDeleteSite 7%N (Ok tt)) ∧
  @justified sample_ids E sample_ops (take 9 tr) (EvHardDeleteSite 7%N (Ok tt)).
Proof.
  intros E tr. assert (tr !! 9 = Some (EvHardDeleteSite 7%N (Ok tt))) as H8 by (vm_compute; reflexivity).
  split; [exact H8|].
  refine (@reaper_safe sample_ids {| uuid_Parse _ := Some 7%N |} E sample_ops 0 _ _ (drop 10 tr) _).
  fold tr. symmetry. exact (take_drop_middle tr 9 _ H8).
Defined.
