(* ===== verification/Config.v ===== *)
(** * The configuration of an instance (config/config.go)

    [load] reads the environment, fills in defaults and refuses what
    [validate] objects to.  The environment is the function from variable names
    to values that the source injects as [getenv]. *)

From S2P Require Import Prelude GoStrings Encoding GoURL Preview.

(** time.ParseDuration, in nanoseconds *)
Class GoDuration := { ParseDuration : string → option Z }.

Definition getenv : Type := string → option string.

(** ** Types *)

Inductive Environment := EnvDevelopment | EnvProduction.
Inductive RunMode := RunModeAll | RunModeControl | RunModeServe.
Inductive TLSMode := TLSModeOff | TLSModeAuto.
Inductive TLSCA := TLSCAProd | TLSCAStaging.
#[export] Instance Environment_eq : EqDecision Environment.
Proof. solve_decision. Defined.
#[export] Instance RunMode_eq : EqDecision RunMode.
Proof. solve_decision. Defined.
#[export] Instance TLSMode_eq : EqDecision TLSMode.
Proof. solve_decision. Defined.
#[export] Instance TLSCA_eq : EqDecision TLSCA.
Proof. solve_decision. Defined.

Definition AuthModeOIDC : string := "oidc".
Definition AuthModePassword : string := "password".
Definition AuthModeNone : string := "none".
Definition AdminPasswordMinLen : nat := 8.

Definition hour : Z := (3600 * second)%Z.
Definition defaultBaseDomain : string := "hosting.localhost".
Definition defaultControlBaseURL : string := "http://hosting.localhost:8080".
Definition defaultOIDCIssuer : string := "https://accounts.google.com".
Definition defaultSessionTTL : Z := (720 * hour)%Z.
Definition defaultMCPTokenTTL : Z := (2160 * hour)%Z.
Definition defaultSoftDeleteGrace : Z := (720 * hour)%Z.
Definition defaultOpsInterval : Z := hour.
Definition defaultMaxUploadBytes : Z := 52428800.
Definition defaultZipMaxTotalBytes : Z := 209715200.
Definition defaultZipMaxEntryBytes : Z := 52428800.
Definition defaultSiteQuotaBytes : Z := 524288000.
Definition defaultZipAllowedExt : string :=
  ".html,.htm,.css,.js,.mjs,.json,.svg,.png,.jpg,.jpeg,.gif,.webp,.ico,.woff,.woff2,.ttf,.txt,.md,.map,.xml,.csv,.wasm".

Record OIDCConfig := mkOIDC {
  Issuer : string; ClientID : string; ClientSecret : string; RedirectURL : string;
  AllowedDomains : list string; AllowedEmails : list string; AdminEmails : list string;
}.
Record OIDCEnvSet := mkEnvSet {
  es_Issuer : bool; es_ClientID : bool; es_ClientSecret : bool; es_RedirectURL : bool; es_AllowedDomains : bool;
  es_AllowedEmails : bool; es_AdminEmails : bool; es_AuthMode : bool;
}.
Record GitHubMirror := mkMirror { gm_Enabled : bool; gm_Token : string; gm_Org : string; gm_WebhookSecret : string }.
Record ZipLimits := mkLimits {
  zl_MaxUploadBytes : Z; zl_MaxTotalBytes : Z; zl_MaxFiles : Z; zl_MaxRatio : Z; zl_MaxEntryBytes : Z;
  zl_AllowedExt : list string;
}.
Record Config := mkConfig {
  cfg_Env : Environment; cfg_Mode : RunMode; ControlAddr : string; ServeAddr : string;
  cfg_TLSMode : TLSMode; cfg_TLSCA : TLSCA; TLSAddr : string; TLSHTTPAddr : string; ACMEEmail : string;
  CertMagicStorageDir : string;
  cfg_BaseDomain : string; cfg_ControlBaseURL : string; ControlHost : string;
  BaseDomainEnvSet : bool; ControlBaseURLEnvSet : bool;
  DatabaseURL : string; DBMaxConns : Z; AutoMigrate : bool; DataDir : string; GitBin : string;
  AuthMode : string; AuthModes : list string; cfg_OIDC : OIDCConfig; cfg_OIDCEnvSet : OIDCEnvSet;
  AdminPassword : string; AdminEmail : string;
  SessionCookieName : string; SessionTTL : Z; SessionCookieDomain : string; cfg_CookieSecure : bool;
  CSRFCookieName : string;
  MCPEnabled : bool; MCPPath : string; MCPTokenTTL : Z; cfg_GitHub : GitHubMirror; SecretKey : string;
  cfg_Zip : ZipLimits; SiteQuotaBytes : Z; UserSiteQuota : Z; RateLimitAPIRPS : Z; RateLimitServeRPS : Z;
  AssetMaxAge : Z; SoftDeleteGrace : Z; BackupDir : string; OpsInterval : Z;
  CORSAllowedOrigins : list string; CORSOriginsEnvSet : bool; LogLevel : string; LogFormat : string;
  HandleMinLen : Z; HandleMaxLen : Z; PublishedPublic : bool; TrustProxyHeaders : bool;
}.

(** ** Errors *)

(** What [validate] can object to, one constructor per message *)
Inductive problem :=
| BadLogFormat (v : string) | BadLogLevel (v : string) | BadHandleBounds (lo hi : Z) | TLSNeedsAll (m : RunMode)
| NoDatabaseURL | NoBaseDomain | NoControlBaseURL | NoAuthInProduction | InsecureCookies | NoSecretKey
| NoIssuer | NoClientID | NoClientSecret | NoAllowlist | ShortAdminPassword | NoMirrorToken | NoWebhookSecret.
Inductive cfg_err :=
| InvalidValue (key value : string)
| BadURL | MissingHost (base : string)
| EmptyAuthMode | ExclusiveNone
| InvalidDuration (key value : string)
| Problems (l : list problem).

(** ** Methods of Config *)

Definition servesControl (c : Config) : bool :=
  bool_decide (cfg_Mode c = RunModeAll) || bool_decide (cfg_Mode c = RunModeControl).
Definition ServesControl : Config → bool := servesControl.
Definition ServesData (c : Config) : bool :=
  bool_decide (cfg_Mode c = RunModeAll) || bool_decide (cfg_Mode c = RunModeServe).
Definition ServesTLS (c : Config) : bool :=
  bool_decide (cfg_TLSMode c = TLSModeAuto) && bool_decide (cfg_Mode c = RunModeAll).
Definition TLSStaging (c : Config) : bool := bool_decide (cfg_TLSCA c = TLSCAStaging).
Definition IsProduction (c : Config) : bool := bool_decide (cfg_Env c = EnvProduction).
(** The enabled set, with the fallback for configurations built by hand *)
Definition enabled_modes (c : Config) : list string :=
  match AuthModes c with
  | [] => if negb (AuthMode c =? "")%string then [AuthMode c] else []
  | modes => modes
  end.
Definition AuthModeEnabled (c : Config) (m : string) : bool :=
  existsb (λ em, (em =? m)%string) (enabled_modes c).
Definition OIDCEnabled (c : Config) : bool := AuthModeEnabled c AuthModeOIDC.
Definition PasswordEnabled (c : Config) : bool := AuthModeEnabled c AuthModePassword.
Definition NoAuthEnabled (c : Config) : bool := AuthModeEnabled c AuthModeNone.
Definition AuthModeStrings (c : Config) : list string := enabled_modes c.

(** ** Typed getters *)

Definition is_nil {A} (l : list A) : bool := match l with [] => true | _ => false end.
Definition firstNonEmpty (vals : list string) : string :=
  default "" (List.find (λ v, negb (v =? "")%string) vals).
Definition firstNonEmptyCSV (preferred fallback : list string) : list string :=
  match preferred with [] => fallback | _ => preferred end.
(** strconv.ParseBool *)
Definition ParseBool (v : string) : option bool :=
  if bool_decide (v ∈ ["1"; "t"; "T"; "TRUE"; "true"; "True"]) then Some true
  else if bool_decide (v ∈ ["0"; "f"; "F"; "FALSE"; "false"; "False"]) then Some false
  else None.

Section getters.
Context `{GoUnicode} `{GoDuration}.
Context (get : getenv).

Definition getString (key def : string) : string :=
  match get key with Some v => if negb (v =? "")%string then v else def | None => def end.
Definition envSet (key : string) : bool :=
  match get key with Some v => negb (trim_space v =? "")%string | None => false end.
(** A value that is set and does not parse counts as unset. *)
Definition getParsed {A} (parse : string → option A) (key : string) (def : A) : A :=
  match get key with Some v => if negb (v =? "")%string then default def (parse v) else def | None => def end.
Definition getInt : string → Z → Z := getParsed parse_int.
Definition getInt64 : string → Z → Z := getParsed parse_int.
Definition getBool : string → bool → bool := getParsed ParseBool.
Definition getDuration (key : string) (def : Z) : Res cfg_err Z :=
  match get key with
  | Some v =>
      if (v =? "")%string then Ok def
      else match ParseDuration v with Some d => Ok d | None => Err (InvalidDuration key v) end
  | None => Ok def
  end.
Definition splitCSV (v : string) : list string :=
  List.filter (λ p, negb (p =? "")%string) (trim_space <$> split "," v).
Definition getCSV (key : string) : list string :=
  match get key with Some v => if (v =? "")%string then [] else splitCSV v | None => [] end.
(** The loop of lowerCSV; [seen] is the set of the entries kept so far *)
Fixpoint lower_go (seen : gset string) (l : list string) : list string :=
  match l with
  | [] => []
  | v :: l =>
      let v := to_lower (trim_space v) in
      if (v =? "")%string || bool_decide (v ∈ seen) then lower_go seen l
      else v :: lower_go ({[ v ]} ∪ seen) l
  end.
Definition lowerCSV (l : list string) : list string := lower_go ∅ l.

(** [switch] on a lowercased value *)
Definition one_of {A} (key : string) (l : list (string * A)) (v : string) : Res cfg_err A :=
  match List.find (λ kv, (kv.1 =? v)%string) l with Some kv => Ok kv.2 | None => Err (InvalidValue key v) end.
Definition parseAuthModes (raw : string) : Res cfg_err (list string * string) :=
  let parts := splitCSV (to_lower raw) in
  let known m := bool_decide (m ∈ [AuthModeOIDC; AuthModePassword; AuthModeNone]) in
  if is_nil parts then Err EmptyAuthMode
  else match List.find (λ p, negb (known p)) parts with
  | Some p => Err (InvalidValue "KOTOJI_AUTH_MODE" p)
  | None =>
      let seen m := bool_decide (m ∈ parts) in
      if seen AuthModeNone && (seen AuthModeOIDC || seen AuthModePassword) then Err ExclusiveNone
      else
        let modes := List.filter seen [AuthModeOIDC; AuthModePassword; AuthModeNone] in
        Ok (modes, default "" (head modes))
  end.

Definition deriveHost (base : string) : Res cfg_err string :=
  match url_Parse base with
  | None => Err BadURL
  | Some u => if (u_Host u =? "")%string then Err (MissingHost base) else Ok (strip_port (u_Host u))
  end.
Definition defaultRedirect (base : string) : string := trim_right (λ c, (c =? slash)%char) base +:+ "/auth/callback".

Definition secretKeyMinBytes : nat := 32.
Definition explicitSecretKey (v : string) : bool :=
  let v := trim_space v in
  let long (o : option bytes) := match o with Some b => secretKeyMinBytes <=? String.length b | None => false end in
  if (v =? "")%string then false
  else if long (hex_decode v) then true
  else existsb (λ e : string * bool, long (b64_decode e.1 e.2 v))
         [(b64_std, true); (b64_std, false); (b64_url, true); (b64_url, false)].

(** ** Load *)

(** [KOTOJI_OIDC_*], or the older [KOTOJI_AUTH_*] name *)
Definition getEither (key old def : string) : string := firstNonEmpty [getString key ""; getString old def].
Definition load_oidc (controlBaseURL : string) : OIDCConfig :=
  let hd := trim_space (getString "KOTOJI_AUTH_GOOGLE_HD" "") in
  let domains := getCSV "KOTOJI_OIDC_ALLOWED_DOMAINS" ++ (if negb (hd =? "")%string then [hd] else []) in
  {| Issuer := getEither "KOTOJI_OIDC_ISSUER" "KOTOJI_AUTH_OIDC_ISSUER" defaultOIDCIssuer;
     ClientID := getEither "KOTOJI_OIDC_CLIENT_ID" "KOTOJI_AUTH_OIDC_CLIENT_ID" "";
     ClientSecret := getEither "KOTOJI_OIDC_CLIENT_SECRET" "KOTOJI_AUTH_OIDC_CLIENT_SECRET" "";
     RedirectURL := getEither "KOTOJI_OIDC_REDIRECT_URL" "KOTOJI_AUTH_OIDC_REDIRECT_URL" (defaultRedirect controlBaseURL);
     AllowedDomains := lowerCSV domains;
     AllowedEmails := lowerCSV (firstNonEmptyCSV (getCSV "KOTOJI_OIDC_ALLOWED_EMAILS") (getCSV "KOTOJI_AUTH_ALLOWED_EMAILS"));
     AdminEmails := lowerCSV (getCSV "KOTOJI_OIDC_ADMIN_EMAILS") |}.
Definition load_env_set : OIDCEnvSet := {|
  es_Issuer := envSet "KOTOJI_OIDC_ISSUER" || envSet "KOTOJI_AUTH_OIDC_ISSUER";
  es_ClientID := envSet "KOTOJI_OIDC_CLIENT_ID" || envSet "KOTOJI_AUTH_OIDC_CLIENT_ID";
  es_ClientSecret := envSet "KOTOJI_OIDC_CLIENT_SECRET" || envSet "KOTOJI_AUTH_OIDC_CLIENT_SECRET";
  es_RedirectURL := envSet "KOTOJI_OIDC_REDIRECT_URL" || envSet "KOTOJI_AUTH_OIDC_REDIRECT_URL";
  es_AllowedDomains := envSet "KOTOJI_OIDC_ALLOWED_DOMAINS" || envSet "KOTOJI_AUTH_GOOGLE_HD";
  es_AllowedEmails := envSet "KOTOJI_OIDC_ALLOWED_EMAILS" || envSet "KOTOJI_AUTH_ALLOWED_EMAILS";
  es_AdminEmails := envSet "KOTOJI_OIDC_ADMIN_EMAILS";
  es_AuthMode := envSet "KOTOJI_AUTH_MODE" |}.
Definition load_github : GitHubMirror := {|
  gm_Enabled := getBool "KOTOJI_GITHUB_MIRROR_ENABLED" false;
  gm_Token := firstNonEmpty [getString "KOTOJI_GITHUB_APP_TOKEN" ""; getString "KOTOJI_GITHUB_PAT" ""];
  gm_Org := getString "KOTOJI_GITHUB_ORG" "";
  gm_WebhookSecret := getString "KOTOJI_GITHUB_WEBHOOK_SECRET" "" |}.
Definition load_zip : ZipLimits := {|
  zl_MaxUploadBytes := getInt64 "KOTOJI_MAX_UPLOAD_BYTES" defaultMaxUploadBytes;
  zl_MaxTotalBytes := getInt64 "KOTOJI_ZIP_MAX_TOTAL_BYTES" defaultZipMaxTotalBytes;
  zl_MaxFiles := getInt "KOTOJI_ZIP_MAX_FILES" 2000;
  zl_MaxRatio := getInt "KOTOJI_ZIP_MAX_RATIO" 100;
  zl_MaxEntryBytes := getInt64 "KOTOJI_ZIP_MAX_ENTRY_BYTES" defaultZipMaxEntryBytes;
  zl_AllowedExt := splitCSV (getString "KOTOJI_ZIP_ALLOWED_EXT" defaultZipAllowedExt) |}.
End getters.

Definition when (b : bool) (p : problem) : list problem := if b then [p] else [].
(** The list errors.Join is given *)
Definition problems (prod : bool) (c : Config) : list problem :=
  when (negb (bool_decide (LogFormat c ∈ ["json"; "text"]))) (BadLogFormat (LogFormat c)) ++
  when (negb (bool_decide (LogLevel c ∈ ["debug"; "info"; "warn"; "error"]))) (BadLogLevel (LogLevel c)) ++
  when ((HandleMinLen c <? 1)%Z || (HandleMaxLen c <? HandleMinLen c)%Z)
    (BadHandleBounds (HandleMinLen c) (HandleMaxLen c)) ++
  when (bool_decide (cfg_TLSMode c = TLSModeAuto) && negb (bool_decide (cfg_Mode c = RunModeAll)))
    (TLSNeedsAll (cfg_Mode c)) ++
  (let dbRequired := ServesControl c || ServesData c in
   if prod then
     when (dbRequired && (DatabaseURL c =? "")%string) NoDatabaseURL ++
     when ((cfg_BaseDomain c =? "")%string || (cfg_BaseDomain c =? defaultBaseDomain)%string) NoBaseDomain ++
     when ((cfg_ControlBaseURL c =? "")%string || (cfg_ControlBaseURL c =? defaultControlBaseURL)%string)
       NoControlBaseURL ++
     when (ServesControl c && NoAuthEnabled c) NoAuthInProduction ++
     when (negb (cfg_CookieSecure c)) InsecureCookies
   else []).
Definition auth_problems (c : Config) : list problem :=
  if negb (ServesControl c) then []
  else
    (if OIDCEnabled c then
       let o := cfg_OIDC c in
       when (Issuer o =? "")%string NoIssuer ++ when (ClientID o =? "")%string NoClientID ++
       when (ClientSecret o =? "")%string NoClientSecret ++
       when (is_nil (AllowedDomains o) && is_nil (AllowedEmails o)) NoAllowlist
     else []) ++
    (if PasswordEnabled c then
       when (negb (AdminPassword c =? "")%string && (String.length (AdminPassword c) <? AdminPasswordMinLen))
         ShortAdminPassword
     else []).
Definition mirror_problems (c : Config) : list problem :=
  if gm_Enabled (cfg_GitHub c) then
    when (gm_Token (cfg_GitHub c) =? "")%string NoMirrorToken ++
    when (gm_WebhookSecret (cfg_GitHub c) =? "")%string NoWebhookSecret
  else [].

Section load.
Context `{GoUnicode} `{GoDuration}.

Definition key_problems (prod : bool) (c : Config) : list problem :=
  when (prod && ServesControl c && negb (explicitSecretKey (SecretKey c))) NoSecretKey.
Definition validate (prod : bool) (c : Config) : Res cfg_err unit :=
  match problems prod c ++ key_problems prod c ++ auth_problems c ++ mirror_problems c with
  | [] => Ok tt
  | l => Err (Problems l)
  end.

Definition load (get : getenv) : Res cfg_err Config :=
  let str := getString get in
  let dir := str "KOTOJI_DATA_DIR" "/data" in
  let base := str "KOTOJI_CONTROL_BASE_URL" defaultControlBaseURL in
  let origins := getCSV get "KOTOJI_CORS_ALLOWED_ORIGINS" in
  try! env := one_of "KOTOJI_ENV" [("development", EnvDevelopment); ("production", EnvProduction)]
                (to_lower (str "KOTOJI_ENV" "development")) in
  let prod := bool_decide (env = EnvProduction) in
  try! mode := one_of "KOTOJI_RUN_MODE" [("all", RunModeAll); ("control", RunModeControl); ("serve", RunModeServe)]
                 (to_lower (str "KOTOJI_RUN_MODE" "all")) in
  try! tlsMode := one_of "KOTOJI_TLS_MODE" [("off", TLSModeOff); ("auto", TLSModeAuto)]
                    (to_lower (str "KOTOJI_TLS_MODE" "off")) in
  try! tlsCA := one_of "KOTOJI_TLS_CA" [("prod", TLSCAProd); ("staging", TLSCAStaging)]
                  (to_lower (str "KOTOJI_TLS_CA" "prod")) in
  try! host := deriveHost base in
  try! auth := parseAuthModes (str "KOTOJI_AUTH_MODE" AuthModePassword) in
  try! ttl := getDuration get "KOTOJI_SESSION_TTL" defaultSessionTTL in
  try! mcpTTL := getDuration get "KOTOJI_MCP_TOKEN_TTL" defaultMCPTokenTTL in
  try! grace := getDuration get "KOTOJI_SOFT_DELETE_GRACE" defaultSoftDeleteGrace in
  try! opsInterval := getDuration get "KOTOJI_OPS_INTERVAL" defaultOpsInterval in
  let c := {|
    cfg_Env := env; cfg_Mode := mode; ControlAddr := str "KOTOJI_CONTROL_ADDR" ":8080";
    ServeAddr := str "KOTOJI_SERVE_ADDR" ":8081"; cfg_TLSMode := tlsMode; cfg_TLSCA := tlsCA;
    TLSAddr := str "KOTOJI_TLS_ADDR" ":443"; TLSHTTPAddr := str "KOTOJI_TLS_HTTP_ADDR" ":80";
    ACMEEmail := str "KOTOJI_ACME_EMAIL" ""; CertMagicStorageDir := filepath_Join [dir; "certmagic"];
    cfg_BaseDomain := str "KOTOJI_BASE_DOMAIN" defaultBaseDomain; cfg_ControlBaseURL := base; ControlHost := host;
    BaseDomainEnvSet := envSet get "KOTOJI_BASE_DOMAIN"; ControlBaseURLEnvSet := envSet get "KOTOJI_CONTROL_BASE_URL";
    DatabaseURL := str "KOTOJI_DATABASE_URL" ""; DBMaxConns := getInt get "KOTOJI_DB_MAX_CONNS" 10;
    AutoMigrate := getBool get "KOTOJI_AUTO_MIGRATE" true; DataDir := dir; GitBin := str "KOTOJI_GIT_BIN" "git";
    AuthMode := auth.2; AuthModes := auth.1; cfg_OIDC := load_oidc get base; cfg_OIDCEnvSet := load_env_set get;
    AdminPassword := str "KOTOJI_AUTH_ADMIN_PASSWORD" "";
    AdminEmail := str "KOTOJI_AUTH_ADMIN_EMAIL" "admin@kotoji.local";
    SessionCookieName := str "KOTOJI_SESSION_COOKIE_NAME" "kotoji_session"; SessionTTL := ttl;
    SessionCookieDomain := str "KOTOJI_SESSION_COOKIE_DOMAIN" host;
    cfg_CookieSecure := getBool get "KOTOJI_COOKIE_SECURE" prod;
    CSRFCookieName := str "KOTOJI_CSRF_COOKIE_NAME" "kotoji_csrf";
    MCPEnabled := getBool get "KOTOJI_MCP_ENABLED" true; MCPPath := str "KOTOJI_MCP_PATH" "/mcp"; MCPTokenTTL := mcpTTL;
    cfg_GitHub := load_github get; SecretKey := str "KOTOJI_SECRET_KEY" ""; cfg_Zip := load_zip get;
    SiteQuotaBytes := getInt64 get "KOTOJI_SITE_QUOTA_BYTES" defaultSiteQuotaBytes;
    UserSiteQuota := getInt get "KOTOJI_USER_SITE_QUOTA" 50;
    RateLimitAPIRPS := getInt get "KOTOJI_RATE_LIMIT_API_RPS" 20;
    RateLimitServeRPS := getInt get "KOTOJI_RATE_LIMIT_SERVE_RPS" 100;
    AssetMaxAge := getInt get "KOTOJI_ASSET_MAX_AGE" 0; SoftDeleteGrace := grace;
    BackupDir := str "KOTOJI_BACKUP_DIR" (filepath_Join [dir; "backups"]); OpsInterval := opsInterval;
    CORSAllowedOrigins := if is_nil origins then [base] else origins; CORSOriginsEnvSet := negb (is_nil origins);
    LogLevel := to_lower (str "KOTOJI_LOG_LEVEL" "info"); LogFormat := to_lower (str "KOTOJI_LOG_FORMAT" "json");
    HandleMinLen := getInt get "KOTOJI_HANDLE_MIN_LEN" 2; HandleMaxLen := getInt get "KOTOJI_HANDLE_MAX_LEN" 40;
    PublishedPublic := getBool get "KOTOJI_PUBLISHED_PUBLIC" true;
    TrustProxyHeaders := getBool get "KOTOJI_TRUST_PROXY_HEADERS" true |} in
  check! validate prod c in
  Ok c.
(** LoadFromMap *)
Definition LoadFromMap (env : gmap string string) : Res cfg_err Config := load (λ key, env !! key).
End load.

(** ** Facts *)

Lemma when_nil b p : when b p = [] ↔ b = false.
Proof. by destruct b. Qed.
Lemma app_nil {A} (l k : list A) : l ++ k = [] ↔ l = [] ∧ k = [].
Proof. destruct l; naive_solver. Qed.
Lemma one_of_ok {A} key (l : list (string * A)) v a : one_of key l v = Ok a → a ∈ l.*2.
Proof.
  unfold one_of. destruct (List.find _ l) as [[k x]|] eqn:E; [|done]. intros [= <-].
  apply find_some in E as [E _]. rewrite list_elem_of_fmap. exists (k, x). by rewrite list_elem_of_In.
Qed.

Section facts.
Context `{GoUnicode} `{GoDuration}.

(** The gate of the configuration and the one of secretbox agree on what an
    explicit key is. *)
Lemma explicit_key_agrees v : explicitSecretKey v = ExplicitKeyProvided v.
Proof.
  unfold explicitSecretKey, ExplicitKeyProvided, decodeExplicitKey, secretKeyMinBytes, KeySize.
  destruct (trim_space v =? "")%string; [done|].
  destruct (hex_decode (trim_space v)) as [b|]; [destruct (32 <=? String.length b); [done|]|];
    cbn [existsb omap list_omap fst snd];
    repeat match goal with |- context [b64_decode ?a ?p ?t] => destruct (b64_decode a p t) as [?b|] end;
    repeat match goal with |- context [32 <=? ?n] => destruct (32 <=? n) end; done.
Qed.

Lemma decodeExplicitKey_length v key : decodeExplicitKey v = Some key → String.length key = 32.
Proof.
  assert (∀ o k, (match o with Some b => if KeySize <=? String.length b then Some (str_take KeySize b) else None
                  | None => None end) = Some k → String.length k = 32) as Hlong.
  { intros [b|] k; [|done]. destruct (Nat.leb_spec KeySize (String.length b)); [|done]. intros <-%(inj Some).
    rewrite str_length_take. unfold KeySize in *. lia. }
  unfold decodeExplicitKey. destruct (trim_space v =? "")%string; [done|]. cbn zeta. cbn [omap list_omap fst snd].
  repeat match goal with |- context [match ?o with Some b => if KeySize <=? _ then _ else _ | None => _ end] =>
    let E := fresh in destruct (match o with Some b => if KeySize <=? String.length b then Some (str_take KeySize b)
      else None | None => None end) as [?k|] eqn:E;
    [intros [= <-]; by apply (Hlong o)|clear E] end. done.
Qed.
Lemma splitCSV_elem v x : x ∈ splitCSV v → x ≠ "".
Proof.
  unfold splitCSV. rewrite list_elem_of_In, filter_In. intros [_ Hx%negb_true_iff]. by apply String.eqb_neq.
Qed.
Lemma lower_go_spec seen l :
  NoDup (lower_go seen l) ∧
  ∀ v, v ∈ lower_go seen l ↔ v ≠ "" ∧ v ∉ seen ∧ ∃ x, x ∈ l ∧ to_lower (trim_space x) = v.
Proof.
  revert seen. induction l as [|a l IH]; intros seen; simpl; [split; [constructor|]; intros v; set_solver|].
  set (w := to_lower (trim_space a)). assert (∀ v x, x ∈ a :: l ∧ to_lower (trim_space x) = v ↔
    (x = a ∧ v = w) ∨ (x ∈ l ∧ to_lower (trim_space x) = v)) as Hx by (unfold w; set_solver).
  setoid_rewrite Hx. destruct (String.eqb_spec w "") as [E|E]; cbn [orb].
  - destruct (IH seen) as [Hnd Hm]. split; [done|]. intros v. rewrite Hm. set_solver.
  - destruct (decide (w ∈ seen)) as [Hs|Hs];
      [rewrite bool_decide_eq_true_2 by done|rewrite bool_decide_eq_false_2 by done].
    + destruct (IH seen) as [Hnd Hm]. split; [done|]. intros v. rewrite Hm. set_solver.
    + destruct (IH ({[ w ]} ∪ seen)) as [Hnd Hm]. split; [apply NoDup_cons; split; [rewrite Hm; set_solver|done]|].
      intros v. rewrite elem_of_cons, Hm. destruct (decide (v = w)); set_solver.
Qed.
Lemma lowerCSV_spec l :
  NoDup (lowerCSV l) ∧ ∀ v, v ∈ lowerCSV l ↔ v ≠ "" ∧ ∃ x, x ∈ l ∧ to_lower (trim_space x) = v.
Proof. destruct (lower_go_spec ∅ l) as [Hnd Hm]. split; [done|]. intros v. unfold lowerCSV. rewrite Hm. set_solver. Qed.

Definition normal_modes : list (list string) :=
  [[AuthModeOIDC]; [AuthModePassword]; [AuthModeNone]; [AuthModeOIDC; AuthModePassword]].
Lemma parseAuthModes_ok raw modes m : parseAuthModes raw = Ok (modes, m) → modes ∈ normal_modes ∧ head modes = Some m.
Proof.
  unfold parseAuthModes. set (parts := splitCSV (to_lower raw)). destruct (is_nil parts) eqn:Hn; [done|].
  destruct (List.find _ parts) as [p|] eqn:Hf; [done|].
  assert (∀ p, p ∈ parts → p ∈ [AuthModeOIDC; AuthModePassword; AuthModeNone]) as Hk.
  { intros p Hp. rewrite list_elem_of_In in Hp. pose proof (find_none _ _ Hf _ Hp) as Hb. simpl in Hb. bool_hyps. done. }
  assert (∃ p, p ∈ parts) as [p Hin] by (destruct parts as [|p ps]; [done|]; exists p; by left).
  specialize (Hk p Hin).
  unfold normal_modes. cbn [List.filter]. repeat (case_bool_decide; simpl); intros Heq; try discriminate Heq;
    injection Heq as <- <-; try (split; [set_solver|done]); set_solver.
Qed.

Lemma load_ok get c : load get = Ok c →
  validate (IsProduction c) c = Ok tt ∧ deriveHost (cfg_ControlBaseURL c) = Ok (ControlHost c) ∧
  (∃ raw, parseAuthModes raw = Ok (AuthModes c, AuthMode c)) ∧ cfg_OIDC c = load_oidc get (cfg_ControlBaseURL c) ∧
  cfg_OIDCEnvSet c = load_env_set get ∧ CORSAllowedOrigins c ≠ [] ∧ 
  cfg_BaseDomain c = getString get "KOTOJI_BASE_DOMAIN" defaultBaseDomain ∧
  BaseDomainEnvSet c = envSet get "KOTOJI_BASE_DOMAIN" ∧
  cfg_ControlBaseURL c = getString get "KOTOJI_CONTROL_BASE_URL" defaultControlBaseURL ∧
  ControlBaseURLEnvSet c = envSet get "KOTOJI_CONTROL_BASE_URL".
Proof.
  intros (env & _ & (mode & _ & (tm & _ & (ca & _ & (host & Hhost & ([modes m] & Hauth & (ttl & _ & (mt & _ & (gr & _ &
    (oi & _ & Hl)%res_bind_ok)%res_bind_ok)%res_bind_ok)%res_bind_ok)%res_bind_ok)%res_bind_ok)%res_bind_ok)%res_bind_ok
    )%res_bind_ok)%res_bind_ok.
  cbn zeta in Hl. apply res_bind_ok in Hl as ([] & Hv & [= <-]). split_and!; try done; [by eexists|].
  cbn. by destruct (getCSV get _).
Qed.

Lemma validate_ok prod c : validate prod c = Ok tt →
  problems prod c = [] ∧ key_problems prod c = [] ∧ auth_problems c = [] ∧ mirror_problems c = [].
Proof.
  unfold validate. destruct (_ ++ _) as [|p l] eqn:E; [|done]. intros _.
  by repeat (apply app_nil in E as [? E]).
Qed.
Lemma load_modes get c m : load get = Ok c → AuthModeEnabled c m = true ↔ m ∈ AuthModes c.
Proof.
  intros (_ & _ & (raw & Hm) & _)%load_ok. apply parseAuthModes_ok in Hm as [_ Hh].
  unfold AuthModeEnabled, enabled_modes. destruct (AuthModes c) as [|x l]; [done|].
  rewrite existsb_exists. setoid_rewrite String.eqb_eq. setoid_rewrite <-list_elem_of_In. naive_solver.
Qed.

(** C26 (safety): a production instance that boots is hardened, whatever the
    environment holds.  Its cookies carry Secure, it has a database, its base
    domain and control URL are set and not the development defaults, the control
    host is the non-empty host of that URL.  Nothing more is checked of the base
    domain: a blank one boots (silent_defaults).  When the instance serves the
    control plane, and only then, signing in cannot be switched off, and secrets are sealed under the 32 bytes of the operator's own
    key, whatever the passwords and domains are the derived key would be made of. *)
Theorem production_hardened (get : getenv) (c : Config) `{Crypto} :
  load get = Ok c → cfg_Env c = EnvProduction →
  cfg_CookieSecure c = true ∧ DatabaseURL c ≠ "" ∧ cfg_BaseDomain c ≠ "" ∧ cfg_BaseDomain c ≠ defaultBaseDomain ∧
  cfg_ControlBaseURL c ≠ defaultControlBaseURL ∧
  (∃ u, url_Parse (cfg_ControlBaseURL c) = Some u ∧ u_Host u ≠ "" ∧ ControlHost c = strip_port (u_Host u)) ∧
  (ServesControl c = true →
   AuthModeNone ∉ AuthModes c ∧
   ∃ key, String.length key = 32 ∧ ∀ pw secret url domain, ResolveKey (SecretKey c) pw secret url domain = key).
Proof.
  intros Hl He. pose proof (load_modes get c AuthModeNone Hl) as Hn. apply load_ok in Hl as (Hv & Hh & _).
  unfold IsProduction in Hv. rewrite bool_decide_eq_true_2 in Hv by done. apply validate_ok in Hv as (Hp & Hk & _).
  unfold problems in Hp. do 4 apply app_nil in Hp as [_ Hp]. cbn zeta in Hp.
  apply app_nil in Hp as [Hdb Hp]. apply app_nil in Hp as [Hbd Hp]. apply app_nil in Hp as [Hcu Hp].
  apply app_nil in Hp as [Hna Hcs]. unfold key_problems in Hk. rewrite when_nil in *.
  assert (ServesControl c || ServesData c = true) as Hs.
  { unfold ServesControl, servesControl, ServesData. by destruct (cfg_Mode c). }
  rewrite Hs in Hdb. cbn [andb] in Hdb, Hk. bool_hyps. split_and!; try done.
  - unfold deriveHost in Hh. destruct (url_Parse _) as [u|]; [|done].
    destruct (String.eqb_spec (u_Host u) ""); [done|]. injection Hh as Hh. by exists u.
  - intros Hc. rewrite Hc in Hna, Hk. cbn [andb] in Hna, Hk. apply negb_false_iff in Hk.
    split; [intros Hin; apply Hn in Hin; unfold NoAuthEnabled in Hna; congruence|].
    rewrite explicit_key_agrees in Hk. unfold ExplicitKeyProvided in Hk.
    destruct (decodeExplicitKey (SecretKey c)) as [key|] eqn:Hd; [|done]. exists key.
    split; [by eapply decodeExplicitKey_length|]. intros. unfold ResolveKey. by rewrite Hd.
Qed.
End facts.

(** ** Well-formed configurations *)

Lemma parse_int_i64 s z : parse_int s = Some z → in_i64 z.
Proof.
  unfold parse_int, in_i64. destruct s as [|c r]; [done|]. destruct (if (c =? "+")%char then _ else _) as [neg body].
  destruct (parse_uint body) as [n|]; [|done].
  destruct neg; case_match; intros [= <-]; bool_hyps; lia.
Qed.

(** A list of emails or domains the access policy can use *)
Definition clean_list (l : list string) : Prop := NoDup l ∧ "" ∉ l.
Record wf (c : Config) : Prop := {
  wf_modes : AuthModes c ∈ normal_modes ∧ head (AuthModes c) = Some (AuthMode c);
  wf_lists : clean_list (AllowedDomains (cfg_OIDC c)) ∧ clean_list (AllowedEmails (cfg_OIDC c)) ∧
             clean_list (AdminEmails (cfg_OIDC c)) ∧ RedirectURL (cfg_OIDC c) ≠ "" ∧ CORSAllowedOrigins c ≠ [];
  wf_ints : Forall in_i64 [DBMaxConns c; zl_MaxUploadBytes (cfg_Zip c); zl_MaxTotalBytes (cfg_Zip c);
    zl_MaxFiles (cfg_Zip c); zl_MaxRatio (cfg_Zip c); zl_MaxEntryBytes (cfg_Zip c); SiteQuotaBytes c; UserSiteQuota c;
    RateLimitAPIRPS c; RateLimitServeRPS c; AssetMaxAge c; HandleMinLen c; HandleMaxLen c];
  wf_handles : (1 ≤ HandleMinLen c ≤ HandleMaxLen c)%Z;
  wf_tls : ServesTLS c = bool_decide (cfg_TLSMode c = TLSModeAuto);
  wf_log : LogFormat c ∈ ["json"; "text"] ∧ LogLevel c ∈ ["debug"; "info"; "warn"; "error"];
  wf_oidc : ServesControl c = true → AuthModeOIDC ∈ AuthModes c →
    Issuer (cfg_OIDC c) ≠ "" ∧ ClientID (cfg_OIDC c) ≠ "" ∧ ClientSecret (cfg_OIDC c) ≠ "" ∧
    (AllowedDomains (cfg_OIDC c) ≠ [] ∨ AllowedEmails (cfg_OIDC c) ≠ []);
  wf_password : ServesControl c = true → AuthModePassword ∈ AuthModes c →
    AdminPassword c = "" ∨ AdminPasswordMinLen ≤ String.length (AdminPassword c);
  wf_mirror : gm_Enabled (cfg_GitHub c) = true →
    gm_Token (cfg_GitHub c) ≠ "" ∧ gm_WebhookSecret (cfg_GitHub c) ≠ "";
}.

Section wf.
Context `{GoUnicode} `{GoDuration}.

Lemma getParsed_i64 get key def : in_i64 def → in_i64 (getParsed get parse_int key def).
Proof.
  intros Hd. unfold getParsed. destruct (get key) as [v|]; [|done]. destruct (negb _); [|done].
  destruct (parse_int v) as [z|] eqn:E; [|done]. by apply parse_int_i64 in E.
Qed.
Lemma clean_lowerCSV l : clean_list (lowerCSV l).
Proof. destruct (lowerCSV_spec l) as [Hnd Hs]. split; [done|]. by intros [? _]%Hs. Qed.
Lemma getString_ne get key def : def ≠ "" → getString get key def ≠ "".
Proof. unfold getString. destruct (get key) as [v|]; [|done]. by destruct (String.eqb_spec v ""). Qed.
Lemma getEither_ne get key old def : def ≠ "" → getEither get key old def ≠ "".
Proof.
  intros Hd. unfold getEither, firstNonEmpty. cbn [List.find].
  destruct (String.eqb_spec (getString get key "") ""); [|done]. cbn [negb].
  pose proof (getString_ne get old def Hd). by destruct (String.eqb_spec (getString get old def) "").
Qed.
Lemma load_lists get base : let o := load_oidc get base in
  clean_list (AllowedDomains o) ∧ clean_list (AllowedEmails o) ∧ clean_list (AdminEmails o) ∧ RedirectURL o ≠ "".
Proof.
  cbn. split_and!; try apply clean_lowerCSV. apply getEither_ne. unfold defaultRedirect. intros [_ ?]%str_app_eq_nil. done.
Qed.
Lemma load_ints get c : load get = Ok c →
  Forall in_i64 [DBMaxConns c; zl_MaxUploadBytes (cfg_Zip c); zl_MaxTotalBytes (cfg_Zip c);
    zl_MaxFiles (cfg_Zip c); zl_MaxRatio (cfg_Zip c); zl_MaxEntryBytes (cfg_Zip c); SiteQuotaBytes c; UserSiteQuota c;
    RateLimitAPIRPS c; RateLimitServeRPS c; AssetMaxAge c; HandleMinLen c; HandleMaxLen c].
Proof.
  intros Hl. repeat (apply res_bind_ok in Hl as (? & _ & Hl)). injection Hl as <-.
  repeat constructor; apply getParsed_i64; by vm_compute.
Qed.

(** C27 (type): a configuration that loads is well-formed.  The enabled providers
    are one of the four sets in their normal order, with the legacy mode as the
    first; the sign-in lists have no blanks and no repetitions; every integer is a
    64-bit integer; handle lengths form a range; TLS termination is on only where
    both planes run; and each enabled provider and the mirror have the settings
    they cannot work without. *)
Theorem load_wf (get : getenv) (c : Config) : load get = Ok c → wf c.
Proof.
  intros Hl. pose proof (load_ints get c Hl) as Hi. pose proof (fun m => load_modes get c m Hl) as Hm.
  apply load_ok in Hl as (Hv & _ & (raw & Ha) & Ho & _ & Hc & _). apply parseAuthModes_ok in Ha.
  apply validate_ok in Hv as (Hp & _ & Hau & Hmi). pose proof (load_lists get (cfg_ControlBaseURL c)) as Hli.
  cbn zeta in Hli. rewrite <-Ho in Hli. unfold problems in Hp.
  apply app_nil in Hp as [Hf Hp]. apply app_nil in Hp as [Hlv Hp]. apply app_nil in Hp as [Hh Hp].
  apply app_nil in Hp as [Ht _]. rewrite when_nil in *. bool_hyps. split; try done.
  - naive_solver.
  - unfold ServesTLS. destruct (cfg_TLSMode c), (cfg_Mode c); done.
  - intros Hs Hin. apply Hm in Hin. unfold auth_problems, OIDCEnabled in Hau. rewrite Hs, Hin in Hau. cbn [negb] in Hau.
    apply app_nil in Hau as [Hau _]. cbn zeta in Hau. do 3 apply app_nil in Hau as [?%when_nil Hau].
    apply when_nil in Hau. bool_hyps. split_and!; [done..|].
    apply andb_false_iff in Hau as [Hx|Hx]; [left|right]; by intros Hnil; rewrite Hnil in Hx.
  - intros Hs Hin. apply Hm in Hin. unfold auth_problems, PasswordEnabled in Hau. rewrite Hs, Hin in Hau. cbn [negb] in Hau.
    apply app_nil in Hau as [_ Hau%when_nil]. apply andb_false_iff in Hau as [Hx|Hx]; bool_hyps; auto.
  - intros Hg. unfold mirror_problems in Hmi. rewrite Hg in Hmi. apply app_nil in Hmi as [?%when_nil ?%when_nil].
    by bool_hyps.
Qed.
End wf.

(** ** Samples *)

Section samples.
Let A := ascii_only_unicode.
Local Existing Instance A.
#[local] Instance no_durations : GoDuration := {| ParseDuration _ := None |}.
#[local] Instance constant_crypto : Crypto := {| sha256 := id; hmac_sha256 _ := id |}.
Definition key64 : string := "00112233445566778899aabbccddeeff00112233445566778899aabbccddeeff".
Definition sample_env : gmap string string := list_to_map [
  ("KOTOJI_ENV", "Production"); ("KOTOJI_DATABASE_URL", "postgres://db"); ("KOTOJI_BASE_DOMAIN", "example.com");
  ("KOTOJI_CONTROL_BASE_URL", "https://host.example.com:8443"); ("KOTOJI_SECRET_KEY", key64);
  ("KOTOJI_AUTH_MODE", "Password , oidc,"); ("KOTOJI_OIDC_CLIENT_ID", "id"); ("KOTOJI_OIDC_CLIENT_SECRET", "s");
  ("KOTOJI_AUTH_GOOGLE_HD", " Example.com "); ("KOTOJI_DB_MAX_CONNS", "many")].
Definition loads (env : gmap string string) (P : Config → Prop) : Prop :=
  match LoadFromMap env with Ok c => P c | Err _ => False end.
Lemma production_hardened_witness : loads sample_env (λ c, cfg_CookieSecure c = true ∧ AuthModeNone ∉ AuthModes c).
Proof.
  unfold loads, LoadFromMap. set (get := λ key : string, sample_env !! key).
  assert (is_ok (load get) = true) as Hok by (vm_compute; reflexivity).
  assert (match load get with Ok c => cfg_Env c = EnvProduction ∧ ServesControl c = true | Err _ => False end) as Hp
    by (vm_compute; split; reflexivity).
  destruct (load get) as [c|e] eqn:Hl; [|discriminate Hok]. destruct Hp as [He Hs].
  destruct (production_hardened get c Hl He) as (Hc & _ & _ & _ & _ & _ & Hn).
  split; [exact Hc|exact (proj1 (Hn Hs))].
Defined.
Lemma load_wf_witness : loads sample_env wf.
Proof.
  unfold loads, LoadFromMap. set (get := λ key : string, sample_env !! key).
  assert (is_ok (load get) = true) as Hok by (vm_compute; reflexivity).
  destruct (load get) as [c|e] eqn:Hl; [exact (load_wf get c Hl)|discriminate Hok].
Defined.
Definition refusal (l : list (string * string)) : option cfg_err :=
  match LoadFromMap (list_to_map l) with Ok _ => None | Err e => Some e end.
Example load_samples :
  refusal [] = None ∧
  refusal [("KOTOJI_ENV", "production")] = Some (Problems
    [NoDatabaseURL; NoBaseDomain; NoControlBaseURL; NoSecretKey]) ∧
  refusal [("KOTOJI_AUTH_MODE", "none,oidc")] = Some ExclusiveNone ∧
  refusal [("KOTOJI_AUTH_MODE", "ldap")] = Some (InvalidValue "KOTOJI_AUTH_MODE" "ldap") ∧
  refusal [("KOTOJI_AUTH_MODE", " , ")] = Some EmptyAuthMode ∧
  refusal [("KOTOJI_AUTH_MODE", "oidc")] = Some (Problems [NoClientID; NoClientSecret; NoAllowlist]) ∧
  refusal [("KOTOJI_CONTROL_BASE_URL", "host")] = Some (MissingHost "host") ∧
  refusal [("KOTOJI_SESSION_TTL", "1 day")] = Some (InvalidDuration "KOTOJI_SESSION_TTL" "1 day") ∧
  refusal [("KOTOJI_RUN_MODE", "serve"); ("KOTOJI_TLS_MODE", "auto"); ("KOTOJI_AUTH_MODE", "oidc")] =
    Some (Problems [TLSNeedsAll RunModeServe]).
Proof. vm_compute. by split_and!. Qed.

(** Values that do not parse are replaced by the default in silence, and a base
    domain of one blank passes for a real domain. *)
Example silent_defaults :
  loads (list_to_map [("KOTOJI_MCP_ENABLED", "no"); ("KOTOJI_ZIP_MAX_FILES", "1e3")])
    (λ c, MCPEnabled c = true ∧ zl_MaxFiles (cfg_Zip c) = 2000%Z) ∧
  loads (<["KOTOJI_BASE_DOMAIN" := " "]> sample_env) (λ c, cfg_BaseDomain c = " " ∧ BaseDomainEnvSet c = false).
Proof. vm_compute. by split_and!. Qed.
End samples.
