(* ===== verification/SecretBox.v ===== *)
(** * Secrets at rest (secretbox/secretbox.go)

    AES-256-GCM is the class [AEAD], with what is documented of it as laws: what
    was sealed opens again, and the output is longer than the input by the tag.
    The key of a box is in Preview (secretbox/key.go). *)

From S2P Require Import Prelude GoStrings Encoding Preview.

Definition NonceSize : nat := 12.
Definition Overhead : nat := 16.

(** cipher.AEAD of a key: Seal and Open with no additional data *)
Class AEAD := { aead_Seal : bytes → bytes → bytes → bytes; aead_Open : bytes → bytes → bytes → option bytes }.
Class AEADLaws `{AEAD} := {
  aead_open_seal key nonce p : String.length nonce = NonceSize → aead_Open key nonce (aead_Seal key nonce p) = Some p;
  aead_length key nonce p : String.length (aead_Seal key nonce p) = String.length p + Overhead;
}.

Definition versionByte : ascii := "001"%char.

Inductive seal_err := ErrSealDerivedKeyProd | ErrRandom.
Record Box := mkBox { box_key : bytes; sealDisabled : bool }.
(** [None]: the key is not 32 bytes long *)
Definition newBox (key : bytes) (disabled : bool) : option Box :=
  if String.length key =? KeySize then Some (mkBox key disabled) else None.
Definition New (key : bytes) : option Box := newBox key false.
Definition NewSealDisabled (key : bytes) : option Box := newBox key true.

Section box.
Context `{AEAD}.

(** [nonce] is what the random source yields, if anything *)
Definition Seal (b : Box) (nonce : option bytes) (plaintext : string) : Res seal_err string :=
  if sealDisabled b then Err ErrSealDerivedKeyProd
  else match nonce with
       | None => Err ErrRandom
       | Some n => Ok (b64_encode b64_std true (String versionByte (n +:+ aead_Seal (box_key b) n plaintext)))
       end.

Definition Open (b : Box) (encoded : string) : option string :=
  if (encoded =? "")%string then None
  else match b64_decode b64_std true encoded with
       | None => None
       | Some raw =>
           if String.length raw <? 1 + NonceSize + Overhead then None
           else match raw with
                | String v rest =>
                    if (v =? versionByte)%char
                    then aead_Open (box_key b) (str_take NonceSize rest) (str_drop NonceSize rest)
                    else None
                | EmptyString => None
                end
       end.

(** What a box seals it opens, also once sealing is disabled. *)
Lemma open_seal `{!AEADLaws} b b' nonce p v : box_key b' = box_key b →
  (∀ n, nonce = Some n → String.length n = NonceSize) → Seal b nonce p = Ok v → v ≠ "" ∧ Open b' v = Some p.
Proof.
  intros Hk Hn. unfold Seal. destruct (sealDisabled b); [done|]. destruct nonce as [n|]; [|done]. specialize (Hn n eq_refl).
  set (raw := String versionByte (n +:+ aead_Seal (box_key b) n p)). intros Hv.
  assert (v = b64_encode b64_std true raw) as -> by congruence. unfold Open.
  assert (b64_decode b64_std true (b64_encode b64_std true raw) = Some raw) as Hd by (apply b64_decode_encode; auto).
  assert (b64_encode b64_std true raw ≠ "") as Hne by (intros E; rewrite E in Hd; by vm_compute in Hd).
  apply String.eqb_neq in Hne as Hnb. rewrite Hnb, Hd. split; [done|]. unfold raw. cbn [String.length].
  rewrite str_length_app, aead_length, Hn.
  destruct (Nat.ltb_spec (S (NonceSize + (String.length p + Overhead))) (1 + NonceSize + Overhead)); [lia|].
  rewrite Ascii.eqb_refl, Hk, <-Hn, str_take_app, str_drop_app. by apply aead_open_seal.
Qed.
End box.

(** A concrete cipher: the key, the nonce and sixteen bytes in front of the text.
    It hides nothing; the witnesses use it. *)
Definition clear_tag : bytes := "0123456789abcdef".
Definition clear_cipher : AEAD := {|
  aead_Seal _ _ p := clear_tag +:+ p;
  aead_Open _ _ c := if has_prefix clear_tag c then Some (str_drop Overhead c) else None |}.
Lemma clear_cipher_laws : @AEADLaws clear_cipher.
Proof. split; intros; cbn; [done|unfold Overhead; lia]. Qed.
