(* ===== verification/Settings.v ===== *)
(** * Transactions and instance settings (db/store.go, db/tx.go)

    A transaction works on its own copy of the tables, which replaces the tables
    when it commits.  Which statement fails is up to the environment: the
    functions of the class [Faults] answer for each statement of a transaction,
    by its number, and for its begin, commit and rollback.  The settings are the
    table [instance_settings], a map from keys to values. *)

From S2P Require Import Prelude GoStrings Encoding SiteErrors SiteTypes Http Preview Access Wire ApiWorld SecretBox.

(** ** db/tx.go *)

(** Whether a commit took effect, and what the client heard of it *)
Inductive commit_answer := Committed | CommitFailed (msg : string) | CommitLost (msg : string).
Class Faults := {
  begin_fails : option string;
  statement_fails : nat → option string;
  commits : commit_answer;
  rollback_fails : option string;
}.
Record Tx T := mkTx { tx_tables : T; tx_count : nat }.
Arguments mkTx {T}.
Arguments tx_tables {T}.
Arguments tx_count {T}.

Definition errText (e : store_err) : string := match e with NoRows => "no rows in result set" | StoreFailed m => m end.
Definition wrap {S A} (prefix : string) (m : M S store_err A) : M S store_err A :=
  λ s, match m s with (s, Err e) => (s, Err (StoreFailed (prefix +:+ errText e))) | r => r end.

Section tx.
Context `{Faults} {T : Type}.

(** One statement that writes *)
Definition statement (f : T → T) : M (Tx T) store_err unit := λ s,
  match statement_fails (tx_count s) with
  | Some msg => (mkTx (tx_tables s) (S (tx_count s)), Err (StoreFailed msg))
  | None => (mkTx (f (tx_tables s)) (S (tx_count s)), Ok tt)
  end.

Definition rolled_back (e : store_err) : store_err :=
  match rollback_fails with
  | Some msg => StoreFailed (errText e +:+ String "010" "db: rollback: " +:+ msg)
  | None => e
  end.
Definition WithTx {A} (fn : M (Tx T) store_err A) : M T store_err A := λ t,
  match begin_fails with
  | Some msg => (t, Err (StoreFailed ("db: begin tx: " +:+ msg)))
  | None =>
      match fn (mkTx t 0) with
      | (_, Err e) => (t, Err (rolled_back e))
      | (s, Ok a) =>
          match commits with
          | Committed => (tx_tables s, Ok a)
          | CommitFailed msg => (t, Err (rolled_back (StoreFailed ("db: commit: " +:+ msg))))
          | CommitLost msg => (tx_tables s, Err (rolled_back (StoreFailed ("db: commit: " +:+ msg))))
          end
      end
  end.

(** A program of statements whose success is the update [f] *)
Definition performs (m : M (Tx T) store_err unit) (f : T → T) : Prop :=
  ∀ s s', m s = (s', Ok tt) → tx_tables s' = f (tx_tables s).
Lemma performs_apply m f t s : performs m f → m (mkTx t 0) = (s, Ok tt) → tx_tables s = f t.
Proof. intros Hm Hs. by apply Hm in Hs. Qed.
Lemma performs_ok : performs (ok tt) id.
Proof. by intros s s' [= <-]. Qed.
Lemma performs_fail e f : performs (fail e) f.
Proof. by intros s s' [=]. Qed.
Lemma performs_statement f : performs (statement f) f.
Proof. intros s s'. unfold statement. destruct (statement_fails _); [done|]. by intros [= <-]. Qed.
Lemma performs_wrap p m f : performs m f → performs (wrap p m) f.
Proof.
  intros Hm s s'. unfold wrap. destruct (m s) as [s1 [[]|e]] eqn:E; [|done]. intros [= <-]. by apply Hm.
Qed.
Lemma performs_seq m f n g h :
  performs m f → performs n g → (∀ t, h t = g (f t)) → performs (m ;! n) h.
Proof. intros Hm Hn Hh s s' Hr. run_inv Hr. destruct a. apply Hm in Hm0. apply Hn in Hk. by rewrite Hk, Hm0, Hh. Qed.

(** A transaction happens entirely or not at all, and entirely if it is reported
    to have succeeded. *)
Definition reported (r : Res store_err unit) : Prop := r = Ok tt ∨ (∃ e, r = Err e) ∧ ∃ msg, commits = CommitLost msg.
Lemma WithTx_cases m t t' r : WithTx m t = (t', r) →
  (∃ s, m (mkTx t 0) = (s, Ok tt) ∧ t' = tx_tables s ∧ reported r) ∨ ((∃ e, r = Err e) ∧ t' = t).
Proof.
  unfold WithTx, reported. destruct begin_fails; [intros [= <- <-]; eauto|].
  destruct (m (mkTx t 0)) as [s [[]|e]] eqn:E; [|intros [= <- <-]; eauto].
  destruct commits eqn:Hc; intros [= <- <-]; eauto 10.
Qed.
End tx.
Create HintDb tx.
#[export] Hint Resolve performs_ok performs_fail performs_statement performs_wrap : tx.
(** Statement by statement *)
Ltac perform := first [solve [eauto with tx nocore]|eapply performs_seq; [perform|perform|intros; reflexivity]].

(** ** Settings *)

Abbreviation settings := (gmap string string) (only parsing).

Definition SettingAdminPasswordHash : string := "admin_password_hash".
Definition SettingGitHubMirrorEnabled : string := "github_mirror_enabled".
Definition SettingGitHubOrg : string := "github_org".
Definition SettingGitHubWebhookSecret : string := "github_webhook_secret".
Definition SettingGitHubToken : string := "github_token".
Definition SettingBaseDomain : string := "base_domain".
Definition SettingControlBaseURL : string := "control_base_url".
Definition SettingOIDCEnabled : string := "oidc_enabled".
Definition SettingOIDCIssuer : string := "oidc_issuer".
Definition SettingOIDCClientID : string := "oidc_client_id".
Definition SettingOIDCClientSecret : string := "oidc_client_secret".
Definition SettingOIDCRedirectURL : string := "oidc_redirect_url".
Definition SettingOIDCAllowedEmails : string := "oidc_allowed_emails".
Definition SettingOIDCAllowedDomains : string := "oidc_allowed_domains".
Definition SettingOIDCAdminEmails : string := "oidc_admin_emails".
Definition boolTrue : string := "true".
Definition boolFalse : string := "false".

(** A field with its [*Set] flag is an option: [None] is the empty value, not set. *)
Record DomainConfig := mkDomainCfg { dc_BaseDomain : option string; dc_ControlBaseURL : option string }.
Record DBOIDC := mkDBOIDC {
  do_Enabled : option bool; do_Issuer : option string; do_ClientID : option string; do_ClientSecret : option string;
  do_RedirectURL : option string; do_AllowedEmails : option string; do_AllowedDomains : option string;
  do_AdminEmails : option string;
}.
Record SetOIDC := mkSetOIDC {
  so_Enabled : option bool; so_Issuer : option string; so_ClientID : option string; so_ClientSecret : option string;
  so_ClearClientSecret : bool; so_RedirectURL : option string; so_AllowedEmails : option string;
  so_AllowedDomains : option string; so_AdminEmails : option string;
}.

(** *** Reading.  [rd] answers GetInstanceSetting; each method asks for a key at
    most once, so that a function of the key covers settings that change between
    two statements. *)

Section reads.
Context `{AEAD} (rd : string → Res store_err string) (box : option Box).

Definition getSetting (key : string) : Res store_err (option string) :=
  match rd key with
  | Ok v => Ok (Some v)
  | Err e => if IsNotFound e then Ok None
             else Err (StoreFailed ("db: get setting " +:+ quoted key +:+ ": " +:+ errText e))
  end.
Definition GetAdminPasswordHash : Res store_err (option string) :=
  match rd SettingAdminPasswordHash with
  | Ok v => Ok (Some v)
  | Err e => if IsNotFound e then Ok None else Err (StoreFailed ("db: get admin password hash: " +:+ errText e))
  end.
(** A secret that does not decrypt counts as not configured. *)
Definition openSecret (v : option string) : option string :=
  match v, box with
  | Some v, Some b => if (v =? "")%string then None else Open b v
  | _, _ => None
  end.
Definition is_true (v : string) : bool := (v =? boolTrue)%string.

Definition GetGitHubConfig : Res store_err GitHubConfig :=
  try! enabled := getSetting SettingGitHubMirrorEnabled in
  try! org := getSetting SettingGitHubOrg in
  try! webhook := getSetting SettingGitHubWebhookSecret in
  try! token := getSetting SettingGitHubToken in
  let plain := openSecret token in
  Ok {| gh_EnabledSet := bool_decide (is_Some enabled); gh_Enabled := default false (is_true <$> enabled);
        gh_Org := default "" org; gh_Token := default "" plain; gh_TokenSet := bool_decide (is_Some plain);
        gh_WebhookSecret := default "" webhook |}.
Definition GetDomainConfig : Res store_err DomainConfig :=
  try! base := getSetting SettingBaseDomain in
  try! control := getSetting SettingControlBaseURL in
  Ok (mkDomainCfg base control).
Definition GetOIDCConfig : Res store_err DBOIDC :=
  try! enabled := getSetting SettingOIDCEnabled in
  try! issuer := getSetting SettingOIDCIssuer in
  try! clientID := getSetting SettingOIDCClientID in
  try! redirect := getSetting SettingOIDCRedirectURL in
  try! emails := getSetting SettingOIDCAllowedEmails in
  try! domains := getSetting SettingOIDCAllowedDomains in
  try! admins := getSetting SettingOIDCAdminEmails in
  try! secret := getSetting SettingOIDCClientSecret in
  Ok {| do_Enabled := is_true <$> enabled; do_Issuer := issuer; do_ClientID := clientID;
        do_ClientSecret := openSecret secret; do_RedirectURL := redirect; do_AllowedEmails := emails;
        do_AllowedDomains := domains; do_AdminEmails := admins |}.
End reads.

(** The answers of a table that can be read *)
Definition from_table (t : settings) (key : string) : Res store_err string :=
  match t !! key with Some v => Ok v | None => Err NoRows end.

(** *** Writing *)

Section writes.
Context `{Faults} `{AEAD} (box : option Box) (nonce : option bytes).
Abbreviation TX := (M (Tx settings) store_err unit).

Definition SetInstanceSetting (key value : string) : TX := statement (insert key value).
Definition DeleteInstanceSetting (key : string) : TX := statement (delete key).
Definition setOrDeleteSetting (key value : string) : TX :=
  if (value =? "")%string then DeleteInstanceSetting key else SetInstanceSetting key value.

(** Methods outside a transaction: one statement, which takes effect or fails *)
Definition SetAdminPasswordHash (hash : string) : M settings store_err unit := λ t,
  match statement_fails 0 with
  | Some msg => (t, Err (StoreFailed ("db: set admin password hash: " +:+ msg)))
  | None => (<[SettingAdminPasswordHash := hash]> t, Ok tt)
  end.

Definition set_bool (key : string) (v : option bool) : TX :=
  match v with
  | Some b => wrap ("db: set " +:+ key +:+ ": ") (SetInstanceSetting key (if b then boolTrue else boolFalse))
  | None => ok tt
  end.
Definition set_plain (key : string) (v : option string) : TX :=
  match v with Some v => wrap ("db: set " +:+ key +:+ ": ") (SetInstanceSetting key v) | None => ok tt end.
Definition set_field (key : string) (v : option string) : TX :=
  match v with Some v => wrap ("db: set " +:+ key +:+ ": ") (setOrDeleteSetting key v) | None => ok tt end.
Definition sealText (e : seal_err) : string :=
  match e with
  | ErrSealDerivedKeyProd =>
      "secretbox: refusing to seal a secret under the derived key in production — set KOTOJI_SECRET_KEY"
  | ErrRandom => "random source failed"
  end.
(** The [switch] on a write-only secret: clearing wins, an empty one is kept. *)
Definition set_secret (key what : string) (clear : bool) (v : option string) : TX :=
  if clear then wrap ("db: clear " +:+ key +:+ ": ") (DeleteInstanceSetting key)
  else match v with
       | Some v =>
           if (v =? "")%string then ok tt
           else match box with
                | None => fail (StoreFailed ("db: cannot store " +:+ what +:+ " without a secret key configured"))
                | Some b =>
                    match Seal b nonce v with
                    | Err e => fail (StoreFailed ("db: encrypt " +:+ key +:+ ": " +:+ sealText e))
                    | Ok ct => wrap ("db: set " +:+ key +:+ ": ") (SetInstanceSetting key ct)
                    end
                end
       | None => ok tt
       end.
Fixpoint set_fields (l : list (string * option string)) : TX :=
  match l with [] => ok tt | (key, v) :: l => set_field key v ;! set_fields l end.

Definition SetGitHubConfig (in_ : SetGitHub) : M settings store_err unit := WithTx (
  set_bool SettingGitHubMirrorEnabled (sg_Enabled in_) ;!
  set_plain SettingGitHubOrg (sg_Org in_) ;!
  set_plain SettingGitHubWebhookSecret (sg_WebhookSecret in_) ;!
  set_secret SettingGitHubToken "github token" (sg_ClearToken in_) (sg_Token in_)).
Definition SetDomainConfig (baseDomain controlBaseURL : option string) : M settings store_err unit := WithTx (
  set_field SettingBaseDomain baseDomain ;! set_field SettingControlBaseURL controlBaseURL).
Definition oidc_fields (in_ : SetOIDC) : list (string * option string) :=
  [(SettingOIDCIssuer, so_Issuer in_); (SettingOIDCClientID, so_ClientID in_);
   (SettingOIDCRedirectURL, so_RedirectURL in_); (SettingOIDCAllowedEmails, so_AllowedEmails in_);
   (SettingOIDCAllowedDomains, so_AllowedDomains in_); (SettingOIDCAdminEmails, so_AdminEmails in_)].
Definition SetOIDCConfig (in_ : SetOIDC) : M settings store_err unit := WithTx (
  set_bool SettingOIDCEnabled (so_Enabled in_) ;!
  set_fields (oidc_fields in_) ;!
  set_secret SettingOIDCClientSecret "oidc client secret" (so_ClearClientSecret in_) (so_ClientSecret in_)).
End writes.

(** ** Facts *)

Definition upd_bool (key : string) (v : option bool) (t : settings) : settings :=
  match v with Some b => <[key := if b then boolTrue else boolFalse]> t | None => t end.
Definition upd_plain (key : string) (v : option string) (t : settings) : settings :=
  match v with Some v => <[key := v]> t | None => t end.
Definition upd_field (key : string) (v : option string) (t : settings) : settings :=
  match v with Some v => if (v =? "")%string then delete key t else <[key := v]> t | None => t end.
Definition upd_fields (l : list (string * option string)) (t : settings) : settings :=
  foldl (λ t kv, upd_field kv.1 kv.2 t) t l.

Section facts.
Context `{Faults} `{AEAD} (box : option Box) (nonce : option bytes).

(** A secret that is supplied, with the ciphertext it is stored as *)
Definition sealed_as (v : option string) : option string :=
  match v, box with
  | Some v, Some b => if (v =? "")%string then None else match Seal b nonce v with Ok ct => Some ct | Err _ => None end
  | _, _ => None
  end.
Definition upd_secret (key : string) (clear : bool) (v : option string) (t : settings) : settings :=
  if clear then delete key t else match sealed_as v with Some ct => <[key := ct]> t | None => t end.
Definition upd_github (in_ : SetGitHub) (t : settings) : settings :=
  upd_secret SettingGitHubToken (sg_ClearToken in_) (sg_Token in_)
    (upd_plain SettingGitHubWebhookSecret (sg_WebhookSecret in_)
      (upd_plain SettingGitHubOrg (sg_Org in_) (upd_bool SettingGitHubMirrorEnabled (sg_Enabled in_) t))).
Definition upd_oidc (in_ : SetOIDC) (t : settings) : settings :=
  upd_secret SettingOIDCClientSecret (so_ClearClientSecret in_) (so_ClientSecret in_)
    (upd_fields (oidc_fields in_) (upd_bool SettingOIDCEnabled (so_Enabled in_) t)).
Definition upd_domain (base control : option string) (t : settings) : settings :=
  upd_field SettingControlBaseURL control (upd_field SettingBaseDomain base t).

Lemma set_bool_performs key v : performs (set_bool key v) (upd_bool key v).
Proof. destruct v; simpl; [apply performs_wrap, performs_statement|apply performs_ok]. Qed.
Lemma set_plain_performs key v : performs (set_plain key v) (upd_plain key v).
Proof. destruct v; simpl; [apply performs_wrap, performs_statement|apply performs_ok]. Qed.
Lemma set_field_performs key v : performs (set_field key v) (upd_field key v).
Proof.
  destruct v as [v|]; simpl; [|apply performs_ok]. unfold upd_field, setOrDeleteSetting, DeleteInstanceSetting, SetInstanceSetting.
  destruct (v =? "")%string; apply performs_wrap, performs_statement.
Qed.
Lemma set_fields_performs l : performs (set_fields l) (upd_fields l).
Proof.
  induction l as [|[key v] l IH]; simpl; [apply performs_ok|]. by eapply performs_seq; [apply set_field_performs|exact IH|].
Qed.
Lemma set_secret_performs key what clear v : performs (set_secret box nonce key what clear v) (upd_secret key clear v).
Proof.
  unfold set_secret, upd_secret, sealed_as. destruct clear; [apply performs_wrap, performs_statement|].
  destruct v as [v|]; [|apply performs_ok]. destruct (v =? "")%string; [destruct box; apply performs_ok|].
  destruct box as [b|]; [|apply performs_fail]. destruct (Seal b nonce v); [|apply performs_fail].
  apply performs_wrap, performs_statement.
Qed.
#[local] Hint Resolve set_bool_performs set_plain_performs set_field_performs set_fields_performs set_secret_performs : tx.


Definition stored (clear : bool) (v : option string) : Prop :=
  clear = true ∨ default "" v = "" ∨ is_Some (sealed_as v).
Lemma set_secret_stored key what clear v s s' : set_secret box nonce key what clear v s = (s', Ok tt) → stored clear v.
Proof.
  unfold set_secret, stored, sealed_as. destruct clear; [by left|]. right. destruct v as [v|]; [|by left].
  destruct (String.eqb_spec v ""); [by left|]. right. destruct box as [b|]; [|done].
  destruct (Seal b nonce v); [by eexists|done].
Qed.
Lemma seq_last {S E A B} (m : M S E A) (n : M S E B) s s' b :
  (m ;! n) s = (s', Ok b) → ∃ s1, n s1 = (s', Ok b).
Proof. intros Hr. run_inv Hr. by exists s0. Qed.

Lemma SetGitHub_cases in_ t t' r : SetGitHubConfig box nonce in_ t = (t', r) →
  (t' = upd_github in_ t ∧ stored (sg_ClearToken in_) (sg_Token in_) ∧ reported r) ∨ ((∃ e, r = Err e) ∧ t' = t).
Proof.
  intros [(s & Hs & -> & Hr)|?]%WithTx_cases; [left|by right]. split_and!; [|apply seq_last in Hs as [s1 Hs]|done].
  - eapply (performs_apply _ (upd_github in_)); [|exact Hs]. unfold upd_github. perform.
  - by do 2 apply seq_last in Hs as [? Hs]; apply set_secret_stored in Hs.
Qed.
Lemma SetDomain_cases base control t t' r : SetDomainConfig base control t = (t', r) →
  (t' = upd_domain base control t ∧ reported r) ∨ ((∃ e, r = Err e) ∧ t' = t).
Proof.
  intros [(s & Hs & -> & Hr)|?]%WithTx_cases; [left|by right]. split; [|done].
  eapply (performs_apply _ (upd_domain base control)); [|exact Hs]. unfold upd_domain. perform.
Qed.
Lemma SetOIDC_cases in_ t t' r : SetOIDCConfig box nonce in_ t = (t', r) →
  (t' = upd_oidc in_ t ∧ stored (so_ClearClientSecret in_) (so_ClientSecret in_) ∧ reported r) ∨ ((∃ e, r = Err e) ∧ t' = t).
Proof.
  intros [(s & Hs & -> & Hr)|?]%WithTx_cases; [left|by right]. split_and!; [|apply seq_last in Hs as [s1 Hs]|done].
  - eapply (performs_apply _ (upd_oidc in_)); [|exact Hs]. unfold upd_oidc. perform.
  - by apply seq_last in Hs as [? Hs]; apply set_secret_stored in Hs.
Qed.
End facts.

(** *** What is read back *)

Lemma lookup_upd_bool k key v t : upd_bool key v t !! k =
  if decide (k = key) then match v with Some b => Some (if b then boolTrue else boolFalse) | None => t !! k end else t !! k.
Proof.
  unfold upd_bool. destruct v as [b|], (decide (k = key)) as [->|]; rewrite ?lookup_insert_eq, ?lookup_insert_ne by done; done.
Qed.
Lemma lookup_upd_plain k key v t : upd_plain key v t !! k =
  if decide (k = key) then match v with Some v => Some v | None => t !! k end else t !! k.
Proof.
  unfold upd_plain. destruct v as [b|], (decide (k = key)) as [->|]; rewrite ?lookup_insert_eq, ?lookup_insert_ne by done; done.
Qed.
(** A partial update of a field: absent keeps, empty reverts *)
Definition merge_field (new old : option string) : option string :=
  match new with Some v => if (v =? "")%string then None else Some v | None => old end.
Lemma lookup_upd_field k key v t : upd_field key v t !! k = if decide (k = key) then merge_field v (t !! k) else t !! k.
Proof.
  unfold upd_field, merge_field. destruct v as [b|], (decide (k = key)) as [->|]; try done; destruct (b =? "")%string;
    rewrite ?lookup_insert_eq, ?lookup_delete_eq, ?lookup_insert_ne, ?lookup_delete_ne by done; done.
Qed.
Lemma lookup_upd_secret `{AEAD} box nonce k key clear v t : upd_secret box nonce key clear v t !! k =
  if decide (k = key) then if clear then None else match sealed_as box nonce v with Some ct => Some ct | None => t !! k end
  else t !! k.
Proof.
  unfold upd_secret. destruct clear, (sealed_as box nonce v), (decide (k = key)) as [->|];
    rewrite ?lookup_insert_eq, ?lookup_delete_eq, ?lookup_insert_ne, ?lookup_delete_ne by done; done.
Qed.

Lemma getSetting_table t key : getSetting (from_table t) key = Ok (t !! key).
Proof. unfold getSetting, from_table. by destruct (t !! key). Qed.
Lemma GetOIDC_table `{AEAD} t box : GetOIDCConfig (from_table t) box = Ok {|
  do_Enabled := is_true <$> t !! SettingOIDCEnabled; do_Issuer := t !! SettingOIDCIssuer;
  do_ClientID := t !! SettingOIDCClientID; do_ClientSecret := openSecret box (t !! SettingOIDCClientSecret);
  do_RedirectURL := t !! SettingOIDCRedirectURL; do_AllowedEmails := t !! SettingOIDCAllowedEmails;
  do_AllowedDomains := t !! SettingOIDCAllowedDomains; do_AdminEmails := t !! SettingOIDCAdminEmails |}.
Proof. unfold GetOIDCConfig. by rewrite !getSetting_table. Qed.
Lemma GetDomain_table t : GetDomainConfig (from_table t) = Ok (mkDomainCfg (t !! SettingBaseDomain) (t !! SettingControlBaseURL)).
Proof. unfold GetDomainConfig. by rewrite !getSetting_table. Qed.
Lemma GetGitHub_table `{AEAD} t box : let token := openSecret box (t !! SettingGitHubToken) in
  GetGitHubConfig (from_table t) box = Ok {|
    gh_EnabledSet := bool_decide (is_Some (t !! SettingGitHubMirrorEnabled));
    gh_Enabled := default false (is_true <$> t !! SettingGitHubMirrorEnabled);
    gh_Org := default "" (t !! SettingGitHubOrg); gh_Token := default "" token;
    gh_TokenSet := bool_decide (is_Some token); gh_WebhookSecret := default "" (t !! SettingGitHubWebhookSecret) |}.
Proof. cbn zeta. unfold GetGitHubConfig. by rewrite !getSetting_table. Qed.

(** Decide equations between keys *)
Ltac decide_keys := repeat match goal with
  | |- context [decide (?a = ?b)] =>
      let d := eval vm_compute in (bool_decide (a = b)) in
      match d with
      | true => rewrite (decide_True (P := a = b)) by reflexivity
      | false => rewrite (decide_False (P := a = b)) by (apply String.eqb_neq; reflexivity)
      end
  end.
Ltac lookups := unfold upd_oidc, upd_fields, oidc_fields, upd_domain, upd_github; cbn [foldl fst snd];
  rewrite ?lookup_upd_secret, ?lookup_upd_field, ?lookup_upd_plain, ?lookup_upd_bool; decide_keys.

(** What a partial update makes of the stored configuration *)
Definition merge_secret (clear : bool) (new old : option string) : option string :=
  if clear then None else match new with Some v => if (v =? "")%string then old else Some v | None => old end.
Definition merge_oidc (in_ : SetOIDC) (old : DBOIDC) : DBOIDC := {|
  do_Enabled := match so_Enabled in_ with Some b => Some b | None => do_Enabled old end;
  do_Issuer := merge_field (so_Issuer in_) (do_Issuer old);
  do_ClientID := merge_field (so_ClientID in_) (do_ClientID old);
  do_ClientSecret := merge_secret (so_ClearClientSecret in_) (so_ClientSecret in_) (do_ClientSecret old);
  do_RedirectURL := merge_field (so_RedirectURL in_) (do_RedirectURL old);
  do_AllowedEmails := merge_field (so_AllowedEmails in_) (do_AllowedEmails old);
  do_AllowedDomains := merge_field (so_AllowedDomains in_) (do_AllowedDomains old);
  do_AdminEmails := merge_field (so_AdminEmails in_) (do_AdminEmails old) |}.
Definition merge_github (in_ : SetGitHub) (old : GitHubConfig) : GitHubConfig :=
  let token := merge_secret (sg_ClearToken in_) (sg_Token in_) (if gh_TokenSet old then Some (gh_Token old) else None) in
  {| gh_EnabledSet := match sg_Enabled in_ with Some _ => true | None => gh_EnabledSet old end;
     gh_Enabled := default (gh_Enabled old) (sg_Enabled in_); gh_Org := default (gh_Org old) (sg_Org in_);
     gh_Token := default "" token; gh_TokenSet := bool_decide (is_Some token);
     gh_WebhookSecret := default (gh_WebhookSecret old) (sg_WebhookSecret in_) |}.
Definition oidc_keys : list string := SettingOIDCEnabled :: SettingOIDCClientSecret :: [SettingOIDCIssuer;
  SettingOIDCClientID; SettingOIDCRedirectURL; SettingOIDCAllowedEmails; SettingOIDCAllowedDomains; SettingOIDCAdminEmails].
Definition github_keys : list string :=
  [SettingGitHubMirrorEnabled; SettingGitHubOrg; SettingGitHubWebhookSecret; SettingGitHubToken].

Section secrets.
Context `{AEADLaws} (b b' : Box) (nonce : option bytes).
Context (Hkey : box_key b' = box_key b) (Hnonce : ∀ n, nonce = Some n → String.length n = NonceSize).

Lemma read_secret clear v old : stored (Some b) nonce clear v →
  openSecret (Some b') (if clear then None else match sealed_as (Some b) nonce v with Some ct => Some ct | None => old end) =
  merge_secret clear v (openSecret (Some b') old).
Proof.
  unfold stored, merge_secret, sealed_as. destruct clear; [done|]. intros [?|Hs]; [done|]. destruct v as [v|]; [|done].
  destruct (String.eqb_spec v "") as [->|Hv]; [done|]. destruct (Seal b nonce v) as [ct|] eqn:E.
  - destruct (open_seal b b' nonce v ct Hkey Hnonce E) as [Hne Ho]. unfold openSecret.
    by rewrite (proj2 (String.eqb_neq _ _) Hne).
  - destruct Hs as [Hs|[? ?]]; [by destruct (Hv Hs)|done].
Qed.
Lemma read_bool (b0 : bool) : is_true (if b0 then boolTrue else boolFalse) = b0.
Proof. by destruct b0. Qed.

Lemma read_oidc in_ t old : stored (Some b) nonce (so_ClearClientSecret in_) (so_ClientSecret in_) →
  GetOIDCConfig (from_table t) (Some b') = Ok old →
  GetOIDCConfig (from_table (upd_oidc (Some b) nonce in_ t)) (Some b') = Ok (merge_oidc in_ old).
Proof.
  intros Hs. rewrite !GetOIDC_table. intros [= <-]. unfold merge_oidc. cbn [do_Enabled do_Issuer do_ClientID
    do_ClientSecret do_RedirectURL do_AllowedEmails do_AllowedDomains do_AdminEmails].
  do 2 f_equal; lookups; try done; [|by apply read_secret].
  destruct (so_Enabled in_) as [e|]; [|done]. simpl. by rewrite read_bool.
Qed.
Lemma read_github in_ t old : stored (Some b) nonce (sg_ClearToken in_) (sg_Token in_) →
  GetGitHubConfig (from_table t) (Some b') = Ok old →
  GetGitHubConfig (from_table (upd_github (Some b) nonce in_ t)) (Some b') = Ok (merge_github in_ old).
Proof.
  intros Hs. rewrite !GetGitHub_table. intros [= <-]. unfold merge_github. cbn [gh_EnabledSet gh_Enabled gh_Org gh_Token
    gh_TokenSet gh_WebhookSecret].
  assert (∀ o : option string, (if bool_decide (is_Some o) then Some (default "" o) else None) = o) as Ho
    by (intros [o|]; [done|by rewrite bool_decide_eq_false_2 by (by intros [? ?])]).
  rewrite Ho. do 2 f_equal; lookups; rewrite ?read_secret by done; try done.
  - by destruct (sg_Enabled in_).
  - destruct (sg_Enabled in_) as [e|]; [|done]. simpl. apply read_bool.
  - by destruct (sg_Org in_).
  - by destruct (sg_WebhookSecret in_).
Qed.
Lemma other_oidc_keys in_ t k : k ∉ oidc_keys → upd_oidc (Some b) nonce in_ t !! k = t !! k.
Proof.
  unfold oidc_keys. intros Hk. rewrite !not_elem_of_cons in Hk. destruct_and! Hk. unfold upd_oidc, upd_fields, oidc_fields.
  cbn [foldl fst snd]. rewrite lookup_upd_secret, !lookup_upd_field, lookup_upd_bool. by rewrite !decide_False by done.
Qed.
Lemma other_github_keys in_ t k : k ∉ github_keys → upd_github (Some b) nonce in_ t !! k = t !! k.
Proof.
  unfold github_keys. intros Hk. rewrite !not_elem_of_cons in Hk. destruct_and! Hk. unfold upd_github.
  rewrite lookup_upd_secret, !lookup_upd_plain, lookup_upd_bool. by rewrite !decide_False by done.
Qed.
End secrets.

(** C28 (roundtrip): a settings update is read back.  After a successful partial
    update of the OIDC configuration the store returns the old configuration with
    exactly the given fields replaced: an empty field reverts to unset, an empty
    secret keeps the stored one, clearing removes it, and the secret comes back
    decrypted, also from a box that may no longer seal; no other setting changed.
    The same holds of the GitHub mirror configuration. *)
Theorem settings_roundtrip `{Faults} `{AEADLaws} (b b' : Box) (nonce : option bytes) (t t' : settings) :
  box_key b' = box_key b → (∀ n, nonce = Some n → String.length n = NonceSize) →
  (∀ in_ old, SetOIDCConfig (Some b) nonce in_ t = (t', Ok tt) → GetOIDCConfig (from_table t) (Some b') = Ok old →
     GetOIDCConfig (from_table t') (Some b') = Ok (merge_oidc in_ old) ∧ ∀ k, k ∉ oidc_keys → t' !! k = t !! k) ∧
  (∀ in_ old, SetGitHubConfig (Some b) nonce in_ t = (t', Ok tt) → GetGitHubConfig (from_table t) (Some b') = Ok old →
     GetGitHubConfig (from_table t') (Some b') = Ok (merge_github in_ old) ∧ ∀ k, k ∉ github_keys → t' !! k = t !! k).
Proof.
  intros Hk Hn. split; intros in_ old.
  - intros [(-> & Hs & _)|[[e He] _]]%SetOIDC_cases Hold; [|done].
    split; [by apply read_oidc|intros k; apply other_oidc_keys].
  - intros [(-> & Hs & _)|[[e He] _]]%SetGitHub_cases Hold; [|done].
    split; [by apply read_github|intros k; apply other_github_keys].
Qed.

(** C29 (error): a settings update that fails changes nothing.  Whatever statement
    fails, the table is the one before the transaction, unless the commit took
    effect and only its confirmation was lost, and then the whole update is there.
    In particular an update that carries a secret fails, and changes nothing,
    where there is no box to seal it with, where the box may not seal because its
    key is derived, and where there is no randomness. *)
Theorem settings_failure `{Faults} `{AEAD} (box : option Box) (nonce : option bytes) (in_ : SetOIDC) (gh : SetGitHub)
    (base control : option string) (t t' : settings) (r : Res store_err unit) :
  let lost := ∃ msg, commits = CommitLost msg in
  let unsealed := ∀ b n, box = Some b → nonce = Some n → sealDisabled b = true in
  (SetOIDCConfig box nonce in_ t = (t', r) →
     (r ≠ Ok tt → t' = t ∨ lost ∧ t' = upd_oidc box nonce in_ t) ∧
     (unsealed → so_ClearClientSecret in_ = false → default "" (so_ClientSecret in_) ≠ "" → r ≠ Ok tt ∧ t' = t)) ∧
  (SetGitHubConfig box nonce gh t = (t', r) →
     (r ≠ Ok tt → t' = t ∨ lost ∧ t' = upd_github box nonce gh t) ∧
     (unsealed → sg_ClearToken gh = false → default "" (sg_Token gh) ≠ "" → r ≠ Ok tt ∧ t' = t)) ∧
  (SetDomainConfig base control t = (t', r) → r ≠ Ok tt → t' = t ∨ lost ∧ t' = upd_domain base control t).
Proof.
  intros lost unsealed.
  assert (∀ clear v, unsealed → clear = false → default "" v ≠ "" → ¬ stored box nonce clear v) as Hno.
  { intros clear v Hu -> Hv [?|[?|[ct Hct]]]; [done..|]. unfold sealed_as, Seal in Hct.
    destruct v as [v|]; [|done]. destruct box as [b|]; [|done]. destruct (v =? "")%string; [done|].
    destruct nonce as [n|]; [rewrite (Hu b n) in Hct by done|destruct (sealDisabled b)]; done. }
  split_and!; [intros Hr%SetOIDC_cases|intros Hr%SetGitHub_cases|intros Hr%SetDomain_cases];
    [split|split|intros Hne].
  1,3: intros Hne; destruct Hr as [(-> & _ & [->|[_ ?]])|[_ ->]]; [done|by right|by left].
  1,2: intros Hu Hc Hv; destruct Hr as [(_ & Hs & _)|[[e ->] ->]]; [by destruct (Hno _ _ Hu Hc Hv)|done].
  destruct Hr as [(-> & [->|[_ ?]])|[_ ->]]; [done|by right|by left].
Qed.

(** Where a secret is kept under [key]: what was there, nothing, or the
    encryption of the one supplied under the key of a box that may seal *)
Definition kept_sealed `{AEAD} (box : option Box) (nonce : option bytes) (key : string) (supplied : option string)
    (t t' : settings) : Prop :=
  t' !! key = t !! key ∨ t' !! key = None ∨
  ∃ b n v, box = Some b ∧ nonce = Some n ∧ sealDisabled b = false ∧ supplied = Some v ∧
    t' !! key = Some (b64_encode b64_std true (String versionByte (n +:+ aead_Seal (box_key b) n v))).
Lemma upd_secret_sealed `{AEAD} box nonce key clear v t0 t :
  t0 !! key = t !! key → kept_sealed box nonce key v t (upd_secret box nonce key clear v t0).
Proof.
  intros Hold. unfold kept_sealed. rewrite lookup_upd_secret, decide_True by done.
  destruct clear; [by right; left|]. unfold sealed_as, Seal.
  destruct v as [v|], box as [b|]; try by left.
  destruct (v =? "")%string, (sealDisabled b) eqn:Hd, nonce as [n|]; try by left.
  right. right. exists b, n, v. by split_and!.
Qed.
Lemma upd_secret_elsewhere `{AEAD} box nonce key clear v v' t :
  delete key (upd_secret box nonce key clear v t) = delete key (upd_secret box nonce key clear v' t).
Proof.
  apply map_eq. intros k. destruct (decide (k = key)) as [->|Hk];
    [by rewrite !lookup_delete_eq|rewrite !lookup_delete_ne by done].
  by rewrite !lookup_upd_secret, !decide_False by done.
Qed.

(** The same update with another secret *)
Definition with_secret (in_ : SetOIDC) (v : string) : SetOIDC :=
  mkSetOIDC (so_Enabled in_) (so_Issuer in_) (so_ClientID in_) (Some v) (so_ClearClientSecret in_)
    (so_RedirectURL in_) (so_AllowedEmails in_) (so_AllowedDomains in_) (so_AdminEmails in_).
Definition with_token (gh : SetGitHub) (v : string) : SetGitHub :=
  mkSetGitHub (sg_Enabled gh) (sg_Org gh) (sg_WebhookSecret gh) (Some v) (sg_ClearToken gh).

(** C30 (safety): the OIDC client secret and the GitHub token are stored sealed.
    Whatever becomes of an update that carries one, the value stored for it is the
    old one, none, or the encryption of the secret under the key of a box that may
    seal; and after successful updates no other stored value depends on the secret
    supplied.  The webhook secret of the GitHub settings is not among these: it is
    stored as it is supplied, which the last part says. *)
Theorem secrets_sealed `{Faults} `{AEAD} (box : option Box) (nonce : option bytes) (in_ : SetOIDC) (gh : SetGitHub)
    (other : string) (t t1 t2 : settings) (r1 r2 : Res store_err unit) :
  (SetOIDCConfig box nonce in_ t = (t1, r1) →
   kept_sealed box nonce SettingOIDCClientSecret (so_ClientSecret in_) t t1 ∧
   (SetOIDCConfig box nonce (with_secret in_ other) t = (t2, r2) → r1 = Ok tt → r2 = Ok tt →
    delete SettingOIDCClientSecret t1 = delete SettingOIDCClientSecret t2)) ∧
  (SetGitHubConfig box nonce gh t = (t1, r1) →
   kept_sealed box nonce SettingGitHubToken (sg_Token gh) t t1 ∧
   (SetGitHubConfig box nonce (with_token gh other) t = (t2, r2) → r1 = Ok tt → r2 = Ok tt →
    delete SettingGitHubToken t1 = delete SettingGitHubToken t2) ∧
   (r1 = Ok tt → ∀ v, sg_WebhookSecret gh = Some v → t1 !! SettingGitHubWebhookSecret = Some v)).
Proof.
  split; intros H1.
  - apply SetOIDC_cases in H1. split; [|intros H2%SetOIDC_cases -> ->].
    + destruct H1 as [(-> & _)|[_ ->]]; [|by left]. apply upd_secret_sealed. by lookups.
    + destruct H1 as [(-> & _)|[[e ?] _]], H2 as [(-> & _)|[[e' ?] _]]; try done. apply upd_secret_elsewhere.
  - apply SetGitHub_cases in H1. split_and!; [|intros H2%SetGitHub_cases -> ->|intros -> v Hv].
    + destruct H1 as [(-> & _)|[_ ->]]; [|by left]. apply upd_secret_sealed. by lookups.
    + destruct H1 as [(-> & _)|[[e ?] _]], H2 as [(-> & _)|[[e' ?] _]]; try done. apply upd_secret_elsewhere.
    + destruct H1 as [(-> & _)|[[e ?] _]]; [|done]. unfold upd_github. rewrite lookup_upd_secret, Hv. by lookups.
Qed.

(** ** Samples *)

#[local] Instance no_faults : Faults :=
  {| begin_fails := None; statement_fails _ := None; commits := Committed; rollback_fails := None |}.
#[local] Existing Instance clear_cipher.
#[local] Existing Instance clear_cipher_laws.
Definition sample_box : Box := mkBox "key" false.
Definition sample_nonce : option bytes := Some "012345678901".
Definition sample_update : SetOIDC :=
  mkSetOIDC (Some true) (Some "") (Some "id") (Some "secret") false None (Some "a@b.c") None None.
Definition sample_table : settings := {[ SettingOIDCIssuer := "https://idp"; SettingOIDCClientSecret := "??" ]}.
Definition sample_after : settings := (SetOIDCConfig (Some sample_box) sample_nonce sample_update sample_table).1.
Definition sample_update2 : SetOIDC :=
  mkSetOIDC (Some true) (Some "") (Some "id") (Some "x") false None (Some "a@b.c") None None.
Definition sample_after2 : settings := (SetOIDCConfig (Some sample_box) sample_nonce sample_update2 sample_table).1.
Lemma sample_run : SetOIDCConfig (Some sample_box) sample_nonce sample_update sample_table = (sample_after, Ok tt) ∧
  SetOIDCConfig (Some sample_box) sample_nonce sample_update2 sample_table = (sample_after2, Ok tt) ∧
  GetOIDCConfig (from_table sample_table) (Some (mkBox "key" true)) =
    Ok (mkDBOIDC None (Some "https://idp") None None None None None None).
Proof. repeat split; vm_compute; reflexivity. Qed.
Lemma settings_roundtrip_witness :
  GetOIDCConfig (from_table sample_after) (Some (mkBox "key" true)) =
  Ok (mkDBOIDC (Some true) None (Some "id") (Some "secret") None (Some "a@b.c") None None).
Proof.
  destruct (settings_roundtrip sample_box (mkBox "key" true) sample_nonce sample_table sample_after) as [Ho _];
    [reflexivity|intros n [= <-]; reflexivity|].
  destruct (Ho sample_update _ (proj1 sample_run) (proj2 (proj2 sample_run))) as [Hr _]. exact Hr.
Defined.
Lemma settings_failure_witness :
  SetOIDCConfig (Some (mkBox "key" true)) sample_nonce sample_update sample_table =
    (sample_table, Err (StoreFailed ("db: encrypt oidc_client_secret: " +:+ sealText ErrSealDerivedKeyProd))) ∧
  sample_table !! SettingOIDCClientID = None.
Proof.
  split; [vm_compute; reflexivity|].
  destruct (settings_failure (Some (mkBox "key" true)) sample_nonce sample_update (mkSetGitHub None None None None false)
    None None sample_table (SetOIDCConfig (Some (mkBox "key" true)) sample_nonce sample_update sample_table).1
    (SetOIDCConfig (Some (mkBox "key" true)) sample_nonce sample_update sample_table).2) as [Ho _].
  destruct Ho as [_ Ho]; [vm_compute; reflexivity|]. destruct Ho as [_ Ho];
    [intros b n [= <-] _; reflexivity|reflexivity|discriminate|]. rewrite <-Ho. vm_compute. reflexivity.
Defined.
Definition sample_github : SetGitHub := mkSetGitHub None None (Some "hook") (Some "ghp_1") false.
Definition sample_linked : settings := (SetGitHubConfig (Some sample_box) sample_nonce sample_github sample_table).1.
Lemma sample_link : SetGitHubConfig (Some sample_box) sample_nonce sample_github sample_table = (sample_linked, Ok tt).
Proof. vm_compute. reflexivity. Qed.
Lemma secrets_sealed_witness :
  delete SettingOIDCClientSecret sample_after = delete SettingOIDCClientSecret sample_after2 ∧
  kept_sealed (Some sample_box) sample_nonce SettingGitHubToken (Some "ghp_1") sample_table sample_linked ∧
  sample_linked !! SettingGitHubWebhookSecret = Some "hook".
Proof.
  split.
  - destruct (secrets_sealed (Some sample_box) sample_nonce sample_update sample_github "x" sample_table sample_after
      sample_after2 (Ok tt) (Ok tt)) as [Ho _].
    destruct (Ho (proj1 sample_run)) as [_ Hd]. exact (Hd (proj1 (proj2 sample_run)) eq_refl eq_refl).
  - destruct (secrets_sealed (Some sample_box) sample_nonce sample_update sample_github "x" sample_table sample_linked
      sample_linked (Ok tt) (Ok tt)) as [_ Hg].
    destruct (Hg sample_link) as (Hs & _ & Hw). split; [exact Hs|]. apply Hw; reflexivity.
Defined.
