(* ===== verification/DomainCfg.v ===== *)
(** * The effective base domain and control URL (domaincfg/)

    Both settings come from the environment, else from the database, else from
    the request.  The database is read once and cached until an administrator
    changes it; [Section cache] is the concurrent life of such a cache. *)

From S2P Require Import Prelude GoStrings Encoding GoURL SiteTypes Http Preview Access Wire ApiWorld Settings.

Inductive Source := SourceEnv | SourceDB | SourceDerived.
#[export] Instance Source_eq : EqDecision Source.
Proof. solve_decision. Defined.
Definition Source_String (s : Source) : string :=
  match s with SourceEnv => "env" | SourceDB => "db" | SourceDerived => "derived" end.

Record Effective A := mkEff { Value : A; Src : Source; Locked : bool }.
Arguments mkEff {A}.
Arguments Value {A}.
Arguments Src {A}.
Arguments Locked {A}.
Record Resolved := mkResolved {
  rs_BaseDomain : Effective string; rs_ControlBaseURL : Effective string; rs_ControlHost : string;
}.

(** ** domaincfg.go *)

(** The cache of one database read.  The remembered error and the flag that goes
    with it are never looked at. *)
Record read_cache V := mkCache { c_value : V; c_once : bool }.
Arguments mkCache {V}.
Arguments c_value {V}.
Arguments c_once {V}.
(** cachedDomainConfig, cachedDBConfig: [rd] is what the store answers if it is
    asked, [unset] what a failure counts as *)
Definition cached {V} (unset : V) (rd : Res store_err V) (c : read_cache V) : read_cache V * V :=
  if c_once c then (c, c_value c)
  else let v := match rd with Ok v => v | Err _ => unset end in (mkCache v true, v).
Definition InvalidateCache {V} (c : read_cache V) : read_cache V := mkCache (c_value c) false.

Record DomainProvider := mkDomain {
  dp_store : bool; envBaseDomain : string; envBaseDomainSet : bool; envControlBaseURL : string; envControlSet : bool;
}.
Definition unset_domain : DomainConfig := mkDomainCfg None None.
Definition domain_cache0 : read_cache DomainConfig := mkCache unset_domain false.

Section domain.
Context `{GoUnicode}.

Definition NewDomain (store : bool) (base : string) (baseSet : bool) (control : string) (controlSet : bool) :
  DomainProvider := mkDomain store (trim_space base) baseSet (trim_space control) controlSet.

Section provider.
Context (p : DomainProvider).

Definition baseDomainEnvLocked : bool := envBaseDomainSet p && negb (envBaseDomain p =? "")%string.
Definition controlEnvLocked : bool := envControlSet p && negb (envControlBaseURL p =? "")%string.
Definition needsDB : bool := negb baseDomainEnvLocked || negb controlEnvLocked.

(** The first hop of a comma list *)
Definition first_hop (v : string) : string :=
  match index_byte "," v with Some i => trim_space (str_take i v) | None => v end.
Definition requestSchemeHost (r : option Request) : string * string :=
  match r with
  | None => ("", "")
  | Some r =>
      let xfh := trim_space (hget (rHeader r) "X-Forwarded-Host") in
      let host := if negb (xfh =? "")%string then first_hop xfh else rHost r in
      let xfp := trim_space (hget (rHeader r) "X-Forwarded-Proto") in
      let scheme := if rTLS r then "https" else "http" in
      (if negb (xfp =? "")%string then to_lower (first_hop xfp) else scheme, host)
  end.
Definition hostWithoutPort (host : string) : string :=
  let host := trim_space host in
  if (host =? "")%string then "" else match split_host_port host with Some (h, _) => h | None => host end.
Definition hostOf (rawURL : string) : string :=
  if (rawURL =? "")%string then ""
  else match url_Parse rawURL with
       | Some u => if (u_Host u =? "")%string then "" else strip_port (u_Host u)
       | None => ""
       end.

Definition resolveBaseDomain (dbcfg : DomainConfig) (host : string) : Effective string :=
  if baseDomainEnvLocked then mkEff (envBaseDomain p) SourceEnv true
  else if negb (default "" (dc_BaseDomain dbcfg) =? "")%string then
    mkEff (default "" (dc_BaseDomain dbcfg)) SourceDB false
  else mkEff (hostWithoutPort host) SourceDerived false.
Definition resolveControlBaseURL (dbcfg : DomainConfig) (scheme host : string) : Effective string :=
  if controlEnvLocked then mkEff (envControlBaseURL p) SourceEnv true
  else if negb (default "" (dc_ControlBaseURL dbcfg) =? "")%string then
    mkEff (default "" (dc_ControlBaseURL dbcfg)) SourceDB false
  else mkEff (if negb (host =? "")%string then (if (scheme =? "")%string then "http" else scheme) +:+ "://" +:+ host else "")
         SourceDerived false.

(** What is resolved once the database configuration is at hand *)
Definition resolve_with (dbcfg : DomainConfig) (r : option Request) : Resolved :=
  let '(scheme, host) := requestSchemeHost r in
  let control := resolveControlBaseURL dbcfg scheme host in
  mkResolved (resolveBaseDomain dbcfg host) control (hostOf (Value control)).
Definition Resolve (rd : Res store_err DomainConfig) (r : option Request) (c : read_cache DomainConfig) :
  read_cache DomainConfig * Resolved :=
  if needsDB && dp_store p then
    let '(c, dbcfg) := cached unset_domain rd c in (c, resolve_with dbcfg r)
  else (c, resolve_with unset_domain r).
Definition BaseDomainFor (rd : Res store_err DomainConfig) (r : Request) (c : read_cache DomainConfig) :
  read_cache DomainConfig * string :=
  let '(c, res) := Resolve rd (Some r) c in (c, Value (rs_BaseDomain res)).
Definition ControlBaseURLFor (rd : Res store_err DomainConfig) (r : Request) (c : read_cache DomainConfig) :
  read_cache DomainConfig * string :=
  let '(c, res) := Resolve rd (Some r) c in (c, Value (rs_ControlBaseURL res)).
End provider.

(** ** validate.go; an error is its reason *)

Definition maxHostnameLen : nat := 253.
Definition maxLabelLen : nat := 63.
Definition validateLabel (label : string) : Res string unit :=
  if (label =? "")%string then Err "empty label (consecutive dots)"
  else if maxLabelLen <? String.length label then Err "label too long (max 63 chars)"
  else if has_prefix "-" label || has_suffix "-" label then Err "label must not start or end with a hyphen"
  else if str_forall (λ c, is_lower c || is_digit c || (c =? "-")%char) label then Ok tt
  else Err "label has invalid characters (allowed: a-z 0-9 -)".
Fixpoint validate_labels (l : list string) : Res string unit :=
  match l with [] => Ok tt | x :: l => check! validateLabel x in validate_labels l end.
Definition ValidateBaseDomain (s : string) : Res string unit :=
  let h := trim_space s in
  if (h =? "")%string then Err "must not be empty"
  else if negb (h =? to_lower h)%string then Err "must be lowercase"
  else if maxHostnameLen <? String.length h then Err "too long (max 253 chars)"
  else if has_suffix "." h then Err "must not end with a dot"
  else if contains "://" h || str_exists (char_of " /:?#@") h then
    Err "must be a bare hostname (no scheme, port, or path)"
  else validate_labels (split "." h).
Definition ValidateControlBaseURL (s : string) : Res string unit :=
  let raw := trim_space s in
  if (raw =? "")%string then Err "must not be empty"
  else match url_Parse raw with
       | None => Err "not a valid URL"
       | Some u =>
           let scheme := to_lower (u_Scheme u) in
           if negb ((scheme =? "http")%string || (scheme =? "https")%string) then Err "must use the http or https scheme"
           else if (u_Host u =? "")%string || (strip_port (u_Host u) =? "")%string then Err "must include a host"
           else if contains_char "#" raw then Err "must not contain a fragment"
           else if negb (trim_right (λ c, (c =? slash)%char) (url_Path u) =? "")%string then Err "must not include a path"
           else Ok tt
       end.
Definition NormalizeControlBaseURL (s : string) : string := trim_right (λ c, (c =? slash)%char) (trim_space s).
End domain.

(** ** A cache of the database and its invalidation, concurrently

    Requests fill the cache under its mutex, with statements that are not a
    transaction; administrators commit changes at any time and invalidate the
    cache after each commit, which needs the mutex. *)

Section cache.
Context {T V : Type} (read : T → V) (unset : V).

Record cache_state := mkCS {
  cs_table : T; cs_cache : read_cache V;
  (** a request holds the mutex and is reading; whether nothing was committed since it began *)
  cs_reading : option bool;
  (** commits whose invalidation is still to come *)
  cs_pending : nat;
  (** the cached value stands for a read that failed *)
  cs_blip : bool;
}.
Inductive cache_step : cache_state → cache_state → Prop :=
| BeginRead t c n b : c_once c = false → cache_step (mkCS t c None n b) (mkCS t c (Some true) n b)
| Commits t t' c l n b : cache_step (mkCS t c l n b) (mkCS t' c ((λ _, false) <$> l) (S n) b)
| EndRead t c clean n b rd :
    (∀ v, rd = Ok v → clean = true → v = read t) →
    cache_step (mkCS t c (Some clean) n b) (mkCS t (cached unset rd c).1 None n (negb (is_ok rd)))
| Invalidate t c n b : cache_step (mkCS t c None (S n) b) (mkCS t (InvalidateCache c) None n b).
Inductive cache_reachable : cache_state → Prop :=
| cache_init t v : cache_reachable (mkCS t (mkCache v false) None 0 false)
| cache_next s s' : cache_reachable s → cache_step s s' → cache_reachable s'.

Definition coherent (s : cache_state) : Prop :=
  (c_once (cs_cache s) = true →
   if cs_blip s then c_value (cs_cache s) = unset else c_value (cs_cache s) = read (cs_table s) ∨ 0 < cs_pending s) ∧
  (cs_reading s = Some false → 0 < cs_pending s) ∧
  (is_Some (cs_reading s) → c_once (cs_cache s) = false).
Lemma coherent_step s s' : cache_step s s' → coherent s → coherent s'.
Proof.
  unfold coherent. destruct 1 as [t c n b Hc|t t' c l n b|t c clean n b rd Hrd|t c n b]; simpl; intros (Hv & Hl & Ho).
  - split_and!; [intros Hc'; congruence|done|done].
  - split_and!; [intros Hc; specialize (Hv Hc); destruct b; [done|right; lia]|intros; lia|]. destruct l; [intros _; apply Ho; by eexists|by intros [? ?]].
  - unfold cached. rewrite Ho by by eexists. simpl. split_and!; [|done|by intros [? ?]].
    intros _. destruct rd as [v|e]; [|done]. simpl. destruct clean; [left; by apply Hrd|right; by apply Hl].
  - split_and!; [done|done|by intros [? ?]].
Qed.
Lemma reachable_coherent s : cache_reachable s → coherent s.
Proof.
  induction 1 as [t v|s s' _ IH Hs]; [split_and!; simpl; [done|done|by intros [? ?]]|by eapply coherent_step].
Qed.
End cache.

(** C31 (invariant): an administrator's change is in force once it is saved.  However
    requests that fill the cache, with reads that are not transactions, interleave
    with changes being committed and invalidated, when every change that was
    committed has been invalidated, a request that is answered from the cache sees
    the stored configuration; but if the read that filled the cache failed, it sees
    an unset configuration instead, until the next invalidation. *)
Theorem cache_coherent {T V : Type} (read : T → V) (unset : V) (s : cache_state) (rd : Res store_err V) :
  cache_reachable read unset s → cs_pending s = 0 → c_once (cs_cache s) = true →
  cached unset rd (cs_cache s) = (cs_cache s, if cs_blip s then unset else read (cs_table s)).
Proof.
  intros [Hv _]%reachable_coherent Hp Hc. unfold cached. rewrite Hc. f_equal. specialize (Hv Hc).
  destruct (cs_blip s); [done|]. destruct Hv; [done|lia].
Qed.
Definition number_state (c : read_cache nat) : cache_state := mkCS (T := nat) 2 c None 0 false.
Lemma cache_coherent_witness : cached 0 (Ok 5) (mkCache 2 true) = (mkCache 2 true, 2).
Proof.
  assert (cache_reachable (λ n : nat, n) 0 (number_state (mkCache 2 true))) as Hr.
  { eapply cache_next; [|exact (EndRead (λ n : nat, n) 0 2 (mkCache 1 false) true 0 false (Ok 2) ltac:(intros v [= <-] _; reflexivity))].
    eapply cache_next; [|exact (BeginRead (λ n : nat, n) 0 2 (mkCache 1 false) 0 false eq_refl)].
    eapply cache_next; [|exact (Invalidate (λ n : nat, n) 0 2 (mkCache 1 true) 0 false)].
    eapply cache_next; [|exact (EndRead (λ n : nat, n) 0 2 (mkCache 0 false) false 1 false (Ok 1) ltac:(intros v _ [=]))].
    eapply cache_next; [|exact (Commits (λ n : nat, n) 0 1 2 (mkCache 0 false) (Some true) 0 false)].
    eapply cache_next; [|exact (BeginRead (λ n : nat, n) 0 1 (mkCache 0 false) 0 false eq_refl)]. apply cache_init. }
  exact (cache_coherent (λ n : nat, n) 0 _ (Ok 5) Hr eq_refl eq_refl).
Defined.

(** ** Facts *)

Section facts.
Context `{GoUnicode} (p : DomainProvider).

(** A configured instance is not steered by its requests.  The
    base domain and the control URL are those of the environment when it sets
    them, else the stored ones, and then no header of any request changes them;
    only when neither is there does the request decide, through the forwarded or
    the plain host.  A field is locked exactly when the environment sets it, and
    when it sets both the store is never read. *)
Theorem domain_precedence (rd : Res store_err DomainConfig) (r : option Request) (c : read_cache DomainConfig) :
  let '(c', res) := Resolve p rd r c in
  let stored := if needsDB p && dp_store p then (cached unset_domain rd c).2 else unset_domain in
  let pick (locked : bool) (env : string) (db : option string) (derived : string) (e : Effective string) :=
    e = (if locked then mkEff env SourceEnv true
         else match db with
              | Some v => if (v =? "")%string then mkEff derived SourceDerived false else mkEff v SourceDB false
              | None => mkEff derived SourceDerived false
              end) in
  let '(scheme, host) := requestSchemeHost r in
  pick (baseDomainEnvLocked p) (envBaseDomain p) (dc_BaseDomain stored) (hostWithoutPort host) (rs_BaseDomain res) ∧
  pick (controlEnvLocked p) (envControlBaseURL p) (dc_ControlBaseURL stored)
    (if (host =? "")%string then "" else (if (scheme =? "")%string then "http" else scheme) +:+ "://" +:+ host)
    (rs_ControlBaseURL res) ∧
  rs_ControlHost res = hostOf (Value (rs_ControlBaseURL res)) ∧
  (baseDomainEnvLocked p = true → controlEnvLocked p = true → c' = c).
Proof.
  unfold Resolve. destruct (needsDB p && dp_store p) eqn:Hn; [destruct (cached _ _ _) as [c' v] eqn:Hc|];
    unfold resolve_with; destruct (requestSchemeHost r) as [scheme host]; cbn [fst snd rs_BaseDomain rs_ControlBaseURL
      rs_ControlHost]; unfold resolveBaseDomain, resolveControlBaseURL; (split_and!; [| |done|]).
  - destruct (baseDomainEnvLocked p); [done|]. destruct (dc_BaseDomain v) as [d|]; [|done]. simpl.
    by destruct (String.eqb_spec d "").
  - destruct (controlEnvLocked p); [done|]. destruct (host =? "")%string, (dc_ControlBaseURL v) as [d|]; try done; simpl;
      by destruct (String.eqb_spec d "").
  - intros Hb Hu. apply andb_true_iff in Hn as [Hn _]. unfold needsDB in Hn. by rewrite Hb, Hu in Hn.
  - by destruct (baseDomainEnvLocked p).
  - by destruct (controlEnvLocked p), (host =? "")%string.
  - done.
Qed.
End facts.

(** What passes as a base domain *)
Section names.
Context `{GoUnicode}.
Definition dns_label (l : string) : Prop :=
  1 ≤ String.length l ≤ 63 ∧ str_forall (λ c, is_lower c || is_digit c || (c =? "-")%char) l = true ∧
  has_prefix "-" l = false ∧ has_suffix "-" l = false.
Lemma validateLabel_iff l : validateLabel l = Ok tt ↔ dns_label l.
Proof.
  unfold validateLabel, dns_label, maxLabelLen. destruct (String.eqb_spec l "") as [->|Hl].
  { split; [done|]. intros [[? _] _]. simpl in *. lia. }
  assert (1 ≤ String.length l) by (destruct l; [done|simpl; lia]).
  destruct (Nat.ltb_spec 63 (String.length l)); [split; [done|lia]|].
  destruct (has_prefix "-" l), (has_suffix "-" l); cbn [orb]; try (split; [done|naive_solver]).
  destruct (str_forall _ l); split; intros; destruct_and?; try done; split_and!; done || lia.
Qed.
Lemma validate_labels_iff l : validate_labels l = Ok tt ↔ Forall dns_label l.
Proof.
  induction l as [|x l IH]; simpl; [by split; [constructor|]|]. rewrite Forall_cons, <-validateLabel_iff, <-IH.
  destruct (validateLabel x) as [[]|e]; simpl; naive_solver.
Qed.
End names.
