(* ===== verification/OidcCfg.v ===== *)
(** * The effective OIDC configuration and the provider built from it (oidccfg/)

    Each field comes from the environment, else from the database, else from a
    default.  The provider that discovery yields is built on first use and kept
    under the issuer, client and redirect it was built for. *)

From S2P Require Import Prelude GoStrings SiteTypes Http Wire ApiWorld Settings Config DomainCfg.

(** ** oidccfg.go *)

Definition providerPassword : string := "password".
Definition providerOIDC : string := "oidc".
Definition callbackPath : string := "/auth/callback".

Record EffectiveOIDC := mkEffOIDC {
  eff_Enabled : Effective bool; eff_Issuer : Effective string; eff_ClientID : Effective string;
  eff_ClientSecret : Effective string; eff_RedirectURL : Effective string; eff_AllowedEmails : Effective (list string);
  eff_AllowedDomains : Effective (list string); eff_AdminEmails : Effective (list string);
  eff_RedirectExplicitlySet : bool;
}.
Record OidcProvider := mkOidc {
  op_store : bool; op_env : OIDCConfig; op_envSet : OIDCEnvSet;
  envAuthModeLocked : bool; envOIDCEnabled : bool; envPasswordOn : bool; envNoneOn : bool;
}.
Definition NewOidc (store : bool) (env : OIDCConfig) (envSet : OIDCEnvSet) (modes : list string) : OidcProvider :=
  let on m := existsb (λ x, (x =? m)%string) modes in
  mkOidc store env envSet (es_AuthMode envSet) (on AuthModeOIDC) (on AuthModePassword) (on AuthModeNone).
Definition unset_oidc : DBOIDC := mkDBOIDC None None None None None None None None.

(** cachedDBConfig: a provider without a store caches the empty configuration. *)
Definition cachedDBConfig (p : OidcProvider) (rd : Res store_err DBOIDC) (c : read_cache DBOIDC) :
  read_cache DBOIDC * DBOIDC := cached unset_oidc (if op_store p then rd else Ok unset_oidc) c.

(** ** resolve.go *)

Definition ne (s : string) : bool := negb (s =? "")%string.
Definition oidc_env (v : string) : Effective string := mkEff v SourceEnv true.

Section resolve.
Context `{GoUnicode} (p : OidcProvider).

Definition defaultIssuer (envIssuer : string) : string :=
  if ne (trim_space envIssuer) then envIssuer else "https://accounts.google.com".
(** oidccfg's own copies of splitCSV and lowerCSV *)
Definition oidc_splitCSV : string → list string := splitCSV.
Definition lowerList : list string → list string := lowerCSV.

Definition resolveEnabled (d : DBOIDC) : Effective bool :=
  if envAuthModeLocked p then mkEff (envOIDCEnabled p) SourceEnv true
  else match do_Enabled d with
       | Some b => mkEff b SourceDB false
       | None => mkEff false SourceDerived false
       end.
Definition resolveIssuer (d : DBOIDC) : Effective string :=
  if es_Issuer (op_envSet p) then oidc_env (Issuer (op_env p))
  else if ne (default "" (do_Issuer d)) then mkEff (default "" (do_Issuer d)) SourceDB false
  else mkEff (defaultIssuer (Issuer (op_env p))) SourceDerived false.
Definition resolveClientID (d : DBOIDC) : Effective string :=
  if es_ClientID (op_envSet p) then oidc_env (ClientID (op_env p))
  else if ne (default "" (do_ClientID d)) then mkEff (default "" (do_ClientID d)) SourceDB false
  else mkEff "" SourceDerived false.
Definition resolveClientSecret (d : DBOIDC) : Effective string :=
  if es_ClientSecret (op_envSet p) then oidc_env (ClientSecret (op_env p))
  else if ne (default "" (do_ClientSecret d)) then mkEff (default "" (do_ClientSecret d)) SourceDB false
  else mkEff "" SourceDerived false.
Definition resolveList (dbRaw : option string) (envVal : list string) (envIsSet : bool) : Effective (list string) :=
  if envIsSet then mkEff (lowerList envVal) SourceEnv true
  else match dbRaw with
       | Some raw =>
           if ne (trim_space raw) then mkEff (lowerList (oidc_splitCSV raw)) SourceDB false else mkEff [] SourceDerived false
       | None => mkEff [] SourceDerived false
       end.
(** [base] is the effective control URL of the request *)
Definition resolveRedirect (d : DBOIDC) (base : string) : Effective string * bool :=
  if es_RedirectURL (op_envSet p) then (oidc_env (RedirectURL (op_env p)), true)
  else if ne (default "" (do_RedirectURL d)) then (mkEff (default "" (do_RedirectURL d)) SourceDB false, true)
  else (mkEff (if ne base then trim_right (λ c, (c =? slash)%char) base +:+ callbackPath else "") SourceDerived false, false).

Definition resolve_oidc (d : DBOIDC) (base : string) : EffectiveOIDC :=
  let redirect := resolveRedirect d base in {|
  eff_Enabled := resolveEnabled d; eff_Issuer := resolveIssuer d; eff_ClientID := resolveClientID d;
  eff_ClientSecret := resolveClientSecret d;
  eff_AllowedEmails := resolveList (do_AllowedEmails d) (AllowedEmails (op_env p)) (es_AllowedEmails (op_envSet p));
  eff_AllowedDomains := resolveList (do_AllowedDomains d) (AllowedDomains (op_env p)) (es_AllowedDomains (op_envSet p));
  eff_AdminEmails := resolveList (do_AdminEmails d) (AdminEmails (op_env p)) (es_AdminEmails (op_envSet p));
  eff_RedirectURL := redirect.1; eff_RedirectExplicitlySet := redirect.2 |}.
Definition ResolveOIDC (rd : Res store_err DBOIDC) (base : string) (c : read_cache DBOIDC) :
  read_cache DBOIDC * EffectiveOIDC := let '(c, d) := cachedDBConfig p rd c in (c, resolve_oidc d base).

Definition EffectiveOIDCConfig (e : EffectiveOIDC) : OIDCConfig := {|
  Issuer := Value (eff_Issuer e); ClientID := Value (eff_ClientID e); ClientSecret := Value (eff_ClientSecret e);
  RedirectURL := Value (eff_RedirectURL e); AllowedEmails := Value (eff_AllowedEmails e);
  AllowedDomains := Value (eff_AllowedDomains e); AdminEmails := Value (eff_AdminEmails e) |}.
Definition OIDCUsable (e : EffectiveOIDC) : bool :=
  Value (eff_Enabled e) && ne (Value (eff_ClientID e)) && ne (Value (eff_ClientSecret e)).
Definition AccessGated (e : EffectiveOIDC) : bool :=
  negb (is_nil (Value (eff_AllowedEmails e))) || negb (is_nil (Value (eff_AllowedDomains e))).

Definition Providers (rd : Res store_err DBOIDC) (base : string) (c : read_cache DBOIDC) :
  read_cache DBOIDC * list string :=
  if envAuthModeLocked p then
    (c, (if envOIDCEnabled p then [providerOIDC] else []) ++ (if envPasswordOn p then [providerPassword] else []) ++
        (if envNoneOn p then ["none"] else []))
  else
    let '(c, e) := ResolveOIDC rd base c in
    (c, (if OIDCUsable e then [providerOIDC] else []) ++ [providerPassword]).
Definition OIDCEnabledEffective (rd : Res store_err DBOIDC) (base : string) (c : read_cache DBOIDC) :
  read_cache DBOIDC * bool :=
  if envAuthModeLocked p then (c, envOIDCEnabled p)
  else let '(c, e) := ResolveOIDC rd base c in (c, OIDCUsable e).
Definition AuthModeEnvLocked : bool := envAuthModeLocked p.
End resolve.

(** ** build.go *)

Inductive prov_err := ErrOIDCNotConfigured | ErrNoBuilder | EDiscovery (msg : string).
Record cacheKey := mkKey { k_issuer : string; k_clientID : string; k_clientSecret : string; k_redirect : string }.
#[export] Instance cacheKey_eq : EqDecision cacheKey.
Proof. solve_decision. Defined.
(** The built provider, or the discovery error; [None] before the first build *)
Record prov_cache P := mkProv { pc_key : cacheKey; pc_result : option (Res string P) }.
Arguments mkProv {P}.
Arguments pc_key {P}.
Arguments pc_result {P}.
Definition prov_cache0 {P} : prov_cache P := mkProv (mkKey "" "" "" "") None.
Definition InvalidateProvider {P} (_ : prov_cache P) : prov_cache P := prov_cache0.

Section build.
Context {P : Type}.
(** The injected builder: discovery over the network, at the moment it is asked *)
Context (builder : option (EffectiveOIDC → Res string P)).

Definition key_of (e : EffectiveOIDC) : cacheKey :=
  mkKey (Value (eff_Issuer e)) (Value (eff_ClientID e)) (Value (eff_ClientSecret e)) (Value (eff_RedirectURL e)).
Definition discovered (r : Res string P) : Res prov_err P :=
  match r with Ok x => Ok x | Err m => Err (EDiscovery m) end.
(** The critical section of ProviderFor, for a configuration resolved before *)
Definition build_locked (e : EffectiveOIDC) (c : prov_cache P) : prov_cache P * Res prov_err P :=
  match pc_result c with
  | Some r => if decide (pc_key c = key_of e) then (c, discovered r)
              else match builder with
                   | None => (c, Err ErrNoBuilder)
                   | Some build => (mkProv (key_of e) (Some (build e)), discovered (build e))
                   end
  | None => match builder with
            | None => (c, Err ErrNoBuilder)
            | Some build => (mkProv (key_of e) (Some (build e)), discovered (build e))
            end
  end.
Definition ProviderFor (e : EffectiveOIDC) (c : prov_cache P) : prov_cache P * Res prov_err P :=
  if OIDCUsable e then build_locked e c else (c, Err ErrOIDCNotConfigured).
Definition ValidateDiscovery (e : EffectiveOIDC) : Res prov_err unit :=
  if OIDCUsable e then
    match builder with
    | None => Err ErrNoBuilder
    | Some build => match build e with Ok _ => Ok tt | Err m => Err (EDiscovery m) end
    end
  else Err ErrOIDCNotConfigured.
End build.

(** ** Facts *)

(** What happens to the cached provider over time *)
Inductive prov_op P := OpUse (builder : option (EffectiveOIDC → Res string P)) (e : EffectiveOIDC) | OpInvalidate.
Arguments OpUse {P}.
Arguments OpInvalidate {P}.
Definition prov_step {P} (c : prov_cache P) (o : prov_op P) : prov_cache P :=
  match o with OpUse b e => (ProviderFor b e c).1 | OpInvalidate => InvalidateProvider c end.

(** The cached result is what building some configuration with the cached key gave
    since the last invalidation. *)
Definition built_since {P} (ops : list (prov_op P)) (k : cacheKey) (r : Res string P) : Prop :=
  ∃ pre build e post, ops = pre ++ OpUse (Some build) e :: post ∧ OpInvalidate ∉ post ∧
    OIDCUsable e = true ∧ key_of e = k ∧ build e = r.
Lemma built_since_snoc {P} (ops : list (prov_op P)) b e k r :
  built_since ops k r → built_since (ops ++ [OpUse b e]) k r.
Proof.
  intros (pre & build & e' & post & -> & Hp & ?). exists pre, build, e', (post ++ [OpUse b e]).
  rewrite <-app_assoc. split; [done|]. split; [|done]. set_solver.
Qed.
Lemma built_now {P} (ops : list (prov_op P)) build e :
  OIDCUsable e = true → built_since (ops ++ [OpUse (Some build) e]) (key_of e) (build e).
Proof. intros He. exists ops, build, e, []. split_and!; try done. apply not_elem_of_nil. Qed.

Lemma ProviderFor_inv {P} (ops : list (prov_op P)) b e c :
  (∀ r, pc_result c = Some r → built_since ops (pc_key c) r) →
  (∀ r, pc_result (ProviderFor b e c).1 = Some r → built_since (ops ++ [OpUse b e]) (pc_key (ProviderFor b e c).1) r) ∧
  (∀ r, (ProviderFor b e c).2 = discovered r →
        OIDCUsable e = true ∧ built_since (ops ++ [OpUse b e]) (key_of e) r).
Proof.
  intros Hc. unfold ProviderFor. destruct (OIDCUsable e) eqn:He; simpl.
  2:{ split; [intros r Hr; by apply built_since_snoc, Hc|]. intros [x|m] Hr; simpl in Hr; done. }
  assert (∀ r r', discovered (P := P) r = discovered r' → r = r') as Hinj by (intros [?|?] [?|?] Hd; simpl in Hd; congruence).
  unfold build_locked. destruct (pc_result c) as [r0|] eqn:Hr0; [destruct (decide _) as [Hk|Hk]|].
  - split; [intros r Hr; simpl in Hr; apply built_since_snoc, Hc; congruence|]. simpl. intros r Hr%Hinj. subst r. split; [done|].
    rewrite <-Hk. by apply built_since_snoc, Hc.
  - destruct b as [build|]; simpl.
    + split; [intros r [= <-]; by apply built_now|]. intros r Hr%Hinj. subst r. split; [done|by apply built_now].
    + split; [intros r Hr; simpl in Hr; apply built_since_snoc, Hc; congruence|by intros [?|?] ?].
  - destruct b as [build|]; simpl.
    + split; [intros r [= <-]; by apply built_now|]. intros r Hr%Hinj. subst r. split; [done|by apply built_now].
    + split; [intros r Hr; simpl in Hr; apply built_since_snoc, Hc; congruence|by intros [?|?] ?].
Qed.
Lemma prov_inv {P} (ops : list (prov_op P)) :
  ∀ r, pc_result (foldl prov_step prov_cache0 ops) = Some r →
  built_since ops (pc_key (foldl prov_step prov_cache0 ops)) r.
Proof.
  induction ops as [|o ops IH] using rev_ind; [done|]. rewrite foldl_app. cbn [foldl].
  destruct o as [b e|]; simpl; [|done]. by apply ProviderFor_inv.
Qed.

(** C32 (safety): a redirect login talks to the provider that is configured.
    However logins and administrator's changes follow each other, the provider a
    login is given was discovered for exactly the issuer, client, secret and
    redirect in force for that login, after the last change, and only where OIDC
    is enabled with credentials; so is a discovery error it is shown. *)
Theorem provider_provenance {P : Type} (ops : list (prov_op P)) (builder : option (EffectiveOIDC → Res string P))
    (e : EffectiveOIDC) (r : Res string P) :
  (ProviderFor builder e (foldl prov_step prov_cache0 ops)).2 = discovered r →
  OIDCUsable e = true ∧
  ∃ pre build e' post, ops ++ [OpUse builder e] = pre ++ OpUse (Some build) e' :: post ∧ OpInvalidate ∉ post ∧
    OIDCUsable e' = true ∧ build e' = r ∧
    Value (eff_Issuer e') = Value (eff_Issuer e) ∧ Value (eff_ClientID e') = Value (eff_ClientID e) ∧
    Value (eff_ClientSecret e') = Value (eff_ClientSecret e) ∧ Value (eff_RedirectURL e') = Value (eff_RedirectURL e).
Proof.
  intros Hr. destruct (ProviderFor_inv ops builder e _ (prov_inv ops)) as [_ Hx].
  destruct (Hx r Hr) as (Hu & pre & build & e' & post & -> & Hp & Hu' & Hk & Hb). split; [done|].
  exists pre, build, e', post. by injection Hk.
Qed.

Section offered.
Context `{GoUnicode} `{GoDuration}.

(** The emergency password stays.  Of a configuration that loads,
    with the providers not pinned by the environment, the login page offers the
    password whatever the database holds, whether or not it can be read, and
    whatever is asked; and redirect login exactly when it is enabled there with
    credentials.  Pinned, it offers the providers of the environment and no
    setting changes that. *)
Theorem providers_offered (get : getenv) (c : Config) (store : bool) (rd : Res store_err DBOIDC) (base : string)
    (cache : read_cache DBOIDC) :
  load get = Ok c →
  let p := NewOidc store (cfg_OIDC c) (cfg_OIDCEnvSet c) (AuthModes c) in
  let offered := (Providers p rd base cache).2 in
  if es_AuthMode (cfg_OIDCEnvSet c) then offered = AuthModes c
  else providerPassword ∈ offered ∧ "none" ∉ offered ∧
       (providerOIDC ∈ offered ↔ OIDCUsable (ResolveOIDC p rd base cache).2 = true).
Proof.
  intros (_ & _ & (raw & Hm) & _)%load_ok p offered. apply parseAuthModes_ok in Hm as [Hm _].
  unfold offered, Providers. change (envAuthModeLocked p) with (es_AuthMode (cfg_OIDCEnvSet c)).
  destruct (es_AuthMode _); cbn [snd].
  - unfold normal_modes in Hm. rewrite !elem_of_cons, elem_of_nil in Hm. unfold p, NewOidc. simpl.
    by destruct Hm as [->|[->|[->|[->|[]]]]].
  - destruct (ResolveOIDC p rd base cache) as [c' e]. cbn [snd]. destruct (OIDCUsable e); unfold providerOIDC, providerPassword;
      rewrite ?elem_of_app, ?elem_of_cons, ?elem_of_nil; naive_solver.
Qed.
End offered.

(** ** Samples *)

Section samples.
Let A := ascii_only_unicode.
Local Existing Instance A.
#[local] Instance no_durations : GoDuration := {| ParseDuration _ := None |}.
(** Discovery that succeeds and yields the configuration it was given *)
Definition echo : option (EffectiveOIDC → Res string OIDCConfig) := Some (λ e, Ok (EffectiveOIDCConfig e)).
Definition sample_oidc : OidcProvider := mkOidc true (mkOIDC "https://accounts.google.com" "" "" "/cb" [] [] [])
  (mkEnvSet false false false false false false false false) false false true false.
Definition stored_oidc (emails : string) : DBOIDC :=
  mkDBOIDC (Some true) None (Some "id") (Some "secret") None (Some emails) None None.
Definition sample_eff (emails : string) : EffectiveOIDC := resolve_oidc sample_oidc (stored_oidc emails) "https://host/".
Lemma provider_provenance_witness :
  (ProviderFor echo (sample_eff "a@b.c") (foldl prov_step prov_cache0 [OpUse echo (sample_eff "a@b.c"); OpInvalidate])).2 =
    Ok (EffectiveOIDCConfig (sample_eff "a@b.c")) ∧ OIDCUsable (sample_eff "a@b.c") = true.
Proof.
  assert ((ProviderFor echo (sample_eff "a@b.c")
             (foldl prov_step prov_cache0 [OpUse echo (sample_eff "a@b.c"); OpInvalidate])).2 =
          discovered (Ok (EffectiveOIDCConfig (sample_eff "a@b.c")))) as Hr by (vm_compute; reflexivity).
  split; [exact Hr|]. exact (proj1 (provider_provenance _ _ _ _ Hr)).
Defined.
Lemma providers_offered_witness :
  match load (λ _, None) with
  | Ok c => providerPassword ∈ (Providers (NewOidc true (cfg_OIDC c) (cfg_OIDCEnvSet c) (AuthModes c))
                                  (Ok (stored_oidc "a@b.c")) "" (mkCache unset_oidc false)).2
  | Err _ => False
  end.
Proof.
  assert (is_ok (load (λ _, None)) = true) as Hok by (vm_compute; reflexivity).
  assert (match load (λ _, None) with Ok c => es_AuthMode (cfg_OIDCEnvSet c) = false | Err _ => False end) as He
    by (vm_compute; reflexivity).
  destruct (load (λ _, None)) as [c|e] eqn:Hl; [|discriminate Hok].
  pose proof (providers_offered _ c true (Ok (stored_oidc "a@b.c")) "" (mkCache unset_oidc false) Hl) as Ho.
  cbn zeta in Ho. rewrite He in Ho. exact (proj1 Ho).
Defined.

Example resolve_samples :
  Value (eff_RedirectURL (sample_eff "x")) = "https://host/auth/callback" ∧
  Value (eff_AllowedEmails (sample_eff " A@b.c,, a@B.C,d ")) = ["a@b.c"; "d"] ∧
  Value (eff_Issuer (sample_eff "x")) = "https://accounts.google.com" ∧ AccessGated (sample_eff " , ") = false.
Proof. vm_compute. by split_and!. Qed.

(** A login that resolved its configuration before an administrator narrowed the
    allowlist, and builds after the caches were invalidated, leaves a provider
    with the old allowlist for all later logins: the key does not cover the lists. *)
Example stale_allowlist :
  let old := sample_eff "a@b.c,former@b.c" in let new := sample_eff "a@b.c" in
  let cache := (ProviderFor echo old (InvalidateProvider prov_cache0)).1 in
  (ProviderFor echo new cache).2 = Ok (EffectiveOIDCConfig old) ∧
  AllowedEmails (EffectiveOIDCConfig old) = ["a@b.c"; "former@b.c"] ∧
  AllowedEmails (EffectiveOIDCConfig new) = ["a@b.c"].
Proof. vm_compute. by split_and!. Qed.

(** A read that fails once is not asked again: the configuration counts as unset
    until the next change. *)
Example failed_read_sticks :
  let c := (cached unset_oidc (Err (StoreFailed "timeout")) (mkCache unset_oidc false)).1 in
  cached unset_oidc (Ok (stored_oidc "a@b.c")) c = (c, unset_oidc).
Proof. done. Qed.
End samples.
