(* ===== verification/NetGuard.v ===== *)
(** * Public addresses (auth/oidc.go: the discovery dialer; api/admin_oidc.go)

    Discovery fetches documents from an issuer an administrator names; both the
    form and the dialer refuse addresses that are not public.  A net.IP is its
    bytes, four or sixteen of them; parsing and resolving are the class [GoNet]. *)

From S2P Require Import Prelude GoStrings GoURL Http.

(** ** net.IP *)

Abbreviation IP := (list N) (only parsing).
Class GoNet := { ParseIP : string → option (list N); LookupIP : string → option (list (list N)) }.

Definition byte_at (ip : IP) (i : nat) : N := default 0%N (ip !! i).
Definition is_v4_in_6 (ip : IP) : bool := bool_decide (take 12 ip = repeat 0%N 10 ++ [255%N; 255%N]).
Definition To4 (ip : IP) : option IP :=
  if length ip =? 4 then Some ip else if (length ip =? 16) && is_v4_in_6 ip then Some (drop 12 ip) else None.
Definition IsUnspecified (ip : IP) : bool :=
  match To4 ip with Some q => bool_decide (q = repeat 0%N 4) | None => bool_decide (ip = repeat 0%N 16) end.
Definition IsLoopback (ip : IP) : bool :=
  match To4 ip with Some q => (byte_at q 0 =? 127)%N | None => bool_decide (ip = repeat 0%N 15 ++ [1%N]) end.
Definition IsPrivate (ip : IP) : bool :=
  match To4 ip with
  | Some q => (byte_at q 0 =? 10)%N || ((byte_at q 0 =? 172)%N && (N.land (byte_at q 1) 240 =? 16)%N) ||
              ((byte_at q 0 =? 192)%N && (byte_at q 1 =? 168)%N)
  | None => (length ip =? 16) && (N.land (byte_at ip 0) 254 =? 252)%N
  end.
Definition IsMulticast (ip : IP) : bool :=
  match To4 ip with
  | Some q => (N.land (byte_at q 0) 240 =? 224)%N
  | None => (length ip =? 16) && (byte_at ip 0 =? 255)%N
  end.
Definition IsLinkLocalMulticast (ip : IP) : bool :=
  match To4 ip with
  | Some q => (byte_at q 0 =? 224)%N && (byte_at q 1 =? 0)%N && (byte_at q 2 =? 0)%N
  | None => (length ip =? 16) && (byte_at ip 0 =? 255)%N && (N.land (byte_at ip 1) 15 =? 2)%N
  end.
Definition IsLinkLocalUnicast (ip : IP) : bool :=
  match To4 ip with
  | Some q => (byte_at q 0 =? 169)%N && (byte_at q 1 =? 254)%N
  | None => (length ip =? 16) && (byte_at ip 0 =? 254)%N && (N.land (byte_at ip 1) 192 =? 128)%N
  end.

(** ** api/admin_oidc.go *)

Definition isGlobalUnicast (ip : IP) : bool :=
  if bool_decide (ip = []) || IsUnspecified ip || IsLoopback ip || IsLinkLocalUnicast ip || IsLinkLocalMulticast ip ||
     IsMulticast ip
  then false
  else if IsPrivate ip then false else true.

Section issuer.
Context `{GoUnicode} `{GoNet}.

Definition isInternalHost (host : string) : bool :=
  let h := to_lower (trim_suffix "." host) in
  if (h =? "localhost")%string then true
  else if has_suffix ".localhost" h then true
  else match LookupIP host with
       | None => false
       | Some ips => existsb (λ ip, negb (isGlobalUnicast ip)) ips
       end.
(** [""] when the issuer is acceptable, else the reason *)
Definition validateOIDCIssuer (s : string) : string :=
  match url_Parse (trim_space s) with
  | None => "not a valid URL"
  | Some u =>
      let host := strip_port (u_Host u) in
      if negb (to_lower (u_Scheme u) =? "https")%string then "must use the https scheme"
      else if (host =? "")%string then "must include a host"
      else match ParseIP host with
           | Some _ => "must be a hostname, not an IP address"
           | None =>
               if isInternalHost host
               then "must be a public host (internal/loopback/private hosts are not allowed)"
               else ""
           end
  end.
Definition validateRedirectURL (s : string) : string :=
  match url_Parse (trim_space s) with
  | None => "not a valid URL"
  | Some u =>
      let scheme := to_lower (u_Scheme u) in
      if negb ((scheme =? "http")%string || (scheme =? "https")%string) then "must use the http or https scheme"
      else if (u_Host u =? "")%string || (strip_port (u_Host u) =? "")%string then "must include a host"
      else ""
  end.
End issuer.

(** ** auth/oidc.go: the dialer *)

Definition isGlobalIP (ip : IP) : bool :=
  if bool_decide (ip = []) || IsUnspecified ip || IsLoopback ip || IsLinkLocalUnicast ip || IsLinkLocalMulticast ip ||
     IsMulticast ip
  then false
  else if IsPrivate ip then false else true.

Inductive dial_err := BadDialAddress | ResolveFailed | NonPublic (ip : IP) | DialFailed (msg : string) | NoUsableAddress.

Section dialer.
Context {Conn : Type} (dial : IP → string → Res string Conn).

(** The loop over the candidates, with the addresses it connected to *)
Fixpoint dial_loop (port : string) (ips : list IP) (lastErr : option dial_err) : list IP * Res dial_err Conn :=
  match ips with
  | [] => ([], Err (default NoUsableAddress lastErr))
  | ip :: ips =>
      if negb (isGlobalIP ip) then dial_loop port ips (Some (NonPublic ip))
      else match dial ip port with
           | Ok conn => ([ip], Ok conn)
           | Err m => let '(seen, r) := dial_loop port ips (Some (DialFailed m)) in (ip :: seen, r)
           end
  end.
Definition ssrfGuardedDialContext (lookup : string → option (list IP)) (addr : string) : list IP * Res dial_err Conn :=
  match split_host_port addr with
  | None => ([], Err BadDialAddress)
  | Some (host, port) =>
      match lookup host with None => ([], Err ResolveFailed) | Some ips => dial_loop port ips None end
  end.

(** Discovery never connects to an address that is not public.
    Whatever the name resolves to at the moment it is dialed, every address tried
    is one of those and passes the check, and a connection that is returned is to
    the last of them; where none passes, the dial fails. *)
Theorem dial_public (lookup : string → option (list IP)) (addr : string) (tried : list IP) (r : Res dial_err Conn) :
  ssrfGuardedDialContext lookup addr = (tried, r) →
  (∀ ip, ip ∈ tried → isGlobalIP ip = true ∧
     ∃ host port ips, split_host_port addr = Some (host, port) ∧ lookup host = Some ips ∧ ip ∈ ips) ∧
  (∀ conn, r = Ok conn → ∃ pre ip port, tried = pre ++ [ip] ∧ dial ip port = Ok conn).
Proof.
  unfold ssrfGuardedDialContext. destruct (split_host_port addr) as [[host port]|] eqn:Ha;
    [|intros [= <- <-]; split; [intros ip Hip; by apply elem_of_nil in Hip|done]].
  destruct (lookup host) as [ips|] eqn:Hl; [|intros [= <- <-]; split; [intros ip Hip; by apply elem_of_nil in Hip|done]].
  intros Hd. assert ((∀ ip, ip ∈ tried → isGlobalIP ip = true ∧ ip ∈ ips) ∧
    (∀ conn, r = Ok conn → ∃ pre ip port, tried = pre ++ [ip] ∧ dial ip port = Ok conn)) as [Ht Hc].
  { clear Hl. revert tried Hd. generalize (@None dial_err). induction ips as [|ip ips IH]; intros last tried; cbn [dial_loop].
    { intros [= <- <-]. split; [intros ip Hip; by apply elem_of_nil in Hip|done]. }
    destruct (isGlobalIP ip) eqn:Hg; cbn [negb].
    - destruct (dial ip port) as [conn|m] eqn:Ed.
      + intros [= <- <-]. split; [intros x ->%list_elem_of_singleton; split; [done|by left]|].
        intros c [= <-]. by exists [], ip, port.
      + destruct (dial_loop port ips _) as [seen r'] eqn:Hl'. intros [= <- <-]. destruct (IH _ _ Hl') as [IH1 IH2]. split.
        * intros x [->|Hx]%elem_of_cons; [split; [done|by left]|]. destruct (IH1 x Hx). split; [done|by right].
        * intros c Hr. destruct (IH2 c Hr) as (pre & x & p & -> & ?). by exists (ip :: pre), x, p.
    - intros Hl. destruct (IH _ _ Hl) as [IH1 IH2]. split; [|done]. intros x Hx. destruct (IH1 x Hx). split; [done|by right]. }
  split; [|done]. intros ip Hip. destruct (Ht ip Hip). split; [done|]. by exists host, port, ips.
Qed.
End dialer.

Definition sample_lookup (host : string) : option (list IP) :=
  if (host =? "idp.example")%string then Some [[127; 0; 0; 1]; [169; 254; 169; 254]; [8; 8; 8; 8]]%N else None.
Lemma dial_public_witness :
  ssrfGuardedDialContext (λ ip port, Ok (ip, port)) sample_lookup "idp.example:443" =
    ([[8; 8; 8; 8]%N], Ok ([8; 8; 8; 8]%N, "443")) ∧ isGlobalIP [8; 8; 8; 8]%N = true.
Proof.
  assert (ssrfGuardedDialContext (λ ip port, Ok (ip, port)) sample_lookup "idp.example:443" =
    ([[8; 8; 8; 8]%N], Ok ([8; 8; 8; 8]%N, "443"))) as Hd by (vm_compute; reflexivity).
  split; [exact Hd|]. destruct (dial_public _ _ _ _ _ Hd) as [Hg _]. exact (proj1 (Hg _ ltac:(by left))).
Defined.

(** The same addresses in both checks, and some that are not public but pass:
    shared address space (with the metadata service of one cloud), the rest of
    0.0.0.0/8, broadcast, and a private address behind a NAT64 prefix. *)
Lemma isGlobal_agree ip : isGlobalIP ip = isGlobalUnicast ip.
Proof. done. Qed.
Example passes_for_public :
  isGlobalIP <$> [[100; 100; 100; 200]; [0; 1; 2; 3]; [255; 255; 255; 255]; [198; 18; 0; 1];
    [0; 100; 255; 155; 0; 0; 0; 0; 0; 0; 0; 0; 10; 0; 0; 1]]%N = repeat true 5 ∧
  isGlobalIP <$> [[10; 0; 0; 1]; [172; 31; 0; 1]; [192; 168; 1; 1]; [127; 0; 0; 1]; [169; 254; 169; 254]; [0; 0; 0; 0];
    [224; 0; 0; 1]; []; repeat 0 16; repeat 0 15 ++ [1]; 253 :: repeat 0 15; 254 :: 128 :: repeat 0 14;
    repeat 0 10 ++ [255; 255; 10; 0; 0; 1]]%N = repeat false 13.
Proof. vm_compute. by split. Qed.
