(* ===== verification/AdminConfig.v ===== *)
(** * The admin endpoints for domain and OIDC settings (api/admin_domain.go,
    api/admin_oidc.go, with the adapters of app/adapters.go)

    A handler runs over the settings table, the caches of the two providers and
    the audit entries written; its early returns are failures with a reply.

    Proved: no save opens the instance, and the view hides the secret. *)

From S2P Require Import Prelude GoStrings SiteErrors SiteTypes Http Access Wire ApiWorld Rest Config SecretBox Settings DomainCfg OidcCfg.
From S2P Require Import NetGuard.

Record inst P := mkInst {
  i_settings : gmap string string; i_domain : read_cache DomainConfig; i_oidc : read_cache DBOIDC; i_prov : prov_cache P;
  i_audit : list Audit;
}.
Arguments mkInst {P}.
Arguments i_settings {P}.
Arguments i_domain {P}.
Arguments i_oidc {P}.
Arguments i_prov {P}.
Arguments i_audit {P}.

(** api.OIDCResolved: what crosses from oidccfg to the handlers *)
Record OIDCResolved := mkOIDCResolved {
  ar_Enabled : Effective bool; ar_Issuer : Effective string; ar_ClientID : Effective string;
  ar_ClientSecretSet : bool; ar_ClientSecretSrc : Source; ar_ClientSecretLck : bool; ar_RedirectURL : Effective string;
  ar_AllowedEmails : Effective (list string); ar_AllowedDomains : Effective (list string);
  ar_AdminEmails : Effective (list string);
}.
Definition wrapOIDC (e : EffectiveOIDC) : OIDCResolved := {|
  ar_Enabled := eff_Enabled e; ar_Issuer := eff_Issuer e; ar_ClientID := eff_ClientID e;
  ar_ClientSecretSet := ne (Value (eff_ClientSecret e)); ar_ClientSecretSrc := Src (eff_ClientSecret e);
  ar_ClientSecretLck := Locked (eff_ClientSecret e); ar_RedirectURL := eff_RedirectURL e;
  ar_AllowedEmails := eff_AllowedEmails e; ar_AllowedDomains := eff_AllowedDomains e;
  ar_AdminEmails := eff_AdminEmails e |}.

Record DomainBody := mkDomainBody { db_BaseDomain : option string; db_ControlBaseURL : option string }.
Record OIDCBody := mkOIDCBody {
  ob_Enabled : option bool; ob_Issuer : option string; ob_ClientID : option string; ob_ClientSecret : option string;
  ob_ClearClientSecret : bool; ob_RedirectURL : option string; ob_AllowedEmails : option (list string);
  ob_AllowedDomains : option (list string); ob_AdminEmails : option (list string);
}.

Section admin.
Context `{GoUnicode} `{GoNet} `{AEAD} {P : Type}.
(** How the database answers a read of a key; how the transactions of this request
    fare; the box and the randomness of the store *)
Context (ans : gmap string string → string → Res store_err string) `{Faults} (box : option Box) (nonce : option bytes).
Context (dp : DomainProvider) (op : OidcProvider) (r : Request) (user : option SessionUser).
Abbreviation A := (M (inst P) reply).

(** ** The providers and the store, on the state of the instance *)

Definition readDomain (s : inst P) : Res store_err DomainConfig := GetDomainConfig (ans (i_settings s)).
Definition domainResolve : A Resolved := λ s,
  let '(c, res) := Resolve dp (readDomain s) (Some r) (i_domain s) in
  (mkInst (i_settings s) c (i_oidc s) (i_prov s) (i_audit s), Ok res).
(** The redirect asks the domain provider only where nothing else names it. *)
Definition oidcResolve : A EffectiveOIDC := λ s,
  let '(oc, d) := cachedDBConfig op (GetOIDCConfig (ans (i_settings s)) box) (i_oidc s) in
  let '(dc, base) :=
    if es_RedirectURL (op_envSet op) || ne (default "" (do_RedirectURL d)) then (i_domain s, "")
    else ControlBaseURLFor dp (readDomain s) r (i_domain s) in
  (mkInst (i_settings s) dc oc (i_prov s) (i_audit s), Ok (resolve_oidc op d base)).
Definition oidcProviders : A (list string) := λ s,
  if envAuthModeLocked op then (s, Ok (Providers op (Ok unset_oidc) "" (i_oidc s)).2)
  else let '(s, e) := oidcResolve s in
       (s, match e with
           | Ok e => Ok ((if OIDCUsable e then [providerOIDC] else []) ++ [providerPassword])
           | Err e => Err e
           end).
Definition invalidateDomain : A unit :=
  modify (λ s, mkInst (i_settings s) (InvalidateCache (i_domain s)) (i_oidc s) (i_prov s) (i_audit s)).
Definition invalidateOIDC : A unit :=
  modify (λ s, mkInst (i_settings s) (i_domain s) (InvalidateCache (i_oidc s)) (i_prov s) (i_audit s)).
Definition invalidateProvider : A unit :=
  modify (λ s, mkInst (i_settings s) (i_domain s) (i_oidc s) (InvalidateProvider (i_prov s)) (i_audit s)).
Definition storeSet (m : M (gmap string string) store_err unit) : A unit := λ s,
  let '(t, res) := m (i_settings s) in
  (mkInst t (i_domain s) (i_oidc s) (i_prov s) (i_audit s),
   match res with Ok _ => Ok tt | Err e => Err (serviceError e) end).
(** auditBestEffort for the signed-in administrator *)
Definition adminAudit (action : string) (meta : list (string * json)) : A unit :=
  match user with
  | Some u => modify (λ s, mkInst (i_settings s) (i_domain s) (i_oidc s) (i_prov s)
      (i_audit s ++ [mkAudit (Some (su_UserID u)) None None action AuditSourceSystem None meta]))
  | None => ok tt
  end.

(** ** admin_domain.go *)

Definition invalidField (message field reason : string) : reply :=
  writeError StatusUnprocessableEntity codeValidation message (Some (validationDetails field reason)).
Definition lockedField (field envVar : string) : reply :=
  writeError StatusConflict codeConflict (field +:+ " is locked by the environment (" +:+ envVar +:+ " is set)")
    (Some (validationDetails field "locked by environment")).

Definition effectiveDomainAdminConfig : A json :=
  let! res := domainResolve in
  let b := rs_BaseDomain res in let u := rs_ControlBaseURL res in
  ok (JObj [("baseDomain", JStr (Value b)); ("controlBaseURL", JStr (Value u));
            ("baseDomainSource", JStr (Source_String (Src b))); ("controlBaseURLSource", JStr (Source_String (Src u)));
            ("baseDomainLocked", JBool (Locked b)); ("controlBaseURLLocked", JBool (Locked u))]).
Definition adminGetDomain : A reply := let! v := effectiveDomainAdminConfig in ok (writeJSON StatusOK v).

Definition putBaseDomain (v : option string) : A (option string) :=
  match v with
  | None => ok None
  | Some v =>
      guard_not (baseDomainEnvLocked dp) (lockedField "baseDomain" "KOTOJI_BASE_DOMAIN") ;!
      (if ne v then match ValidateBaseDomain v with
                    | Err reason => fail (invalidField "invalid base domain" "baseDomain" reason)
                    | Ok _ => ok (Some v)
                    end
       else ok (Some v))
  end.
Definition putControlBaseURL (v : option string) : A (option string) :=
  match v with
  | None => ok None
  | Some v =>
      guard_not (controlEnvLocked dp) (lockedField "controlBaseURL" "KOTOJI_CONTROL_BASE_URL") ;!
      (if negb (ne v) then ok (Some v)
       else match ValidateControlBaseURL v with
            | Err reason => fail (invalidField "invalid control base URL" "controlBaseURL" reason)
            | Ok _ => ok (Some (NormalizeControlBaseURL v))
            end)
  end.
Definition isSet {X} (o : option X) : bool := match o with Some _ => true | None => false end.
Definition adminPutDomain (body : decoded DomainBody) : A reply :=
  let! body := lift (decodeJSON body) in
  let! base := putBaseDomain (db_BaseDomain body) in
  let! control := putControlBaseURL (db_ControlBaseURL body) in
  if negb (isSet base) && negb (isSet control) then adminGetDomain
  else
    storeSet (SetDomainConfig base control) ;!
    invalidateDomain ;!
    adminAudit "admin.domain.config"
      [("base_domain_set", JBool (isSet base)); ("control_base_url_set", JBool (isSet control))] ;!
    adminGetDomain.

(** ** admin_oidc.go *)

Definition effectiveOIDCAdminConfig : A json :=
  let! e := oidcResolve in
  let! offered := oidcProviders in
  let res := wrapOIDC e in
  let src {X} (name : string) (x : Effective X) : list (string * json) :=
    [(name +:+ "Source", JStr (Source_String (Src x))); (name +:+ "Locked", JBool (Locked x))] in
  ok (JObj ([
    ("enabled", JBool (Value (ar_Enabled res))); ("issuer", JStr (Value (ar_Issuer res)));
    ("clientId", JStr (Value (ar_ClientID res))); ("clientIdSet", JBool (ne (Value (ar_ClientID res))));
    ("clientSecretSet", JBool (ar_ClientSecretSet res));
    ("redirectUrl", JStr (if decide (Src (ar_RedirectURL res) = SourceDerived) then "" else Value (ar_RedirectURL res)));
    ("redirectUrlEffective", JStr (Value (ar_RedirectURL res)));
    ("allowedEmails", strings (Value (ar_AllowedEmails res))); ("allowedDomains", strings (Value (ar_AllowedDomains res)));
    ("adminEmails", strings (Value (ar_AdminEmails res)))] ++
    src "enabled" (ar_Enabled res) ++ src "issuer" (ar_Issuer res) ++ src "clientId" (ar_ClientID res) ++
    [("clientSecretSource", JStr (Source_String (ar_ClientSecretSrc res))); ("clientSecretLocked", JBool (ar_ClientSecretLck res))] ++
    src "redirectUrl" (ar_RedirectURL res) ++ src "allowedEmails" (ar_AllowedEmails res) ++
    src "allowedDomains" (ar_AllowedDomains res) ++ src "adminEmails" (ar_AdminEmails res) ++
    [("authModeLocked", JBool (envAuthModeLocked op)); ("providers", strings offered)])).
Definition adminGetOIDC : A reply := let! v := effectiveOIDCAdminConfig in ok (writeJSON StatusOK v).

Definition joinCSV (l : list string) : string := join "," (List.filter ne (trim_space <$> l)).
(** A field of the body: refused when locked, checked, then part of the write *)
Definition putField {X Y} (locked : bool) (field envVar : string) (v : option X) (check : X → Res reply Y) : A (option Y) :=
  match v with
  | None => ok None
  | Some x => guard_not locked (lockedField field envVar) ;! let! y := lift (check x) in ok (Some y)
  end.
Definition accept {X} (x : X) : Res reply X := Ok x.
Definition checkText (validate : string → string) (message field : string) (v : string) : Res reply string :=
  if ne v && ne (validate v) then Err (invalidField message field (validate v)) else Ok v.
Definition oidcInputHasWrite (i : SetOIDC) : bool :=
  isSet (so_Enabled i) || isSet (so_Issuer i) || isSet (so_ClientID i) || isSet (so_ClientSecret i) ||
  so_ClearClientSecret i || isSet (so_RedirectURL i) || isSet (so_AllowedEmails i) || isSet (so_AllowedDomains i) ||
  isSet (so_AdminEmails i).
(** The fail-closed check of a write that leaves OIDC enabled *)
Definition enableCheck (cur : OIDCResolved) (body : OIDCBody) : Res reply unit :=
  if default (Value (ar_Enabled cur)) (ob_Enabled body) then
    let clientIDPresent := match ob_ClientID body with Some v => ne v | None => ne (Value (ar_ClientID cur)) end in
    let secretPresent := if ob_ClearClientSecret body then false else ar_ClientSecretSet cur in
    let secretPresent := if ne (default "" (ob_ClientSecret body)) then true else secretPresent in
    let present (l : option (list string)) (e : Effective (list string)) :=
      match l with Some l => ne (joinCSV l) | None => negb (is_nil (Value e)) end in
    if negb clientIDPresent || negb secretPresent then
      Err (invalidField "enabling OIDC requires a client id and client secret" "clientSecret"
             "client id + secret must be configured to enable OIDC")
    else if negb (present (ob_AllowedEmails body) (ar_AllowedEmails cur)) &&
            negb (present (ob_AllowedDomains body) (ar_AllowedDomains cur)) then
      Err (invalidField
        "enabling OIDC requires an allowed-emails or allowed-domains gate (fail-closed: empty allowlists deny all sign-ins)"
        "allowedDomains" "set allowedEmails and/or allowedDomains before enabling OIDC")
    else Ok tt
  else Ok tt.
Definition putSecret (locked : bool) (body : OIDCBody) : A (option string * bool) :=
  if isSet (ob_ClientSecret body) || ob_ClearClientSecret body then
    guard_not locked (lockedField "clientSecret" "KOTOJI_OIDC_CLIENT_SECRET") ;!
    ok (ob_ClientSecret body, ob_ClearClientSecret body)
  else ok (None, false).
Definition oidc_audit (body : OIDCBody) : list (string * json) :=
  [("admin_emails_set", JBool (isSet (ob_AdminEmails body))); ("allowed_domains_set", JBool (isSet (ob_AllowedDomains body)));
   ("allowed_emails_set", JBool (isSet (ob_AllowedEmails body))); ("client_id_set", JBool (isSet (ob_ClientID body)));
   ("client_secret_clear", JBool (ob_ClearClientSecret body));
   ("client_secret_set", JBool (ne (default "" (ob_ClientSecret body)))); ("enabled_set", JBool (isSet (ob_Enabled body)));
   ("issuer_set", JBool (isSet (ob_Issuer body))); ("redirect_set", JBool (isSet (ob_RedirectURL body)))].
Definition adminPutOIDC (body : decoded OIDCBody) : A reply :=
  let! body := lift (decodeJSON body) in
  let! e := oidcResolve in
  let cur := wrapOIDC e in
  let! enabled := putField (envAuthModeLocked op) "enabled" "KOTOJI_AUTH_MODE" (ob_Enabled body) accept in
  let! issuer := putField (Locked (ar_Issuer cur)) "issuer" "KOTOJI_OIDC_ISSUER" (ob_Issuer body)
                   (checkText validateOIDCIssuer "invalid issuer URL" "issuer") in
  let! clientID := putField (Locked (ar_ClientID cur)) "clientId" "KOTOJI_OIDC_CLIENT_ID" (ob_ClientID body) accept in
  let! secret := putSecret (ar_ClientSecretLck cur) body in
  let! redirect := putField (Locked (ar_RedirectURL cur)) "redirectUrl" "KOTOJI_OIDC_REDIRECT_URL" (ob_RedirectURL body)
                     (checkText validateRedirectURL "invalid redirect URL" "redirectUrl") in
  let csv l : Res reply string := Ok (joinCSV l) in
  let! emails := putField (Locked (ar_AllowedEmails cur)) "allowedEmails" "KOTOJI_OIDC_ALLOWED_EMAILS" (ob_AllowedEmails body) csv in
  let! domains := putField (Locked (ar_AllowedDomains cur)) "allowedDomains" "KOTOJI_OIDC_ALLOWED_DOMAINS" (ob_AllowedDomains body) csv in
  let! admins := putField (Locked (ar_AdminEmails cur)) "adminEmails" "KOTOJI_OIDC_ADMIN_EMAILS" (ob_AdminEmails body) csv in
  lift (enableCheck cur body) ;!
  let in_ := mkSetOIDC enabled issuer clientID secret.1 secret.2 redirect emails domains admins in
  if negb (oidcInputHasWrite in_) then adminGetOIDC
  else
    storeSet (SetOIDCConfig box nonce in_) ;!
    invalidateOIDC ;!
    invalidateProvider ;!
    adminAudit "admin.oidc.config" (oidc_audit body) ;!
    adminGetOIDC.
End admin.

(** ** Claims about the endpoints for OIDC settings *)

(** *** Lists as text and back *)

Section csv.
Context `{GoUnicode}.

Definition plain (l : list string) : Prop := ∀ x, x ∈ l → all_ascii x = true ∧ no_char "," x = true.

Lemma trim_left_suffix p s : ∃ a, s = a +:+ trim_left p s.
Proof.
  induction s as [|c s [a Ha]]; simpl; [by exists ""|]. destruct (p c); [exists (String c a); simpl; by rewrite <-Ha|by exists ""].
Qed.
Lemma trim_right_prefix p s : ∃ b, s = trim_right p s +:+ b.
Proof.
  induction s as [|c s [b Hb]]; simpl; [by exists ""|].
  destruct (trim_right p s) as [|c' s'] eqn:E; [destruct (p c)|]; [by exists (String c s)|exists s|exists b]; simpl;
    by rewrite ?Hb.
Qed.
Lemma trim_with_part p s : ∃ a b, s = a +:+ trim_with p s +:+ b.
Proof.
  unfold trim_with. destruct (trim_left_suffix p s) as [a Ha]. destruct (trim_right_prefix p (trim_left p s)) as [b Hb].
  exists a, b. by rewrite <-Hb.
Qed.
Lemma trim_space_part f s : all_ascii s = true → str_forall f s = true → str_forall f (trim_space s) = true.
Proof.
  intros Ha Hf. unfold trim_space. rewrite Ha. destruct (trim_with_part is_space s) as (a & b & Heq).
  rewrite Heq, !str_forall_app in Hf. bool_hyps. done.
Qed.
Lemma plain_trim x : all_ascii x = true → no_char "," x = true →
  all_ascii (trim_space x) = true ∧ no_char "," (trim_space x) = true.
Proof. intros Ha Hc. split; by apply trim_space_part. Qed.
Lemma to_lower_ne x : all_ascii x = true → x ≠ "" → to_lower x ≠ "".
Proof. intros Ha. unfold to_lower. rewrite Ha. by destruct x. Qed.

(** Text with something besides blanks in it *)
Definition inked (s : string) : Prop := str_forall is_space s = false.
Lemma trim_right_all p s : trim_right p s = "" → str_forall p s = true.
Proof.
  induction s as [|c s IH]; simpl; [done|]. destruct (trim_right p s); [|done]. destruct (p c); [|done]. simpl. auto.
Qed.
Lemma trim_right_idem p s : trim_right p (trim_right p s) = trim_right p s.
Proof.
  induction s as [|c s IH]; simpl; [done|]. destruct (trim_right p s) as [|d t] eqn:E.
  - destruct (p c) eqn:Hc; simpl; [done|by rewrite Hc].
  - cbn [trim_right] in IH |- *. by rewrite IH.
Qed.
Lemma trim_right_blank p s : str_forall p s = true → trim_right p s = "".
Proof. induction s as [|c s IH]; simpl; [done|]. intros [-> Hs]%andb_true_iff. by rewrite IH. Qed.
Lemma trim_left_all p s : str_forall p (trim_left p s) = true → str_forall p s = true.
Proof. induction s as [|c s IH]; simpl; [done|]. destruct (p c) eqn:Hc; simpl; [auto|]. by rewrite Hc. Qed.
Lemma trim_inked s : all_ascii s = true → inked s → inked (trim_space s) ∧ trim_space s ≠ "" ∧ all_ascii (trim_space s) = true.
Proof.
  intros Ha Hi. assert (all_ascii (trim_space s) = true) as Ht by (by apply trim_space_part).
  assert (inked (trim_space s)) as Hx.
  { unfold inked in *. unfold trim_space in *. rewrite Ha in *. unfold trim_with in *.
    destruct (str_forall is_space (trim_right is_space (trim_left is_space s))) eqn:E; [|done].
    apply trim_right_blank in E. rewrite trim_right_idem in E. apply trim_right_all, trim_left_all in E. congruence. }
  split_and!; [done| |done]. intros E. by rewrite E in Hx.
Qed.
Lemma trim_ne_inked s : all_ascii s = true → trim_space s ≠ "" → inked s.
Proof.
  unfold trim_space, inked. intros ->. destruct (str_forall is_space s) eqn:E; [|done]. intros Hne. destruct Hne.
  unfold trim_with. apply trim_right_blank. destruct (trim_left_suffix is_space s) as [a Ha]. rewrite Ha, str_forall_app in E.
  by apply andb_true_iff in E as [_ E].
Qed.

Lemma csv_gated l : plain l → ne (joinCSV l) = true →
  ne (trim_space (joinCSV l)) = true ∧ lowerList (oidc_splitCSV (joinCSV l)) ≠ [].
Proof.
  intros Hp Hne. unfold joinCSV in *. set (k := List.filter ne (trim_space <$> l)) in *.
  assert (∀ x, x ∈ k → all_ascii x = true ∧ no_char "," x = true ∧ inked x) as Hk.
  { intros x Hx. unfold k in Hx. rewrite list_elem_of_In, filter_In, <-list_elem_of_In in Hx.
    destruct Hx as [(y & -> & Hy)%list_elem_of_fmap Hx]. destruct (Hp y Hy) as [Ha Hc].
    destruct (plain_trim y Ha Hc) as [Ha' Hc']. unfold ne in Hx. bool_hyps.
    destruct (trim_inked y Ha) as [Hi _]; [by apply trim_ne_inked|done]. }
  assert (∃ x k', k = x :: k') as (x & k' & Ek) by (destruct k as [|x k']; [done|by eexists _, _]).
  destruct (Hk x) as (Ha & Hc & Hi); [rewrite Ek; by left|].
  assert (split "," (join "," k) = k) as Hsplit.
  { apply (split_join ","); [by rewrite Ek|]. apply Forall_forall. intros y Hy. by apply Hk. }
  assert (∀ q, (∀ y, y ∈ k → str_forall q y = true) → q ","%char = true → str_forall q (join "," k) = true) as Hq.
  { intros q Hq Hcm. clear -Hq Hcm. induction k as [|y k IH]; [done|]. destruct k as [|z k]; [apply Hq; by left|].
    rewrite join_cons by done. rewrite !str_forall_app, IH by (intros w Hw; apply Hq; by right).
    rewrite Hq by by left. simpl. by rewrite Hcm. }
  assert (inked (join "," k)) as Hj.
  { unfold inked in *. rewrite Ek. destruct k' as [|z k']; [done|]. rewrite join_cons, str_forall_app by done. by rewrite Hi. }
  assert (all_ascii (join "," k) = true) as Haj by (apply Hq; [intros y Hy; by apply Hk|done]).
  destruct (trim_inked _ Haj Hj) as (_ & Hjn & _). split; [unfold ne; by apply negb_true_iff, String.eqb_neq|].
  destruct (trim_inked x Ha Hi) as (Hi1 & Hn1 & Ha1). destruct (trim_inked _ Ha1 Hi1) as (_ & Hn2 & Ha2).
  destruct (lowerCSV_spec (splitCSV (join "," k))) as [_ Hl]. unfold lowerList, oidc_splitCSV. intros Hnil.
  assert (to_lower (trim_space (trim_space x)) ∈ lowerCSV (splitCSV (join "," k))) as Hin; [|by rewrite Hnil in Hin; apply elem_of_nil in Hin].
  apply Hl. split; [by apply to_lower_ne|]. exists (trim_space x). split; [|done]. unfold splitCSV. rewrite Hsplit.
  rewrite list_elem_of_In, filter_In, <-list_elem_of_In. split; [|by apply negb_true_iff, String.eqb_neq].
  apply list_elem_of_fmap. exists x. split; [done|]. rewrite Ek. by left.
Qed.
End csv.

(** *** The write of an accepted update *)

Section accepted.
Context `{GoUnicode} (op : OidcProvider).

(** [in_] is the write of [body], and writes no locked field. *)
Record write_of (body : OIDCBody) (in_ : SetOIDC) : Prop := {
  w_enabled : so_Enabled in_ = ob_Enabled body ∧ (isSet (ob_Enabled body) = true → envAuthModeLocked op = false);
  w_clientID : so_ClientID in_ = ob_ClientID body ∧ (isSet (ob_ClientID body) = true → es_ClientID (op_envSet op) = false);
  w_secret : so_ClientSecret in_ = ob_ClientSecret body ∧ so_ClearClientSecret in_ = ob_ClearClientSecret body ∧
    (isSet (ob_ClientSecret body) || ob_ClearClientSecret body = true → es_ClientSecret (op_envSet op) = false);
  w_emails : so_AllowedEmails in_ = joinCSV <$> ob_AllowedEmails body ∧
    (isSet (ob_AllowedEmails body) = true → es_AllowedEmails (op_envSet op) = false);
  w_domains : so_AllowedDomains in_ = joinCSV <$> ob_AllowedDomains body ∧
    (isSet (ob_AllowedDomains body) = true → es_AllowedDomains (op_envSet op) = false);
}.
(** What the lists of a body must look like for the check to mean what it says *)
Definition clean_body (body : OIDCBody) : Prop :=
  (ob_ClearClientSecret body = true → default "" (ob_ClientSecret body) = "") ∧
  (∀ l, ob_AllowedEmails body = Some l → plain l) ∧ (∀ l, ob_AllowedDomains body = Some l → plain l).

Lemma list_after (given : option (list string)) (v : option string) (envVal : list string) (envIsSet : bool) raw :
  v = joinCSV <$> given → (isSet given = true → envIsSet = false) → (∀ l, given = Some l → plain l) →
  match given with Some l => ne (joinCSV l) | None => negb (is_nil (Value (resolveList raw envVal envIsSet))) end = true →
  is_nil (Value (resolveList (merge_field v raw) envVal envIsSet)) = false.
Proof.
  intros -> Hl Hp. destruct given as [l|]; simpl; [|by intros Hn%negb_true_iff].
  rewrite (Hl eq_refl). intros Hne. destruct (csv_gated l (Hp l eq_refl) Hne) as [Ht Hc]. unfold merge_field, resolveList.
  assert ((joinCSV l =? "")%string = false) as -> by (by apply negb_true_iff). rewrite Ht. simpl.
  by destruct (lowerList _).
Qed.
Lemma text_after (given old : option string) (env : string) (envIsSet : bool) :
  (isSet given = true → envIsSet = false) →
  let value o := if envIsSet then env else default "" o in
  match given with Some v => ne v | None => ne (value old) end = true → ne (value (merge_field given old)) = true.
Proof.
  intros Hg value. destruct given as [v|]; [|done]. unfold value. rewrite (Hg eq_refl). unfold merge_field, ne. simpl.
  destruct (v =? "")%string eqn:E; simpl; [done|by rewrite E].
Qed.
Lemma ne_default (o : option string) (src : Source) :
  (if ne (default "" o) then mkEff (default "" o) SourceDB false else mkEff "" SourceDerived false) =
  mkEff (default "" o) (if ne (default "" o) then SourceDB else SourceDerived) false.
Proof. unfold ne. by destruct (String.eqb_spec (default "" o) "") as [->|]. Qed.
Lemma clientID_value d : Value (resolveClientID op d) =
  if es_ClientID (op_envSet op) then ClientID (op_env op) else default "" (do_ClientID d).
Proof. unfold resolveClientID. destruct (es_ClientID _); [done|]. by rewrite ne_default by exact SourceEnv. Qed.
Lemma secret_value d : Value (resolveClientSecret op d) =
  if es_ClientSecret (op_envSet op) then ClientSecret (op_env op) else default "" (do_ClientSecret d).
Proof. unfold resolveClientSecret. destruct (es_ClientSecret _); [done|]. by rewrite ne_default by exact SourceEnv. Qed.

Lemma enabled_after body in_ d base base' : write_of body in_ → clean_body body →
  enableCheck (wrapOIDC (resolve_oidc op d base)) body = Ok tt →
  let e := resolve_oidc op (merge_oidc in_ d) base' in
  Value (eff_Enabled e) = true → OIDCUsable e = true ∧ AccessGated e = true.
Proof.
  intros Hw (Hclear & Hpe & Hpd) Hcheck e He. destruct (w_enabled _ _ Hw) as [Hen Hle].
  destruct (w_clientID _ _ Hw) as [Hid Hli]. destruct (w_secret _ _ Hw) as (Hs & Hc & Hls).
  destruct (w_emails _ _ Hw) as [Hem Hlm]. destruct (w_domains _ _ Hw) as [Hdo Hld].
  assert (default (Value (resolveEnabled op d)) (ob_Enabled body) = true) as Hwould.
  { unfold e in He. simpl in He. unfold resolveEnabled in *. destruct (envAuthModeLocked op) eqn:Hlock.
    - destruct (ob_Enabled body); [|done]. by specialize (Hle eq_refl).
    - simpl in He. rewrite Hen in He. by destruct (ob_Enabled body). }
  unfold enableCheck in Hcheck. cbn [wrapOIDC ar_Enabled ar_ClientID ar_ClientSecretSet ar_AllowedEmails ar_AllowedDomains
    resolve_oidc eff_Enabled eff_ClientID eff_ClientSecret eff_AllowedEmails eff_AllowedDomains] in Hcheck.
  rewrite Hwould in Hcheck. cbn zeta in Hcheck.
  destruct (negb _ || negb _) eqn:Hcred in Hcheck; [done|]. apply orb_false_iff in Hcred as [Hcid Hcs].
  apply negb_false_iff in Hcid, Hcs. destruct (negb _ && negb _) eqn:Hgate in Hcheck; [done|]. clear Hcheck.
  split.
  - unfold OIDCUsable, e. cbn [resolve_oidc eff_Enabled eff_ClientID eff_ClientSecret]. unfold e in He. simpl in He. rewrite He.
    rewrite clientID_value, secret_value in *. cbn [merge_oidc do_ClientID do_ClientSecret andb]. apply andb_true_iff. split.
    + rewrite Hid. by apply (text_after _ _ _ _ Hli).
    + rewrite Hs, Hc. unfold merge_secret. destruct (ob_ClearClientSecret body).
      * unfold ne in Hcs. by rewrite (Hclear eq_refl) in Hcs.
      * destruct (ob_ClientSecret body) as [v|]; [|by destruct (ne _)]. rewrite Hls in * by done. simpl in *.
        unfold ne in *. destruct (v =? "")%string eqn:E; simpl in *; [done|by rewrite E].
  - unfold AccessGated, e. cbn [resolve_oidc eff_AllowedEmails eff_AllowedDomains merge_oidc do_AllowedEmails do_AllowedDomains].
    apply andb_false_iff in Hgate as [Hg|Hg]; apply negb_false_iff in Hg.
    + by rewrite (list_after (ob_AllowedEmails body) _ _ _ (do_AllowedEmails d) Hem Hlm Hpe Hg).
    + by rewrite (list_after (ob_AllowedDomains body) _ _ _ (do_AllowedDomains d) Hdo Hld Hpd Hg), orb_true_r.
Qed.
End accepted.

(** *** Runs of the handlers *)

Section runs.
Context `{GoUnicode} `{GoNet} `{AEAD} {P : Type} `{Faults}.
Context (ans : gmap string string → string → Res store_err string) (box : option Box) (nonce : option bytes).
Context (dp : DomainProvider) (op : OidcProvider) (r : Request) (user : option SessionUser).

(** The stored configuration a request sees in a state *)
Definition seen (s : inst P) : DBOIDC := (cachedDBConfig op (GetOIDCConfig (ans (i_settings s)) box) (i_oidc s)).2.
Definition same_view (s s' : inst P) : Prop :=
  i_settings s' = i_settings s ∧ seen s' = seen s ∧ i_prov s' = i_prov s ∧ i_audit s' = i_audit s.
Lemma same_view_refl s : same_view s s.
Proof. by split_and!. Qed.
Lemma same_view_trans s1 s2 s3 : same_view s1 s2 → same_view s2 s3 → same_view s1 s3.
Proof. unfold same_view. intros (? & ? & ? & ?) (? & ? & ? & ?). split_and!; congruence. Qed.

Lemma oidcResolve_run s s' e : oidcResolve ans box dp op r s = (s', e) →
  same_view s s' ∧ ∃ base, e = Ok (resolve_oidc op (seen s) base).
Proof.
  unfold oidcResolve, same_view, seen. destruct (cachedDBConfig op _ _) as [oc d] eqn:Hc. cbn [snd].
  destruct (if es_RedirectURL _ || _ then _ else _) as [dc base]. intros [= <- <-]. cbn [i_settings i_oidc i_prov i_audit].
  split; [|by eexists]. split_and!; try done. unfold cachedDBConfig, cached in *.
  destruct (c_once (i_oidc s)) eqn:Ho; injection Hc as <- <-; [by rewrite Ho|done].
Qed.
Lemma adminGetOIDC_run s s' rep : adminGetOIDC ans box dp op r s = (s', Ok rep) → same_view s s'.
Proof.
  unfold adminGetOIDC, effectiveOIDCAdminConfig. intros (s0 & v & Hm & [= <- _])%bindM_ok_inv.
  apply bindM_ok_inv in Hm as (s1 & e & Hm & Hk). apply bindM_ok_inv in Hk as (s2 & offered & Hp & [= <- _]).
  apply oidcResolve_run in Hm as [Hv _]. eapply same_view_trans; [exact Hv|].
  unfold oidcProviders in Hp. destruct (envAuthModeLocked op); [injection Hp as <- _; apply same_view_refl|].
  destruct (oidcResolve _ _ _ _ _ s1) as [s3 e'] eqn:He. injection Hp as <- _. by apply oidcResolve_run in He as [? _].
Qed.
Lemma putField_run {X Y} locked field envVar (v : option X) (check : X → Res reply Y) (s s' : inst P) o :
  putField locked field envVar v check s = (s', Ok o) →
  s' = s ∧ (isSet v = true → locked = false) ∧ match v with None => o = None | Some x => ∃ y, check x = Ok y ∧ o = Some y end.
Proof.
  unfold putField. destruct v as [x|]; [|by intros [= <- <-]]. unfold bindM, guard_not, lift.
  destruct locked; [done|]. destruct (check x) as [y|e]; [|done]. intros [= <- <-]. split_and!; eauto.
Qed.
Lemma putSecret_run locked body (s s' : inst P) o : putSecret locked body s = (s', Ok o) →
  s' = s ∧ o = (ob_ClientSecret body, ob_ClearClientSecret body) ∧
  (isSet (ob_ClientSecret body) || ob_ClearClientSecret body = true → locked = false).
Proof.
  unfold putSecret. destruct (isSet (ob_ClientSecret body) || _) eqn:E.
  - unfold bindM, guard_not. destruct locked; [done|]. by intros [= <- <-].
  - apply orb_false_iff in E as [E ->]. intros [= <- <-]. split_and!; try done. by destruct (ob_ClientSecret body).
Qed.
Lemma mapped {X Y} (f : X → Y) (v : option X) o :
  match v with None => o = None | Some x => ∃ y, (Ok (f x) : Res reply Y) = Ok y ∧ o = Some y end → o = f <$> v.
Proof. destruct v; simpl; [|done]. intros (y & [= <-] & ->). done. Qed.
Lemma option_fmap_same {X} (v : option X) : (λ x, x) <$> v = v.
Proof. by destruct v. Qed.

Lemma env_locked_client d base : Locked (ar_ClientID (wrapOIDC (resolve_oidc op d base))) = false → es_ClientID (op_envSet op) = false.
Proof. simpl. unfold resolveClientID. by destruct (es_ClientID _). Qed.
Lemma env_locked_secret d base : ar_ClientSecretLck (wrapOIDC (resolve_oidc op d base)) = false → es_ClientSecret (op_envSet op) = false.
Proof. simpl. unfold resolveClientSecret. by destruct (es_ClientSecret _). Qed.
Lemma env_locked_list raw l b : Locked (resolveList raw l b) = false → b = false.
Proof. unfold resolveList. by destruct b. Qed.

Lemma adminPutOIDC_run body s s' rep : adminPutOIDC ans box nonce dp op r user (Body body false) s = (s', Ok rep) →
  ∃ in_ base s1, write_of op body in_ ∧ same_view s s1 ∧
    enableCheck (wrapOIDC (resolve_oidc op (seen s) base)) body = Ok tt ∧
    ((oidcInputHasWrite in_ = false ∧ same_view s1 s') ∨
     ∃ t, SetOIDCConfig box nonce in_ (i_settings s1) = (t, Ok tt) ∧ i_settings s' = t ∧
       seen s' = (cached unset_oidc (if op_store op then GetOIDCConfig (ans t) box else Ok unset_oidc)
                    (InvalidateCache (i_oidc s1))).2).
Proof.
  unfold adminPutOIDC. intros (s0 & b0 & [= <- <-] & Hk)%bindM_ok_inv. apply bindM_ok_inv in Hk as (s1 & e & Hm & Hk).
  apply oidcResolve_run in Hm as [Hv (base & [= ->])].
  apply bindM_ok_inv in Hk as (? & enabled & (-> & Hle & Hen)%putField_run & Hk).
  apply bindM_ok_inv in Hk as (? & issuer & (-> & _ & _)%putField_run & Hk).
  apply bindM_ok_inv in Hk as (? & clientID & (-> & Hli & Hid)%putField_run & Hk).
  apply bindM_ok_inv in Hk as (? & secret & (-> & -> & Hls)%putSecret_run & Hk).
  apply bindM_ok_inv in Hk as (? & redirect & (-> & _ & _)%putField_run & Hk). cbv zeta in Hk.
  apply bindM_ok_inv in Hk as (? & emails & (-> & Hlm & Hem)%putField_run & Hk).
  apply bindM_ok_inv in Hk as (? & domains & (-> & Hld & Hdo)%putField_run & Hk).
  apply bindM_ok_inv in Hk as (? & admins & (-> & _ & _)%putField_run & Hk).
  apply bindM_ok_inv in Hk as (? & [] & [= <- Hcheck] & Hk).
  apply (mapped (λ x, x)) in Hen, Hid. rewrite option_fmap_same in Hen. rewrite option_fmap_same in Hid. apply (mapped joinCSV) in Hem, Hdo.
  match type of Hk with context [if negb (oidcInputHasWrite ?i) then _ else _] =>
    exists i, base, s1; destruct (oidcInputHasWrite i) eqn:Hw end; cbn [negb] in Hk;
    (split; [split; cbn; split_and?; try done; [by intros ?%Hli%env_locked_client|by intros ?%Hls%env_locked_secret
      |by intros ?%Hlm%env_locked_list|by intros ?%Hld%env_locked_list]|split; [exact Hv|split; [exact Hcheck|]]]).
  - right. apply bindM_ok_inv in Hk as (s2 & [] & Hm & Hk). unfold storeSet in Hm.
    destruct (SetOIDCConfig _ _ _ _) as [t [[]|x]] eqn:Hset; [|done]. injection Hm as <-. exists t. split; [done|].
    apply bindM_ok_inv in Hk as (? & [] & [= <-] & Hk). apply bindM_ok_inv in Hk as (? & [] & [= <-] & Hk).
    apply bindM_ok_inv in Hk as (s5 & [] & Hm & (Ht & Hs & _)%adminGetOIDC_run). unfold adminAudit in Hm.
    destruct user; injection Hm as <-; by split.
  - left. split; [done|]. by eapply adminGetOIDC_run.
Qed.
End runs.

Lemma no_write in_ : oidcInputHasWrite in_ = false → in_ = mkSetOIDC None None None None false None None None None.
Proof.
  unfold oidcInputHasWrite. destruct in_ as [[] [] [] [] [] [] [] [] []]; simpl; intros Hw; rewrite ?orb_true_r in Hw; done.
Qed.


(** *** The secret is not shown *)

(** Configurations that differ in the text of the client secret at most *)
Definition hide_env (o : OIDCConfig) : OIDCConfig :=
  mkOIDC (Issuer o) (ClientID o) (if ne (ClientSecret o) then "*" else "") (RedirectURL o) (AllowedDomains o)
    (AllowedEmails o) (AdminEmails o).
Definition hide_op (p : OidcProvider) : OidcProvider :=
  mkOidc (op_store p) (hide_env (op_env p)) (op_envSet p) (envAuthModeLocked p) (envOIDCEnabled p) (envPasswordOn p)
    (envNoneOn p).
Definition hide_db (d : DBOIDC) : DBOIDC :=
  mkDBOIDC (do_Enabled d) (do_Issuer d) (do_ClientID d)
    (if ne (default "" (do_ClientSecret d)) then Some "*" else None) (do_RedirectURL d) (do_AllowedEmails d)
    (do_AllowedDomains d) (do_AdminEmails d).

Section hidden.
Context `{GoUnicode} `{AEAD} {P : Type}.
Context (ans : gmap string string → string → Res store_err string) (dp : DomainProvider) (r : Request).

Lemma secret_ne op d :
  ne (Value (resolveClientSecret op d)) = ne (Value (resolveClientSecret (hide_op op) (hide_db d))) ∧
  Src (resolveClientSecret op d) = Src (resolveClientSecret (hide_op op) (hide_db d)) ∧
  Locked (resolveClientSecret op d) = Locked (resolveClientSecret (hide_op op) (hide_db d)).
Proof.
  unfold resolveClientSecret. simpl. destruct (es_ClientSecret _); simpl; [by destruct (ne (ClientSecret _))|].
  destruct (ne (default "" (do_ClientSecret d))) eqn:E; simpl; by rewrite ?E.
Qed.
Lemma wrap_hidden op d base : wrapOIDC (resolve_oidc op d base) = wrapOIDC (resolve_oidc (hide_op op) (hide_db d) base).
Proof. destruct (secret_ne op d) as (H1 & H2 & H3). unfold wrapOIDC, resolve_oidc. simpl. by rewrite H1, H2, H3. Qed.
Lemma usable_hidden op d base : OIDCUsable (resolve_oidc op d base) = OIDCUsable (resolve_oidc (hide_op op) (hide_db d) base).
Proof. destruct (secret_ne op d) as (H1 & _). unfold OIDCUsable, resolve_oidc. simpl. by rewrite H1. Qed.

(** The state and the base URL of a resolution, apart from the secret *)
Definition domain_after (op : OidcProvider) (d : DBOIDC) (s : inst P) : read_cache DomainConfig * string :=
  if es_RedirectURL (op_envSet op) || ne (default "" (do_RedirectURL d)) then (i_domain s, "")
  else ControlBaseURLFor dp (readDomain ans s) r (i_domain s).
Lemma oidcResolve_after box op s : let d := seen ans box op s in
  ∃ s', oidcResolve ans box dp op r s = (s', Ok (resolve_oidc op d (domain_after op d s).2)) ∧
    i_settings s' = i_settings s ∧ i_domain s' = (domain_after op d s).1 ∧ seen ans box op s' = d.
Proof.
  intros d. destruct (oidcResolve ans box dp op r s) as [s' x] eqn:E. exists s'.
  pose proof E as [(Ht & Hs & _ & _) _]%oidcResolve_run. unfold oidcResolve in E. unfold d, domain_after, seen in *.
  destruct (cachedDBConfig op _ (i_oidc s)) as [oc d0]. cbn [snd] in *.
  destruct (if _ || _ then (i_domain s, "") else _) as [dc base]. injection E as <- <-. by split_and!.
Qed.

(** The settings screen does not show the client secret.  What an
    administrator is sent is the same for any two instances whose stored and
    environment configurations differ in the text of the secret only. *)
Theorem admin_view_hides_secret (box1 box2 : option Box) (op1 op2 : OidcProvider) (s1 s2 : inst P) :
  hide_op op1 = hide_op op2 → hide_db (seen ans box1 op1 s1) = hide_db (seen ans box2 op2 s2) →
  i_domain s1 = i_domain s2 → readDomain ans s1 = readDomain ans s2 →
  (adminGetOIDC ans box1 dp op1 r s1).2 = (adminGetOIDC ans box2 dp op2 r s2).2.
Proof.
  intros Hop Hd Hdom Hrd.
  assert (∀ t1 t2 : inst P, seen ans box1 op1 t1 = seen ans box1 op1 s1 → seen ans box2 op2 t2 = seen ans box2 op2 s2 →
    i_domain t1 = i_domain t2 → readDomain ans t1 = readDomain ans t2 →
    domain_after op1 (seen ans box1 op1 t1) t1 = domain_after op2 (seen ans box2 op2 t2) t2) as Hafter.
  { intros t1 t2 -> -> Hi Hr. unfold domain_after. rewrite Hi, Hr.
    assert (op_envSet op1 = op_envSet op2) as -> by (by injection Hop).
    assert (do_RedirectURL (seen ans box1 op1 s1) = do_RedirectURL (seen ans box2 op2 s2)) as -> by (by injection Hd). done. }
  assert (envAuthModeLocked op1 = envAuthModeLocked op2) as Hlock by (by injection Hop).
  destruct (oidcResolve_after box1 op1 s1) as (t1 & E1 & Ht1 & Hi1 & Hs1).
  destruct (oidcResolve_after box2 op2 s2) as (t2 & E2 & Ht2 & Hi2 & Hs2). rewrite <-(Hafter s1 s2) in E2, Hi2 by done.
  destruct (oidcResolve_after box1 op1 t1) as (u1 & F1 & _). destruct (oidcResolve_after box2 op2 t2) as (u2 & F2 & _).
  rewrite <-(Hafter t1 t2) in F2 by (unfold readDomain in *; congruence).
  unfold adminGetOIDC, effectiveOIDCAdminConfig, bindM. rewrite E1, E2. unfold oidcProviders. rewrite <-Hlock, F1, F2.
  rewrite !Hs1, !Hs2 in *. rewrite (wrap_hidden op1), (wrap_hidden op2), (usable_hidden op1), (usable_hidden op2), Hop, Hd.
  destruct (envAuthModeLocked op1) eqn:El; [|done]. cbn [snd]. unfold Providers. rewrite <-Hlock.
  assert (envOIDCEnabled op1 = envOIDCEnabled op2) as -> by (by injection Hop).
  assert (envPasswordOn op1 = envPasswordOn op2) as -> by (by injection Hop).
  assert (envNoneOn op1 = envNoneOn op2) as -> by (by injection Hop). by rewrite El.
Qed.
End hidden.

(** *** Samples *)

#[local] Instance sample_unicode : GoUnicode := ascii_only_unicode.
#[local] Instance no_faults : Faults :=
  {| begin_fails := None; statement_fails _ := None; commits := Committed; rollback_fails := None |}.
#[local] Existing Instance clear_cipher.
#[local] Existing Instance clear_cipher_laws.
#[local] Instance no_net : GoNet := {| ParseIP _ := None; LookupIP _ := None |}.
Definition open_oidc : OidcProvider := NewOidc true (mkOIDC "https://accounts.google.com" "" "" "/cb" [] [] [])
  (mkEnvSet false false false false false false false false) ["password"].
Definition open_domain : DomainProvider := NewDomain true "" false "" false.
Definition fresh_inst : inst unit := mkInst ∅ (mkCache unset_domain false) (mkCache unset_oidc false) prov_cache0 [].
Definition put (body : OIDCBody) (s : inst unit) : inst unit * Res reply reply :=
  adminPutOIDC from_table (Some (mkBox "key" false)) (Some "012345678901") open_domain open_oidc (host_request "h:8080")
    None (Body body false) s.
Definition effective (s : inst unit) : EffectiveOIDC :=
  match (oidcResolve from_table (Some (mkBox "key" false)) open_domain open_oidc (host_request "h:8080") s).2 with
  | Ok e => e
  | Err _ => resolve_oidc open_oidc unset_oidc ""
  end.
Definition status (x : inst unit * Res reply reply) : Z := match x.2 with Ok rep | Err rep => rp_status rep end.
Definition enable : OIDCBody :=
  mkOIDCBody (Some true) None (Some "id") (Some "secret") false None (Some ["a@b.c"]) None None.
Lemma put_enable_ok : put enable fresh_inst = ((put enable fresh_inst).1, (put enable fresh_inst).2) ∧
  is_ok (put enable fresh_inst).2 = true ∧ Value (eff_Enabled (effective (put enable fresh_inst).1)) = true ∧
  (oidcResolve from_table (Some (mkBox "key" false)) open_domain open_oidc (host_request "h:8080")
    (put enable fresh_inst).1).2 = Ok (effective (put enable fresh_inst).1).
Proof. split; [apply surjective_pairing|]. repeat split; vm_compute; reflexivity. Qed.
Definition stored_inst (secret : string) : inst unit :=
  mkInst ∅ (mkCache unset_domain true)
    (mkCache (mkDBOIDC (Some true) None (Some "id") (Some secret) None (Some "a@b.c") None None) true) prov_cache0 [].
Lemma admin_view_hides_secret_witness :
  (adminGetOIDC from_table None open_domain open_oidc (host_request "h") (stored_inst "x")).2 =
  (adminGetOIDC from_table None open_domain open_oidc (host_request "h") (stored_inst "another")).2.
Proof. exact (admin_view_hides_secret from_table open_domain (host_request "h") None None open_oidc open_oidc
  (stored_inst "x") (stored_inst "another") eq_refl eq_refl eq_refl eq_refl). Defined.

(** Clearing the secret and setting it at once passes the check, because the check
    lets the new secret win; the store lets the clearing win, and login is enabled
    without a secret. *)
Example clear_and_set :
  let x := put (mkOIDCBody (Some true) None (Some "id") (Some "secret") true None (Some ["a@b.c"]) None None) fresh_inst in
  status x = 200%Z ∧ Value (eff_Enabled (effective x.1)) = true ∧ OIDCUsable (effective x.1) = false.
Proof. vm_compute. by split_and!. Qed.
(** An entry that is a comma counts as an allowlist and is none. *)
Example comma_allowlist :
  let x := put (mkOIDCBody (Some true) None (Some "id") (Some "secret") false None (Some [","]) None None) fresh_inst in
  status x = 200%Z ∧ OIDCUsable (effective x.1) = true ∧ AccessGated (effective x.1) = false.
Proof. vm_compute. by split_and!. Qed.
(** A base domain is checked without the blanks around it and stored with them; a
    control URL may carry a query, to which paths are then appended. *)
Definition put_domain (body : DomainBody) : inst unit * Res reply reply :=
  adminPutDomain from_table open_domain (host_request "h:8080") None (Body body false) fresh_inst.
Definition domain_of (s : inst unit) : string * string :=
  match (domainResolve from_table open_domain (host_request "h:8080") s).2 with
  | Ok res => (Value (rs_BaseDomain res), Value (rs_ControlBaseURL res))
  | Err _ => ("", "")
  end.
Example put_domain_samples :
  let x := put_domain (mkDomainBody (Some " example.com ") (Some "https://host.example.com/?a=/")) in
  status x = 200%Z ∧ domain_of x.1 = (" example.com ", "https://host.example.com/?a=") ∧
  status (put_domain (mkDomainBody (Some "Example.com") None)) = 422%Z ∧
  domain_of (put_domain (mkDomainBody None None)).1 = ("h", "http://h:8080").
Proof. vm_compute. by split_and!. Qed.
