(* ===== verification/LoginState.v ===== *)
(** * The login-state cookie and the request checks of sign-in (auth/handlers.go)

    The signed cookie that carries a redirect login, the sanitiser of the redirect
    target, the same-origin check of the state-changing requests, and the keys.

    A path [safeNext] has passed twice, or once when nothing in it is
    percent-encoded, stays on the site; the login state survives its cookie and
    cannot be made without the key. *)

From S2P Require Import Prelude GoStrings SiteTypes Http Encoding GoURL Preview RateLimit Config.

Definition loginStateTTL : Z := (600 * second)%Z.
Definition loginStateCookie : string := "kotoji_login".
Definition stateNonceBytes : nat := 32.

Record loginState := mkLoginState {
  ls_State : string; ls_Nonce : string; ls_Verifier : string; ls_Next : string; ls_Expires : Z;
}.
(** json.Marshal and json.Unmarshal of a [loginState].  ASCII strings and int64
    survive; other strings need not. *)
Class GoLoginJSON := { marshal_login : loginState → bytes; unmarshal_login : bytes → option loginState }.
Definition ascii_state (ls : loginState) : Prop :=
  all_ascii (ls_State ls) = true ∧ all_ascii (ls_Nonce ls) = true ∧ all_ascii (ls_Verifier ls) = true ∧
  all_ascii (ls_Next ls) = true ∧ in_i64 (ls_Expires ls).
Class GoLoginJSONLaws `{GoLoginJSON} := {
  unmarshal_marshal ls : ascii_state ls → unmarshal_login (marshal_login ls) = Some ls;
}.

(** ** The cookie *)

Inductive state_err := MissingState | MalformedState | BadSignature | MalformedPayload | MalformedJSON | StateExpired.

Section cookie.
Context `{Crypto} `{GoLoginJSON} (secure : bool) (signKey : bytes).

Definition sign (msg : string) : string := b64_encode b64_url false (hmac_sha256 signKey msg).
Definition loginStateCookieName : string := if secure then "__Host-" +:+ loginStateCookie else loginStateCookie.
Definition state_cookie (value : string) (maxAge : Z) : Cookie := {|
  ckName := loginStateCookieName; ckValue := value; ckPath := "/"; ckDomain := ""; ckMaxAge := maxAge;
  ckSecure := secure; ckHttpOnly := true; ckSameSite := SameSiteLax |}.
Definition setLoginState (ls : loginState) : Cookie :=
  let b64 := b64_encode b64_url false (marshal_login ls) in
  state_cookie (b64 +:+ "." +:+ sign b64) (Z.quot loginStateTTL second).
Definition clearLoginState : Cookie := state_cookie "" (-1).
(** The value of the cookie, at a time in nanoseconds *)
Definition openLoginState (now : time) (value : option string) : Res state_err loginState :=
  match value with
  | None => Err MissingState
  | Some value =>
      let '(b64, sig, found) := cut "." value in
      if negb found then Err MalformedState
      else if negb (sig =? sign b64)%string then Err BadSignature
      else match b64_decode b64_url false b64 with
           | None => Err MalformedPayload
           | Some payload =>
               match unmarshal_login payload with
               | None => Err MalformedJSON
               | Some ls => if (ls_Expires ls <? now / second)%Z then Err StateExpired else Ok ls
               end
           end
  end.
End cookie.

(** ** safeNext *)

Section next.
Context `{GoUnicode}.

Definition fold_backslash : string → string := str_map (λ c, if (c =? "\")%char then slash else c).
Definition is_blank_or_ctl (c : ascii) : bool := (N_of_ascii c <=? 32)%N || (N_of_ascii c =? 127)%N.
Definition safeNext (next : string) : string :=
  if (next =? "")%string then "/dashboard"
  else
    let next := fold_backslash next in
    if negb (has_prefix "/" next) || has_prefix "//" next then "/dashboard"
    else if str_exists is_blank_or_ctl next then "/dashboard"
    else match url_Parse next with
         | None => "/dashboard"
         | Some u => if negb (u_Scheme u =? "")%string || negb (u_Host u =? "")%string then "/dashboard" else u_Path u
         end.

(** ** Origins, addresses, keys *)

Definition originHost (raw : string) : string :=
  if (raw =? "")%string || (raw =? "null")%string then ""
  else match url_Parse raw with None => "" | Some u => to_lower (strip_port (u_Host u)) end.
(** [effective]: what the domain resolver answers, when there is one *)
Definition controlHost (cfg : Config) (effective : option string) : string :=
  let h := match effective with Some url => originHost url | None => "" end in
  if negb (h =? "")%string then h
  else if negb (ControlHost cfg =? "")%string then ControlHost cfg
  else originHost (cfg_ControlBaseURL cfg).
Definition sameOriginOK (cfg : Config) (effective : option string) (r : Request) : bool :=
  let want := controlHost cfg effective in
  if (want =? "")%string then true
  else
    let origin := hget (rHeader r) "Origin" in
    let ref := hget (rHeader r) "Referer" in
    if negb (origin =? "")%string then (originHost origin =? want)%string
    else if negb (ref =? "")%string then (originHost ref =? want)%string
    else true.
Definition clientIP (r : Request) (trustProxy : bool) : string :=
  let xff := hget (rHeader r) "X-Forwarded-For" in
  if trustProxy && negb (xff =? "")%string then
    let '(first, _, found) := cut "," xff in if found then trim_space first else trim_space xff
  else rRemoteAddr r.
Definition lockoutKey (cfg : Config) (r : Request) : string := ClientIP r (TrustProxyHeaders cfg).

(** [random] is what the fallback reads from crypto/rand. *)
Definition deriveSignKey `{Crypto} (random : bytes) (cfg : Config) : bytes :=
  let pw := AdminPassword cfg in
  let secret := ClientSecret (cfg_OIDC cfg) in
  let base := ResolveKey (SecretKey cfg) pw secret (cfg_ControlBaseURL cfg) (cfg_BaseDomain cfg) in
  let seed := pw +:+ "|" +:+ secret +:+ "|" +:+ cfg_ControlBaseURL cfg +:+ "|" +:+ cfg_BaseDomain cfg in
  if negb (ExplicitKeyProvided (SecretKey cfg)) && (trim_with (λ c, (c =? "|")%char) seed =? "")%string then random
  else hmac_sha256 base ("kotoji-login-state|" +:+ seed).
End next.

(** ** Where sign-in redirects to, and what its cookie carries *)

(** *** safeNext *)

(** What a browser resolves against the site it is on *)
Definition same_site_path (s : string) : Prop :=
  has_prefix "/" s = true ∧ has_prefix "//" s = false ∧ str_exists is_blank_or_ctl s = false ∧ no_char "\" s = true.

Lemma valid_char : ∀ c, char_of "!$&'()*+,;=:@[]%" c || negb (esc_path c) = true →
  (c =? "\")%char = false ∧ is_blank_or_ctl c = false ∧ is_ctl c = false ∧ ("#" =? c)%char = false ∧ ("?" =? c)%char = false.
Proof. intros [[] [] [] [] [] [] [] []]; by vm_compute. Qed.
Lemma valid_chars e : valid_encoded e = true →
  no_char "\" e = true ∧ str_exists is_blank_or_ctl e = false ∧ str_exists is_ctl e = false ∧
  no_char "#" e = true ∧ no_char "?" e = true ∧ fold_backslash e = e.
Proof.
  unfold valid_encoded, no_char, str_exists, fold_backslash. induction e as [|c e IH]; [done|].
  cbn [str_forall str_map]. intros [Hc He]%andb_true_iff. destruct (IH He) as (H1 & H2 & H3 & H4 & H5 & H6).
  apply negb_false_iff in H2, H3. destruct (valid_char c Hc) as (E1 & E2 & E3 & E4 & E5).
  rewrite H1, H2, H3, H4, H5, H6, E1, E2, E3, E4, E5, Ascii.eqb_sym, E1. done.
Qed.
Lemma cut_none c s : no_char c s = true → cut c s = (s, "", false).
Proof. intros Hs. unfold cut. by rewrite index_byte_none. Qed.

Lemma slash_head c e : has_prefix "/" (String c e) = true → c = "/"%char.
Proof. cbn [has_prefix]. rewrite andb_true_r. by intros <-%Ascii.eqb_eq. Qed.

Section targets.
Context `{GoUnicode}.

Lemma url_Parse_path e : valid_encoded e = true → is_Some (path_unescape e) →
  has_prefix "/" e = true → has_prefix "//" e = false → url_Parse e = Some (mkURL "" false "" e).
Proof.
  intros Hv Hu Hp Hpp. apply valid_chars in Hv as Hc. destruct Hc as (_ & _ & Hctl & Hh & Hq & _).
  unfold url_Parse. rewrite cut_none, Hctl by done. destruct e as [|c e]; [done|].
  apply slash_head in Hp as Hc. subst c.
  change (get_scheme (String "/" e)) with (Some ("", String "/" e)). cbn [mbind option_bind fst snd].
  rewrite cut_none by done. cbn [path_unescape mbind option_bind]. change (to_lower (trim_suffix ":" "")) with "".
  rewrite Hp, Hpp. cbn [negb andb String.eqb]. rewrite andb_false_r, escaped_path_id; [done|done|done|by intros [=]].
Qed.
Lemma safeNext_encoded e : valid_encoded e = true → is_Some (path_unescape e) →
  same_site_path (safeNext e) ∧ (has_prefix "/" e = true → has_prefix "//" e = false → safeNext e = e).
Proof.
  intros Hv Hu. apply valid_chars in Hv as Hc. destruct Hc as (Hb & Hctl & _ & _ & _ & Hf).
  assert (has_prefix "/" e = true → has_prefix "//" e = false → safeNext e = e) as He.
  { intros Hp Hpp. unfold safeNext. destruct (String.eqb_spec e "") as [->|_]; [done|].
    by rewrite Hf, Hp, Hpp, Hctl, url_Parse_path. }
  split; [|done]. destruct (has_prefix "/" e) eqn:Hp, (has_prefix "//" e) eqn:Hpp.
  2: by rewrite He.
  all: unfold safeNext; rewrite Hf, Hp, ?Hpp; by destruct (e =? "")%string.
Qed.

(** The outcome of the sanitiser: the default, or the escaped path of a target
    that starts with one slash *)
Lemma safeNext_cases next : safeNext next = "/dashboard" ∨
  ∃ p q, fold_backslash next = String "/" p +:+ q ∧ has_prefix "//" (fold_backslash next) = false ∧
    starts_with "?#" q ∧ escaped_path (String "/" p) = Some (safeNext next).
Proof.
  unfold safeNext. destruct (next =? "")%string; [by left|]. set (f := fold_backslash next).
  destruct (has_prefix "/" f) eqn:Hp; [|by left]. destruct (has_prefix "//" f) eqn:Hpp; [by left|]. cbn [negb orb].
  destruct (str_exists is_blank_or_ctl f); [by left|]. destruct (url_Parse f) as [u|] eqn:Hu; [|by left].
  destruct (negb _ || _) eqn:Hsch; [by left|]. right. unfold url_Parse in Hu.
  destruct (cut "#" f) as [[body frag] fl] eqn:Hcut. apply cut_spec in Hcut as (fr & Hf & Hfr).
  destruct (str_exists is_ctl body); [done|]. destruct body as [|c body].
  { destruct Hfr as [->|(c & r & -> & Hc)]; [by rewrite Hf in Hp|]. rewrite Hf in Hp. by apply slash_head in Hp as ->. }
  assert (c = "/"%char) as -> by (rewrite Hf in Hp; by apply slash_head in Hp).
  change (get_scheme (String "/" body)) with (Some ("", String "/" body)) in Hu. cbn [mbind option_bind fst snd] in Hu.
  destruct (cut "?" (String "/" body)) as [[rest query] ql] eqn:Hq. apply cut_spec in Hq as (q & Hb & Hq).
  destruct rest as [|c rest].
  { destruct Hq as [->|(c & r & -> & Hc)]; [done|]. injection Hb as <- _. done. }
  injection Hb as <- ->. destruct (path_unescape frag); [|done]. cbn [mbind option_bind] in Hu.
  change (to_lower (trim_suffix ":" "")) with "" in Hu.
  assert (has_prefix "//" (String "/" rest) = false) as Hr.
  { rewrite Hf in Hpp. cbn in Hpp |- *. by destruct rest as [|d rest]. }
  rewrite Hr in Hu. cbn [has_prefix negb andb String.eqb Ascii.eqb] in Hu. rewrite !andb_false_r in Hu. simpl in Hu.
  destruct (escaped_path (String "/" rest)) as [e|] eqn:He; [|done]. injection Hu as <-. exists rest, (q +:+ fr).
  split_and!; [by rewrite Hf, <-str_app_assoc|done| |done].
  destruct Hq as [->|(d & r & -> & Hd)]; [|right; do 2 eexists; split; [done|]].
  - destruct Hfr as [->|(d & r & -> & Hd)]; [by left|right; do 2 eexists; split; [done|]]. by destruct d as [[] [] [] [] [] [] [] []].
  - by destruct d as [[] [] [] [] [] [] [] []].
Qed.
End targets.

Section claims.
Context `{GoUnicode}.

Lemma encoded_same_site e : valid_encoded e = true → has_prefix "/" e = true → has_prefix "//" e = false → same_site_path e.
Proof. intros Hv. apply valid_chars in Hv as (? & ? & _). intros; unfold same_site_path; by split_and!. Qed.
Lemma safeNext_result next : valid_encoded (safeNext next) = true ∧ is_Some (path_unescape (safeNext next)).
Proof.
  destruct (safeNext_cases next) as [->|(p & q & _ & _ & _ & He)]; [split; [done|by eexists]|].
  by eapply escaped_path_valid.
Qed.
(** Without percent signs escaping does not move slashes. *)
Lemma path_escape_slashes p : has_prefix "//" (String "/" p) = false →
  has_prefix "/" (path_escape (String "/" p)) = true ∧ has_prefix "//" (path_escape (String "/" p)) = false.
Proof.
  intros Hp. split; [done|]. change (path_escape (String "/" p)) with (String "/" (path_escape p)).
  destruct p as [|c p]; [done|]. change (has_prefix "/" (String c p) = false) in Hp.
  change (has_prefix "/" (path_escape (String c p)) = false). cbn [path_escape]. by destruct (esc_path c).
Qed.

(** C36 (safety): signing in does not redirect off the site.  A target the
    sanitiser has seen twice, as every target a redirect login carries, starts
    with a single slash, has no backslash and no blank; so has one it has seen
    once, if nothing in it is percent-encoded; and what passes once and starts
    with a single slash is not changed again. *)
Theorem safeNext_same_site (next : string) :
  same_site_path (safeNext (safeNext next)) ∧
  (no_char "%" next = true → same_site_path (safeNext next)) ∧
  (has_prefix "/" (safeNext next) = true → has_prefix "//" (safeNext next) = false → safeNext (safeNext next) = safeNext next).
Proof.
  destruct (safeNext_result next) as [Hv Hu]. destruct (safeNext_encoded _ Hv Hu) as [Htwice Hid]. split_and!; [done| |done].
  intros Hpct. destruct (safeNext_cases next) as [->|(p & q & Hf & Hpp & Hq & He)]; [done|].
  assert (has_prefix "//" (String "/" p) = false) as Hp by (rewrite Hf in Hpp; by destruct p).
  assert (no_char "%" (String "/" p) = true) as Hpc.
  { assert (no_char "%" (fold_backslash next) = true) as Hpf.
    { clear -Hpct. unfold no_char, fold_backslash in *. induction next as [|c s IH]; [done|]. cbn [str_forall str_map] in *.
      apply andb_true_iff in Hpct as [Hc Hs]. rewrite IH by done. by destruct (Ascii.eqb_spec c "\") as [->|]; rewrite ?Hc. }
    rewrite Hf, no_char_app in Hpf. by apply andb_true_iff in Hpf as [? _]. }
  assert (has_prefix "/" (safeNext next) = true ∧ has_prefix "//" (safeNext next) = false) as [H1 H2];
    [|by apply encoded_same_site].
  unfold escaped_path in He. rewrite no_percent_path in He by done. simpl in He.
  destruct (_ && valid_encoded _); [by injection He as <-|]. injection He as <-. by apply path_escape_slashes.
Qed.
End claims.

(** One pass over a percent-encoded target can leave the site. *)
Example open_redirect :
  let once := @safeNext ascii_only_unicode in
  once "/%2fevil.com/<" = "//evil.com/%3C" ∧ once (once "/%2fevil.com/<") = "/dashboard".
Proof. vm_compute. by split. Qed.

(** *** The login state *)

Lemma sextet_no_dot n : (n < 64)%N → negb ("." =? sextet b64_url n)%char = true.
Proof.
  intros Hn. assert (forallb (λ i, negb ("." =? sextet b64_url (N.of_nat i))%char) (seq 0 64) = true) as Hall by by vm_compute.
  rewrite forallb_forall in Hall. specialize (Hall (N.to_nat n)). rewrite N2Nat.id in Hall. apply Hall, in_seq. lia.
Qed.

Section state.
Context `{Crypto} `{GoLoginJSON} (secure : bool) (key : bytes).

(** C35 (roundtrip): the login state survives its cookie, and only the holder of
    the key can make one.  The callback that returns the cookie a login was
    started with reads back its state, nonce, verifier and target until it
    expires, and nothing after; and a cookie is read only if its signature is the
    HMAC, under the key, of what it is read from. *)
Theorem login_state_roundtrip `{!GoLoginJSONLaws} (ls : loginState) (now : time) (value : string) :
  (ascii_state ls → let read := openLoginState key now (Some (ckValue (setLoginState secure key ls))) in
     (now / second ≤ ls_Expires ls → read = Ok ls)%Z ∧ (ls_Expires ls < now / second → read = Err StateExpired)%Z) ∧
  (openLoginState key now (Some value) = Ok ls →
     ∃ b64 payload, value = b64 +:+ "." +:+ b64_encode b64_url false (hmac_sha256 key b64) ∧
       b64_decode b64_url false b64 = Some payload ∧ unmarshal_login payload = Some ls ∧ (now / second ≤ ls_Expires ls)%Z).
Proof.
  split.
  - intros Ha read. unfold read, setLoginState, openLoginState. cbn [ckValue state_cookie].
    change ("." +:+ ?x) with (String "." x). rewrite cut_app.
    2:{ by apply b64_encode_forall; [apply sextet_no_dot|]. }
    cbn [negb]. rewrite String.eqb_refl. cbn [negb]. rewrite b64_decode_encode by auto. rewrite unmarshal_marshal by done.
    split; intros Ht; [destruct (Z.ltb_spec (ls_Expires ls) (now / second)); [lia|done]|].
    destruct (Z.ltb_spec (ls_Expires ls) (now / second)); [done|lia].
  - unfold openLoginState. destruct (cut "." value) as [[b64 sig] found] eqn:Hc. destruct found; [|done]. cbn [negb].
    destruct (String.eqb_spec sig (sign key b64)) as [->|]; [|done]. cbn [negb].
    destruct (b64_decode _ _ b64) as [payload|] eqn:Hd; [|done]. destruct (unmarshal_login payload) as [x|] eqn:Hu; [|done].
    destruct (Z.ltb_spec (ls_Expires x) (now / second)); [done|]. intros Hx. assert (x = ls) as -> by congruence.
    exists b64, payload. split_and!; [|done..]. unfold cut in Hc. destruct (index_byte "." value) as [i|] eqn:Hi; [|done].
    apply index_byte_Some in Hi as [Hs _].
    assert (b64 = str_take i value ∧ sign key b64 = str_drop (S i) value) as [Hb Hsig] by (split; congruence).
    rewrite Hs, <-Hsig, <-Hb. done.
Qed.
End state.

(** *** Samples *)

Lemma safeNext_same_site_witness :
  let next := "/sites/a?tab=log#top" in
  no_char "%" next = true ∧ same_site_path (@safeNext ascii_only_unicode next) ∧ @safeNext ascii_only_unicode next = "/sites/a".
Proof.
  intros next. assert (no_char "%" next = true) as Hn by (vm_compute; reflexivity).
  split; [exact Hn|]. split; [|vm_compute; reflexivity].
  exact (proj1 (proj2 (@safeNext_same_site ascii_only_unicode next)) Hn).
Defined.

(** A stand-in for JSON: base64 fields and a decimal number, separated by dots *)
Definition sample_json : GoLoginJSON := {|
  marshal_login ls := join "." ((b64_encode b64_url false <$> [ls_State ls; ls_Nonce ls; ls_Verifier ls; ls_Next ls]) ++
                                [itoa (ls_Expires ls)]);
  unmarshal_login b :=
    match split "." b with
    | [s; n; v; x; e] =>
        match b64_decode b64_url false s, b64_decode b64_url false n, b64_decode b64_url false v,
              b64_decode b64_url false x, parse_int e with
        | Some s, Some n, Some v, Some x, Some e => Some (mkLoginState s n v x e)
        | _, _, _, _, _ => None
        end
    | _ => None
    end |}.
Lemma itoa_no_dot z : no_char "." (itoa z) = true.
Proof.
  assert (∀ n, no_char "." (digits 10 n) = true) as Hd.
  { intros n. eapply str_forall_impl, digits_digit. intros c Hc. revert Hc.
    destruct c as [[] [] [] [] [] [] [] []]; vm_compute; by intros. }
  destruct z; simpl; [done|apply Hd|]. unfold no_char. simpl. apply Hd.
Qed.
Lemma sample_json_laws : @GoLoginJSONLaws sample_json.
Proof.
  constructor. intros ls (_ & _ & _ & _ & He). cbn [unmarshal_login marshal_login sample_json].
  assert (∀ s, no_char "." (b64_encode b64_url false s) = true) as Hd.
  { intros s. by apply b64_encode_forall; [apply sextet_no_dot|]. }
  change (join "." ?l) with (join (String "." "") l). rewrite split_join; [|done|].
  - cbn [fmap list_fmap app]. rewrite !b64_decode_encode, parse_int_itoa by auto. by destruct ls.
  - apply Forall_app. split; [|constructor; [apply itoa_no_dot|constructor]]. repeat constructor; apply Hd.
Qed.
Definition length_hmac : Crypto := {| sha256 := id; hmac_sha256 key m := key +:+ m |}.
Lemma login_state_roundtrip_witness :
  let ls := mkLoginState "st" "no" "ve" "/sites" 1000 in
  @openLoginState length_hmac sample_json "key" (999 * second)%Z
    (Some (ckValue (@setLoginState length_hmac sample_json true "key" ls))) = Ok ls ∧
  @openLoginState length_hmac sample_json "key" (1001 * second)%Z
    (Some (ckValue (@setLoginState length_hmac sample_json true "key" ls))) = Err StateExpired.
Proof.
  intros ls. assert (ascii_state ls) as Hls by (vm_compute; repeat split; discriminate).
  split; eapply (@login_state_roundtrip length_hmac sample_json true "key" sample_json_laws ls _ ""); try exact Hls;
    vm_compute; congruence.
Defined.
