(* ===== verification/Providers.v ===== *)
(** * Sign-in providers and what sign-in asks (auth/provider.go, devauth.go, oidc.go, oidc_runtime.go)

    Sign-in talks to the store, the lockout tracker, the single-use store, bcrypt
    and the identity provider, and writes the response piece by piece.  All of it
    is events of one trace: [EvAsk] and [EvApi] with the answer they got, and
    [EvWrite] for what goes to the browser. *)

From S2P Require Import Prelude Trace GoStrings Encoding SiteTypes Http RateLimit Access Preview Wire ApiWorld Session.
From S2P Require Import Config OidcCfg.

(** ** Data *)

Record Claims := mkClaims {
  c_Subject : string; c_Email : string; c_EmailVerified : bool; c_Name : string; c_HostedDomain : string; c_IsAdmin : bool;
}.
Record idTokenClaims := mkIdToken {
  it_Subject : string; it_Email : string; it_EmailVerified : bool; it_Name : string; it_HostedDomain : string;
}.
Record verifiedToken := mkVerified { vt_Nonce : string; vt_Claims : idTokenClaims }.
Record UpsertLoginInput := mkUpsert {
  ul_Provider : string; ul_Subject : string; ul_Email : string; ul_DisplayName : string; ul_AvatarURL : option string;
}.
(** The oauth2 configuration and the token verifier are those discovered for [op_conf]. *)
Record OIDCProvider := mkOIDCProvider { op_conf : OIDCConfig; op_access : accessPolicy; op_hdHint : string }.
Inductive AuthProvider :=
| DevProvider (email name : string)
| PasswordProvider (email name : string) (envHash : option string) (store : bool)
| Interactive_ (p : OIDCProvider).

(** ** Events *)

Inductive Ask : Type → Type :=
| GetAdminPasswordHash : Ask (Res store_err (option string))
| SetAdminPasswordHash (hash : string) : Ask (Res store_err unit)
| PromoteUserAdmin (id : uuid) : Ask (Res store_err unit)
| UpsertLogin (in_ : UpsertLoginInput) : Ask (Res store_err uuid)
| AskGitHubConfig : Ask (Res store_err GitHubConfig)
| LockCheck (key : string) : Ask (bool * Z)
| LockFailure (key : string) : Ask unit
| LockSuccess (key : string) : Ask unit
| Consume (key : string) (ttl : Z) : Ask (option bool)
| BcryptCompare (hash password : string) : Ask bool
| BcryptGenerate (password : string) : Ask (option string)
| RuntimeProvider : Ask (Res prov_err OIDCProvider)
| RuntimeProviders : Ask (list string)
| CodeExchange (p : OIDCProvider) (code verifier : string) : Ask (Res string (option string))
| VerifyIDToken (p : OIDCProvider) (raw : string) : Ask (Res string verifiedToken)
| ControlBaseURL : Ask string
| BaseDomain : Ask string
| RandBytes : Ask (option bytes).
Inductive w_op := WCookie (c : Cookie) | WHeader (k v : string) | WReply (r : reply) | WRedirect (url : string).
Inductive sevent :=
| EvApi (e : event)
| EvAsk (A : Type) (q : Ask A) (a : A)
| EvWrite (o : w_op).
Arguments EvAsk {A}.

Class SignInWorld := {
  sw_ask : ∀ A, list sevent → Ask A → A;
  sw_store : ∀ A, list sevent → Store A → Res store_err A;
  sw_now : list sevent → time;
  sw_entropy : list sevent → option bytes;
}.
(** oauth2.Config.AuthCodeURL *)
Inductive oauth_opt := ONonce (n : string) | OS256Challenge (verifier : string) | OAccessTypeOnline | OHd (domain : string).
Class GoOAuth := { AuthCodeURL : OIDCConfig → string → list oauth_opt → string }.

(** An early return is a failure: the reply has been written by then. *)
Definition Prog (A : Type) : Type := @Trace.J sevent unit A.

Section steps.
Context `{SignInWorld}.

Definition query {A} (q : Ask A) : Prog A := λ tr, let a := sw_ask A tr q in (tr ++ [EvAsk q a], Ok a).
Definition now_ : Prog time := λ tr, (tr, Ok (sw_now tr)).
Definition write (o : w_op) : Prog unit := note (EvWrite o).
(** The cookies a change of the response header adds *)
Definition cookies (f : Response → Response) : Prog unit := each (λ c, write (WCookie c)) (wCookies (f newResponse)).
(** The session layer runs against the store of this world. *)
Definition session_world (tr : list sevent) : World := {|
  w_svc _ _ _ := Err (SiteErrors.ESentinel SiteErrors.ErrNotFound);
  w_store A t q := sw_store A (tr ++ (EvApi <$> t)) q;
  w_now t := sw_now (tr ++ (EvApi <$> t));
  w_rand62 _ _ := None;
  w_entropy t := sw_entropy (tr ++ (EvApi <$> t)) |}.
Definition in_session {A} (m : World → J A) : Prog A := λ tr,
  let '(t, a) := m (session_world tr) [] in
  (tr ++ (EvApi <$> t), match a with Ok a => Ok a | Err _ => Err tt end).
End steps.

(** ** Providers *)

Definition devProviderKey : string := "dev".
Definition passwordProviderKey : string := "password".
Definition oidcProviderKey : string := "oidc".
Definition devSubject : string := "kotoji-local-admin".

Definition defaultIfEmpty (s def : string) : string := if (s =? "")%string then def else s.
Definition Key (p : AuthProvider) : string :=
  match p with
  | DevProvider _ _ => devProviderKey
  | PasswordProvider _ _ _ _ => passwordProviderKey
  | Interactive_ _ => oidcProviderKey
  end.
Definition Interactive (p : AuthProvider) : bool := match p with Interactive_ _ => true | _ => false end.

Section providers.
Context `{GoUnicode}.

Definition NewDevProvider (cfg : Config) : AuthProvider :=
  DevProvider (defaultIfEmpty (to_lower (AdminEmail cfg)) "admin@kotoji.local") "Local Admin".
(** [generate] is bcrypt.GenerateFromPassword, which refuses long passwords *)
Definition NewPasswordProvider (generate : string → option string) (cfg : Config) (store : bool) : Res string AuthProvider :=
  let provider envHash :=
    PasswordProvider (defaultIfEmpty (to_lower (AdminEmail cfg)) "admin@kotoji.local") "Admin" envHash store in
  if negb (AdminPassword cfg =? "")%string then
    match generate (AdminPassword cfg) with
    | None => Err "bcrypt"
    | Some h => Ok (provider (Some h))
    end
  else Ok (provider None).
Definition newOIDCProvider (cfg : OIDCConfig) : OIDCProvider :=
  let access := newAccessPolicy (AllowedEmails cfg) (AllowedDomains cfg) (AdminEmails cfg) in
  mkOIDCProvider cfg access (match elements (domains access) with [d] => d | _ => "" end).
(** [discover] is oidc.NewProvider for an issuer *)
Definition NewOIDCProvider (discover : string → option string) (cfg : OIDCConfig) : Res string OIDCProvider :=
  if (ClientID cfg =? "")%string || (ClientSecret cfg =? "")%string then Err "auth: oidc requires client id and secret"
  else match discover (Issuer cfg) with
       | Some e => Err ("auth: oidc discovery (" +:+ Issuer cfg +:+ "): " +:+ e)
       | None => Ok (newOIDCProvider cfg)
       end.
(** The builder oidccfg is given *)
Definition NewOIDCBuilder (discover : string → option string) (e : EffectiveOIDC) : Res string OIDCProvider :=
  NewOIDCProvider discover (EffectiveOIDCConfig e).

Definition buildProvider (discover generate : string → option string) (store : bool) (cfg : Config) (mode : string) :
    Res string AuthProvider :=
  if (mode =? AuthModeOIDC)%string then try! p := NewOIDCProvider discover (cfg_OIDC cfg) in Ok (Interactive_ p)
  else if (mode =? AuthModePassword)%string then NewPasswordProvider generate cfg store
  else if (mode =? AuthModeNone)%string then Ok (NewDevProvider cfg)
  else Err ("auth: unknown auth mode " +:+ mode).
Definition ProviderFor (discover generate : string → option string) (store : bool) (cfg : Config) : Res string AuthProvider :=
  buildProvider discover generate store cfg (AuthMode cfg).
Fixpoint providers_go (discover generate : string → option string) (store : bool) (cfg : Config) (modes : list string) :
    Res string (list AuthProvider) :=
  match modes with
  | [] => Ok []
  | m :: modes =>
      try! p := buildProvider discover generate store cfg m in
      try! ps := providers_go discover generate store cfg modes in Ok (p :: ps)
  end.
Definition ProvidersFor (discover generate : string → option string) (store : bool) (cfg : Config) :
    Res string (list AuthProvider) := providers_go discover generate store cfg (AuthModes cfg).

Definition Start `{GoOAuth} (p : AuthProvider) (state nonce verifier : string) : string :=
  match p with
  | Interactive_ p =>
      AuthCodeURL (op_conf p) state ([ONonce nonce; OS256Challenge verifier; OAccessTypeOnline] ++
        (if negb (op_hdHint p =? "")%string then [OHd (op_hdHint p)] else []))
  | _ => ""
  end.

(** *** Exchange *)

Inductive exchange_err :=
| ErrBadPassword | ErrCodeExchange (msg : string) | ErrMissingIDToken | ErrVerify (msg : string) | ErrNonceMismatch
| ErrMissingClaims | ErrEmailNotVerified | ErrNotAllowed (email : string).

(** What the provider makes of a token that verified *)
Definition claims_of (p : OIDCProvider) (expectedNonce : string) (vt : verifiedToken) : Res exchange_err Claims :=
  if negb (vt_Nonce vt =? expectedNonce)%string then Err ErrNonceMismatch
  else
    let c := vt_Claims vt in
    if (it_Subject c =? "")%string || (it_Email c =? "")%string then Err ErrMissingClaims
    else
      let email := to_lower (it_Email c) in
      let hd := to_lower (it_HostedDomain c) in
      if negb (it_EmailVerified c) then Err ErrEmailNotVerified
      else
        let dec := decide_access (op_access p) email hd in
        if negb (Access.Allow dec) then Err (ErrNotAllowed email)
        else Ok (mkClaims (it_Subject c) email (it_EmailVerified c) (it_Name c) hd (Admin dec)).

Context `{SignInWorld}.

Definition activeHash (envHash : option string) (store : bool) : Prog (option string) :=
  if store then
    let! r := query GetAdminPasswordHash in
    match r with
    | Ok (Some h) => ok (Some h)
    | _ => ok envHash
    end
  else ok envHash.
Definition Exchange (p : AuthProvider) (code pkceVerifier expectedNonce : string) : Prog (Res exchange_err Claims) :=
  match p with
  | DevProvider email name => ok (Ok (mkClaims devSubject email true name "" false))
  | PasswordProvider email name envHash store =>
      let! hash := activeHash envHash store in
      match hash with
      | None => ok (Err ErrBadPassword)
      | Some hash =>
          let! same := query (BcryptCompare hash code) in
          ok (if same : bool then Ok (mkClaims devSubject email true name "" false) else Err ErrBadPassword)
      end
  | Interactive_ p =>
      let! tok := query (CodeExchange p code pkceVerifier) in
      match tok with
      | Err m => ok (Err (ErrCodeExchange m))
      | Ok raw =>
          let raw := default "" raw in
          if (raw =? "")%string then ok (Err ErrMissingIDToken)
          else
            let! vt := query (VerifyIDToken p raw) in
            ok match vt with Err m => Err (ErrVerify m) | Ok vt => claims_of p expectedNonce vt end
      end
  end.
End providers.
