(* ===== verification/SignIn.v ===== *)
(** * The sign-in handlers (auth/handlers.go)

    Login start, callback, password login, first-run setup, logout, the identity
    and the public configuration, as programs over the events of Providers. *)

From S2P Require Import Prelude Trace GoStrings Encoding SiteTypes Http Access Preview Wire ApiWorld Session.
From S2P Require Import Config OidcCfg LoginState Providers.

Record Auth := mkAuth {
  a_cfg : Config;
  a_providers : gmap string AuthProvider;
  a_interactive : option AuthProvider;
  a_password : option AuthProvider;
  a_signKey : bytes;
  (** whether a domain resolver and a runtime OIDC provider are installed *)
  a_domain : bool;
  a_runtime : bool;
}.
(** What the body of a request yields: the two fields of the JSON text, unless it
    does not decode, and the fields of the form *)
Record posted := mkPosted { ps_json : option (string * string); ps_form : string → string }.

Definition addProvider (a : Auth) (p : AuthProvider) : Auth := {|
  a_cfg := a_cfg a; a_providers := <[Key p := p]> (a_providers a);
  a_interactive := if Interactive p then Some p else a_interactive a;
  a_password := if Interactive p then a_password a else Some p;
  a_signKey := a_signKey a; a_domain := a_domain a; a_runtime := a_runtime a |}.
(** [None] is a nil provider *)
Definition NewWithProviders (cfg : Config) (signKey : bytes) (domain runtime : bool) (providers : list (option AuthProvider)) : Auth :=
  foldl addProvider (mkAuth cfg ∅ None None signKey domain runtime) (omap id providers).

Definition reservedHandles : list string :=
  ["draft"; "preview"; "published"; "www"; "api"; "internal"; "host"; "admin"; "app"; "static"; "assets"; "mcp"].

Section handlers.
Context `{GoUnicode} `{Crypto} `{GoLoginJSON} `{GoOAuth} `{GoNetip} `{UUIDText} `{SignInWorld}.
Context (a : Auth) (r : Request).

Definition session_cfg : AuthConfig :=
  mkAuthCfg (SessionCookieName (a_cfg a)) (CSRFCookieName (a_cfg a)) (SessionTTL (a_cfg a)) (cfg_CookieSecure (a_cfg a)).
Definition secure : bool := cfg_CookieSecure (a_cfg a).
Definition answer (p : reply) : Prog unit := write (WReply p).
(** [writeError(...); return] *)
Definition refuse {A} (status : Z) (code message : string) : Prog A :=
  answer (writeError status code message None) ;! fail tt.

Definition randToken : Prog (option string) :=
  let! b := query RandBytes in ok (b64_encode b64_url false <$> b).
Definition mustToken : Prog string :=
  let! t := randToken in
  match t with Some t => ok t | None => refuse StatusInternalServerError codeInternal "login could not be started" end.

(** ** Cookies of the handlers *)

Definition readLoginState : Prog (Res state_err loginState) :=
  let! now := now_ in
  write (WCookie (clearLoginState secure)) ;!
  ok (openLoginState (a_signKey a) now (cookie r (loginStateCookieName secure))).
Definition issueCSRF : Prog unit := λ tr, cookies (λ w, (@Issue (session_world tr) session_cfg [] r w).1) tr.

(** ** Providers *)

Definition resolveInteractiveOIDC : Prog (Res prov_err (option AuthProvider)) :=
  if a_runtime a then
    let! p := query RuntimeProvider in
    ok match p with
       | Ok p => Ok (Some (Interactive_ p))
       | Err ErrOIDCNotConfigured => Ok None
       | Err e => Err e
       end
  else ok (Ok (a_interactive a)).
Definition isDev (p : AuthProvider) : bool := (Key p =? devProviderKey)%string.
Definition selectStartProvider (requested : string) : Prog (Res prov_err (option AuthProvider)) :=
  let! oidc := resolveInteractiveOIDC in
  ok match oidc with
     | Err e => Err e
     | Ok oidcProv =>
         let byDefault :=
           match oidcProv with
           | Some p => Some p
           | None => match a_password a with Some p => if isDev p then Some p else None | None => None end
           end in
         Ok (if negb (requested =? "")%string then
               if (requested =? oidcProviderKey)%string && (match oidcProv with Some _ => true | None => false end)
               then oidcProv
               else match a_providers a !! requested with
                    | Some p => if isDev p then Some p else byDefault
                    | None => byDefault
                    end
             else byDefault)
     end.
Definition effectiveProviders : Prog (list string) :=
  if a_runtime a then query RuntimeProviders else ok (AuthModeStrings (a_cfg a)).

(** ** The tail of a login *)

Definition applyAdmin (p : AuthProvider) (user : uuid) (claims : Claims) : Prog unit :=
  if (Key p =? passwordProviderKey)%string then let! _ := query (PromoteUserAdmin user) in ok tt
  else if (Key p =? oidcProviderKey)%string && c_IsAdmin claims then let! _ := query (PromoteUserAdmin user) in ok tt
  else ok tt.
Definition establishSession (user : uuid) : Prog unit :=
  let! sid := in_session (λ w, @Create w session_cfg _ user (hget (rHeader r) "User-Agent")
                                 (clientIP r (TrustProxyHeaders (a_cfg a)))) in
  match sid with
  | Err _ => refuse StatusInternalServerError codeInternal "could not start your session"
  | Ok sid => cookies (SetCookie session_cfg sid) ;! issueCSRF
  end.
Definition upsert_of (p : AuthProvider) (claims : Claims) : UpsertLoginInput :=
  mkUpsert (Key p) (c_Subject claims) (c_Email claims) (c_Name claims) None.
Definition completeLogin (p : AuthProvider) (credential verifier nonce next : string)
    (onCredentialResult : option (bool → Prog unit)) : Prog unit :=
  let report bad := match onCredentialResult with Some f => f bad | None => ok tt end in
  let! claims := Exchange p credential verifier nonce in
  match claims with
  | Err ErrBadPassword =>
      report true ;! refuse StatusUnauthorized codeUnauthenticated "invalid credentials"
  | Err _ => refuse StatusForbidden codeForbidden "login was rejected"
  | Ok claims =>
      report false ;!
      let! user := query (UpsertLogin (upsert_of p claims)) in
      match user with
      | Err _ => refuse StatusInternalServerError codeInternal "could not establish your account"
      | Ok user =>
          applyAdmin p user claims ;!
          establishSession user ;!
          write (WRedirect next)
      end
  end.

(** ** Handlers *)

Definition StatusBadGateway : Z := 502.
(** The text of [derr] is that of a library *)
Definition misconfigured (e : prov_err) : string :=
  "sign-in provider is misconfigured: " +:+
  match e with
  | ErrOIDCNotConfigured => "oidccfg: oidc is not configured or not enabled"
  | ErrNoBuilder => "oidccfg: no provider builder configured"
  | EDiscovery m => m
  end.
Definition query_next : string := safeNext (query_get (rURLRawQuery r) "next").

Definition LoginStart : Prog unit :=
  let next := query_next in
  let! prov := selectStartProvider (query_get (rURLRawQuery r) "provider") in
  match prov with
  | Err e => refuse StatusBadGateway codeInternal (misconfigured e)
  | Ok None => refuse StatusBadRequest codeValidation "this provider uses POST /auth/login with a credential"
  | Ok (Some prov) =>
      if negb (Interactive prov) then completeLogin prov "" "" "" next None
      else
        let! state := mustToken in
        let! nonce := mustToken in
        let! verifier := mustToken in
        let! now := now_ in
        write (WCookie (setLoginState secure (a_signKey a)
                          (mkLoginState state nonce verifier next ((now + loginStateTTL) / second)))) ;!
        write (WRedirect (Start prov state nonce verifier))
  end.

Definition effectiveControl : Prog (option string) :=
  if a_domain a then let! u := query ControlBaseURL in ok (Some u) else ok None.
Definition rejectCrossOrigin : Prog unit :=
  let! u := effectiveControl in
  if negb (sameOriginOK (a_cfg a) u r) then refuse StatusForbidden codeForbidden "cross-origin request rejected"
  else ok tt.
Definition writeLockedOut (retryAfter : Z) : Prog unit :=
  let secs := Z.quot (retryAfter + second - 1) second in
  let secs := if (secs <? 1)%Z then 1%Z else secs in
  write (WHeader "Retry-After" (itoa secs)) ;!
  refuse StatusTooManyRequests codeRateLimited "too many failed login attempts; try again later".

Definition is_json : bool := has_prefix "application/json" (hget (rHeader r) "Content-Type").
(** The password and where to go next *)
Definition credential_of (body : posted) : string * string :=
  let chosen n := if negb (n =? "")%string then safeNext n else query_next in
  if is_json then match ps_json body with Some (password, n) => (password, chosen n) | None => ("", query_next) end
  else (ps_form body "password", chosen (ps_form body "next")).
Definition lockout_hook (key : string) (badPassword : bool) : Prog unit :=
  if badPassword then query (LockFailure key) else query (LockSuccess key).
Definition LoginPassword (body : posted) : Prog unit :=
  rejectCrossOrigin ;!
  match a_password a with
  | None => refuse StatusBadRequest codeValidation "this instance uses redirect-based login"
  | Some prov =>
      let srcKey := lockoutKey (a_cfg a) r in
      let gated := (Key prov =? passwordProviderKey)%string in
      (if gated then
         let! l := query (LockCheck srcKey) in
         if l.1 : bool then writeLockedOut l.2 else ok tt
       else ok tt) ;!
      let '(password, next) := credential_of body in
      completeLogin prov password "" "" next (if gated then Some (lockout_hook srcKey) else None)
  end.

Definition Callback : Prog unit :=
  let! prov := resolveInteractiveOIDC in
  match prov with
  | Err e => refuse StatusBadGateway codeInternal (misconfigured e)
  | Ok None => refuse StatusForbidden codeForbidden "no redirect-based login is enabled"
  | Ok (Some prov) =>
      let code := query_get (rURLRawQuery r) "code" in
      let state := query_get (rURLRawQuery r) "state" in
      let! ls := readLoginState in
      match ls with
      | Err _ => refuse StatusForbidden codeForbidden "login session is invalid or expired"
      | Ok ls =>
          if (state =? "")%string || negb (state =? ls_State ls)%string then
            refuse StatusForbidden codeForbidden "login state mismatch"
          else
            let! first := query (Consume ("oidc-state:" +:+ state) loginStateTTL) in
            match first with
            | Some true =>
                if (code =? "")%string then refuse StatusForbidden codeForbidden "missing authorization code"
                else completeLogin prov code (ls_Verifier ls) (ls_Nonce ls) (safeNext (ls_Next ls)) None
            | _ => refuse StatusForbidden codeForbidden "login state mismatch"
            end
      end
  end.

(** *** First run *)

Definition setupRequired : Prog bool :=
  if negb (PasswordEnabled (a_cfg a)) then ok false
  else if negb (AdminPassword (a_cfg a) =? "")%string then ok false
  else
    let! h := query GetAdminPasswordHash in
    ok match h with Ok None => true | _ => false end.
Definition adminEmail : string := defaultIfEmpty (to_lower (AdminEmail (a_cfg a))) "admin@kotoji.local".
(** The password, unless the confirmation differs *)
Definition setup_password (body : posted) : option string :=
  let check pw confirm := if negb (confirm =? "")%string && negb (confirm =? pw)%string then None else Some pw in
  if is_json then match ps_json body with Some (pw, confirm) => check pw confirm | None => Some "" end
  else check (ps_form body "password") (ps_form body "confirm").
Definition setup_upsert : UpsertLoginInput := mkUpsert passwordProviderKey devSubject adminEmail "Admin" None.
Definition Setup (body : posted) : Prog unit :=
  rejectCrossOrigin ;!
  let! required := setupRequired in
  if negb required then refuse StatusConflict codeConflict "setup already completed"
  else
    match setup_password body with
    | None => refuse StatusUnprocessableEntity codeValidation "passwords do not match"
    | Some password =>
        if (String.length password <? AdminPasswordMinLen)%nat then
          refuse StatusUnprocessableEntity codeValidation
            ("password must be at least " +:+ itoa (Z.of_nat AdminPasswordMinLen) +:+ " characters")
        else
          let! hash := query (BcryptGenerate password) in
          match hash with
          | None => refuse StatusInternalServerError codeInternal "could not set the password"
          | Some hash =>
              let! user := query (UpsertLogin setup_upsert) in
              match user with
              | Err _ => refuse StatusInternalServerError codeInternal "could not establish your account"
              | Ok user =>
                  let! _ := query (PromoteUserAdmin user) in
                  let! set := query (SetAdminPasswordHash hash) in
                  match set with
                  | Err _ => refuse StatusInternalServerError codeInternal "could not set the password"
                  | Ok _ =>
                      establishSession user ;!
                      answer (writeJSON StatusOK (JObj [("ok", JBool true)]))
                  end
              end
          end
    end.

(** *** The rest *)

Definition Logout : Prog unit :=
  rejectCrossOrigin ;!
  (let id := readCookie session_cfg r in
   if negb (id =? "")%string then let! _ := in_session (λ w, @Delete w id) in ok tt else ok tt) ;!
  cookies (ClearCookie session_cfg) ;!
  cookies (csrf_clearCookie session_cfg) ;!
  answer noContent.

Definition Me (user : option SessionUser) : Prog unit :=
  match user with
  | None => refuse StatusUnauthorized codeUnauthenticated "authentication required"
  | Some u =>
      issueCSRF ;!
      answer (writeJSON StatusOK (JObj [
        ("user", JObj [("id", juuid (su_UserID u)); ("email", JStr (su_Email u)); ("displayName", JStr (su_DisplayName u));
                       ("avatarUrl", nullable JStr (su_AvatarURL u)); ("isAdmin", JBool (su_IsAdmin u));
                       ("canCreateSites", JBool (su_CanCreateSites u))]);
        ("authMode", JStr (AuthMode (a_cfg a)))]))
  end.

Definition githubMirrorEnabled : Prog bool :=
  let env := cfg_GitHub (a_cfg a) in
  let! gh := query AskGitHubConfig in
  ok match gh with
     | Ok gh => (if gh_EnabledSet gh then gh_Enabled gh else gm_Enabled env) &&
                (gh_TokenSet gh || negb (gm_Token env =? "")%string)
     | Err _ => gm_Enabled env && negb (gm_Token env =? "")%string
     end.
Definition PublicConfig : Prog unit :=
  let cfg := a_cfg a in
  let! baseDomain := if a_domain a then query BaseDomain else ok (cfg_BaseDomain cfg) in
  let! controlBaseURL := if a_domain a then query ControlBaseURL else ok (cfg_ControlBaseURL cfg) in
  let! providers := effectiveProviders in
  let! mirror := githubMirrorEnabled in
  let! setup := setupRequired in
  answer (writeJSON StatusOK (JObj [
    ("maxUploadBytes", JInt (zl_MaxUploadBytes (cfg_Zip cfg))); ("zipMaxFiles", JInt (zl_MaxFiles (cfg_Zip cfg)));
    ("zipMaxTotalBytes", JInt (zl_MaxTotalBytes (cfg_Zip cfg))); ("zipMaxRatio", JInt (zl_MaxRatio (cfg_Zip cfg)));
    ("allowedExtensions", strings (zl_AllowedExt (cfg_Zip cfg))); ("handleMinLen", JInt (HandleMinLen cfg));
    ("handleMaxLen", JInt (HandleMaxLen cfg)); ("reservedHandles", strings reservedHandles);
    ("baseDomain", JStr baseDomain); ("controlBaseURL", JStr controlBaseURL); ("authMode", JStr (AuthMode cfg));
    ("authProviders", strings providers); ("defaultPublishMode", JStr "direct");
    ("githubMirrorEnabled", JBool mirror); ("setupRequired", JBool setup)])).

Inductive sign_in_route :=
| RLoginStart | RCallback | RLoginPassword (body : posted) | RSetup (body : posted) | RLogout
| RMe (user : option SessionUser) | RPublicConfig.
Definition run (rt : sign_in_route) : Prog unit :=
  match rt with
  | RLoginStart => LoginStart
  | RCallback => Callback
  | RLoginPassword body => LoginPassword body
  | RSetup body => Setup body
  | RLogout => Logout
  | RMe user => Me user
  | RPublicConfig => PublicConfig
  end.
End handlers.
