(* ===== verification/SignInFacts.v ===== *)
(** * Every effect of a sign-in request has been earned

    [justified] says, for every event of a sign-in request, what the trace must
    show before it: a verified credential before a user is written and a session
    begins, an unlocked source before a password is compared, an authentic login
    state used for the first time before a code is redeemed, and the first run
    before a password is set. *)

From S2P Require Import Prelude Trace GoStrings Encoding SiteTypes Http Access Preview Wire ApiWorld Session.
From S2P Require Import Config OidcCfg LoginState Providers SignIn.

Section rules.
Context `{GoUnicode} `{Crypto} `{GoLoginJSON} `{GoOAuth}.
Context (a : Auth) (r : Request) (rt : sign_in_route).
Abbreviation cfg := (a_cfg a).

(** ** What a trace shows *)

Definition same_site (t : list sevent) : Prop :=
  if a_domain a then ∃ url, EvAsk ControlBaseURL url ∈ t ∧ sameOriginOK cfg (Some url) r = true
  else sameOriginOK cfg None r = true.
Definition unlocked (t : list sevent) : Prop :=
  ∃ wait, EvAsk (LockCheck (lockoutKey cfg r)) (false, wait) ∈ t.
Definition first_run (t : list sevent) : Prop :=
  PasswordEnabled cfg = true ∧ AdminPassword cfg = "" ∧ EvAsk GetAdminPasswordHash (Ok None) ∈ t.
(** The hash in force: the stored one, or that of the environment when none could be read *)
Definition hash_in_force (t : list sevent) (envHash : option string) (store : bool) (h : string) : Prop :=
  if store then
    EvAsk GetAdminPasswordHash (Ok (Some h)) ∈ t ∨
    envHash = Some h ∧ ∃ x, EvAsk GetAdminPasswordHash x ∈ t ∧ (x = Ok None ∨ is_ok x = false)
  else envHash = Some h.
Definition oidc_in_force (t : list sevent) (p : OIDCProvider) : Prop :=
  if a_runtime a then EvAsk RuntimeProvider (Ok p) ∈ t else a_interactive a = Some (Interactive_ p).
(** The login state of the cookie: authentic, unexpired, the one of the callback,
    and consumed for the first time *)
Definition handshake (t : list sevent) (ls : loginState) : Prop :=
  rt = RCallback ∧ (∃ now, openLoginState (a_signKey a) now (cookie r (loginStateCookieName (secure a))) = Ok ls) ∧
  ls_State ls ≠ "" ∧ query_get (rURLRawQuery r) "state" = ls_State ls ∧
  EvAsk (Consume ("oidc-state:" +:+ ls_State ls) loginStateTTL) (Some true) ∈ t.
Definition setting_up (t : list sevent) (pw : string) : Prop :=
  ∃ body, rt = RSetup body ∧ setup_password r body = Some pw ∧ AdminPasswordMinLen ≤ String.length pw ∧
    same_site t ∧ first_run t.
Definition dev_on (p : AuthProvider) : Prop :=
  Key p = devProviderKey ∧ (a_password a = Some p ∨ ∃ k, a_providers a !! k = Some p).

(** The account a request has earned, and whether as an administrator *)
Inductive earned (t : list sevent) : UpsertLoginInput → bool → Prop :=
| by_dev email name : dev_on (DevProvider email name) →
    earned t (mkUpsert devProviderKey devSubject email name None) false
| by_password email name envHash store body h :
    a_password a = Some (PasswordProvider email name envHash store) → rt = RLoginPassword body →
    same_site t → unlocked t → hash_in_force t envHash store h →
    EvAsk (BcryptCompare h (credential_of r body).1) true ∈ t →
    earned t (mkUpsert passwordProviderKey devSubject email name None) true
| by_oidc p ls raw vt c : oidc_in_force t p → handshake t ls →
    EvAsk (CodeExchange p (query_get (rURLRawQuery r) "code") (ls_Verifier ls)) (Ok (Some raw)) ∈ t →
    EvAsk (VerifyIDToken p raw) (Ok vt) ∈ t → vt_Nonce vt = ls_Nonce ls → vt_Claims vt = c →
    it_Subject c ≠ "" → it_Email c ≠ "" → it_EmailVerified c = true →
    let dec := decide_access (op_access p) (to_lower (it_Email c)) (to_lower (it_HostedDomain c)) in
    Access.Allow dec = true →
    earned t (mkUpsert oidcProviderKey (it_Subject c) (to_lower (it_Email c)) (it_Name c) None) (Admin dec)
| by_setup pw : setting_up t pw → earned t (setup_upsert a) true.

(** The user the trace wrote for an account it had earned *)
Definition signed_in (t : list sevent) (user : uuid) (admin : bool) : Prop :=
  ∃ in_, EvAsk (UpsertLogin in_) (Ok user) ∈ t ∧ earned t in_ admin.
Definition session_of (t : list sevent) (id : string) : Prop :=
  ∃ s, EvApi (EvStore (QCreateSession s) (Ok tt)) ∈ t ∧ ns_ID s = id.

(** ** What each event requires *)

Definition ask_justified (t : list sevent) {A} (q : Ask A) : Prop :=
  match q with
  | UpsertLogin in_ => ∃ admin, earned t in_ admin
  | PromoteUserAdmin user => signed_in t user true
  | SetAdminPasswordHash h => ∃ pw, setting_up t pw ∧ EvAsk (BcryptGenerate pw) (Some h) ∈ t
  | BcryptCompare h pw => same_site t ∧ unlocked t
  | BcryptGenerate pw => setting_up t pw
  | LockSuccess key => key = lockoutKey cfg r ∧ ∃ h pw, EvAsk (BcryptCompare h pw) true ∈ t
  | LockCheck key | LockFailure key => key = lockoutKey cfg r
  | Consume key _ => ∃ ls now, key = "oidc-state:" +:+ ls_State ls ∧
      openLoginState (a_signKey a) now (cookie r (loginStateCookieName (secure a))) = Ok ls
  | CodeExchange p _ verifier => oidc_in_force t p ∧ ∃ ls, handshake t ls ∧ verifier = ls_Verifier ls
  | VerifyIDToken p raw => ∃ code verifier, EvAsk (CodeExchange p code verifier) (Ok (Some raw)) ∈ t
  | _ => True
  end.
Definition cookie_justified (t : list sevent) (c : Cookie) : Prop :=
  let s := session_cfg a in
  (∃ id, session_of t id ∧ c = session_cookie s id (Z.quot (au_ttl s) second)) ∨
  rt = RLogout ∧ same_site t ∧ (c = session_cookie s "" (-1) ∨ c = csrf_cookie s "" (-1)) ∨
  (∃ tok, c = csrf_cookie s tok 0) ∨ c = clearLoginState (secure a) ∨
  rt = RLoginStart ∧ ∃ ls, c = setLoginState (secure a) (a_signKey a) ls.
Definition redirect_justified (t : list sevent) (url : string) : Prop :=
  (∃ id next, session_of t id ∧ url = safeNext next) ∨
  rt = RLoginStart ∧ ∃ p ls, oidc_in_force t p ∧ url = Start (Interactive_ p) (ls_State ls) (ls_Nonce ls) (ls_Verifier ls) ∧
    EvWrite (WCookie (setLoginState (secure a) (a_signKey a) ls)) ∈ t.
Definition justified (t : list sevent) (e : sevent) : Prop :=
  match e with
  | EvAsk q _ => ask_justified t q
  | EvApi (EvStore (QCreateSession s) _) => ∃ admin, signed_in t (ns_UserID s) admin
  | EvApi (EvStore (QDeleteSession id) _) => rt = RLogout ∧ same_site t ∧ id = readCookie (session_cfg a) r
  | EvApi _ => False
  | EvWrite (WCookie c) => cookie_justified t c
  | EvWrite (WRedirect url) => redirect_justified t url
  | EvWrite _ => True
  end.

(** ** What a trace shows it keeps showing *)

Abbreviation any := (λ _ : sevent, True).
Lemma keep (x e : sevent) t : x ∈ t → x ∈ t ++ [e].
Proof. rewrite elem_of_app. by left. Qed.
#[local] Hint Resolve keep : core.
Lemma same_site_stable : stable any same_site.
Proof. intros t e _. unfold same_site. destruct (a_domain a); [|done]. intros (u & ? & ?). eauto. Qed.
Lemma unlocked_stable : stable any unlocked.
Proof. intros t e _ [w Hw]. exists w. auto. Qed.
Lemma first_run_stable : stable any first_run.
Proof. intros t e _ (? & ? & ?). split_and!; auto. Qed.
Lemma hash_stable env store h : stable any (λ t, hash_in_force t env store h).
Proof. intros t e _. unfold hash_in_force. destruct store; [|done]. intros [?|(? & x & ? & ?)]; eauto 7. Qed.
Lemma oidc_stable p : stable any (λ t, oidc_in_force t p).
Proof. intros t e _. unfold oidc_in_force. destruct (a_runtime a); auto. Qed.
Lemma handshake_stable ls : stable any (λ t, handshake t ls).
Proof. intros t e _ (? & ? & ? & ? & ?). split_and!; auto. Qed.
Lemma setting_up_stable pw : stable any (λ t, setting_up t pw).
Proof.
  intros t e He (body & ? & ? & ? & ? & ?). exists body.
  split_and!; [done..|by apply same_site_stable|by apply first_run_stable].
Qed.
Lemma earned_stable in_ admin : stable any (λ t, earned t in_ admin).
Proof.
  intros t e He [].
  - by apply by_dev.
  - eapply by_password; eauto; [by apply same_site_stable|by apply unlocked_stable|by apply hash_stable].
  - eapply by_oidc; eauto; [by apply oidc_stable|by apply handshake_stable].
  - eapply by_setup, setting_up_stable; eauto.
Qed.
Lemma signed_in_stable u admin : stable any (λ t, signed_in t u admin).
Proof. intros t e He (in_ & ? & ?). exists in_. split; [auto|by apply earned_stable]. Qed.
Lemma session_of_stable id : stable any (λ t, session_of t id).
Proof. intros t e He (s & ? & ?). exists s. auto. Qed.
End rules.
#[export] Hint Resolve same_site_stable unlocked_stable first_run_stable hash_stable oidc_stable handshake_stable : jobs.
#[export] Hint Resolve setting_up_stable earned_stable signed_in_stable session_of_stable : jobs.

(** ** Proofs *)

Section safety.
Context `{GoUnicode} `{Crypto} `{GoLoginJSON} `{GoOAuth} `{GoNetip} `{UUIDText} `{SignInWorld}.
Context (a : Auth) (r : Request) (rt : sign_in_route).
(** What NewWithProviders makes sure of *)
Definition sorted_providers : Prop :=
  (∀ p, a_interactive a = Some p → Interactive p = true) ∧ (∀ p, a_password a = Some p → Interactive p = false).
Context (Hsorted : sorted_providers).
Abbreviation any := (λ _ : sevent, True).
Abbreviation just := (justified a r rt).
Abbreviation job := (@Trace.job sevent unit any just).

Ltac stab := solve [auto 10 with jobs].
Lemma query_job {A} P (q : Ask A) : (∀ t, P t → ask_justified a r rt t q) → job P (query q) (λ x t, EvAsk q x ∈ t).
Proof.
  intros Hj tr Ht HP. split; [apply calmly_snoc; [done..|by apply Hj]|].
  simpl. intros x [= <-]. rewrite elem_of_app, list_elem_of_singleton. by right.
Qed.
Lemma write_job P o : (∀ t, P t → just t (EvWrite o)) → job P (write o) (λ _ t, EvWrite o ∈ t).
Proof. intros Hj. by apply job_note. Qed.
Lemma refuse_job {A} P status code message (Q : A → list sevent → Prop) : job P (refuse status code message) Q.
Proof.
  intros tr Ht HP. unfold refuse, answer, write, bindM, note, fail. simpl. split; [by apply calmly_snoc|done].
Qed.
Lemma now_job P : job P now_ anything.
Proof. by apply job_read. Qed.
Lemma cookies_job P f : stable any P → (∀ t c, P t → c ∈ wCookies (f newResponse) → cookie_justified a r rt t c) →
  job P (cookies f) anything.
Proof.
  intros HP Hj. apply job_each; [done|]. intros c Hc. eapply job_any, write_job. intros t Ht. by apply (Hj t c).
Qed.
Lemma token_job P : stable any P → job P mustToken anything.
Proof.
  intros HP. unfold mustToken, randToken. apply job_seq; [done| |intros [tok|]; [by apply job_ok|apply refuse_job]].
  apply job_seq; [done|eapply job_any, query_job; done|]. intros b. by apply job_ok.
Qed.
#[local] Hint Resolve refuse_job now_job token_job : steps.
Lemma ok_job {A} P (x : A) : job P (ok x) anything.
Proof. by apply job_ok. Qed.

(** *** Sessions *)

Lemma issueCSRF_job P : stable any P → job P (issueCSRF a r) anything.
Proof.
  intros HP tr Ht HPt. apply (cookies_job P); [done| |done|done]. intros t c Hc Hin. right. right. left.
  unfold Issue in Hin. destruct (negb _); [by apply elem_of_nil in Hin|].
  destruct (newCSRFToken _) as [tok|]; [|by apply elem_of_nil in Hin].
  apply list_elem_of_singleton in Hin as ->. by eexists.
Qed.
Lemma create_job P user admin :
  stable any P → (∀ t, P t → signed_in a r rt t user admin) →
  job P (in_session (λ w, @Create w (session_cfg a) _ user (hget (rHeader r) "User-Agent")
           (clientIP r (TrustProxyHeaders (a_cfg a))))) (λ sid t, ∀ id, sid = Ok id → session_of t id).
Proof.
  intros HP Hs tr Ht HPt. unfold in_session, Create. destruct (newSessionID _) as [id|].
  - simpl. split.
    + apply calmly_snoc; [done..|]. exists admin. by apply Hs.
    + intros sid [= <-]. destruct (sw_store _ _ _) as [[]|e] eqn:E; [|done]. intros ? [= <-].
      eexists. split; [rewrite elem_of_app, list_elem_of_singleton; by right|done].
  - simpl. rewrite app_nil_r. split; [by apply calmly_refl|]. by intros sid [= <-].
Qed.
Lemma establish_job P user admin :
  stable any P → (∀ t, P t → signed_in a r rt t user admin) →
  job P (establishSession a r user) (λ _ t, ∃ id, session_of t id).
Proof.
  intros HP Hs. eapply job_bind; [done|by eapply create_job|]. intros [id|e]; [|apply refuse_job].
  eapply job_weaken with (P' := λ t, P t ∧ session_of t id); [|intros t [? Hid]; by split; [|apply Hid]].
  apply job_seq; [stab| |].
  - apply cookies_job; [stab|]. intros t c [_ Hid] Hin. apply list_elem_of_singleton in Hin as ->. left. by exists id.
  - intros _. eapply job_post; [eapply job_keep; [|apply issueCSRF_job]; stab|]. intros _ t [_ Hid]. by exists id.
Qed.

(** *** Credentials *)

(** What each provider needs of the request before it is asked *)
Definition entitled (t : list sevent) (p : AuthProvider) (code verifier nonce : string) : Prop :=
  match p with
  | DevProvider _ _ => dev_on a p
  | PasswordProvider _ _ _ _ =>
      a_password a = Some p ∧ same_site a r t ∧ unlocked a r t ∧
      ∃ body, rt = RLoginPassword body ∧ code = (credential_of r body).1
  | Interactive_ q =>
      oidc_in_force a t q ∧ code = query_get (rURLRawQuery r) "code" ∧
      ∃ ls, handshake a r rt t ls ∧ verifier = ls_Verifier ls ∧ nonce = ls_Nonce ls
  end.
Definition admin_login (p : AuthProvider) (c : Claims) : bool :=
  match p with DevProvider _ _ => false | PasswordProvider _ _ _ _ => true | Interactive_ _ => c_IsAdmin c end.
Definition verified (t : list sevent) (p : AuthProvider) (res : Res exchange_err Claims) : Prop :=
  ∀ c, res = Ok c → earned a r rt t (upsert_of p c) (admin_login p c) ∧
    (Key p = passwordProviderKey → ∃ h pw, EvAsk (BcryptCompare h pw) true ∈ t).
Lemma entitled_stable p code verifier nonce : stable any (λ t, entitled t p code verifier nonce).
Proof.
  intros t e He. destruct p; simpl; [done| |].
  - intros (? & ? & ? & ?). split_and!; [done|by apply same_site_stable|by apply unlocked_stable|done].
  - intros (? & ? & ls & ? & ?). split_and!; [by apply oidc_stable|done|]. exists ls. split; [by apply handshake_stable|done].
Qed.
#[local] Hint Resolve entitled_stable : jobs.

Lemma activeHash_job P env store : stable any P →
  job P (activeHash env store) (λ h t, ∀ x, h = Some x → hash_in_force t env store x).
Proof.
  intros HP. unfold activeHash, hash_in_force. destruct store; [|by apply job_ok].
  eapply job_bind; [done|by apply query_job|]. intros [[h|]|e]; apply job_ok; intros t [_ Hin] x.
  - intros [= ->]. by left.
  - intros ->. right. split; [done|]. eexists. split; [done|by left].
  - intros ->. right. split; [done|]. eexists. split; [done|by right].
Qed.
Lemma claims_of_ok p n vt c : claims_of p n vt = Ok c →
  let it := vt_Claims vt in
  let dec := decide_access (op_access p) (to_lower (it_Email it)) (to_lower (it_HostedDomain it)) in
  vt_Nonce vt = n ∧ it_Subject it ≠ "" ∧ it_Email it ≠ "" ∧ it_EmailVerified it = true ∧ Access.Allow dec = true ∧
  c_Subject c = it_Subject it ∧ c_Email c = to_lower (it_Email it) ∧ c_Name c = it_Name it ∧ c_IsAdmin c = Admin dec.
Proof.
  unfold claims_of. destruct (String.eqb_spec (vt_Nonce vt) n); [|done]. cbn [negb].
  destruct (String.eqb_spec (it_Subject (vt_Claims vt)) ""); [done|].
  destruct (String.eqb_spec (it_Email (vt_Claims vt)) ""); [done|]. cbn [orb].
  destruct (it_EmailVerified _); [|done]. cbn [negb]. destruct (Access.Allow _) eqn:Ha; [|done].
  cbn [negb]. intros Hc. assert (c = mkClaims (it_Subject (vt_Claims vt)) (to_lower (it_Email (vt_Claims vt))) true
    (it_Name (vt_Claims vt)) (to_lower (it_HostedDomain (vt_Claims vt))) (Admin (decide_access (op_access p)
    (to_lower (it_Email (vt_Claims vt))) (to_lower (it_HostedDomain (vt_Claims vt)))))) as -> by congruence.
  by split_and!.
Qed.
Lemma exchange_oidc_job q code verifier nonce :
  job (λ t, entitled t (Interactive_ q) code verifier nonce) (Exchange (Interactive_ q) code verifier nonce)
    (λ res t, verified t (Interactive_ q) res).
Proof.
  cbn [Exchange]. eapply job_bind; [stab|apply query_job; intros t (? & _ & ls & ? & ? & ?); split; [done|by exists ls]|].
  intros [raw|e]; [|apply job_ok; by intros t _ c].
  destruct (String.eqb_spec (default "" raw) "") as [Hraw|Hraw]; [apply job_ok; by intros t _ c|].
  destruct raw as [raw|]; [|done]. eapply job_bind; [stab|apply query_job; intros t [_ ?]; by do 2 eexists|].
  intros [vt|e]; apply job_ok; [|by intros t _ c].
  intros t [[(Ho & -> & ls & Hls & -> & ->) Hx] Hv] c Hc. apply claims_of_ok in Hc.
  destruct Hc as (Hn & Hs & Hem & Hev & Ha & Hcs & Hce & Hcn & Hci). split; [|done].
  unfold upsert_of, admin_login. rewrite Hcs, Hce, Hcn, Hci. by eapply by_oidc.
Qed.
Lemma exchange_job p code verifier nonce :
  job (λ t, entitled t p code verifier nonce) (Exchange p code verifier nonce) (λ res t, verified t p res).
Proof.
  destruct p as [email name|email name env store|q]; [|..|apply exchange_oidc_job].
  - apply job_ok. intros t Hp c [= <-]. split; [by apply by_dev|done].
  - cbn [Exchange]. eapply job_bind; [stab|by apply activeHash_job; stab|]. intros [h|]; [|apply job_ok; by intros t _ c].
    eapply job_bind.
    + apply stable_and; [stab|]. apply stable_forall. intros x. apply stable_impl. stab.
    + apply query_job. by intros t [(_ & ? & ? & _) _].
    + intros same. apply job_ok. intros t [[(Hp & Hs & Hu & body & Hrt & ->) Hh] Hc] c. destruct same; [|done].
      intros [= <-]. split; [|eauto]. eapply by_password; eauto.
Qed.

(** *** The tail of a login, and the handlers *)

Lemma verified_stable p res : stable any (λ t, verified t p res).
Proof.
  intros t e He Hv c Hc. destruct (Hv c Hc) as [Hin Hk]. split; [by apply earned_stable|].
  intros Hp. destruct (Hk Hp) as (h & pw & ?). exists h, pw. by apply keep.
Qed.
#[local] Hint Resolve verified_stable : jobs.
Definition hooked (p : AuthProvider) (hook : option (bool → Prog unit)) : Prop :=
  hook = None ∨ Key p = passwordProviderKey ∧ hook = Some (lockout_hook (lockoutKey (a_cfg a) r)).
Lemma report_job p res hook bad : hooked p hook → (bad = false → is_ok res = true) →
  job (λ t, verified t p res) (match hook with Some f => f bad | None => ok tt end) anything.
Proof.
  intros [->|[Hp ->]] Hb; [by apply job_ok|]. unfold lockout_hook.
  destruct bad; (eapply job_any, query_job); intros t Hv; [done|]. split; [done|].
  destruct res as [c|]; [|by specialize (Hb eq_refl)]. by apply (Hv c).
Qed.
Lemma applyAdmin_job P p user c : stable any P → (∀ t, P t → signed_in a r rt t user (admin_login p c)) →
  job P (applyAdmin p user c) anything.
Proof.
  intros HP Hs. unfold applyAdmin. destruct p as [| |q]; cbn [Key]; simpl; [by apply job_ok| |].
  - apply job_seq; [done|eapply job_any, query_job; exact Hs|]. intros _. apply ok_job.
  - simpl in Hs. destruct (c_IsAdmin c); [|by apply job_ok].
    apply job_seq; [done|eapply job_any, query_job; exact Hs|]. intros _. apply ok_job.
Qed.
Lemma completeLogin_job p code verifier nonce next hook : hooked p hook →
  job (λ t, entitled t p code verifier nonce) (completeLogin a r p code verifier nonce (safeNext next) hook) anything.
Proof.
  intros Hh. unfold completeLogin. eapply job_bind; [stab|apply exchange_job|]. intros res.
  eapply job_weaken with (P' := λ t, verified t p res); [|by intros t []].
  destruct res as [c|e].
  - apply job_seq; [stab|by eapply report_job|]. intros _.
    eapply job_bind; [stab|apply query_job|intros [user|e]; [|apply refuse_job]].
    { intros t Hv. exists (admin_login p c). by apply (Hv c). }
    eapply job_weaken with (P' := λ t, signed_in a r rt t user (admin_login p c)).
    2:{ intros t [Hv Hu]. eexists. split; [done|]. by apply (Hv c). }
    apply job_seq; [stab|by apply applyAdmin_job; [stab|]|]. intros _.
    eapply job_bind; [stab|by eapply establish_job; [stab|]|]. intros u1. eapply job_any, write_job.
    intros t [_ [id Hid]]. left. by exists id, next.
  - destruct e; try apply refuse_job. apply job_seq; [stab|by apply report_job|]. intros _. apply refuse_job.
Qed.

Lemma resolve_job P : stable any P →
  job P (resolveInteractiveOIDC a) (λ res t, ∀ p, res = Ok (Some p) → ∃ q, p = Interactive_ q ∧ oidc_in_force a t q).
Proof.
  intros HP. unfold resolveInteractiveOIDC, oidc_in_force. destruct (a_runtime a).
  - eapply job_bind; [done|by apply query_job|]. intros [q|e]; apply job_ok; intros t [_ Hin] p.
    + intros [= <-]. by exists q.
    + by destruct e.
  - apply job_ok. intros t _ p [= Hp]. pose proof (proj1 Hsorted p Hp). destruct p as [| |q]; [done..|]. by exists q.
Qed.
Lemma isDev_dev p : isDev p = true → Key p = devProviderKey.
Proof. by intros ?%String.eqb_eq. Qed.
Lemma select_job requested :
  job (λ _, True) (selectStartProvider a requested)
    (λ res t, ∀ p, res = Ok (Some p) → dev_on a p ∨ ∃ q, p = Interactive_ q ∧ oidc_in_force a t q).
Proof.
  unfold selectStartProvider. eapply job_bind; [done|by apply resolve_job|]. intros [oidc|e]; apply job_ok; [|by intros t _ p].
  intros t [_ Ho] p. intros Hp. assert (∀ p', oidc = Some p' → p = p' → ∃ q, p = Interactive_ q ∧ oidc_in_force a t q) as Hoidc.
  { intros p' -> ->. by apply Ho. }
  match type of Hp with Ok ?o = _ => assert (o = Some p) as Hsel by congruence end. clear Hp.
  assert (match oidc with Some p => Some p
          | None => match a_password a with Some p => if isDev p then Some p else None | None => None end end = Some p →
          dev_on a p ∨ ∃ q, p = Interactive_ q ∧ oidc_in_force a t q) as Hdef.
  { destruct oidc as [p'|]; [intros [= ->]; right; by apply (Hoidc p)|].
    destruct (a_password a) as [p'|] eqn:Hpw; [|done]. destruct (isDev p') eqn:Hd; [|done].
    intros [= ->]. left. split; [by apply isDev_dev|by left]. }
  destruct (negb (requested =? "")%string); [|by apply Hdef].
  destruct (_ && _); [right; by apply (Hoidc p)|]. destruct (a_providers a !! requested) as [p'|] eqn:Hm; [|by apply Hdef].
  destruct (isDev p') eqn:Hd; [|by apply Hdef]. injection Hsel as ->. left. split; [by apply isDev_dev|]. right. by eexists.
Qed.
Lemma rejectCrossOrigin_job P : stable any P → job P (rejectCrossOrigin a r) (λ _ t, same_site a r t).
Proof.
  intros HP. unfold rejectCrossOrigin, effectiveControl, same_site. destruct (a_domain a).
  - eapply job_bind; [done| |intros u].
    + eapply job_bind; [done|by apply query_job|]. intros u. apply (job_ok _ _ _ _ (λ u t, ∃ url, u = Some url ∧ EvAsk ControlBaseURL url ∈ t)).
      intros t [_ ?]. by exists u.
    + destruct (sameOriginOK _ u r) eqn:Hs; [|apply refuse_job]. apply job_ok. intros t (_ & url & -> & ?). by exists url.
  - eapply job_bind; [done|by apply (job_ok _ _ _ _ (λ u _, u = None))|]. intros u.
    destruct (sameOriginOK _ u r) eqn:Hs; [|apply refuse_job]. apply job_ok. by intros t [_ ->].
Qed.

Lemma LoginStart_job : rt = RLoginStart → job (λ _, True) (LoginStart a r) anything.
Proof.
  intros Hrt. unfold LoginStart, query_next. eapply job_bind; [done|apply select_job|].
  intros [[p|]|e]; try apply refuse_job. destruct (Interactive p) eqn:Hi; cbn [negb].
  - eapply job_weaken with (P' := λ t, ∃ q, p = Interactive_ q ∧ oidc_in_force a t q).
    2:{ intros t [_ Hp]. destruct (Hp p eq_refl) as [[Hk _]|?]; [by destruct p|done]. }
    assert (stable any (λ t, ∃ q, p = Interactive_ q ∧ oidc_in_force a t q)) as Hst.
    { intros t e He (q & ? & ?). exists q. split; [done|by apply oidc_stable]. }
    do 4 (apply job_seq; [done|auto with steps|intros ?]).
    eapply job_bind; [done|apply write_job|].
    { intros t _. do 4 right. split; [done|]. by eexists. }
    intros u. eapply job_any, write_job. intros t [(q & -> & Hq) Hw]. right. split; [done|].
    exists q. eexists (mkLoginState _ _ _ _ _). split_and!; [done|reflexivity|exact Hw].
  - eapply job_weaken; [apply completeLogin_job; by left|]. intros t [_ Hp].
    destruct (Hp p eq_refl) as [Hd|(q & -> & _)]; [|done]. destruct p as [| |q]; [done|by destruct Hd|done].
Qed.
Lemma LoginPassword_job body : rt = RLoginPassword body → job (λ _, True) (LoginPassword a r body) anything.
Proof.
  intros Hrt. unfold LoginPassword. eapply job_bind; [done|by apply rejectCrossOrigin_job|]. intros u.
  destruct (a_password a) as [p|] eqn:Hp; [|apply refuse_job]. pose proof (proj2 Hsorted p Hp) as Hi.
  eapply job_weaken with (P' := λ t, same_site a r t); [|by intros t []]. destruct (credential_of r body) as [pw next] eqn:Hc.
  assert (∃ n, next = safeNext n) as (n & ->).
  { unfold credential_of, query_next in Hc. destruct (is_json r); [destruct (ps_json body) as [[x y]|]|];
      injection Hc as _ <-; [destruct (negb _)| |destruct (negb _)]; by eexists. }
  destruct p as [email name|email name env st|q]; [| |done]; cbn [Key]; simpl.
  - apply job_seq; [stab|apply ok_job|]. intros _. eapply job_weaken; [apply completeLogin_job; by left|].
    intros t _. split; [done|by left].
  - eapply job_bind; [stab| |].
    + eapply job_bind; [stab|by apply query_job|]. intros [l w].
      apply (job_weaken _ _ _ (λ t, same_site a r t ∧ EvAsk (LockCheck (lockoutKey (a_cfg a) r)) (l, w) ∈ t)); [|done].
      simpl. destruct l; [|apply (job_ok _ _ _ _ (λ _ t, unlocked a r t)); intros t [_ ?]; by exists w].
      unfold writeLockedOut. apply job_seq; [stab|by eapply job_any, write_job|]. intros _. apply refuse_job.
    + intros u2. eapply job_weaken; [apply completeLogin_job; by right|]. intros t [Hs Hl]. split_and!; [done..|].
      exists body. by rewrite Hc.
Qed.
Lemma Callback_job : rt = RCallback → job (λ _, True) (Callback a r) anything.
Proof.
  intros Hrt. unfold Callback. eapply job_bind; [done|by apply resolve_job|]. intros [[p|]|e]; try apply refuse_job.
  eapply job_weaken with (P' := λ t, ∃ q, p = Interactive_ q ∧ oidc_in_force a t q); [|intros t [_ Hp]; by apply Hp].
  assert (stable any (λ t, ∃ q, p = Interactive_ q ∧ oidc_in_force a t q)) as Hst.
  { intros t e He (q & ? & ?). exists q. split; [done|by apply oidc_stable]. }
  eapply job_bind; [done| |intros ls].
  { unfold readLoginState. apply job_seq; [done|apply now_job|]. intros now.
    apply job_seq; [done|eapply job_any, write_job; intros t _; right; right; right; by left|]. intros _.
    apply (job_ok _ _ _ _ (λ ls _, ∃ now, ls = openLoginState (a_signKey a) now (cookie r (loginStateCookieName (secure a))))).
    by eexists. }
  destruct ls as [ls|e]; [|apply refuse_job]. destruct (_ || _) eqn:Hq; [apply refuse_job|].
  apply orb_false_iff in Hq as [Hne%String.eqb_neq Hst'%negb_false_iff%String.eqb_eq].
  eapply job_bind; [apply stable_and; [done|stab]|apply query_job|].
  { intros t [_ [now Hls]]. exists ls, now. by rewrite Hst'. }
  intros [[]|]; try apply refuse_job. destruct (query_get _ "code" =? "")%string; [apply refuse_job|].
  eapply job_weaken; [apply completeLogin_job; by left|]. intros t [[(q & -> & Ho) [now Hls]] Hc].
  split_and!; [done..|]. exists ls. split; [|done]. rewrite Hst' in Hc, Hne. split_and!; [done|by exists now|done..].
Qed.

Lemma setupRequired_job P : stable any P →
  job P (setupRequired a) (λ required t, required = true → first_run a t).
Proof.
  intros HP. unfold setupRequired, first_run. destruct (PasswordEnabled _); [|by apply job_ok].
  destruct (String.eqb_spec (AdminPassword (a_cfg a)) ""); [|by apply job_ok]. cbn [negb].
  eapply job_bind; [done|by apply query_job|]. intros [[h|]|x]; apply job_ok; by intros t [_ ?].
Qed.
Lemma Setup_job body : rt = RSetup body → job (λ _, True) (Setup a r body) anything.
Proof.
  intros Hrt. unfold Setup. eapply job_bind; [done|by apply rejectCrossOrigin_job|]. intros u.
  eapply job_weaken with (P' := λ t, same_site a r t); [|by intros t []].
  eapply job_bind; [stab|by apply setupRequired_job; stab|]. intros [|]; [cbn [negb]|apply refuse_job].
  destruct (setup_password r body) as [pw|] eqn:Hpw; [|apply refuse_job].
  destruct (Nat.ltb_spec (String.length pw) AdminPasswordMinLen); [apply refuse_job|].
  eapply job_weaken with (P' := λ t, setting_up a r rt t pw).
  2:{ intros t [Hs Hf]. exists body. split_and!; [done..|by apply Hf]. }
  eapply job_bind; [stab|by apply query_job|]. intros [hash|]; [|apply refuse_job].
  eapply job_bind; [stab|apply query_job|].
  { intros t [Hs _]. exists true. by eapply by_setup. }
  intros [user|e]; [|apply refuse_job].
  eapply job_weaken with (P' := λ t, signed_in a r rt t user true ∧ setting_up a r rt t pw ∧
    EvAsk (BcryptGenerate pw) (Some hash) ∈ t).
  2:{ intros t [[Hs Hh] Hu]. split_and!; [|done..]. eexists. split; [done|by eapply by_setup]. }
  apply job_seq; [stab|eapply job_any, query_job; by intros t []|]. intros _.
  eapply job_bind; [stab|apply query_job; intros t (_ & ? & ?); by exists pw|]. intros [[]|e]; [|apply refuse_job].
  apply job_seq; [stab|eapply job_any, establish_job; [stab|by intros t [[Hs _] _]]|]. intros _. by eapply job_any, write_job.
Qed.
Lemma delete_job P id : stable any P → (∀ t, P t → rt = RLogout ∧ same_site a r t ∧ id = readCookie (session_cfg a) r) →
  job P (in_session (λ w, @Delete w id)) anything.
Proof.
  intros HP Hj tr Ht HPt. unfold in_session, Delete. destruct (id =? "")%string; simpl.
  - rewrite app_nil_r. split; [by apply calmly_refl|done].
  - split; [|done]. apply calmly_snoc; [done..|]. by apply Hj.
Qed.
Lemma Logout_job : rt = RLogout → job (λ _, True) (Logout a r) anything.
Proof.
  intros Hrt. unfold Logout. eapply job_bind; [done|by apply rejectCrossOrigin_job|]. intros u.
  eapply job_weaken with (P' := λ t, same_site a r t); [|by intros t []].
  apply job_seq; [stab| |intros _].
  { destruct (negb _); [|apply ok_job]. apply job_seq; [stab|by apply delete_job; [stab|]|]. intros x. apply ok_job. }
  apply job_seq; [stab| |intros _].
  { apply cookies_job; [stab|]. intros t c Hs ->%list_elem_of_singleton. right. left. split_and!; [done..|by left]. }
  apply job_seq; [stab| |intros _; by eapply job_any, write_job].
  apply cookies_job; [stab|]. intros t c Hs ->%list_elem_of_singleton. right. left. split_and!; [done..|by right].
Qed.
Lemma PublicConfig_job : job (λ _, True) (PublicConfig a) anything.
Proof.
  unfold PublicConfig, effectiveProviders, githubMirrorEnabled.
  do 3 (apply job_seq; [done|case_match; [by eapply job_any, query_job|apply ok_job]|intros ?]).
  apply job_seq; [done| |intros ?]; [apply job_seq; [done|by eapply job_any, query_job|intros ?; apply ok_job]|].
  apply job_seq; [done|by eapply job_any, setupRequired_job|intros ?]. by eapply job_any, write_job.
Qed.
Lemma run_careful rt' : rt = rt' → job (λ _, True) (run a r rt') anything.
Proof.
  intros Hrt. destruct rt' as [| |body|body| |user|]; cbn [run].
  - by apply LoginStart_job.
  - by apply Callback_job.
  - by apply LoginPassword_job.
  - by apply Setup_job.
  - by apply Logout_job.
  - unfold Me. destruct user as [u|]; [|apply refuse_job].
    apply job_seq; [done|by apply issueCSRF_job|intros _]. by eapply job_any, write_job.
  - apply PublicConfig_job.
Qed.
End safety.

(** What NewWithProviders assembles is sorted. *)
Lemma new_sorted cfg signKey domain runtime providers :
  sorted_providers (NewWithProviders cfg signKey domain runtime providers).
Proof.
  unfold NewWithProviders. generalize (omap id providers). intros l.
  assert (sorted_providers (mkAuth cfg ∅ None None signKey domain runtime)) as Hs by done.
  revert Hs. generalize (mkAuth cfg ∅ None None signKey domain runtime). induction l as [|p l IH]; intros a Ha; [done|].
  simpl. apply IH. unfold addProvider, sorted_providers in *. simpl.
  destruct (Interactive p) eqn:Hi; simpl; split; intros q; [by intros [= <-]|apply Ha..|by intros [= <-]].
Qed.

(** C4 (safety): nothing a sign-in request does is unearned.  Whatever the store,
    the identity provider, bcrypt and the lockout tracker answer: a user is
    written, promoted, given a session or a session cookie only after a password
    matched the hash in force, from an unlocked source and the control host; or
    after a login state that is authentic and used for the first time, a code
    redeemed with its verifier, and a verified token with its nonce and an allowed,
    verified email; or in the first-run setup; or in the no-auth mode.  A password
    is set in the first run only, only a right password clears the lockout of its
    source, states and codes are spent in order, and a browser is sent only to the
    provider in force, with the state its cookie carries, or after a session began
    to a sanitised path. *)
Theorem signin_earned `{GoUnicode} `{Crypto} `{GoLoginJSON} `{GoOAuth} `{GoNetip} `{UUIDText} `{SignInWorld}
    (cfg : Config) (signKey : bytes) (domain runtime : bool) (providers : list (option AuthProvider))
    (r : Request) (rt : sign_in_route) :
  let a := NewWithProviders cfg signKey domain runtime providers in
  careful (justified a r rt) (run a r rt []).1.
Proof.
  intros a. apply (run_careful a r rt (new_sorted _ _ _ _ _) rt eq_refl []); [apply careful_nil|done].
Qed.
