(* ===== verification/SignInRuns.v ===== *)
(** * Password logins event by event, and sample logins

    One request is at most one guess, a source that is locked out gets none, and a
    wrong guess is counted before its reply.  The samples run whole logins. *)

From S2P Require Import Prelude Trace GoStrings Encoding SiteTypes Http Access Preview Wire ApiWorld Session.
From S2P Require Import Config OidcCfg LoginState Providers SignIn SignInFacts.

(** Whether an event asks the lockout tracker, or compares a password *)
Definition notable (e : sevent) : bool :=
  match e with
  | EvAsk (LockCheck _) _ | EvAsk (BcryptCompare _ _) _ => true
  | _ => false
  end.
Definition plain_events (l : list sevent) : Prop := Forall (λ e, notable e = false) l.

Section quiet.
Context {A : Type}.
(** Programs that do neither *)
Definition quiet (m : Prog A) : Prop := ∀ tr, ∃ more, (m tr).1 = tr ++ more ∧ plain_events more.
End quiet.

Section quiet_rules.
Context `{GoUnicode} `{Crypto} `{GoLoginJSON} `{GoNetip} `{UUIDText} `{SignInWorld}.
Context (a : Auth) (r : Request).

Lemma quietly_bind {A B} (m : Prog A) (k : A → Prog B) : quiet m → (∀ x, quiet (k x)) → quiet (bindM m k).
Proof.
  intros Hm Hk tr. destruct (Hm tr) as (more & Heq & Hq). unfold bindM. destruct (m tr) as [t [x|e]]; simpl in *; subst t.
  - destruct (Hk x (tr ++ more)) as (more2 & -> & Hq2). exists (more ++ more2). rewrite app_assoc.
    split; [done|by apply Forall_app].
  - by exists more.
Qed.
Lemma quiet_none {A} (m : Prog A) : (∀ tr, (m tr).1 = tr) → quiet m.
Proof. intros Hm tr. exists []. rewrite Hm, app_nil_r. by split; [|constructor]. Qed.
Lemma quiet_write o : quiet (write o).
Proof. intros tr. exists [EvWrite o]. by split; [|repeat constructor]. Qed.
Lemma quiet_query {A} (q : Ask A) : (∀ x, notable (EvAsk q x) = false) → quiet (query q).
Proof. intros Hq tr. eexists. split; [done|]. by repeat constructor. Qed.
Lemma quiet_refuse {A} status code message : quiet (refuse (A := A) status code message).
Proof. apply quietly_bind; [apply quiet_write|intros _; by apply quiet_none]. Qed.
Lemma quietly_each {A} (f : A → Prog unit) l : (∀ x, quiet (f x)) → quiet (each f l).
Proof. intros Hf. induction l as [|x l IH]; simpl; [by apply quiet_none|]. by apply quietly_bind. Qed.
Lemma quiet_session {A} (m : ∀ w : World, J A) : quiet (in_session m).
Proof.
  intros tr. unfold in_session. destruct (m _ _) as [t x]. exists (EvApi <$> t). split; [done|]. by apply Forall_fmap, Forall_true.
Qed.
Lemma quiet_issue : quiet (issueCSRF a r).
Proof. intros tr. apply quietly_each. intros c. apply quiet_write. Qed.
Lemma quiet_establish user : quiet (establishSession a r user).
Proof.
  apply quietly_bind; [apply quiet_session|]. intros [sid|e]; [|apply quiet_refuse].
  apply quietly_bind; [apply quietly_each; intros c; apply quiet_write|intros _; apply quiet_issue].
Qed.
Lemma quiet_applyAdmin p user c : quiet (applyAdmin p user c).
Proof.
  unfold applyAdmin. repeat case_match; try (by apply quiet_none);
    (apply quietly_bind; [by apply quiet_query|intros x; by apply quiet_none]).
Qed.
Lemma quiet_reject : quiet (rejectCrossOrigin a r).
Proof.
  apply quietly_bind.
  - unfold effectiveControl. destruct (a_domain a); [|by apply quiet_none].
    apply quietly_bind; [by apply quiet_query|intros x; by apply quiet_none].
  - intros u. destruct (negb _); [apply quiet_refuse|by apply quiet_none].
Qed.
Lemma quiet_hash env store : quiet (activeHash env store).
Proof.
  unfold activeHash. destruct store; [|by apply quiet_none]. apply quietly_bind; [by apply quiet_query|].
  intros [[h|]|e]; by apply quiet_none.
Qed.
End quiet_rules.

Section claim.
Context `{GoUnicode} `{Crypto} `{GoLoginJSON} `{GoNetip} `{UUIDText} `{SignInWorld}.
Context (a : Auth) (r : Request).

(** The shapes of a password login: turned away before the tracker is asked;
    locked out; without a hash to compare with; one right guess; one wrong guess,
    which is counted and refused *)
Inductive login_shape (key : string) : list sevent → Prop :=
| turned_away l : plain_events l → login_shape key l
| locked_out l wait secs : plain_events l →
    login_shape key (l ++ [EvAsk (LockCheck key) (true, wait); EvWrite (WHeader "Retry-After" (itoa secs));
      EvWrite (WReply (writeError StatusTooManyRequests codeRateLimited
        "too many failed login attempts; try again later" None))])
| no_hash l wait rest : plain_events l → plain_events rest → login_shape key (l ++ EvAsk (LockCheck key) (false, wait) :: rest)
| right_guess l wait mid h pw rest : plain_events l → plain_events mid → plain_events rest →
    login_shape key (l ++ EvAsk (LockCheck key) (false, wait) :: mid ++ EvAsk (BcryptCompare h pw) true :: rest)
| wrong_guess l wait mid h pw : plain_events l → plain_events mid →
    login_shape key (l ++ EvAsk (LockCheck key) (false, wait) :: mid ++
      [EvAsk (BcryptCompare h pw) false; EvAsk (LockFailure key) tt;
       EvWrite (WReply (writeError StatusUnauthorized codeUnauthenticated "invalid credentials" None))]).

Lemma quiet_hook key bad : quiet (lockout_hook key bad).
Proof. destruct bad; by apply quiet_query. Qed.
(** What follows a right password *)
Definition after_login (p : AuthProvider) (next : string) (c : Claims) (key : string) : Prog unit :=
  lockout_hook key false ;!
  let! user := query (UpsertLogin (upsert_of p c)) in
  match user with
  | Err _ => refuse StatusInternalServerError codeInternal "could not establish your account"
  | Ok user => applyAdmin p user c ;! establishSession a r user ;! write (WRedirect next)
  end.
Lemma quiet_after p next c key : quiet (after_login p next c key).
Proof.
  apply quietly_bind; [apply quiet_hook|intros _]. apply quietly_bind; [by apply quiet_query|].
  intros [user|e]; [|apply quiet_refuse]. apply quietly_bind; [apply quiet_applyAdmin|intros _].
  apply quietly_bind; [apply quiet_establish|intros _; apply quiet_write].
Qed.
Lemma login_shaped email name env st pw next l wait : plain_events l →
  let key := lockoutKey (a_cfg a) r in
  login_shape key (completeLogin a r (PasswordProvider email name env st) pw "" "" next (Some (lockout_hook key))
    (l ++ [EvAsk (LockCheck key) (false, wait)])).1.
Proof.
  intros Hl key. unfold completeLogin. cbn [Exchange]. set (tr := l ++ [_]).
  destruct (quiet_hash env st tr) as (mid & Heq & Hq). unfold bindM at 1 2.
  destruct (activeHash env st tr) as [t1 [h|e]]; simpl in Heq; subst t1.
  2:{ simpl. unfold tr. rewrite <-app_assoc. by apply no_hash. }
  destruct h as [h|].
  2:{ destruct (quietly_bind (lockout_hook key true) (λ _, refuse (A := unit) StatusUnauthorized codeUnauthenticated "invalid credentials")
        (quiet_hook _ _) (λ _, quiet_refuse _ _ _) (tr ++ mid)) as (rest & Heq & Hr).
      change (login_shape key ((lockout_hook key true ;! refuse (A := unit) StatusUnauthorized codeUnauthenticated
        "invalid credentials") (tr ++ mid)).1).
      rewrite Heq. unfold tr. rewrite <-!app_assoc. apply no_hash; [done|by apply Forall_app]. }
  unfold bindM at 1, query at 1. cbn zeta. destruct (sw_ask bool (tr ++ mid) (BcryptCompare h pw)) eqn:Hb; unfold ok at 1.
  - set (c := mkClaims devSubject email true name "" false).
    destruct (quiet_after (PasswordProvider email name env st) next c key ((tr ++ mid) ++ [EvAsk (BcryptCompare h pw) true]))
      as (rest & Heq & Hr).
    change (login_shape key (after_login (PasswordProvider email name env st) next c key
      ((tr ++ mid) ++ [EvAsk (BcryptCompare h pw) true])).1).
    rewrite Heq. unfold tr. rewrite <-!app_assoc. by apply right_guess.
  - unfold bindM, lockout_hook, query, refuse, answer, write, note, fail. simpl.
    destruct (sw_ask unit _ _). unfold tr. rewrite <-!app_assoc. by apply wrong_guess.
Qed.

(** C34 (safety): guessing a password is limited.  A login with the instance's
    password provider asks the tracker about its source first; when that says
    locked the request is refused at once, with the time to wait; otherwise it
    compares one password at most, and a wrong one is counted against the source,
    after which the request is refused and does nothing more. *)
Theorem guesses_limited (email name : string) (env : option string) (st : bool) (body : posted) :
  a_password a = Some (PasswordProvider email name env st) →
  login_shape (lockoutKey (a_cfg a) r) (LoginPassword a r body []).1.
Proof.
  intros Hp. unfold LoginPassword. rewrite Hp. cbn [Key]. change (passwordProviderKey =? passwordProviderKey)%string with true.
  cbv iota. destruct (quiet_reject a r []) as (l & Heq & Hl). unfold bindM at 1.
  destruct (rejectCrossOrigin a r []) as [t0 [[]|e]]; simpl in Heq; subst t0; [|by apply turned_away].
  destruct (credential_of r body) as [pw next]. unfold bindM at 1 2. unfold query at 1. cbn zeta.
  destruct (sw_ask (bool * Z) l (LockCheck (lockoutKey (a_cfg a) r))) as [[] wait] eqn:Hw; cbn [fst snd].
  - unfold writeLockedOut, refuse, answer, write, bindM, note, fail. cbn [fst snd]. rewrite <-!app_assoc. simpl.
    by apply locked_out.
  - unfold ok at 1. by apply login_shaped.
Qed.
End claim.

(** ** Sample logins *)

Definition sample_ask (A : Type) (t : list sevent) (q : Ask A) : A :=
  match q in Ask A return A with
  | GetAdminPasswordHash => Ok (Some "hash of secret")
  | SetAdminPasswordHash _ => Ok tt
  | PromoteUserAdmin _ => Ok tt
  | UpsertLogin _ => Ok 7%N
  | AskGitHubConfig => Err NoRows
  | LockCheck key => ((key =? "6.6.6.6")%string, (90 * second)%Z)
  | LockFailure _ => tt
  | LockSuccess _ => tt
  | Consume _ _ => Some true
  | BcryptCompare h pw => (h =? "hash of " +:+ pw)%string
  | BcryptGenerate pw => Some ("hash of " +:+ pw)
  | RuntimeProvider => Err ErrOIDCNotConfigured
  | RuntimeProviders => ["password"]
  | CodeExchange _ _ _ => Err "no provider"
  | VerifyIDToken _ _ => Err "no provider"
  | ControlBaseURL => "https://kotoji.example"
  | BaseDomain => "kotoji.example"
  | RandBytes => Some "0123456789abcdef0123456789abcdef"
  end.
#[local] Instance sample_world : SignInWorld := {|
  sw_ask := sample_ask;
  sw_store A _ q := match q in Store A return Res store_err A with QCreateSession _ => Ok tt | QDeleteSession _ => Ok tt | _ => Err NoRows end;
  sw_now _ := (1700000000 * second)%Z;
  sw_entropy _ := Some "0123456789abcdef0123456789abcdef" |}.
#[local] Instance sample_tables : GoUnicode := ascii_only_unicode.
#[local] Instance sample_hmac : Crypto := length_hmac.
#[local] Instance sample_texts : GoLoginJSON := sample_json.
#[local] Instance sample_netip : GoNetip := {| ParseAddr := Some |}.
#[local] Instance sample_uuids : UUIDText := {| uuid_String := digits 16 |}.
#[local] Instance sample_durations : GoDuration := {| ParseDuration _ := None |}.
#[local] Instance sample_oauth : GoOAuth := {| AuthCodeURL c state _ := Issuer c +:+ "?state=" +:+ state |}.

Definition admin_provider : AuthProvider := PasswordProvider "admin@kotoji.local" "Admin" None true.
Definition posted_password (pw : string) : posted :=
  mkPosted None (λ k, if (k =? "password")%string then pw else if (k =? "next")%string then "/sites" else "").
Definition login_request (ip : string) : Request :=
  mkRequest "POST" "kotoji.example" "" "/auth/login" "/auth/login" "" {[ "Origin" := ["https://kotoji.example"] ]}
    (ip +:+ ":1234") true [].
(** The events of a login by password on a default instance *)
Definition login_events (ip pw : string) : option (list sevent) :=
  match load (λ _, None) with
  | Ok cfg => Some (LoginPassword (NewWithProviders cfg "key" true false [Some admin_provider]) (login_request ip)
                      (posted_password pw) []).1
  | Err _ => None
  end.
Definition replies (l : option (list sevent)) : list (Z + string) :=
  omap (λ e, match e with EvWrite (WReply p) => Some (inl (rp_status p)) | EvWrite (WRedirect u) => Some (inr u) | _ => None end)
    (default [] l).
Definition cookie_names (l : option (list sevent)) : list string :=
  omap (λ e, match e with EvWrite (WCookie c) => Some (ckName c) | _ => None end) (default [] l).
Lemma guesses_limited_witness :
  match load (λ _, None) with
  | Ok cfg => login_shape (lockoutKey cfg (login_request "1.2.3.4"))
      (LoginPassword (NewWithProviders cfg "key" true false [Some admin_provider]) (login_request "1.2.3.4") (posted_password "x") []).1
  | Err _ => False
  end.
Proof.
  destruct (load (λ _, None)) as [cfg|e] eqn:Hl.
  - exact (guesses_limited (NewWithProviders cfg "key" true false [Some admin_provider]) (login_request "1.2.3.4")
      "admin@kotoji.local" "Admin" None true (posted_password "x") eq_refl).
  - assert (is_ok (load (λ _, None)) = true) as Hok by (vm_compute; reflexivity). rewrite Hl in Hok. discriminate Hok.
Defined.
Example sample_logins :
  replies (login_events "1.2.3.4" "secret") = [inr "/sites"] ∧
  cookie_names (login_events "1.2.3.4" "secret") = ["kotoji_session"; "kotoji_csrf"] ∧
  replies (login_events "1.2.3.4" "wrong") = [inl 401%Z] ∧ cookie_names (login_events "1.2.3.4" "wrong") = [] ∧
  replies (login_events "6.6.6.6" "secret") = [inl 429%Z].
Proof. vm_compute. by split_and!. Qed.
