(* ===== verification/MetaDb.v ===== *)
(** * The metadata database (db/gen, db/migrations)

    The tables as maps from keys to rows, and every query of gen.Querier as a
    function on them: what it checks, what it writes, what it returns.  A query
    that is refused changes nothing.  citext equality is equality of folded text
    ([fold]), and the order in which a scan meets rows is up to the class
    [Postgres], as are now() of a transaction and the identifiers it draws. *)

From S2P Require Import Prelude GoStrings Encoding SiteTypes Handle Regexp Http Access Wire ApiWorld Settings.

(** ** Rows (db/gen/models.go) *)

Record User := mkDbUser {
  us_ID : uuid; us_Email : string; us_DisplayName : string; us_AvatarUrl : option string; us_IsAdmin : bool;
  us_CanCreateSites : bool; us_IsActive : bool; us_CreatedAt : time; us_UpdatedAt : time;
}.
Record UserIdentity := mkIdentity {
  ui_ID : uuid; ui_UserID : uuid; ui_Provider : string; ui_Subject : string; ui_EmailAtLink : option string;
  ui_CreatedAt : time; ui_LastLoginAt : option time;
}.
Record DbSession := mkDbSession {
  se_ID : string; se_UserID : uuid; se_CreatedAt : time; se_ExpiresAt : time; se_LastSeenAt : time;
  se_UserAgent : string; se_IpAddr : option string;
}.
Record DbSite := mkDbSite {
  st_ID : uuid; st_Handle : string; st_OwnerID : uuid; st_Visibility : string; st_DefaultBranch : string;
  st_PublishedCommitSha : option string; st_PublishedAt : option time; st_PublishMode : string;
  st_GithubRepo : option string; st_WebRoot : string; st_Description : string; st_DeletedAt : option time;
  st_CreatedAt : time; st_UpdatedAt : time; st_CacheVersion : Z;
}.
Record SiteMember := mkMember {
  sm_SiteID : uuid; sm_UserID : uuid; sm_Role : string; sm_CreatedAt : time; sm_CreatedBy : option uuid;
}.
Record UserToken := mkToken {
  to_ID : uuid; to_UserID : uuid; to_Name : string; to_TokenPrefix : string; to_TokenHash : bytes;
  to_Scopes : list string; to_CanCreateSites : bool; to_CreatedAt : time; to_LastUsedAt : option time;
  to_ExpiresAt : option time; to_RevokedAt : option time;
}.
Record HandleRedirect := mkRedirect { hr_OldHandle : string; hr_SiteID : uuid; hr_CreatedAt : time }.
Record ReservedHandle := mkReserved { rh_Handle : string; rh_Reason : string; rh_CreatedAt : time }.

(** Rows with a citext or composite key are filed under it. *)
Record DB := mkDB {
  users : gmap uuid User; identities : gmap (string * string) UserIdentity; sessions : gmap string DbSession;
  sites : gmap uuid DbSite; members : gmap (uuid * uuid) SiteMember; tokens : gmap uuid UserToken;
  redirects : gmap string HandleRedirect; reserved : gmap string ReservedHandle; audit_log : list AuditLog;
  instance_settings : gmap string string;
}.
Definition with_users d t := mkDB t (identities d) (sessions d) (sites d) (members d) (tokens d) (redirects d) (reserved d) (audit_log d) (instance_settings d).
Definition with_identities d t := mkDB (users d) t (sessions d) (sites d) (members d) (tokens d) (redirects d) (reserved d) (audit_log d) (instance_settings d).
Definition with_sessions d t := mkDB (users d) (identities d) t (sites d) (members d) (tokens d) (redirects d) (reserved d) (audit_log d) (instance_settings d).
Definition with_sites d t := mkDB (users d) (identities d) (sessions d) t (members d) (tokens d) (redirects d) (reserved d) (audit_log d) (instance_settings d).
Definition with_members d t := mkDB (users d) (identities d) (sessions d) (sites d) t (tokens d) (redirects d) (reserved d) (audit_log d) (instance_settings d).
Definition with_tokens d t := mkDB (users d) (identities d) (sessions d) (sites d) (members d) t (redirects d) (reserved d) (audit_log d) (instance_settings d).
Definition with_redirects d t := mkDB (users d) (identities d) (sessions d) (sites d) (members d) (tokens d) t (reserved d) (audit_log d) (instance_settings d).
Definition with_reserved d t := mkDB (users d) (identities d) (sessions d) (sites d) (members d) (tokens d) (redirects d) t (audit_log d) (instance_settings d).
Definition with_audit d t := mkDB (users d) (identities d) (sessions d) (sites d) (members d) (tokens d) (redirects d) (reserved d) t (instance_settings d).
Definition with_settings d t := mkDB (users d) (identities d) (sessions d) (sites d) (members d) (tokens d) (redirects d) (reserved d) (audit_log d) t.

(** ** PostgreSQL *)

(** char_length of a UTF-8 text: its bytes without the continuation bytes *)
Fixpoint char_length (s : string) : nat :=
  match s with
  | "" => 0
  | String c s => (if (128 <=? N_of_ascii c)%N && (N_of_ascii c <? 192)%N then 0 else 1) + char_length s
  end.

Class Postgres := {
  fold : string → string;
  fold_fold s : fold (fold s) = fold s;
  fold_label s : str_forall label_char s = true → fold s = s;
  scan : ∀ {A}, list A → list A;
  scan_perm {A} (l : list A) : scan l ≡ₚ l;
}.
(** What a transaction is given: its now() and the values of gen_random_uuid() *)
Record Draw := mkDraw { d_now : time; d_uuid : uuid }.

Definition sql_quote (name : string) : string := String "034" (name +:+ String "034" "").
Definition violates (what name state : string) : store_err :=
  StoreFailed ("ERROR: " +:+ what +:+ sql_quote name +:+ " (SQLSTATE " +:+ state +:+ ")").
Definition unique_violation (name : string) : store_err := violates "duplicate key value violates unique constraint " name "23505".
Definition foreign_key_violation (name : string) : store_err := violates "violates foreign key constraint " name "23503".
Definition check_violation (name : string) : store_err := violates "violates check constraint " name "23514".
Definition invalid_enum (name : string) : store_err := violates "invalid input value for enum " name "22P02".
Definition integer_out_of_range : store_err := StoreFailed "ERROR: integer out of range (SQLSTATE 22003)".
Definition negative_limit : store_err := StoreFailed "ERROR: LIMIT or OFFSET must not be negative (SQLSTATE 2201W)".

(** A statement, inside a transaction *)
Abbreviation stmt A := (Draw → DB → Res store_err (DB * A)) (only parsing).
Definition require (b : bool) (e : store_err) : Res store_err unit := if b then Ok tt else Err e.
(** A nullable column *)
Definition null_or {A} (p : A → bool) (o : option A) : bool := match o with Some a => p a | None => true end.

(** ORDER BY *)
Definition earlier {A} (key : A → time) (a b : A) : Prop := (key a ≤ key b)%Z.
Definition later {A} (key : A → time) (a b : A) : Prop := (key b ≤ key a)%Z.
#[export] Instance earlier_dec {A} (key : A → time) : RelDecision (earlier key) := λ a b, decide (key a ≤ key b)%Z.
#[export] Instance later_dec {A} (key : A → time) : RelDecision (later key) := λ a b, decide (key b ≤ key a)%Z.

Section queries.
Context `{Postgres}.

Definition rows {K} `{Countable K} {V} (m : gmap K V) : list V := scan (snd <$> map_to_list m).
(** Whether a row other than that of [k] has [x] in the column [f], a null being equal to nothing *)
Definition taken_by {K} `{Countable K} {V B} `{EqDecision B} (f : V → option B) (x : option B) (k : K) (m : gmap K V) : bool :=
  match x with
  | None => false
  | Some _ => existsb (λ kv, bool_decide (kv.1 ≠ k) && bool_decide (f kv.2 = x)) (map_to_list m)
  end.
Definition has {K} `{Countable K} {V} (k : K) (m : gmap K V) : bool := bool_decide (is_Some (m !! k)).
(** [:one], [:many], [:exec] *)
Definition one {A} (f : DB → list A) : stmt A := λ _ d, match f d with a :: _ => Ok (d, a) | [] => Err NoRows end.
Definition many {A} (f : DB → list A) : stmt (list A) := λ _ d, Ok (d, f d).
Definition newest {A} (key : A → time) : list A → list A := merge_sort (later key).
Definition oldest {A} (key : A → time) : list A → list A := merge_sort (earlier key).
Definition after_now (now : time) (t : option time) : bool := match t with None => true | Some t => (now <? t)%Z end.

(** *** Constraints *)

Definition site_role (r : string) : bool := bool_decide (r ∈ [SiteRoleOwner; SiteRoleEditor; SiteRoleViewer]).
Definition site_visibility (v : string) : bool := bool_decide (v ∈ ["public"; "members"; "private"]).
Definition audit_source (s : string) : bool := bool_decide (s ∈ ["upload"; "editor"; "mcp"; "system"]).
(** ~ on a citext ignores case. *)
Definition handle_format (h : string) : bool := re_match handleRe (fold h).
Definition hex_digit (c : ascii) : bool := is_digit c || ((97 <=? N_of_ascii c)%N && (N_of_ascii c <=? 102)%N).
Definition sha_format (s : string) : bool :=
  str_forall hex_digit s && (bool_decide (String.length s = 40) || bool_decide (String.length s = 64)).
Definition site_checks (s : DbSite) : Res store_err unit :=
  check! require (site_visibility (st_Visibility s)) (invalid_enum "site_visibility") in
  check! require (bool_decide (st_PublishMode s ∈ ["direct"; "request"])) (check_violation "sites_publish_mode_check") in
  check! require (handle_format (st_Handle s)) (check_violation "sites_handle_format") in
  require (null_or sha_format (st_PublishedCommitSha s)) (check_violation "sites_published_sha_format").
Definition site_unique (d : DB) (s : DbSite) : Res store_err unit :=
  check! require (negb (taken_by (λ s, Some (fold (st_Handle s))) (Some (fold (st_Handle s))) (st_ID s) (sites d)))
    (unique_violation "sites_handle_key") in
  require (negb (taken_by st_GithubRepo (st_GithubRepo s) (st_ID s) (sites d))) (unique_violation "idx_sites_github_repo").
Definition references {K} `{Countable K} {V} (k : K) (m : gmap K V) (name : string) : Res store_err unit :=
  require (has k m) (foreign_key_violation name).

(** *** sites.sql *)

(** UPDATE sites SET ... WHERE id = $1, with the trigger that stamps updated_at *)
Definition update_site (id : uuid) (f : DbSite → DbSite) : stmt unit := λ w d,
  match sites d !! id with
  | None => Ok (d, tt)
  | Some s =>
      let s := f s in
      let s := mkDbSite (st_ID s) (st_Handle s) (st_OwnerID s) (st_Visibility s) (st_DefaultBranch s) (st_PublishedCommitSha s)
                 (st_PublishedAt s) (st_PublishMode s) (st_GithubRepo s) (st_WebRoot s) (st_Description s) (st_DeletedAt s)
                 (st_CreatedAt s) (d_now w) (st_CacheVersion s) in
      check! site_checks s in
      check! site_unique d s in
      Ok (with_sites d (<[id := s]> (sites d)), tt)
  end.
Definition live (s : DbSite) : bool := match st_DeletedAt s with None => true | Some _ => false end.
Definition sites_where (p : DbSite → bool) (d : DB) : list DbSite := List.filter p (rows (sites d)).

Record CreateSiteParams := mkCreateSite {
  cp_Handle : string; cp_OwnerID : uuid; cp_Visibility : string; cp_DefaultBranch : string; cp_PublishMode : string;
  cp_GithubRepo : option string; cp_WebRoot : string; cp_Description : string;
}.
Definition CreateSite (arg : CreateSiteParams) : stmt DbSite := λ w d,
  let s := mkDbSite (d_uuid w) (cp_Handle arg) (cp_OwnerID arg) (cp_Visibility arg) (cp_DefaultBranch arg) None None
             (cp_PublishMode arg) (cp_GithubRepo arg) (cp_WebRoot arg) (cp_Description arg) None (d_now w) (d_now w) 0 in
  check! site_checks s in
  check! require (negb (has (d_uuid w) (sites d))) (unique_violation "sites_pkey") in
  check! site_unique d s in
  check! references (cp_OwnerID arg) (users d) "sites_owner_id_fkey" in
  Ok (with_sites d (<[d_uuid w := s]> (sites d)), s).
Definition BumpCacheVersion (id : uuid) : stmt Z := λ w d,
  match sites d !! id with
  | Some s =>
      if live s then
        let v := (st_CacheVersion s + 1)%Z in
        check! require (v <? 2 ^ 31)%Z integer_out_of_range in
        try! r := update_site id (λ s, mkDbSite (st_ID s) (st_Handle s) (st_OwnerID s) (st_Visibility s) (st_DefaultBranch s)
          (st_PublishedCommitSha s) (st_PublishedAt s) (st_PublishMode s) (st_GithubRepo s) (st_WebRoot s) (st_Description s)
          (st_DeletedAt s) (st_CreatedAt s) (st_UpdatedAt s) v) w d in
        Ok (r.1, v)
      else Err NoRows
  | None => Err NoRows
  end.
Definition DeleteRedirect (oldHandle : string) (siteID : uuid) : stmt unit := λ _ d,
  Ok (match redirects d !! fold oldHandle with
      | Some r => if (hr_SiteID r =? siteID)%N then with_redirects d (delete (fold oldHandle) (redirects d)) else d
      | None => d
      end, tt).
Definition GetSiteByGitHubRepo (repo : string) : stmt DbSite :=
  one (sites_where (λ s, bool_decide (st_GithubRepo s = Some repo) && live s)).
Definition GetSiteByHandle (handle : string) : stmt DbSite :=
  one (sites_where (λ s, (fold (st_Handle s) =? fold handle)%string && live s)).
Definition GetSiteByID (id : uuid) : stmt DbSite := one (λ d, option_list (sites d !! id)).
Definition GetSiteByRedirect (oldHandle : string) : stmt DbSite :=
  one (λ d, r ← option_list (redirects d !! fold oldHandle);
            List.filter live (option_list (sites d !! hr_SiteID r))).
Definition HandleIsTaken (handle : string) : stmt bool := λ _ d,
  Ok (d, match sites_where (λ s, (fold (st_Handle s) =? fold handle)%string && live s) d with [] => false | _ => true end
         || has (fold handle) (redirects d) || has (fold handle) (reserved d)).
(** ON DELETE CASCADE of members and redirects, ON DELETE SET NULL in the audit log *)
Definition HardDeleteSite (id : uuid) : stmt unit := λ _ d,
  Ok (mkDB (users d) (identities d) (sessions d) (delete id (sites d)) (filter (λ kv, sm_SiteID kv.2 ≠ id) (members d)) (tokens d)
        (filter (λ kv, hr_SiteID kv.2 ≠ id) (redirects d)) (reserved d)
        ((λ a, mkAuditLog (al_ID a) (al_ActorUserID a) (if bool_decide (al_SiteID a = Some id) then None else al_SiteID a)
                 (al_TokenID a) (al_Action a) (al_Source a) (al_CommitSha a) (al_Metadata a) (al_CreatedAt a)) <$> audit_log d)
        (instance_settings d), tt).
Definition InsertRedirect (oldHandle : string) (siteID : uuid) : stmt unit := λ w d,
  check! require (handle_format oldHandle) (check_violation "handle_redirects_format") in
  check! references siteID (sites d) "handle_redirects_site_id_fkey" in
  let r := match redirects d !! fold oldHandle with
           | Some r => mkRedirect (hr_OldHandle r) siteID (hr_CreatedAt r)
           | None => mkRedirect oldHandle siteID (d_now w)
           end in
  Ok (with_redirects d (<[fold oldHandle := r]> (redirects d)), tt).
Definition ListLiveSiteIDs : stmt (list uuid) := many (λ d, merge_sort N.le (st_ID <$> sites_where live d)).
Definition ListRedirectsForSite (siteID : uuid) : stmt (list HandleRedirect) :=
  many (λ d, newest hr_CreatedAt (List.filter (λ r, (hr_SiteID r =? siteID)%N) (rows (redirects d)))).
Definition ListSitesForReaper (cutoff : time) : stmt (list DbSite) :=
  many (λ d, oldest (λ s, default 0%Z (st_DeletedAt s))
               (sites_where (λ s, match st_DeletedAt s with Some t => (t <? cutoff)%Z | None => false end) d)).
Definition ListSitesForUser (userID : uuid) (off lim : Z) : stmt (list (DbSite * string)) := λ _ d,
  check! require (0 <=? off)%Z negative_limit in
  check! require (0 <=? lim)%Z negative_limit in
  Ok (d, take (Z.to_nat lim) (drop (Z.to_nat off) (newest (λ x, st_UpdatedAt x.1)
           (s ← sites_where live d; m ← option_list (members d !! (st_ID s, userID)); [(s, sm_Role m)])))).
Definition RenameHandle (newHandle : string) (id : uuid) : stmt unit := update_site id (λ s,
  mkDbSite (st_ID s) newHandle (st_OwnerID s) (st_Visibility s) (st_DefaultBranch s) (st_PublishedCommitSha s) (st_PublishedAt s)
    (st_PublishMode s) (st_GithubRepo s) (st_WebRoot s) (st_Description s) (st_DeletedAt s) (st_CreatedAt s) (st_UpdatedAt s) (st_CacheVersion s)).
Definition SetPublished (sha : option string) (id : uuid) : stmt unit := λ w, update_site id (λ s,
  mkDbSite (st_ID s) (st_Handle s) (st_OwnerID s) (st_Visibility s) (st_DefaultBranch s) sha (Some (d_now w))
    (st_PublishMode s) (st_GithubRepo s) (st_WebRoot s) (st_Description s) (st_DeletedAt s) (st_CreatedAt s) (st_UpdatedAt s) (st_CacheVersion s)) w.
Definition SetSiteRemote (repo : option string) (id : uuid) : stmt unit := update_site id (λ s,
  mkDbSite (st_ID s) (st_Handle s) (st_OwnerID s) (st_Visibility s) (st_DefaultBranch s) (st_PublishedCommitSha s) (st_PublishedAt s)
    (st_PublishMode s) repo (st_WebRoot s) (st_Description s) (st_DeletedAt s) (st_CreatedAt s) (st_UpdatedAt s) (st_CacheVersion s)).
Definition SoftDeleteSite (id : uuid) : stmt unit := λ w d,
  match sites d !! id with
  | Some s => if live s then update_site id (λ s,
      mkDbSite (st_ID s) (st_Handle s) (st_OwnerID s) (st_Visibility s) (st_DefaultBranch s) (st_PublishedCommitSha s) (st_PublishedAt s)
        (st_PublishMode s) (st_GithubRepo s) (st_WebRoot s) (st_Description s) (Some (d_now w)) (st_CreatedAt s) (st_UpdatedAt s)
        (st_CacheVersion s)) w d
      else Ok (d, tt)
  | None => Ok (d, tt)
  end.
Definition UpdateSiteSettings (arg : SiteSettings) : stmt unit := update_site (stg_ID arg) (λ s,
  mkDbSite (st_ID s) (st_Handle s) (st_OwnerID s) (stg_Visibility arg) (st_DefaultBranch s) (st_PublishedCommitSha s) (st_PublishedAt s)
    (stg_PublishMode arg) (st_GithubRepo s) (stg_WebRoot arg) (stg_Description arg) (st_DeletedAt s) (st_CreatedAt s) (st_UpdatedAt s)
    (st_CacheVersion s)).

(** *** members.sql *)

Definition AddMember (siteID userID : uuid) (role : string) (createdBy : option uuid) : stmt unit := λ w d,
  check! require (site_role role) (invalid_enum "site_role") in
  match members d !! (siteID, userID) with
  | Some m => Ok (with_members d (<[(siteID, userID) := mkMember siteID userID role (sm_CreatedAt m) (sm_CreatedBy m)]> (members d)), tt)
  | None =>
      check! references siteID (sites d) "site_members_site_id_fkey" in
      check! references userID (users d) "site_members_user_id_fkey" in
      check! require (null_or (λ u, has u (users d)) createdBy) (foreign_key_violation "site_members_created_by_fkey") in
      Ok (with_members d (<[(siteID, userID) := mkMember siteID userID role (d_now w) createdBy]> (members d)), tt)
  end.
Definition AddOwnerMembership (siteID userID : uuid) : stmt unit := AddMember siteID userID SiteRoleOwner (Some userID).
Definition GetMember (siteID userID : uuid) : stmt SiteMember := one (λ d, option_list (members d !! (siteID, userID))).
Definition GetRole (siteID userID : uuid) : stmt string := one (λ d, sm_Role <$> option_list (members d !! (siteID, userID))).
Definition ListMembers (siteID : uuid) : stmt (list (SiteMember * User)) :=
  many (λ d, newest (λ x, sm_CreatedAt x.1)
    (m ← List.filter (λ m, (sm_SiteID m =? siteID)%N) (rows (members d)); u ← option_list (users d !! sm_UserID m); [(m, u)])).
Definition RemoveMember (siteID userID : uuid) : stmt unit := λ _ d, Ok (with_members d (delete (siteID, userID) (members d)), tt).
Definition UpdateMemberRole (role : string) (siteID userID : uuid) : stmt unit := λ _ d,
  check! require (site_role role) (invalid_enum "site_role") in
  Ok (with_members d (alter (λ m, mkMember (sm_SiteID m) (sm_UserID m) role (sm_CreatedAt m) (sm_CreatedBy m)) (siteID, userID) (members d)), tt).

(** *** auth.sql *)

Definition CreateSession (arg : NewSession) : stmt DbSession := λ w d,
  check! require (negb (has (ns_ID arg) (sessions d))) (unique_violation "sessions_pkey") in
  check! references (ns_UserID arg) (users d) "sessions_user_id_fkey" in
  let s := mkDbSession (ns_ID arg) (ns_UserID arg) (d_now w) (ns_ExpiresAt arg) (d_now w) (ns_UserAgent arg) (ns_IpAddr arg) in
  Ok (with_sessions d (<[ns_ID arg := s]> (sessions d)), s).
Definition DeleteExpiredSessions : stmt Z := λ w d,
  Ok (with_sessions d (filter (λ kv, d_now w ≤ se_ExpiresAt kv.2)%Z (sessions d)),
      Z.of_nat (size (filter (λ kv, se_ExpiresAt kv.2 < d_now w)%Z (sessions d)))).
Definition DeleteSession (id : string) : stmt unit := λ _ d, Ok (with_sessions d (delete id (sessions d)), tt).
Definition DeleteUserSessions (userID : uuid) : stmt unit := λ _ d,
  Ok (with_sessions d (filter (λ kv, se_UserID kv.2 ≠ userID) (sessions d)), tt).
Definition GetSession (id : string) : stmt (DbSession * User) := λ w,
  one (λ d, s ← List.filter (λ s, (d_now w <? se_ExpiresAt s)%Z) (option_list (sessions d !! id));
            u ← List.filter us_IsActive (option_list (users d !! se_UserID s)); [(s, u)]) w.
Definition with_email (email : string) (d : DB) : list User :=
  List.filter (λ u, (fold (us_Email u) =? fold email)%string) (rows (users d)).
Definition GetUserByEmail (email : string) : stmt User := one (with_email email).
Definition GetUserByID (id : uuid) : stmt User := one (λ d, option_list (users d !! id)).
Definition GetUserByIdentity (provider subject : string) : stmt User :=
  one (λ d, i ← option_list (identities d !! (provider, subject)); List.filter us_IsActive (option_list (users d !! ui_UserID i))).
Definition ListIdentitiesForUser (userID : uuid) : stmt (list UserIdentity) :=
  many (λ d, oldest ui_CreatedAt (List.filter (λ i, (ui_UserID i =? userID)%N) (rows (identities d)))).
Definition update_user (id : uuid) (f : User → User) : stmt unit := λ w d,
  Ok (with_users d (alter (λ u, let u := f u in mkDbUser (us_ID u) (us_Email u) (us_DisplayName u) (us_AvatarUrl u) (us_IsAdmin u)
                                  (us_CanCreateSites u) (us_IsActive u) (us_CreatedAt u) (d_now w)) id (users d)), tt).
Definition set_flags (isAdmin canCreateSites : bool) (u : User) : User :=
  mkDbUser (us_ID u) (us_Email u) (us_DisplayName u) (us_AvatarUrl u) isAdmin canCreateSites (us_IsActive u) (us_CreatedAt u) (us_UpdatedAt u).
Definition PromoteUserAdmin (id : uuid) : stmt unit := update_user id (λ u, set_flags true (us_CanCreateSites u) u).
Definition SetUserAdminFlags (isAdmin canCreateSites : bool) (id : uuid) : stmt unit := update_user id (set_flags isAdmin canCreateSites).
Definition TouchSession (id : string) : stmt unit := λ w d,
  Ok (with_sessions d (alter (λ s, mkDbSession (se_ID s) (se_UserID s) (se_CreatedAt s) (se_ExpiresAt s) (d_now w)
                                    (se_UserAgent s) (se_IpAddr s)) id (sessions d)), tt).
Definition UpsertIdentity (userID : uuid) (provider subject : string) (emailAtLink : option string) : stmt unit := λ w d,
  match identities d !! (provider, subject) with
  | Some i => Ok (with_identities d (<[(provider, subject) := mkIdentity (ui_ID i) (ui_UserID i) provider subject emailAtLink
                                        (ui_CreatedAt i) (Some (d_now w))]> (identities d)), tt)
  | None =>
      check! require (negb (existsb (λ kv, (ui_ID kv.2 =? d_uuid w)%N) (map_to_list (identities d)))) (unique_violation "user_identities_pkey") in
      check! references userID (users d) "user_identities_user_id_fkey" in
      Ok (with_identities d (<[(provider, subject) := mkIdentity (d_uuid w) userID provider subject emailAtLink (d_now w)
                               (Some (d_now w))]> (identities d)), tt)
  end.
Definition UpsertUser (email displayName : string) (avatar : option string) : stmt User := λ w d,
  match with_email email d with
  | u :: _ =>
      let u := mkDbUser (us_ID u) (us_Email u) displayName (match avatar with Some a => Some a | None => us_AvatarUrl u end)
                 (us_IsAdmin u) (us_CanCreateSites u) (us_IsActive u) (us_CreatedAt u) (d_now w) in
      Ok (with_users d (<[us_ID u := u]> (users d)), u)
  | [] =>
      check! require (negb (has (d_uuid w) (users d))) (unique_violation "users_pkey") in
      let u := mkDbUser (d_uuid w) email displayName avatar false true true (d_now w) (d_now w) in
      Ok (with_users d (<[d_uuid w := u]> (users d)), u)
  end.

(** *** tokens.sql *)

Definition token_checks (t : UserToken) : Res store_err unit :=
  check! require (bool_decide (String.length (to_TokenHash t) = 32)) (check_violation "user_tokens_hash_len") in
  check! require (bool_decide (char_length (to_TokenPrefix t) = 12)) (check_violation "user_tokens_prefix_len") in
  require (forallb (λ s, bool_decide (s ∈ ["read"; "write"; "publish"])) (to_Scopes t)) (check_violation "user_tokens_scopes_valid").
Definition CreateUserToken (arg : NewToken) : stmt UserToken := λ w d,
  let t := mkToken (d_uuid w) (nt_UserID arg) (nt_Name arg) (nt_TokenPrefix arg) (nt_TokenHash arg) (nt_Scopes arg)
             (nt_CanCreateSites arg) (d_now w) None (nt_ExpiresAt arg) None in
  check! token_checks t in
  check! require (negb (has (d_uuid w) (tokens d))) (unique_violation "user_tokens_pkey") in
  check! require (negb (taken_by (λ t, Some (to_TokenHash t)) (Some (nt_TokenHash arg)) (d_uuid w) (tokens d))) (unique_violation "uq_user_tokens_hash") in
  check! references (nt_UserID arg) (users d) "user_tokens_user_id_fkey" in
  Ok (with_tokens d (<[d_uuid w := t]> (tokens d)), t).
(** WHERE p AND revoked_at IS NULL AND (expires_at IS NULL OR expires_at > now()) AND u.is_active *)
Definition active_tokens (p : UserToken → bool) (w : Draw) (d : DB) : list (UserToken * User) :=
  t ← List.filter (λ t, p t && bool_decide (to_RevokedAt t = None) && after_now (d_now w) (to_ExpiresAt t)) (rows (tokens d));
  u ← List.filter us_IsActive (option_list (users d !! to_UserID t)); [(t, u)].
Definition GetUserTokenByHash (hash : bytes) : stmt (UserToken * User) := λ w,
  one (active_tokens (λ t, (to_TokenHash t =? hash)%string) w) w.
Definition GetUserTokenByPrefix (prefix : string) : stmt (list (UserToken * User)) := λ w,
  many (active_tokens (λ t, (to_TokenPrefix t =? prefix)%string) w) w.
Definition ListUserTokens (userID : uuid) : stmt (list UserToken) :=
  many (λ d, newest to_CreatedAt (List.filter (λ t, (to_UserID t =? userID)%N) (rows (tokens d)))).
Definition RevokeUserToken (id userID : uuid) : stmt unit := λ w d,
  Ok (with_tokens d (alter (λ t, if (to_UserID t =? userID)%N && bool_decide (to_RevokedAt t = None) then
    mkToken (to_ID t) (to_UserID t) (to_Name t) (to_TokenPrefix t) (to_TokenHash t) (to_Scopes t) (to_CanCreateSites t)
      (to_CreatedAt t) (to_LastUsedAt t) (to_ExpiresAt t) (Some (d_now w)) else t) id (tokens d)), tt).
Definition TouchUserToken (id : uuid) : stmt unit := λ w d,
  Ok (with_tokens d (alter (λ t, mkToken (to_ID t) (to_UserID t) (to_Name t) (to_TokenPrefix t) (to_TokenHash t) (to_Scopes t)
      (to_CanCreateSites t) (to_CreatedAt t) (Some (d_now w)) (to_ExpiresAt t) (to_RevokedAt t)) id (tokens d)), tt).

(** *** audit.sql, reserved.sql, instance_settings.sql *)

Record InsertAuditParams := mkInsertAudit {
  ia_ActorUserID : option uuid; ia_SiteID : option uuid; ia_TokenID : option uuid; ia_Action : string; ia_Source : string;
  ia_CommitSha : option string; ia_Metadata : bytes;
}.
(** GENERATED ALWAYS AS IDENTITY: the number of a row is one more than the last. *)
Definition InsertAudit (arg : InsertAuditParams) : stmt unit := λ w d,
  check! require (audit_source (ia_Source arg)) (invalid_enum "audit_source") in
  check! require (null_or (λ u, has u (users d)) (ia_ActorUserID arg)) (foreign_key_violation "audit_log_actor_user_id_fkey") in
  check! require (null_or (λ s, has s (sites d)) (ia_SiteID arg)) (foreign_key_violation "audit_log_site_id_fkey") in
  check! require (null_or (λ t, has t (tokens d)) (ia_TokenID arg)) (foreign_key_violation "audit_log_token_id_fkey") in
  let id := match audit_log d with a :: _ => (al_ID a + 1)%Z | [] => 1%Z end in
  Ok (with_audit d (mkAuditLog id (ia_ActorUserID arg) (ia_SiteID arg) (ia_TokenID arg) (ia_Action arg) (ia_Source arg)
                     (ia_CommitSha arg) (ia_Metadata arg) (d_now w) :: audit_log d), tt).
(** Newest first, as the table is kept *)
Definition audit_page (p : AuditLog → bool) (beforeID : option Z) (lim : Z) : stmt (list AuditLog) := λ _ d,
  check! require (0 <=? lim)%Z negative_limit in
  Ok (d, take (Z.to_nat lim) (List.filter (λ a, p a && null_or (λ b, (al_ID a <? b)%Z) beforeID) (audit_log d))).
Definition ListAuditForActor (actor : uuid) : option Z → Z → stmt (list AuditLog) :=
  audit_page (λ a, bool_decide (al_ActorUserID a = Some actor)).
Definition ListAuditForSite (site : uuid) : option Z → Z → stmt (list AuditLog) :=
  audit_page (λ a, bool_decide (al_SiteID a = Some site)).
Definition AddReserved (handle reason : string) : stmt unit := λ w d,
  let r := match reserved d !! fold handle with
           | Some r => mkReserved (rh_Handle r) reason (rh_CreatedAt r)
           | None => mkReserved handle reason (d_now w)
           end in
  Ok (with_reserved d (<[fold handle := r]> (reserved d)), tt).
Definition IsReserved (handle : string) : stmt bool := λ _ d, Ok (d, has (fold handle) (reserved d)).
Definition ListReserved : stmt (list ReservedHandle) :=
  many (λ d, merge_sort (λ a b, Is_true (String.leb (fold (rh_Handle a)) (fold (rh_Handle b)))) (rows (reserved d))).
Definition RemoveReserved (handle : string) : stmt unit := λ _ d, Ok (with_reserved d (delete (fold handle) (reserved d)), tt).
Definition GetSetting (key : string) : stmt string := one (λ d, option_list (instance_settings d !! key)).
Definition SetSetting (key value : string) : stmt unit := λ _ d, Ok (with_settings d (<[key := value]> (instance_settings d)), tt).
Definition DeleteSetting (key : string) : stmt unit := λ _ d, Ok (with_settings d (delete key (instance_settings d)), tt).

(** ** gen.Querier *)

Inductive Query : Type → Type :=
| AddMember_ (siteID userID : uuid) (role : string) (createdBy : option uuid) : Query unit
| AddOwnerMembership_ (siteID userID : uuid) : Query unit
| AddReserved_ (handle reason : string) : Query unit
| BumpCacheVersion_ (id : uuid) : Query Z
| CreateSession_ (arg : NewSession) : Query DbSession
| CreateSite_ (arg : CreateSiteParams) : Query DbSite
| CreateUserToken_ (arg : NewToken) : Query UserToken
| DeleteExpiredSessions_ : Query Z
| DeleteInstanceSetting_ (key : string) : Query unit
| DeleteRedirect_ (oldHandle : string) (siteID : uuid) : Query unit
| DeleteSession_ (id : string) : Query unit
| DeleteUserSessions_ (userID : uuid) : Query unit
| GetInstanceSetting_ (key : string) : Query string
| GetMember_ (siteID userID : uuid) : Query SiteMember
| GetRole_ (siteID userID : uuid) : Query string
| GetSession_ (id : string) : Query (DbSession * User)
| GetSiteByGitHubRepo_ (repo : string) : Query DbSite
| GetSiteByHandle_ (handle : string) : Query DbSite
| GetSiteByID_ (id : uuid) : Query DbSite
| GetSiteByRedirect_ (oldHandle : string) : Query DbSite
| GetUserByEmail_ (email : string) : Query User
| GetUserByID_ (id : uuid) : Query User
| GetUserByIdentity_ (provider subject : string) : Query User
| GetUserTokenByHash_ (hash : bytes) : Query (UserToken * User)
| GetUserTokenByPrefix_ (prefix : string) : Query (list (UserToken * User))
| HandleIsTaken_ (handle : string) : Query bool
| HardDeleteSite_ (id : uuid) : Query unit
| InsertAudit_ (arg : InsertAuditParams) : Query unit
| InsertRedirect_ (oldHandle : string) (siteID : uuid) : Query unit
| IsReserved_ (handle : string) : Query bool
| ListAuditForActor_ (actor : uuid) (beforeID : option Z) (lim : Z) : Query (list AuditLog)
| ListAuditForSite_ (site : uuid) (beforeID : option Z) (lim : Z) : Query (list AuditLog)
| ListIdentitiesForUser_ (userID : uuid) : Query (list UserIdentity)
| ListLiveSiteIDs_ : Query (list uuid)
| ListMembers_ (siteID : uuid) : Query (list (SiteMember * User))
| ListRedirectsForSite_ (siteID : uuid) : Query (list HandleRedirect)
| ListReserved_ : Query (list ReservedHandle)
| ListSitesForReaper_ (cutoff : time) : Query (list DbSite)
| ListSitesForUser_ (userID : uuid) (off lim : Z) : Query (list (DbSite * string))
| ListUserTokens_ (userID : uuid) : Query (list UserToken)
| PromoteUserAdmin_ (id : uuid) : Query unit
| RemoveMember_ (siteID userID : uuid) : Query unit
| RemoveReserved_ (handle : string) : Query unit
| RenameHandle_ (newHandle : string) (id : uuid) : Query unit
| RevokeUserToken_ (id userID : uuid) : Query unit
| SetInstanceSetting_ (key value : string) : Query unit
| SetPublished_ (sha : option string) (id : uuid) : Query unit
| SetSiteRemote_ (repo : option string) (id : uuid) : Query unit
| SetUserAdminFlags_ (isAdmin canCreateSites : bool) (id : uuid) : Query unit
| SoftDeleteSite_ (id : uuid) : Query unit
| TouchSession_ (id : string) : Query unit
| TouchUserToken_ (id : uuid) : Query unit
| UpdateMemberRole_ (role : string) (siteID userID : uuid) : Query unit
| UpdateSiteSettings_ (arg : SiteSettings) : Query unit
| UpsertIdentity_ (userID : uuid) (provider subject : string) (emailAtLink : option string) : Query unit
| UpsertUser_ (email displayName : string) (avatar : option string) : Query User.
Definition exec {A} (q : Query A) : stmt A :=
  match q in Query A return stmt A with
  | AddMember_ siteID userID role createdBy => AddMember siteID userID role createdBy
  | AddOwnerMembership_ siteID userID => AddOwnerMembership siteID userID
  | AddReserved_ handle reason => AddReserved handle reason
  | BumpCacheVersion_ id => BumpCacheVersion id
  | CreateSession_ arg => CreateSession arg
  | CreateSite_ arg => CreateSite arg
  | CreateUserToken_ arg => CreateUserToken arg
  | DeleteExpiredSessions_ => DeleteExpiredSessions
  | DeleteInstanceSetting_ key => DeleteSetting key
  | DeleteRedirect_ oldHandle siteID => DeleteRedirect oldHandle siteID
  | DeleteSession_ id => DeleteSession id
  | DeleteUserSessions_ userID => DeleteUserSessions userID
  | GetInstanceSetting_ key => GetSetting key
  | GetMember_ siteID userID => GetMember siteID userID
  | GetRole_ siteID userID => GetRole siteID userID
  | GetSession_ id => GetSession id
  | GetSiteByGitHubRepo_ repo => GetSiteByGitHubRepo repo
  | GetSiteByHandle_ handle => GetSiteByHandle handle
  | GetSiteByID_ id => GetSiteByID id
  | GetSiteByRedirect_ oldHandle => GetSiteByRedirect oldHandle
  | GetUserByEmail_ email => GetUserByEmail email
  | GetUserByID_ id => GetUserByID id
  | GetUserByIdentity_ provider subject => GetUserByIdentity provider subject
  | GetUserTokenByHash_ hash => GetUserTokenByHash hash
  | GetUserTokenByPrefix_ prefix => GetUserTokenByPrefix prefix
  | HandleIsTaken_ handle => HandleIsTaken handle
  | HardDeleteSite_ id => HardDeleteSite id
  | InsertAudit_ arg => InsertAudit arg
  | InsertRedirect_ oldHandle siteID => InsertRedirect oldHandle siteID
  | IsReserved_ handle => IsReserved handle
  | ListAuditForActor_ actor beforeID lim => ListAuditForActor actor beforeID lim
  | ListAuditForSite_ site beforeID lim => ListAuditForSite site beforeID lim
  | ListIdentitiesForUser_ userID => ListIdentitiesForUser userID
  | ListLiveSiteIDs_ => ListLiveSiteIDs
  | ListMembers_ siteID => ListMembers siteID
  | ListRedirectsForSite_ siteID => ListRedirectsForSite siteID
  | ListReserved_ => ListReserved
  | ListSitesForReaper_ cutoff => ListSitesForReaper cutoff
  | ListSitesForUser_ userID off lim => ListSitesForUser userID off lim
  | ListUserTokens_ userID => ListUserTokens userID
  | PromoteUserAdmin_ id => PromoteUserAdmin id
  | RemoveMember_ siteID userID => RemoveMember siteID userID
  | RemoveReserved_ handle => RemoveReserved handle
  | RenameHandle_ newHandle id => RenameHandle newHandle id
  | RevokeUserToken_ id userID => RevokeUserToken id userID
  | SetInstanceSetting_ key value => SetSetting key value
  | SetPublished_ sha id => SetPublished sha id
  | SetSiteRemote_ repo id => SetSiteRemote repo id
  | SetUserAdminFlags_ isAdmin canCreateSites id => SetUserAdminFlags isAdmin canCreateSites id
  | SoftDeleteSite_ id => SoftDeleteSite id
  | TouchSession_ id => TouchSession id
  | TouchUserToken_ id => TouchUserToken id
  | UpdateMemberRole_ role siteID userID => UpdateMemberRole role siteID userID
  | UpdateSiteSettings_ arg => UpdateSiteSettings arg
  | UpsertIdentity_ userID provider subject emailAtLink => UpsertIdentity userID provider subject emailAtLink
  | UpsertUser_ email displayName avatar => UpsertUser email displayName avatar
  end.
End queries.
