(* ===== verification/MetaDbFacts.v ===== *)
(** * The metadata database keeps its integrity *)

From S2P Require Import Prelude GoStrings Encoding SiteTypes Handle Regexp Http Access Wire ApiWorld Settings MetaDb.

(** ** Columns without duplicates *)

Definition unique {K} `{Countable K} {V B} (f : V → option B) (m : gmap K V) : Prop :=
  ∀ k1 k2 v1 v2 b, m !! k1 = Some v1 → m !! k2 = Some v2 → f v1 = Some b → f v2 = Some b → k1 = k2.

Section unique.
Context {K : Type} `{Countable K} {V B : Type} `{EqDecision B} (f : V → option B).

Lemma taken_by_false x k (m : gmap K V) b : taken_by f x k m = false → x = Some b →
  ∀ k' v, m !! k' = Some v → f v = Some b → k' = k.
Proof.
  intros Ht -> k' v Hk Hf. simpl in Ht. destruct (decide (k' = k)) as [|Hne]; [done|].
  assert (existsb (λ kv, bool_decide (kv.1 ≠ k) && bool_decide (f kv.2 = Some b)) (map_to_list m) = true) as Htrue.
  { apply existsb_exists. exists (k', v). split; [by apply list_elem_of_In, elem_of_map_to_list|].
    by rewrite !bool_decide_eq_true_2. }
  congruence.
Qed.
Lemma unique_insert k v (m : gmap K V) : unique f m → taken_by f (f v) k m = false → unique f (<[k:=v]> m).
Proof.
  intros Hu Ht k1 k2 v1 v2 b. rewrite !lookup_insert_Some. intros [[<- <-]|[Hn1 H1]] [[<- <-]|[Hn2 H2]] Hf1 Hf2; [done|..].
  - symmetry. by eapply taken_by_false.
  - by eapply taken_by_false.
  - by eapply Hu.
Qed.
Lemma unique_same k v v' (m : gmap K V) : unique f m → m !! k = Some v → f v' = f v → unique f (<[k:=v']> m).
Proof.
  intros Hu Hk Hf k1 k2 v1 v2 b. rewrite !lookup_insert_Some. intros [[<- <-]|[Hn1 H1]] [[<- <-]|[Hn2 H2]] Hf1 Hf2; [done|..].
  - eapply Hu; [exact Hk|done| |done]. congruence.
  - eapply Hu; [done|exact Hk|done|]. congruence.
  - by eapply Hu.
Qed.
Lemma unique_sub (m m' : gmap K V) : m' ⊆ m → unique f m → unique f m'.
Proof. intros Hs Hu k1 k2 v1 v2 b H1 H2. apply Hu; by eapply lookup_weaken. Qed.
Lemma unique_alter g k (m : gmap K V) : (∀ v, f (g v) = f v) → unique f m → unique f (alter g k m).
Proof.
  intros Hg Hu k1 k2 v1 v2 b. rewrite !lookup_alter_Some.
  intros [(<- & y & Hy & ->)|[Hn1 H1]] [(<- & z & Hz & ->)|[Hn2 H2]]; rewrite ?Hg; intros; [done|by eapply Hu..].
Qed.
End unique.

Ltac take_bind H :=
  repeat match type of H with
         | res_bind _ _ = Ok _ => let a := fresh "a" in let Ha := fresh "Ha" in apply res_bind_ok in H as (a & Ha & H)
         end.
Ltac keep := intros w d d' a Hd Hq.

(** ** Integrity *)

Section integrity.
Context `{Postgres}.

(** Keys, uniqueness, foreign keys and checks of every table *)
Record db_ok (d : DB) : Prop := {
  ok_users : map_Forall (λ k u, us_ID u = k) (users d);
  ok_emails : unique (λ u, Some (fold (us_Email u))) (users d);
  ok_identities : map_Forall (λ k i, k = (ui_Provider i, ui_Subject i) ∧ is_Some (users d !! ui_UserID i)) (identities d);
  ok_sessions : map_Forall (λ k s, se_ID s = k ∧ is_Some (users d !! se_UserID s)) (sessions d);
  ok_sites : map_Forall (λ k s, st_ID s = k ∧ is_Some (users d !! st_OwnerID s) ∧ site_checks s = Ok tt) (sites d);
  ok_handles : unique (λ s, Some (fold (st_Handle s))) (sites d);
  ok_repos : unique st_GithubRepo (sites d);
  ok_members : map_Forall (λ k m, k = (sm_SiteID m, sm_UserID m) ∧ is_Some (sites d !! sm_SiteID m) ∧
                             is_Some (users d !! sm_UserID m) ∧ site_role (sm_Role m) = true) (members d);
  ok_tokens : map_Forall (λ k t, to_ID t = k ∧ is_Some (users d !! to_UserID t) ∧ token_checks t = Ok tt) (tokens d);
  ok_hashes : unique (λ t, Some (to_TokenHash t)) (tokens d);
  ok_redirects : map_Forall (λ k r, k = fold (hr_OldHandle r) ∧ is_Some (sites d !! hr_SiteID r) ∧
                               handle_format (hr_OldHandle r) = true) (redirects d);
  ok_reserved : map_Forall (λ k r, k = fold (rh_Handle r)) (reserved d);
  ok_audit : Forall (λ a, audit_source (al_Source a) = true ∧ (∀ u, al_ActorUserID a = Some u → is_Some (users d !! u)) ∧
                     (∀ s, al_SiteID a = Some s → is_Some (sites d !! s)) ∧
                     (∀ t, al_TokenID a = Some t → is_Some (tokens d !! t))) (audit_log d);
}.

(** *** One table at a time *)

Lemma ok_with_users d t : db_ok d → (∀ k, is_Some (users d !! k) → is_Some (t !! k)) →
  map_Forall (λ k u, us_ID u = k) t → unique (λ u, Some (fold (us_Email u))) t → db_ok (with_users d t).
Proof.
  intros [] Hdom Hk Hu. split; try done; cbn [with_users users identities sessions sites members tokens audit_log].
  - eapply map_Forall_impl; [done|]. naive_solver.
  - eapply map_Forall_impl; [done|]. naive_solver.
  - eapply map_Forall_impl; [done|]. naive_solver.
  - eapply map_Forall_impl; [done|]. naive_solver.
  - eapply map_Forall_impl; [done|]. naive_solver.
  - eapply Forall_impl; [done|]. naive_solver.
Qed.
Lemma ok_with_sites d t : db_ok d → (∀ k, is_Some (sites d !! k) → is_Some (t !! k)) →
  map_Forall (λ k s, st_ID s = k ∧ is_Some (users d !! st_OwnerID s) ∧ site_checks s = Ok tt) t →
  unique (λ s, Some (fold (st_Handle s))) t → unique st_GithubRepo t → db_ok (with_sites d t).
Proof.
  intros [] Hdom Hk Hu Hr. split; try done; cbn [with_sites users sites members redirects audit_log].
  - eapply map_Forall_impl; [done|]. naive_solver.
  - eapply map_Forall_impl; [done|]. naive_solver.
  - eapply Forall_impl; [done|]. naive_solver.
Qed.
Lemma ok_with_tokens d t : db_ok d → (∀ k, is_Some (tokens d !! k) → is_Some (t !! k)) →
  map_Forall (λ k t, to_ID t = k ∧ is_Some (users d !! to_UserID t) ∧ token_checks t = Ok tt) t →
  unique (λ t, Some (to_TokenHash t)) t → db_ok (with_tokens d t).
Proof. intros [] Hdom Hk Hu. split; try done. eapply Forall_impl; [done|]. cbn. naive_solver. Qed.
Lemma ok_with_identities d t : db_ok d →
  map_Forall (λ k i, k = (ui_Provider i, ui_Subject i) ∧ is_Some (users d !! ui_UserID i)) t → db_ok (with_identities d t).
Proof. by intros [] ?; split. Qed.
Lemma ok_with_sessions d t : db_ok d →
  map_Forall (λ k s, se_ID s = k ∧ is_Some (users d !! se_UserID s)) t → db_ok (with_sessions d t).
Proof. by intros [] ?; split. Qed.
Lemma ok_with_members d t : db_ok d →
  map_Forall (λ k m, k = (sm_SiteID m, sm_UserID m) ∧ is_Some (sites d !! sm_SiteID m) ∧
                     is_Some (users d !! sm_UserID m) ∧ site_role (sm_Role m) = true) t → db_ok (with_members d t).
Proof. by intros [] ?; split. Qed.
Lemma ok_with_redirects d t : db_ok d →
  map_Forall (λ k r, k = fold (hr_OldHandle r) ∧ is_Some (sites d !! hr_SiteID r) ∧ handle_format (hr_OldHandle r) = true) t →
  db_ok (with_redirects d t).
Proof. by intros [] ?; split. Qed.
Lemma ok_with_reserved d t : db_ok d → map_Forall (λ k r, k = fold (rh_Handle r)) t → db_ok (with_reserved d t).
Proof. by intros [] ?; split. Qed.
Lemma ok_with_settings d t : db_ok d → db_ok (with_settings d t).
Proof. by intros []; split. Qed.

(** *** Queries *)

Definition keeps {A} (q : stmt A) : Prop := ∀ w d d' a, db_ok d → q w d = Ok (d', a) → db_ok d'.

Lemma require_ok b e x : require b e = Ok x → b = true.
Proof. by destruct b. Qed.
Lemma has_spec {K} `{Countable K} {V} (k : K) (m : gmap K V) : has k m = true ↔ is_Some (m !! k).
Proof. unfold has. apply bool_decide_eq_true. Qed.
Lemma has_not {K} `{Countable K} {V} (k : K) (m : gmap K V) : negb (has k m) = true → m !! k = None.
Proof. unfold has. intros Hn%negb_true_iff%bool_decide_eq_false. by apply eq_None_not_Some. Qed.
Lemma is_Some_insert {K} `{Countable K} {V} (m : gmap K V) (k j : K) v : is_Some (m !! j) → is_Some (<[k:=v]> m !! j).
Proof. intros. rewrite lookup_insert_is_Some'. by right. Qed.
Lemma is_Some_alter {K} `{Countable K} {V} (m : gmap K V) (k j : K) g : is_Some (m !! j) → is_Some (alter g k m !! j).
Proof. destruct (decide (k = j)) as [->|]; [rewrite lookup_alter_eq, fmap_is_Some|rewrite lookup_alter_ne]; done. Qed.
Lemma keeps_one {A} (f : DB → list A) : keeps (one f).
Proof. keep. unfold one in Hq. destruct (f d); [done|]. by simplify_eq. Qed.
Lemma keeps_many {A} (f : DB → list A) : keeps (many f).
Proof. keep. unfold many in Hq. by simplify_eq. Qed.

Lemma keeps_update_site id f :
  (∀ s, st_ID (f s) = st_ID s ∧ st_OwnerID (f s) = st_OwnerID s) → keeps (update_site id f).
Proof.
  intros Hf. keep. unfold update_site in Hq. destruct (sites d !! id) as [s|] eqn:Hs; [|by simplify_eq].
  cbv zeta in Hq. take_bind Hq. simplify_eq. destruct (Hf s) as [Hid Hown].
  destruct (ok_sites d Hd _ _ Hs) as (Hk & Ho & _).
  unfold site_unique in Ha0. take_bind Ha0. apply require_ok in Ha1, Ha0. rewrite negb_true_iff in Ha1, Ha0.
  cbn [st_ID st_Handle st_GithubRepo] in Ha1, Ha0. rewrite Hid, Hk in Ha1, Ha0.
  apply ok_with_sites; [done|intros k; apply is_Some_insert|..].
  - apply map_Forall_insert_2; [|apply (ok_sites d Hd)]. cbn [st_ID st_OwnerID]. rewrite Hid, Hown. eauto using ok_unit.
  - apply unique_insert; [apply (ok_handles d Hd)|done].
  - apply unique_insert; [apply (ok_repos d Hd)|done].
Qed.
Lemma keeps_CreateSite arg : keeps (CreateSite arg).
Proof.
  keep. unfold CreateSite in Hq. cbv zeta in Hq. take_bind Hq. simplify_eq.
  unfold site_unique, references in *. take_bind Ha1. apply require_ok in Ha0, Ha1, Ha2, Ha3.
  rewrite negb_true_iff in Ha1, Ha3. apply has_spec in Ha2.
  apply ok_with_sites; [done|intros k; apply is_Some_insert|..].
  - apply map_Forall_insert_2; [|apply (ok_sites d Hd)]. split_and!; [done|done|]. by eapply ok_unit.
  - apply unique_insert; [apply (ok_handles d Hd)|done].
  - apply unique_insert; [apply (ok_repos d Hd)|done].
Qed.
Lemma keeps_BumpCacheVersion id : keeps (BumpCacheVersion id).
Proof.
  keep. unfold BumpCacheVersion in Hq. destruct (sites d !! id) as [s|]; [|done]. destruct (live s); [|done].
  cbv zeta in Hq. take_bind Hq. simplify_eq. destruct a1 as [d1 []]. by eapply (keeps_update_site id); [|exact Hd|exact Ha0].
Qed.
Lemma keeps_SoftDeleteSite id : keeps (SoftDeleteSite id).
Proof.
  keep. unfold SoftDeleteSite in Hq. destruct (sites d !! id) as [s|]; [destruct (live s)|]; [|by simplify_eq..].
  by eapply (keeps_update_site id); [|exact Hd|exact Hq].
Qed.
Lemma keeps_SetPublished sha id : keeps (SetPublished sha id).
Proof. keep. by eapply (keeps_update_site id); [|exact Hd|exact Hq]. Qed.
Lemma keeps_DeleteRedirect h id : keeps (DeleteRedirect h id).
Proof.
  keep. unfold DeleteRedirect in Hq. destruct (redirects d !! fold h) as [r|]; [|by simplify_eq].
  destruct (hr_SiteID r =? id)%N; simplify_eq; [|done].
  apply ok_with_redirects; [done|]. by apply map_Forall_delete, (ok_redirects d Hd).
Qed.
Lemma keeps_InsertRedirect h id : keeps (InsertRedirect h id).
Proof.
  keep. unfold InsertRedirect, references in Hq. cbv zeta in Hq. take_bind Hq. simplify_eq.
  apply require_ok in Ha, Ha0. apply has_spec in Ha0.
  apply ok_with_redirects; [done|]. apply map_Forall_insert_2; [|apply (ok_redirects d Hd)].
  destruct (redirects d !! fold h) as [r|] eqn:Hr; cbn [hr_OldHandle hr_SiteID]; [|done]. destruct (ok_redirects d Hd _ _ Hr) as (? & _ & ?). done.
Qed.
Lemma keeps_HardDeleteSite id : keeps (HardDeleteSite id).
Proof.
  keep. unfold HardDeleteSite in Hq. simplify_eq. destruct Hd. split; try done; cbn [users sites members redirects tokens audit_log].
  - by apply map_Forall_delete.
  - eapply unique_sub; [apply delete_subseteq|done].
  - eapply unique_sub; [apply delete_subseteq|done].
  - intros k m [Hm Hn]%map_lookup_filter_Some. apply ok_members0 in Hm as (? & ? & ? & ?). by rewrite lookup_delete_ne by done.
  - intros k m [Hm Hn]%map_lookup_filter_Some. apply ok_redirects0 in Hm as (? & ? & ?). by rewrite lookup_delete_ne by done.
  - apply Forall_fmap. eapply Forall_impl; [done|]. intros a (Hs & Hu & Hsi & Ht). split_and!; [done|done| |done].
    cbn [al_SiteID]. intros s. case_bool_decide; [done|]. intros Hs'. rewrite lookup_delete_ne by congruence. by apply Hsi.
Qed.

Lemma keeps_AddMember s u role by_ : keeps (AddMember s u role by_).
Proof.
  keep. unfold AddMember, references in Hq. take_bind Hq. apply require_ok in Ha.
  destruct (members d !! (s, u)) as [m|] eqn:Hm.
  - simplify_eq. apply ok_with_members; [done|]. apply map_Forall_insert_2; [|apply (ok_members d Hd)].
    destruct (ok_members d Hd _ _ Hm) as (? & ? & ? & ?). by simplify_eq/=.
  - take_bind Hq. simplify_eq. apply require_ok in Ha0, Ha1. apply has_spec in Ha0, Ha1.
    apply ok_with_members; [done|]. by apply map_Forall_insert_2; [|apply (ok_members d Hd)].
Qed.
Lemma map_Forall_alter_ok {K} `{Countable K} {V} (P : K → V → Prop) g k (m : gmap K V) :
  (∀ v, P k v → P k (g v)) → map_Forall P m → map_Forall P (alter g k m).
Proof. intros Hg Hm j v. rewrite lookup_alter_Some. intros [(<- & y & Hy & ->)|[_ Hj]]; [by apply Hg, Hm|by apply Hm]. Qed.
Lemma keeps_UpdateMemberRole role s u : keeps (UpdateMemberRole role s u).
Proof.
  keep. unfold UpdateMemberRole in Hq. take_bind Hq. simplify_eq. apply require_ok in Ha.
  apply ok_with_members; [done|]. apply map_Forall_alter_ok; [|apply (ok_members d Hd)]. by intros m (? & ? & ? & ?).
Qed.
Lemma keeps_RemoveMember s u : keeps (RemoveMember s u).
Proof. keep. unfold RemoveMember in Hq. simplify_eq. by apply ok_with_members, map_Forall_delete, (ok_members d Hd). Qed.

Lemma keeps_CreateSession arg : keeps (CreateSession arg).
Proof.
  keep. unfold CreateSession, references in Hq. take_bind Hq. simplify_eq. apply require_ok in Ha, Ha0. apply has_spec in Ha0.
  apply ok_with_sessions; [done|]. by apply map_Forall_insert_2; [|apply (ok_sessions d Hd)].
Qed.
Lemma keeps_sessions {A} (q : stmt A) (f : Draw → gmap string DbSession → gmap string DbSession) (g : Draw → DB → A) :
  (∀ w d, q w d = Ok (with_sessions d (f w (sessions d)), g w d)) →
  (∀ w P m, (∀ k s t, P k s → P k (mkDbSession (se_ID s) (se_UserID s) (se_CreatedAt s) (se_ExpiresAt s) t (se_UserAgent s) (se_IpAddr s))) →
     map_Forall P m → map_Forall P (f w m)) → keeps q.
Proof. intros Hq' Hf. keep. rewrite Hq' in Hq. simplify_eq. by apply ok_with_sessions, Hf, (ok_sessions d Hd). Qed.
Lemma map_Forall_filter_ok {K} `{Countable K} {V} (P : K → V → Prop) (Q : K * V → Prop) `{∀ x, Decision (Q x)} (m : gmap K V) :
  map_Forall P m → map_Forall P (filter Q m).
Proof. intros HP k v [Hk _]%map_lookup_filter_Some. by apply HP. Qed.
Lemma keeps_DeleteExpiredSessions : keeps DeleteExpiredSessions.
Proof. eapply (keeps_sessions _ (λ w, filter (λ kv, d_now w ≤ se_ExpiresAt kv.2)%Z)); [done|]. intros w P m _ HP. by apply map_Forall_filter_ok. Qed.
Lemma keeps_DeleteSession id : keeps (DeleteSession id).
Proof. eapply (keeps_sessions _ (λ _, delete id)); [done|]. intros w P m _ HP. by apply map_Forall_delete. Qed.
Lemma keeps_DeleteUserSessions u : keeps (DeleteUserSessions u).
Proof. eapply (keeps_sessions _ (λ _, filter (λ kv, se_UserID kv.2 ≠ u))); [done|]. intros w P m _ HP. by apply map_Forall_filter_ok. Qed.
Lemma keeps_TouchSession id : keeps (TouchSession id).
Proof. eapply (keeps_sessions _ (λ w, alter _ id)); [done|]. intros w P m Hg HP. apply map_Forall_alter_ok; [|done]. intros v. apply Hg. Qed.
Lemma keeps_update_user id f : (∀ u, us_ID (f u) = us_ID u ∧ us_Email (f u) = us_Email u) → keeps (update_user id f).
Proof.
  intros Hf. keep. unfold update_user in Hq. simplify_eq.
  apply ok_with_users; [done|intros k; apply is_Some_alter|..].
  - apply map_Forall_alter_ok; [|apply (ok_users d Hd)]. intros u. destruct (Hf u) as [Hid _]. cbn [us_ID]. congruence.
  - apply unique_alter; [|apply (ok_emails d Hd)]. intros u. destruct (Hf u) as [_ He]. cbn [us_Email]. by rewrite He.
Qed.
Lemma rows_elem {K} `{Countable K} {V} (m : gmap K V) v : v ∈ rows m ↔ ∃ k, m !! k = Some v.
Proof.
  unfold rows. rewrite scan_perm, list_elem_of_fmap. split.
  - intros ([k v'] & -> & Hkv%elem_of_map_to_list). by exists k.
  - intros [k Hk]. exists (k, v). by rewrite elem_of_map_to_list.
Qed.
Lemma filter_elem {A} (p : A → bool) l x : x ∈ List.filter p l ↔ x ∈ l ∧ p x = true.
Proof. rewrite !list_elem_of_In, filter_In. done. Qed.
Lemma with_email_elem email d u :
  u ∈ with_email email d ↔ (∃ k, users d !! k = Some u) ∧ fold (us_Email u) = fold email.
Proof. unfold with_email. by rewrite filter_elem, rows_elem, String.eqb_eq. Qed.
Lemma with_email_nil email d k u : with_email email d = [] → users d !! k = Some u → fold (us_Email u) ≠ fold email.
Proof. intros Hn Hk He. assert (u ∈ with_email email d) as Hu by (apply with_email_elem; eauto). rewrite Hn in Hu. by apply not_elem_of_nil in Hu. Qed.
Lemma not_taken {K} `{Countable K} {V B} `{EqDecision B} (f : V → option B) b k (m : gmap K V) :
  (∀ k' v, m !! k' = Some v → f v ≠ Some b) → taken_by f (Some b) k m = false.
Proof.
  intros Hn. cbn [taken_by]. apply not_true_iff_false. intros ([k' v] & Hin & Hb)%existsb_exists.
  apply list_elem_of_In, elem_of_map_to_list in Hin. apply andb_true_iff in Hb as [_ Hb%bool_decide_eq_true]. by apply Hn in Hin.
Qed.
Lemma keeps_UpsertUser email name avatar : keeps (UpsertUser email name avatar).
Proof.
  keep. unfold UpsertUser in Hq. destruct (with_email email d) as [|u l] eqn:He; cbv zeta in Hq.
  - take_bind Hq. simplify_eq. apply require_ok, has_not in Ha. apply ok_with_users; [done|intros k; apply is_Some_insert|..].
    + by apply map_Forall_insert_2; [|apply (ok_users d Hd)].
    + apply unique_insert; [apply (ok_emails d Hd)|]. apply not_taken. cbn [us_Email]. intros k v Hv Hf.
      eapply with_email_nil; [exact He|exact Hv|congruence].
  - assert (u ∈ with_email email d) as Hu by (rewrite He; left). apply with_email_elem in Hu as [[k Hk] _]. simplify_eq.
    pose proof (ok_users d Hd _ _ Hk) as Hid. cbn in Hid. apply ok_with_users; [done|intros j; apply is_Some_insert|..].
    + by apply map_Forall_insert_2; [|apply (ok_users d Hd)].
    + eapply unique_same; [apply (ok_emails d Hd)|by rewrite Hid|done].
Qed.
Lemma keeps_UpsertIdentity u p s e : keeps (UpsertIdentity u p s e).
Proof.
  keep. unfold UpsertIdentity, references in Hq. destruct (identities d !! (p, s)) as [i|] eqn:Hi.
  - simplify_eq. apply ok_with_identities; [done|]. apply map_Forall_insert_2; [|apply (ok_identities d Hd)].
    destruct (ok_identities d Hd _ _ Hi) as [_ ?]. done.
  - take_bind Hq. simplify_eq. apply require_ok, has_spec in Ha0. apply ok_with_identities; [done|].
    by apply map_Forall_insert_2; [|apply (ok_identities d Hd)].
Qed.

Lemma keeps_CreateUserToken arg : keeps (CreateUserToken arg).
Proof.
  keep. unfold CreateUserToken, references in Hq. cbv zeta in Hq. take_bind Hq. simplify_eq.
  apply require_ok in Ha0, Ha1, Ha2. apply has_spec in Ha2. rewrite negb_true_iff in Ha1.
  apply ok_with_tokens; [done|intros k; apply is_Some_insert|..].
  - apply map_Forall_insert_2; [|apply (ok_tokens d Hd)]. split_and!; [done|done|by eapply ok_unit].
  - by apply unique_insert; [apply (ok_hashes d Hd)|].
Qed.
Lemma keeps_tokens (q : stmt unit) id (g : Draw → UserToken → UserToken) :
  (∀ w d, q w d = Ok (with_tokens d (alter (g w) id (tokens d)), tt)) →
  (∀ w t, to_ID (g w t) = to_ID t ∧ to_UserID (g w t) = to_UserID t ∧ to_TokenHash (g w t) = to_TokenHash t ∧
          to_TokenPrefix (g w t) = to_TokenPrefix t ∧ to_Scopes (g w t) = to_Scopes t) → keeps q.
Proof.
  intros Hq' Hg. keep. rewrite Hq' in Hq. simplify_eq. apply ok_with_tokens; [done|intros k; apply is_Some_alter|..].
  - apply map_Forall_alter_ok; [|apply (ok_tokens d Hd)]. intros t (Hi & Hu & Hc). destruct (Hg w t) as (E1 & E2 & E3 & E4 & E5).
    unfold token_checks in *. rewrite E1, E2, E3, E4, E5. done.
  - apply unique_alter; [|apply (ok_hashes d Hd)]. intros t. destruct (Hg w t) as (_ & _ & E & _). by rewrite E.
Qed.
Lemma keeps_RevokeUserToken id u : keeps (RevokeUserToken id u).
Proof. eapply keeps_tokens; [by intros|]. intros w t. cbv beta. by destruct (_ && _). Qed.
Lemma keeps_TouchUserToken id : keeps (TouchUserToken id).
Proof. by eapply keeps_tokens; [by intros|]. Qed.

Lemma keeps_InsertAudit arg : keeps (InsertAudit arg).
Proof.
  keep. unfold InsertAudit in Hq. take_bind Hq. simplify_eq. apply require_ok in Ha, Ha0, Ha1, Ha2.
  destruct Hd. split; try done. cbn [audit_log with_audit]. constructor; [|done]. cbn [al_Source al_ActorUserID al_SiteID al_TokenID].
  split_and!; [done|..]; intros x Hx; rewrite Hx in *; by apply has_spec.
Qed.
Lemma keeps_AddReserved h r : keeps (AddReserved h r).
Proof.
  keep. unfold AddReserved in Hq. cbv zeta in Hq. simplify_eq. apply ok_with_reserved; [done|].
  apply map_Forall_insert_2; [|apply (ok_reserved d Hd)]. destruct (reserved d !! fold h) as [x|] eqn:Hx; [|done].
  exact (ok_reserved d Hd _ _ Hx).
Qed.
Lemma keeps_RemoveReserved h : keeps (RemoveReserved h).
Proof. keep. unfold RemoveReserved in Hq. simplify_eq. by apply ok_with_reserved, map_Forall_delete, (ok_reserved d Hd). Qed.

Lemma exec_keeps {A} (q : Query A) : keeps (exec q).
Proof.
  destruct q; cbn [exec]; eauto using keeps_AddMember, keeps_AddReserved, keeps_BumpCacheVersion, keeps_CreateSession,
    keeps_CreateSite, keeps_CreateUserToken, keeps_DeleteExpiredSessions, keeps_DeleteRedirect, keeps_DeleteSession,
    keeps_DeleteUserSessions, keeps_HardDeleteSite, keeps_InsertAudit, keeps_InsertRedirect, keeps_RemoveMember,
    keeps_RemoveReserved, keeps_RevokeUserToken, keeps_SetPublished, keeps_SoftDeleteSite, keeps_TouchSession,
    keeps_TouchUserToken, keeps_UpdateMemberRole, keeps_UpsertIdentity, keeps_UpsertUser, keeps_one, keeps_many.
  all: try (by apply keeps_update_site); try (by apply keeps_update_user).
  all: try (keep; unfold SetSetting, DeleteSetting in Hq; simplify_eq; by apply ok_with_settings).
  all: keep; unfold GetSession, GetUserTokenByHash, GetUserTokenByPrefix, HandleIsTaken, IsReserved, ListAuditForActor,
    ListAuditForSite, audit_page, ListSitesForUser in Hq; try take_bind Hq.
  all: first [by simplify_eq|by eapply keeps_one; [exact Hd|exact Hq]|by eapply keeps_many; [exact Hd|exact Hq]].
Qed.
End integrity.
