(* ===== verification/MetaStore.v ===== *)
(** * The metadata store (db/store.go, site/storeadapter.go, auth storeUpserter, app/adapters.go)

    The queries of MetaDb under the transactions of Settings: the flows that take
    several statements, the interface site.Store the git-backed service is given,
    and the interface of the control plane ([ApiWorld.Store]) as one interpreter.

    Its transactions keep the integrity of the tables. *)

From S2P Require Import Prelude Trace GoStrings Regexp SiteErrors Handle SiteTypes Http Encoding Access Wire ApiWorld SecretBox Settings.
From S2P Require Import OidcCfg Providers MetaDb MetaDbFacts.
From S2P Require GitWorld.

(** A state that the events of a trace change, each knowing those before it *)
Section replay.
Context {event S : Type} (effect : list event → event → S → S).
Fixpoint replay (pre tr : list event) (s : S) : S :=
  match tr with [] => s | e :: tr => replay (pre ++ [e]) tr (effect pre e s) end.
Lemma replay_snoc pre t e s : replay pre (t ++ [e]) s = effect (pre ++ t) e (replay pre t s).
Proof.
  revert pre s. induction t as [|x t IH]; intros pre s; cbn [app replay]; [by rewrite app_nil_r|]. by rewrite IH, <-app_assoc.
Qed.
End replay.

(** What a transaction draws: one now(), an identifier per statement *)
Record Draws := mkDraws { dr_now : time; dr_uuid : nat → uuid }.

Section store.
Context `{Postgres} `{Faults} (w : Draws).
Abbreviation TX A := (M (Tx DB) store_err A) (only parsing).
Abbreviation DBM A := (M DB store_err A) (only parsing).

(** A statement of a transaction *)
Definition in_tx {A} (q : stmt A) : TX A := λ s,
  match statement_fails (tx_count s) with
  | Some msg => (mkTx (tx_tables s) (S (tx_count s)), Err (StoreFailed msg))
  | None =>
      match q (mkDraw (dr_now w) (dr_uuid w (tx_count s))) (tx_tables s) with
      | Ok (d, a) => (mkTx d (S (tx_count s)), Ok a)
      | Err e => (mkTx (tx_tables s) (S (tx_count s)), Err e)
      end
  end.
(** A statement of its own: it may fail, or take effect without an answer. *)
Definition direct {A} (q : stmt A) : DBM A := λ d,
  match statement_fails 0 with
  | Some msg => (d, Err (StoreFailed msg))
  | None =>
      match q (mkDraw (dr_now w) (dr_uuid w 0)) d with
      | Err e => (d, Err e)
      | Ok (d', a) =>
          match commits with
          | Committed => (d', Ok a)
          | CommitFailed msg => (d, Err (StoreFailed msg))
          | CommitLost msg => (d', Err (StoreFailed msg))
          end
      end
  end.

(** ** db/store.go *)

Definition store_CreateSiteWithOwner (arg : CreateSiteParams) : DBM DbSite := WithTx (
  let! created := wrap "create site: " (in_tx (CreateSite arg)) in
  wrap "add owner membership: " (in_tx (AddOwnerMembership (st_ID created) (st_OwnerID created))) ;!
  ok created).
Definition store_RenameHandleWithRedirect (id : uuid) (oldHandle newHandle : string) : DBM unit := WithTx (
  wrap "clear rename-back redirect: " (in_tx (DeleteRedirect newHandle id)) ;!
  wrap "insert redirect: " (in_tx (InsertRedirect oldHandle id)) ;!
  wrap "rename handle: " (in_tx (RenameHandle newHandle id))).

(** ** storeUpserter (auth/handlers.go) *)

Definition store_UpsertLogin (in_ : UpsertLoginInput) : DBM User := WithTx (
  let! u := wrap "upsert user: " (in_tx (UpsertUser (ul_Email in_) (ul_DisplayName in_) (ul_AvatarURL in_))) in
  wrap "upsert identity: " (in_tx (UpsertIdentity (us_ID u) (ul_Provider in_) (ul_Subject in_) (Some (ul_Email in_)))) ;!
  ok u).

(** ** site/storeadapter.go *)

Definition siteRecordFromGen (s : DbSite) : SiteRecord := {|
  rec_ID := st_ID s; rec_Handle := st_Handle s; rec_OwnerID := st_OwnerID s; rec_Visibility := st_Visibility s;
  rec_DefaultBranch := st_DefaultBranch s; rec_PublishedSHA := st_PublishedCommitSha s; rec_PublishedAt := st_PublishedAt s;
  rec_PublishMode := st_PublishMode s; rec_GitHubRepo := st_GithubRepo s; rec_WebRoot := st_WebRoot s;
  rec_Description := st_Description s; rec_CacheVersion := st_CacheVersion s; rec_DeletedAt := st_DeletedAt s;
  rec_CreatedAt := st_CreatedAt s; rec_UpdatedAt := st_UpdatedAt s |}.
(** The conversion of ListSitesForUser leaves CacheVersion and DeletedAt out. *)
Definition listed_record (s : DbSite) : SiteRecord := {|
  rec_ID := st_ID s; rec_Handle := st_Handle s; rec_OwnerID := st_OwnerID s; rec_Visibility := st_Visibility s;
  rec_DefaultBranch := st_DefaultBranch s; rec_PublishedSHA := st_PublishedCommitSha s; rec_PublishedAt := st_PublishedAt s;
  rec_PublishMode := st_PublishMode s; rec_GitHubRepo := st_GithubRepo s; rec_WebRoot := st_WebRoot s;
  rec_Description := st_Description s; rec_CacheVersion := 0; rec_DeletedAt := None;
  rec_CreatedAt := st_CreatedAt s; rec_UpdatedAt := st_UpdatedAt s |}.
(** A row that is missing is found = false. *)
Definition found (m : DBM DbSite) : DBM (option SiteRecord) := λ d,
  let '(d, r) := m d in
  (d, match r with
      | Ok s => Ok (Some (siteRecordFromGen s))
      | Err e => if IsNotFound e then Ok None else Err e
      end).
Definition i32 (z : Z) : Z := ((z + 2 ^ 31) mod 2 ^ 32 - 2 ^ 31)%Z.

Definition ad_CreateSiteWithOwner (in_ : GitWorld.StoreCreateSite) : DBM SiteRecord :=
  let! row := store_CreateSiteWithOwner (mkCreateSite (GitWorld.sc_Handle in_) (GitWorld.sc_OwnerID in_) (GitWorld.sc_Visibility in_)
                BranchDraft (GitWorld.sc_PublishMode in_) (GitWorld.sc_GitHubRepo in_) (GitWorld.sc_WebRoot in_)
                (GitWorld.sc_Description in_)) in
  ok (siteRecordFromGen row).
Definition ad_GetSiteByID (id : uuid) : DBM (option SiteRecord) := found (direct (GetSiteByID id)).
Definition ad_GetSiteByHandle (handle : string) : DBM (option SiteRecord) := found (direct (GetSiteByHandle handle)).
Definition ad_GetSiteByRedirect (oldHandle : string) : DBM (option SiteRecord) := found (direct (GetSiteByRedirect oldHandle)).
Definition ad_ListSitesForUser (userID : uuid) (limit offset : Z) : DBM (list SiteRecord) :=
  let! rows := direct (ListSitesForUser userID (i32 offset) (i32 limit)) in
  ok ((λ x, listed_record x.1) <$> rows).
Definition ad_HandleIsTaken (handle : string) : DBM bool := direct (HandleIsTaken handle).
Definition ad_SoftDeleteSite (id : uuid) : DBM unit := direct (SoftDeleteSite id).
Definition ad_SetPublished (id : uuid) (sha : option string) : DBM unit := direct (SetPublished sha id).
Definition ad_SetSiteRemote (id : uuid) (repo : option string) : DBM unit := direct (SetSiteRemote repo id).

(** ** redirectingResolver (app/adapters.go) *)

Definition ResolveRedirect (oldHandle : string) : DBM (option string) := λ d,
  let '(d, r) := direct (GetSiteByRedirect oldHandle) d in
  (d, match r with
      | Ok rec => Ok (Some (st_Handle rec))
      | Err e => if IsNotFound e then Ok None else Err e
      end).

(** ** The store of the control plane *)

Context `{AEAD} (box : option Box) (nonce : option bytes).
(** The text of a metadata object; which setting cannot be read *)
Context (marshal : list (string * json) → bytes) (read_fails : string → option string).

Definition user_row (u : User) : UserRow :=
  mkUserRow (us_ID u) (us_Email u) (us_DisplayName u) (us_AvatarUrl u) (us_IsAdmin u) (us_CanCreateSites u).
Definition session_row (x : DbSession * User) : SessionRow :=
  mkSessionRow (se_ID x.1) (se_UserID x.1) (Some (se_LastSeenAt x.1)) (us_Email x.2) (us_DisplayName x.2) (us_AvatarUrl x.2)
    (us_IsAdmin x.2) (us_CanCreateSites x.2).
Definition member_row (x : SiteMember * User) : MemberRow :=
  mkMemberRow (sm_UserID x.1) (us_Email x.2) (us_DisplayName x.2) (sm_Role x.1) (Some (sm_CreatedAt x.1)).
Definition token_row (t : UserToken) : TokenRow :=
  mkTokenRow (to_ID t) (to_Name t) (to_TokenPrefix t) (to_Scopes t) (to_CanCreateSites t) (to_CreatedAt t) (to_LastUsedAt t)
    (to_ExpiresAt t) (to_RevokedAt t).
Definition mapped {A B} (f : A → B) (m : DBM A) : DBM B := let! a := m in ok (f a).
Definition on_settings {A} (m : M (gmap string string) store_err A) : DBM A := λ d,
  let '(t, r) := m (instance_settings d) in (with_settings d t, r).
Definition read_setting (d : DB) (key : string) : Res store_err string :=
  match read_fails key with Some msg => Err (StoreFailed msg) | None => from_table (instance_settings d) key end.
(** A query of its own *)
Definition ask_db {A} (q : Query A) : DBM A := direct (exec q).

Definition meta {A} (c : Store A) : DBM A :=
  match c in Store A return DBM A with
  | QGetSession id => mapped session_row (ask_db (GetSession_ id))
  | QTouchSession id => ask_db (TouchSession_ id)
  | QCreateSession s => mapped (λ _, tt) (ask_db (CreateSession_ s))
  | QDeleteSession id => ask_db (DeleteSession_ id)
  | QGetRole site user => ask_db (GetRole_ site user)
  | QListMembers site => mapped (fmap member_row) (ask_db (ListMembers_ site))
  | QGetMember site user => mapped (λ _, tt) (ask_db (GetMember_ site user))
  | QAddMember site user role createdBy => ask_db (AddMember_ site user role createdBy)
  | QUpdateMemberRole site user role => ask_db (UpdateMemberRole_ role site user)
  | QRemoveMember site user => ask_db (RemoveMember_ site user)
  | QCreateUserToken t => mapped token_row (ask_db (CreateUserToken_ t))
  | QListUserTokens user => mapped (fmap token_row) (ask_db (ListUserTokens_ user))
  | QRevokeUserToken id user => ask_db (RevokeUserToken_ id user)
  | QUpdateSiteSettings s => ask_db (UpdateSiteSettings_ s)
  | QBumpCacheVersion site => ask_db (BumpCacheVersion_ site)
  | QGetUserByEmail email => mapped user_row (ask_db (GetUserByEmail_ email))
  | QGetUserByID id => mapped user_row (ask_db (GetUserByID_ id))
  | QSetUserAdminFlags isAdmin canCreateSites id => ask_db (SetUserAdminFlags_ isAdmin canCreateSites id)
  | QGetGitHubConfig => λ d, (d, GetGitHubConfig (read_setting d) box)
  | QSetGitHubConfig in_ => on_settings (SetGitHubConfig box nonce in_)
  | QInsertAudit a => ask_db (InsertAudit_ (mkInsertAudit (ad_ActorUserID a) (ad_SiteID a) (ad_TokenID a) (ad_Action a)
                        (ad_Source a) (ad_CommitSha a) (marshal (ad_Metadata a))))
  | QListAuditForSite site before limit => ask_db (ListAuditForSite_ site before limit)
  | QGetSiteByGitHubRepo repo => mapped siteRecordFromGen (ask_db (GetSiteByGitHubRepo_ repo))
  end.
End store.

(** ** What the metadata store promises *)

(** *** Transactions of queries *)

Section tx.
Context `{Postgres} `{Faults} (w : Draws).
Abbreviation TX A := (M (Tx DB) store_err A) (only parsing).

Lemma tx_cases {A} (m : TX A) t t' r : WithTx m t = (t', r) →
  (∃ s a, m (mkTx t 0) = (s, Ok a) ∧ t' = tx_tables s ∧ (r = Ok a ∨ (∃ e, r = Err e) ∧ ∃ msg, commits = CommitLost msg)) ∨
  ((∃ e, r = Err e) ∧ t' = t).
Proof.
  unfold WithTx. destruct begin_fails; [intros [= <- <-]; eauto|].
  destruct (m (mkTx t 0)) as [s [a|e]] eqn:E; [|intros [= <- <-]; eauto].
  destruct commits eqn:Hc; intros [= <- <-]; [left|right|left]; eauto 10.
Qed.
Lemma wrap_inv {S A} p (m : M S store_err A) s s' a : wrap p m s = (s', Ok a) → m s = (s', Ok a).
Proof. unfold wrap. by destruct (m s) as [s1 [b|e]]. Qed.
Lemma in_tx_inv {A} (q : stmt A) s s' a : in_tx w q s = (s', Ok a) →
  q (mkDraw (dr_now w) (dr_uuid w (tx_count s))) (tx_tables s) = Ok (tx_tables s', a) ∧ tx_count s' = S (tx_count s).
Proof.
  unfold in_tx. destruct (statement_fails _); [done|]. destruct (q _ _) as [[d b]|e] eqn:E; [|done]. by intros [= <- <-].
Qed.
Lemma direct_cases {A} (q : stmt A) d d' r : direct w q d = (d', r) →
  (∃ a, q (mkDraw (dr_now w) (dr_uuid w 0)) d = Ok (d', a) ∧ (r = Ok a ∨ ∃ e, r = Err e)) ∨ ((∃ e, r = Err e) ∧ d' = d).
Proof.
  unfold direct. destruct (statement_fails 0); [intros [= <- <-]; eauto|].
  destruct (q _ d) as [[d1 a]|e] eqn:E; [|intros [= <- <-]; eauto].
  destruct commits; intros [= <- <-]; eauto 10.
Qed.

(** A transaction all of whose statements keep the integrity *)
Definition tx_keeps {A} (m : TX A) : Prop := ∀ s s' a, db_ok (tx_tables s) → m s = (s', Ok a) → db_ok (tx_tables s').
Lemma tx_keeps_query {A} p (q : stmt A) : keeps q → tx_keeps (wrap p (in_tx w q)).
Proof. intros Hq s s' a Hs Hr%wrap_inv%in_tx_inv. destruct Hr as [Hr _]. by eapply Hq. Qed.
Lemma tx_keeps_bind {A B} (m : TX A) (k : A → TX B) : tx_keeps m → (∀ a, tx_keeps (k a)) → tx_keeps (bindM m k).
Proof. intros Hm Hk s s' b Hs Hr. run_inv Hr. eapply Hk; [|done]. by eapply Hm. Qed.
Lemma tx_keeps_ok {A} (a : A) : tx_keeps (ok a).
Proof. by intros s s' b Hs [= <- <-]. Qed.
Lemma WithTx_keeps {A} (m : TX A) d d' r : tx_keeps m → db_ok d → WithTx m d = (d', r) → db_ok d'.
Proof. intros Hm Hd [(s & a & Hr & -> & _)|[_ ->]]%tx_cases; [|done]. by eapply (Hm (mkTx d 0)). Qed.
Lemma direct_keeps {A} (q : stmt A) d d' r : keeps q → db_ok d → direct w q d = (d', r) → db_ok d'.
Proof. intros Hq Hd [(a & Hr & _)|[_ ->]]%direct_cases; [|done]. by eapply Hq. Qed.

Lemma CreateSiteWithOwner_keeps arg d d' r : db_ok d → store_CreateSiteWithOwner w arg d = (d', r) → db_ok d'.
Proof.
  apply WithTx_keeps. apply tx_keeps_bind; [apply tx_keeps_query, keeps_CreateSite|]. intros s.
  apply tx_keeps_bind; [apply tx_keeps_query, keeps_AddMember|]. intros _. apply tx_keeps_ok.
Qed.
Lemma RenameHandleWithRedirect_keeps id o n d d' r : db_ok d → store_RenameHandleWithRedirect w id o n d = (d', r) → db_ok d'.
Proof.
  apply WithTx_keeps. apply tx_keeps_bind; [apply tx_keeps_query, keeps_DeleteRedirect|]. intros _.
  apply tx_keeps_bind; [apply tx_keeps_query, keeps_InsertRedirect|]. intros _. by apply tx_keeps_query, keeps_update_site.
Qed.
Lemma UpsertLogin_keeps in_ d d' r : db_ok d → store_UpsertLogin w in_ d = (d', r) → db_ok d'.
Proof.
  apply WithTx_keeps. apply tx_keeps_bind; [apply tx_keeps_query, keeps_UpsertUser|]. intros u.
  apply tx_keeps_bind; [apply tx_keeps_query, keeps_UpsertIdentity|]. intros _. apply tx_keeps_ok.
Qed.
End tx.

(** *** Histories *)

(** What the program asks of the database: a query, one of the flows that take
    several, or a request of the control plane *)
Inductive db_op : Type :=
| OpQuery {A} (q : Query A)
| OpCreateSite (arg : CreateSiteParams)
| OpRename (id : uuid) (oldHandle newHandle : string)
| OpLogin (in_ : UpsertLoginInput)
| OpMeta {A} (c : Store A).

Section histories.
Context `{Postgres} `{AEAD}.
(** The circumstances of an operation: faults and draws, the key box and a nonce *)
Record circumstances := mkCirc {
  ci_faults : Faults; ci_draws : Draws; ci_box : option Box; ci_nonce : option bytes;
  ci_marshal : list (string * json) → bytes; ci_read_fails : string → option string;
}.
Definition run_op (x : circumstances) (o : db_op) (d : DB) : DB :=
  let F := ci_faults x in
  match o with
  | OpQuery q => (direct (ci_draws x) (exec q) d).1
  | OpCreateSite arg => (store_CreateSiteWithOwner (ci_draws x) arg d).1
  | OpRename id o n => (store_RenameHandleWithRedirect (ci_draws x) id o n d).1
  | OpLogin in_ => (store_UpsertLogin (ci_draws x) in_ d).1
  | OpMeta c => (meta (ci_draws x) (ci_box x) (ci_nonce x) (ci_marshal x) (ci_read_fails x) c d).1
  end.
(** The tables after the migrations: the reserved handles, nothing else *)
Definition migrated (now : time) : DB :=
  mkDB ∅ ∅ ∅ ∅ ∅ ∅ ∅ (list_to_map ((λ h, (fold h, mkReserved h "" now)) <$> ReservedHandles)) [] ∅.
Definition history (now : time) (l : list (circumstances * db_op)) : DB := foldl (λ d x, run_op x.1 x.2 d) (migrated now) l.
Lemma mapped_fst {A B} (f : A → B) (m : M DB store_err A) d : (mapped f m d).1 = (m d).1.
Proof. unfold mapped, bindM. by destruct (m d) as [d1 [a|e]]. Qed.
Lemma ask_db_keeps `{Faults} w {A} (q : Query A) d : db_ok d → db_ok (ask_db w q d).1.
Proof. intros Hd. destruct (ask_db w q d) as [d' r] eqn:E. by eapply direct_keeps; [apply exec_keeps|..]. Qed.
Lemma meta_keeps `{Faults} w box nonce marshal rf {A} (c : Store A) d :
  db_ok d → db_ok (meta w box nonce marshal rf c d).1.
Proof.
  intros Hd. destruct c; cbn [meta]; rewrite ?mapped_fst; auto using ask_db_keeps.
  unfold on_settings. destruct (SetGitHubConfig box nonce in_ (instance_settings d)). by apply ok_with_settings.
Qed.
Lemma run_op_keeps x o d : db_ok d → db_ok (run_op x o d).
Proof.
  intros Hd. destruct o; cbn [run_op].
  - by apply ask_db_keeps.
  - destruct (store_CreateSiteWithOwner _ _ _) as [d' r] eqn:E. by eapply CreateSiteWithOwner_keeps.
  - destruct (store_RenameHandleWithRedirect _ _ _ _ _) as [d' r] eqn:E. by eapply RenameHandleWithRedirect_keeps.
  - destruct (store_UpsertLogin _ _ _) as [d' r] eqn:E. by eapply UpsertLogin_keeps.
  - by apply meta_keeps.
Qed.
Lemma migrated_ok now : db_ok (migrated now).
Proof.
  split; try apply map_Forall_empty; try (by intros ?????????); [|apply Forall_nil_2].
  intros k r Hr%elem_of_list_to_map_2. apply list_elem_of_fmap in Hr as (h & [= -> ->] & _). done.
Qed.

(** C13 (invariant): the database keeps its integrity.  After the migrations and any
    history of queries, of the flows that take several and of requests of the
    control plane, whatever fails in between: every row has the key it is filed
    under; e-mails, handles, mirror repositories and token hashes are unique; every
    site has an existing owner, and no session, identity, membership, token,
    redirect or audit entry points at a row that is gone; handles, commit ids,
    roles, modes and scopes are well-formed. *)
Theorem integrity_kept (now : time) (l : list (circumstances * db_op)) : db_ok (history now l).
Proof.
  induction l as [|[x o] l IH] using rev_ind; [apply migrated_ok|].
  unfold history. rewrite foldl_app. by apply run_op_keeps.
Qed.
End histories.

(** *** A sample database *)

(** citext over ASCII, tables scanned in the order of their keys *)
#[export] Program Instance ascii_postgres : Postgres := {| fold := str_map lower_char; scan A l := l |}.
Next Obligation.
  intros s. induction s as [|c s IH]; [done|]. cbn [str_map]. rewrite IH. f_equal. destruct c as [[] [] [] [] [] [] [] []]; reflexivity.
Qed.
Next Obligation.
  intros s. induction s as [|c s IH]; [done|]. cbn [str_forall str_map]. intros [Hc Hs]%andb_true_iff. rewrite (IH Hs). f_equal.
  destruct c as [[] [] [] [] [] [] [] []]; first [reflexivity|discriminate Hc].
Qed.
Next Obligation. done. Qed.
#[export] Instance calm_faults : Faults :=
  {| begin_fails := None; statement_fails := λ _, None; commits := Committed; rollback_fails := None |}.
(** Nothing fails; the n-th identifier drawn is [first + n]. *)
Definition calm_at (now : time) (first : N) : circumstances :=
  mkCirc calm_faults (mkDraws now (λ n, (first + N.of_nat n)%N)) None None (λ _, "{}") (λ _, None).
(** Ann and Bob have signed in; Ann owns the site 7, Bob is a viewer. *)
Definition sample_history `{AEAD} : list (circumstances * db_op) := [
  (calm_at 10%Z 1%N, OpLogin (mkUpsert "oidc" "sub-ann" "Ann@example.com" "Ann" None));
  (calm_at 20%Z 2%N, OpLogin (mkUpsert "oidc" "sub-bob" "bob@example.com" "Bob" None));
  (calm_at 30%Z 7%N, OpCreateSite (mkCreateSite "notes" 1%N "private" "draft" "request" None "" ""));
  (calm_at 40%Z 9%N, OpMeta (QAddMember 7%N 2%N SiteRoleViewer (Some 1%N)));
  (calm_at 50%Z 9%N, OpMeta (QCreateSession (mkNewSession "s1" 1%N 1000%Z "" None)))].
Definition sample_db `{AEAD} : DB := history 0%Z sample_history.
Lemma sample_db_ok `{AEAD} : db_ok sample_db.
Proof. unfold sample_db, history, sample_history. cbn [foldl fst snd]. do 5 apply run_op_keeps. apply migrated_ok. Qed.
