(* ===== verification/MetaApi.v ===== *)
(** * The REST API over the metadata database

    The table of members behind the control plane is the one Membership reasons
    about, so that what it proves of any truthful store holds of the database. *)

From S2P Require Import Prelude Trace GoStrings Encoding SiteErrors Handle Zip SiteTypes Http Preview Access Wire ApiWorld Session.
From S2P Require Import Rest RestAccounts Routes RestSafety RestFacts Membership.
From S2P Require Import SecretBox Settings MetaDb MetaDbFacts OidcCfg Providers MetaStore.

(** ** The table of members *)

Definition role_table (d : DB) : gmap (uuid * uuid) string := sm_Role <$> members d.

Section membership.
Context `{Postgres} `{Faults} (w : Draws).

(** [m] does to the members what [f] does to their roles, or fails. *)
Definition acts {A : Type} (f : gmap (uuid * uuid) string → gmap (uuid * uuid) string) (m : M DB store_err A) : Prop :=
  ∀ d d' r, m d = (d', r) → (is_ok r = true → role_table d' = f (role_table d)) ∧
                            (role_table d' = role_table d ∨ role_table d' = f (role_table d)).
Lemma acts_ask {A : Type} f (q : Query A) :
  (∀ x d d' a, exec q x d = Ok (d', a) → role_table d' = f (role_table d)) → acts f (ask_db w q).
Proof.
  intros Hq d d' r [(a & Hr & Hres)|[[e ->] ->]]%direct_cases; [|split; [done|by left]].
  apply Hq in Hr. split; [done|by right].
Qed.
Lemma acts_same {A} (q : Query A) : (∀ x d d' a, exec q x d = Ok (d', a) → members d' = members d) → acts id (ask_db w q).
Proof. intros Hq. apply acts_ask. intros x d d' a Hr. unfold role_table. by rewrite (Hq _ _ _ _ Hr). Qed.
Lemma acts_mapped {A B} f (g : A → B) m : acts f m → acts f (mapped g m).
Proof.
  intros Hm d d' r. unfold mapped, bindM. destruct (m d) as [d1 [a|e]] eqn:E; intros [= <- <-];
    destruct (Hm _ _ _ E) as [H1 H2]; split; auto.
Qed.
Lemma update_site_members id f x d d' a : update_site id f x d = Ok (d', a) → members d' = members d.
Proof. unfold update_site. destruct (sites d !! id); intros Hq; cbv zeta in Hq; take_bind Hq; by simplify_eq. Qed.
Lemma one_same {A} (f : DB → list A) x d d' a : one f x d = Ok (d', a) → d' = d.
Proof. unfold one. destruct (f d); [done|]. by intros [= <- _]. Qed.

Ltac same := intros x d d' y Hq; cbn [exec] in Hq;
  unfold GetSession, GetRole, GetMember, GetUserByID, GetUserByEmail, GetSiteByGitHubRepo, ListMembers, ListUserTokens, many, TouchSession,
    CreateSession, DeleteSession, CreateUserToken, RevokeUserToken, SetUserAdminFlags, update_user, InsertAudit,
    ListAuditForSite, audit_page, references in Hq; cbv zeta in Hq;
  first [by apply one_same in Hq; subst|by eapply update_site_members|take_bind Hq; by simplify_eq].
Lemma bump_members id x d d' a : BumpCacheVersion id x d = Ok (d', a) → members d' = members d.
Proof.
  unfold BumpCacheVersion. destruct (sites d !! id) as [s|]; [|done]. destruct (live s); [|done]. cbv zeta. intros Hq.
  take_bind Hq. simplify_eq. destruct a1 as [d1 []]. by eapply update_site_members.
Qed.
Lemma meta_acts `{AEAD} box nonce marshal rf {A} (c : Store A) : acts (effect c) (meta w box nonce marshal rf c).
Proof.
  destruct c; cbn [meta effect]; try apply acts_mapped.
  all: try solve [apply acts_same; same]; try solve [apply acts_same, bump_members].
  - apply acts_ask. intros x d d' a Hq. cbn [exec] in Hq. unfold AddMember, references in Hq. take_bind Hq. unfold role_table.
    destruct (members d !! (site, user)); take_bind Hq; simplify_eq; cbn [members with_members]; by rewrite fmap_insert.
  - apply acts_ask. intros x d d' a Hq. cbn [exec] in Hq. unfold UpdateMemberRole in Hq. take_bind Hq. simplify_eq.
    unfold role_table. cbn [members with_members effect].
    apply map_eq. intros k. rewrite !lookup_fmap. destruct (decide (k = (site, user))) as [->|];
      rewrite ?lookup_alter_eq, ?lookup_alter_ne, ?lookup_fmap by done; [|done]. by destruct (members d !! (site, user)).
  - apply acts_ask. intros x d d' a Hq. cbn [exec] in Hq. unfold RemoveMember in Hq. simplify_eq. unfold role_table.
    cbn [members with_members]. by rewrite fmap_delete.
  - intros d d' r [= <- <-]. auto.
  - intros d d' r. unfold on_settings. destruct (SetGitHubConfig box nonce in_ (instance_settings d)). intros [= <- <-]. auto.
Qed.
End membership.

(** *** A listing is the members *)

Section listing.
Context `{Postgres}.

Lemma merge_sort_perm {A} (R : A → A → Prop) `{∀ x y, Decision (R x y)} l : merge_sort R l ≡ₚ l.
Proof. apply merge_sort_Permutation. Qed.
(** Joined to at most one row each, rows keep their distinct keys. *)
Lemma nodup_join {A B C} (h : A → C) (f : B → C) (g : A → list B) l :
  (∀ a, g a = [] ∨ ∃ b, g a = [b] ∧ f b = h a) → NoDup (h <$> l) → NoDup (f <$> (l ≫= g)).
Proof.
  intros Hg Hl. assert (∀ l c, c ∈ f <$> (l ≫= g) → c ∈ h <$> l) as Hsub.
  { clear l Hl. intros l c (b & -> & (a & Hb & Ha)%list_elem_of_bind)%list_elem_of_fmap.
    destruct (Hg a) as [Hn|(b' & Heq & Hf)]; [rewrite Hn in Hb; by apply not_elem_of_nil in Hb|].
    rewrite Heq in Hb. apply list_elem_of_singleton in Hb as ->. rewrite Hf. by apply list_elem_of_fmap_2. }
  induction l as [|a l IH]; [constructor|]. apply NoDup_cons in Hl as [Ha Hl].
  change ((a :: l) ≫= g) with (g a ++ (l ≫= g)). rewrite fmap_app.
  destruct (Hg a) as [->|(b & -> & Hf)]; [by apply IH|]. apply NoDup_cons. split; [|by apply IH]. rewrite Hf. intros Hin.
  by apply Ha, Hsub.
Qed.
Lemma rows_keys {K} `{Countable K} {V} (key : V → K) (m : gmap K V) : map_Forall (λ k v, k = key v) m → NoDup (key <$> rows m).
Proof.
  intros Hk. unfold rows. rewrite scan_perm, <-list_fmap_compose. rewrite (list_fmap_ext _ fst).
  - apply NoDup_fst_map_to_list.
  - intros i [k v] Hkv. cbn. symmetry. apply Hk. by apply elem_of_map_to_list, list_elem_of_lookup_2 with i.
Qed.
Lemma filter_nodup {A B} (f : A → B) p l : NoDup (f <$> l) → NoDup (f <$> List.filter p l).
Proof.
  induction l as [|a l IH]; [done|]. cbn [fmap list_fmap List.filter]. intros [Ha Hl]%NoDup_cons.
  destruct (p a); [|by apply IH]. cbn. constructor; [|by apply IH].
  intros (b & Hab & [Hb _]%filter_elem)%list_elem_of_fmap. apply Ha. rewrite Hab. by apply list_elem_of_fmap_2.
Qed.
Lemma members_listed d s : db_ok d →
  lists (role_table d) s (member_row <$> newest (λ x, sm_CreatedAt x.1)
    (m ← List.filter (λ m, (sm_SiteID m =? s)%N) (rows (members d)); u ← option_list (users d !! sm_UserID m); [(m, u)])).
Proof.
  intros Hd. set (l := List.filter _ _). split.
  - rewrite <-list_fmap_compose. unfold newest. rewrite merge_sort_perm.
    apply (nodup_join sm_UserID (mb_UserID ∘ member_row)).
    + intros m. destruct (users d !! sm_UserID m) as [u|]; [right; by exists (m, u)|by left].
    + assert (NoDup ((λ m, (sm_SiteID m, sm_UserID m)) <$> l)) as Hnd.
      { apply filter_nodup, rows_keys. eapply map_Forall_impl; [apply (ok_members d Hd)|]. by intros k m (? & _). }
      apply (NoDup_fmap_1 (λ u, (s, u))). rewrite <-list_fmap_compose. erewrite list_fmap_ext; [exact Hnd|].
      intros i m Hm%list_elem_of_lookup_2. apply filter_elem in Hm as [_ Hs%N.eqb_eq]. cbn. by rewrite Hs.
  - intros u role. unfold role_table. rewrite lookup_fmap, fmap_Some. split.
    + intros (m & Hm & ->). destruct (ok_members d Hd _ _ Hm) as ([= Hs Hu] & _ & [us Hus] & _).
      exists (member_row (m, us)). split; [|done]. apply list_elem_of_fmap_2. unfold newest. rewrite merge_sort_perm.
      apply list_elem_of_bind. exists m. rewrite Hus. split; [by left|]. apply filter_elem. split.
      * apply rows_elem. by exists (s, u).
      * by apply N.eqb_eq.
    + intros (row & ([m us] & -> & Hin)%list_elem_of_fmap & <- & <-). unfold newest in Hin. rewrite merge_sort_perm in Hin.
      apply list_elem_of_bind in Hin as (m' & Hin & [Hm Hs%N.eqb_eq]%filter_elem).
      destruct (users d !! sm_UserID m'); cbn in Hin; [|by apply not_elem_of_nil in Hin].
      apply list_elem_of_singleton in Hin as [= -> ->]. apply rows_elem in Hm as [k Hm].
      destruct (ok_members d Hd _ _ Hm) as (-> & _). exists m'. by rewrite Hs in Hm.
Qed.
End listing.

(** ** The API in the world of the database *)

Section answered.
Context `{GoUnicode} `{Crypto} `{UUIDText} `{UUIDParse} `{GoText} `{World}.

(** The answer of an event is the one its world gives. *)
Definition answered (t : trace) (e : event) : Prop :=
  match e with EvSvc c r => r = w_svc _ t c | EvStore c r => r = w_store _ t c end.
Abbreviation answers_ m := (@Trace.job event reply (λ _, True) answered _ (λ _, True) m anything).

Lemma store_answered {A} (c : Store A) : answers_ (store c).
Proof. intros tr Ht HP. split; [by apply calmly_snoc|done]. Qed.
Lemma svc_answered {A} (c : Svc A) : answers_ (svc c).
Proof. intros tr Ht HP. split; [by apply calmly_snoc|done]. Qed.
Lemma must_store_answered {A} (c : Store A) : answers_ (must_store c).
Proof. apply job_seq; [done|apply store_answered|intros [a|e]]; [by apply job_ok|apply job_fail]. Qed.
Lemma must_svc_answered {A} (c : Svc A) : answers_ (must_svc c).
Proof. apply job_seq; [done|apply svc_answered|intros [a|e]]; [by apply job_ok|apply job_fail]. Qed.
Ltac answers := cbv beta zeta; first [by apply job_ok|apply job_fail|apply must_store_answered|apply must_svc_answered
  |apply store_answered|apply svc_answered
  |by eapply job_any, job_guard|by eapply job_any, job_lift|by apply job_peek|case_match; answers
  |apply job_seq; [done|answers|intros ?; answers]].
Lemma resolveAccess_answered user h cap : answers_ (resolveAccess user h cap).
Proof. unfold resolveAccess, roleRow, verdict, must_svc, must_store. answers. Qed.
Lemma SessionAuth_answered cfg r : answers_ (SessionAuth cfg r).
Proof. unfold SessionAuth, Get, now. answers. Qed.
Lemma summaries_answered u l : answers_ (summaries u l).
Proof.
  induction l as [|st l IH]; simpl; [by apply job_ok|].
  apply job_seq; [done|unfold effectiveRole, roleRow; answers|intros role].
  apply job_seq; [done|exact IH|intros rest]. by apply job_ok.
Qed.
Lemma site_audit_answered ac a sha meta : answers_ (site_audit ac a sha meta).
Proof. unfold site_audit, audit. answers. Qed.
Context (BaseDomain : trace → Request → string) (cfg : ApiConfig).
Ltac step := first [apply resolveAccess_answered|apply site_audit_answered|answers].
Lemma handle_answered r user e : answers_ (handle BaseDomain cfg r user e).
Proof.
  destruct e; cbn [handle].
  all: try (apply job_seq; [done|apply resolveAccess_answered|intros ac]).
  all: try (unfold signedIn; solve [answers]).
  - unfold listSites, signedIn, must_svc. apply job_seq; [done|answers|intros u].
    apply job_seq; [done|answers|intros sites]. apply job_seq; [done|apply summaries_answered|intros out]. answers.
  - unfold admin, adminSetUserFlags, admin_audit, signedIn, audit, must_store, decode. answers.
  - unfold admin, adminPutGitHub, admin_audit, signedIn, audit, must_store, decode. answers.
Qed.
Lemma serve_answered r e : careful answered (serve BaseDomain cfg r e []).1.
Proof.
  assert (answers_ (serve BaseDomain cfg r e)) as Hs.
  { apply job_seq; [done|apply SessionAuth_answered|intros user]. apply job_seq; [done|by eapply job_any, job_lift|intros _].
    apply handle_answered. }
  by destruct (Hs [] (careful_nil _) I) as [(Hc & _) _].
Qed.
End answered.

Section world.
Context `{Postgres} `{AEAD} (base : World) (env : trace → circumstances) (d0 : DB).

(** The tables after a trace; what the site service does to them is left out. *)
Definition db_effect (pre : trace) (e : event) (d : DB) : DB :=
  match e with EvStore c _ => run_op (env pre) (OpMeta c) d | EvSvc _ _ => d end.
Definition db_after (tr : trace) : DB := replay db_effect [] tr d0.
Definition meta_at {A} (tr : trace) (c : Store A) (d : DB) : DB * Res store_err A :=
  let x := env tr in let F := ci_faults x in
  meta (ci_draws x) (ci_box x) (ci_nonce x) (ci_marshal x) (ci_read_fails x) c d.
(** The store is the database; the service, the clock and the randomness are any. *)
Definition database_world : World := {|
  w_svc := @w_svc base;
  w_store A tr c := (meta_at tr c (db_after tr)).2;
  w_now := @w_now base; w_rand62 := @w_rand62 base; w_entropy := @w_entropy base |}.

Lemma api_db_snoc t e : db_after (t ++ [e]) = db_effect t e (db_after t).
Proof. apply replay_snoc. Qed.
Lemma db_after_ok tr : db_ok d0 → db_ok (db_after tr).
Proof.
  intros Hd. induction tr as [|e tr IH] using rev_ind; [done|]. rewrite api_db_snoc.
  destruct e; [done|]. by apply run_op_keeps.
Qed.
Lemma db_step t e : @answered database_world t e → table_step (role_table (db_after t)) e (role_table (db_after (t ++ [e]))).
Proof.
  rewrite api_db_snoc. destruct e as [A c r|A c r]; [done|]. cbn [answered db_effect run_op]. cbn [w_store database_world].
  fold (meta_at t c (db_after t)). intros ->. destruct (meta_at t c (db_after t)) as [d' r] eqn:E.
  destruct (@meta_acts _ (ci_faults (env t)) _ _ _ _ _ _ _ c _ _ _ E) as [Hok Hor]. cbn [fst snd table_step].
  destruct r as [a|x]; [by apply Hok|done].
Qed.
Lemma evolves_snoc t0 tr t e t' : evolves t0 tr t → table_step t e t' → evolves t0 (tr ++ [e]) t'.
Proof. induction 1; intros Hs; cbn [app]; econstructor; eauto; constructor. Qed.
Lemma db_evolves tr : careful (@answered database_world) tr → evolves (role_table d0) tr (role_table (db_after tr)).
Proof.
  induction tr as [|e tr IH] using rev_ind; intros Hc; [constructor|]. eapply evolves_snoc.
  - apply IH. intros pre e' post ->. apply (Hc pre e' (post ++ [e])). by rewrite <-app_assoc.
  - apply db_step, (Hc tr e []). done.
Qed.

Lemma mapped_ok {A B} (f : A → B) (m : M DB store_err A) d d' b : mapped f m d = (d', Ok b) → ∃ a, m d = (d', Ok a) ∧ b = f a.
Proof. unfold mapped. intros Hr. run_inv Hr. exists a. by injection Hk as <- <-. Qed.
Lemma listing_truthful t s rows :
  db_ok d0 → (meta_at t (QListMembers s) (db_after t)).2 = Ok rows → lists (role_table (db_after t)) s rows.
Proof.
  intros Hd. unfold meta_at. cbn [meta]. destruct (mapped _ _ _) as [d' [r|e]] eqn:E; [|done]. intros [= ->].
  apply mapped_ok in E as (l & E & ->). apply direct_cases in E as [(a & Hq & [[= <-]|[e [=]]])|[[e [=]] _]].
  cbn [exec] in Hq. unfold ListMembers, many in Hq. injection Hq as <- <-. apply members_listed. by apply db_after_ok.
Qed.
Lemma db_truthful tr :
  db_ok d0 → careful (@answered database_world) tr → (∀ s e, EvStore (QListMembers s) (Err e) ∉ tr) → truthful (role_table d0) tr.
Proof.
  intros Hd Hc Hno. split; [|done]. intros pre s rows post -> Hq.
  assert (careful (@answered database_world) pre) as Hpre.
  { intros p e q ->. apply (Hc p e (q ++ EvStore (QListMembers s) (Ok rows) :: post)). by rewrite <-app_assoc. }
  rewrite <-(evolves_quiet _ _ _ Hq (db_evolves pre Hpre)). apply listing_truthful; [done|].
  symmetry. exact (Hc pre _ post eq_refl).
Qed.
End world.

(** ** What holds of the database *)

Section claims.
Context `{GoUnicode} `{Crypto} `{UUIDText} `{UUIDParse} `{GoText} `{Postgres} `{AEAD}.

(** C14 (refinement): behind the control plane, the database is the table of members
    Membership reasons about.  Whatever fails, a request of the control plane does
    to the roles in the tables what [effect] says of it, or nothing - the latter
    only if it reports a failure; and a listing that succeeds is exactly the
    members of the site, each once, with their roles. *)
Theorem member_table_refined (x : circumstances) (A : Type) (c : Store A) (d : DB) :
  let run {B} (c : Store B) := let F := ci_faults x in meta (ci_draws x) (ci_box x) (ci_nonce x) (ci_marshal x) (ci_read_fails x) c d in
  table_step (role_table d) (EvStore c (run c).2) (role_table (run c).1) ∧
  (db_ok d → ∀ s rows, (run (QListMembers s)).2 = Ok rows → lists (role_table d) s rows).
Proof.
  intros run. split.
  - pose proof (db_step (@table_world ∅) (λ _, x) d [] (EvStore c (run A c).2) eq_refl) as Hs.
    rewrite api_db_snoc in Hs. exact Hs.
  - intros Hd s rows. exact (listing_truthful (λ _, x) d [] s rows Hd).
Qed.

(** C12 (invariant): a site keeps an owner.  Let one REST request run alone
    against the database, whose statements may fail or take effect unheard as
    they like.  Then every site that had an owner still has one afterwards,
    whichever endpoint it is, whoever sends it and wherever it stops: the demotion or
    removal of the only owner is refused.  Two cases are excepted, and in both a
    site can lose its owner: a grant (POST of a member) that gives someone who owns
    the site a lesser role, since that endpoint does not look for the only owner
    (grant_demotes_sole_owner), and a request whose listing of the members fails,
    since the check is then waived.  Nothing is said of requests that run at the
    same time. *)
Theorem owner_kept (base : World) (env : trace → circumstances) (d0 : DB)
    (BaseDomain : trace → Request → string) (cfg : ApiConfig) (r : Request) (e : endpoint) (s : uuid) :
  let tr := (@serve _ _ _ _ _ (database_world base env d0) BaseDomain cfg r e []).1 in
  db_ok d0 → spares_owners (role_table d0) tr → (∀ s' x, EvStore (QListMembers s') (Err x) ∉ tr) →
  owned (role_table d0) s → owned (role_table (db_after env d0 tr)) s.
Proof.
  intros tr Hd He Hno Ho. pose proof (@serve_answered _ _ _ _ _ (database_world base env d0) BaseDomain cfg r e) as Hc.
  eapply (@keeps_owner _ _ _ _ _ (database_world base env d0)); [done|by eapply db_truthful|by eapply db_evolves|done].
Qed.
End claims.

(** ** Samples *)

#[local] Existing Instances ascii_only_unicode toy_crypto hex_uuid_text hex_uuid_parse toy_text clear_cipher.

Definition listing_failed (e : event) : bool :=
  match e with
  | EvStore c r => match c in Store A return Res store_err A → bool with QListMembers _ => λ r, negb (is_ok r) | _ => λ _, false end r
  | EvSvc _ _ => false
  end.
Definition is_grant (e : event) : bool := match e with EvStore (QAddMember _ _ _ _) _ => true | _ => false end.
Definition sample_env : trace → circumstances := λ t, calm_at 100%Z (20 + N.of_nat (length t))%N.
Definition sample_base : World := table_world ∅.
Definition db_run (e : endpoint) : trace * Res reply reply :=
  @serve _ _ _ _ _ (database_world sample_base sample_env sample_db) (λ _ _, "kotoji.example") sample_api
    (sample_request (route e).1) e [].

Lemma member_table_refined_witness :
  let run c := meta (ci_draws (calm_at 100%Z 20%N)) None None (λ _, "{}") (λ _, None) c sample_db in
  is_ok (run (QRemoveMember 7%N 2%N)).2 = true ∧
  table_step (role_table sample_db) (EvStore (QRemoveMember 7%N 2%N) (run (QRemoveMember 7%N 2%N)).2)
    (role_table (run (QRemoveMember 7%N 2%N)).1) ∧
  lists (role_table sample_db) 7%N
    [mkMemberRow 2%N "bob@example.com" "Bob" SiteRoleViewer (Some 40%Z);
     mkMemberRow 1%N "Ann@example.com" "Ann" SiteRoleOwner (Some 30%Z)].
Proof.
  intros run. split; [vm_compute; reflexivity|].
  destruct (member_table_refined (calm_at 100%Z 20%N) _ (QRemoveMember 7%N 2%N) sample_db) as [Hs Hl]. split; [exact Hs|].
  apply (Hl sample_db_ok). vm_compute. reflexivity.
Defined.
Lemma owner_kept_witness :
  owned (role_table (db_after sample_env sample_db (db_run remove_other).1)) 7%N ∧
  role_table (db_after sample_env sample_db (db_run remove_other).1) = {[ (7%N, 1%N) := SiteRoleOwner ]}.
Proof.
  split; [|vm_compute; reflexivity].
  refine (owner_kept sample_base sample_env sample_db (λ _ _, "kotoji.example") sample_api
           (sample_request (route remove_other).1) remove_other 7%N sample_db_ok _ _ _); [| |exists 1%N; vm_compute; reflexivity].
  { intros s u role by_ res Hin. assert (forallb (λ e, negb (is_grant e)) (db_run remove_other).1 = true) as Hf by (vm_compute; reflexivity).
    rewrite forallb_forall in Hf. apply list_elem_of_In, Hf in Hin. done. }
  intros s' x Hin. assert (forallb (λ e, negb (listing_failed e)) (db_run remove_other).1 = true) as Hf by (vm_compute; reflexivity).
  rewrite forallb_forall in Hf. apply list_elem_of_In, Hf in Hin. done.
Defined.
