(* ===== verification/MetaFlows.v ===== *)
(** * The flows of the metadata store

    What creating a site, renaming it and signing in do to the tables. *)

From S2P Require Import Prelude GoStrings Encoding SiteErrors SiteTypes Handle Regexp Http Access Wire ApiWorld SecretBox Settings.
From S2P Require Import GitOps MetaDb MetaDbFacts OidcCfg Providers MetaStore.

Section flows.
Context `{Postgres} `{Faults} (w : Draws).

(** ** Creating a site *)

(** [s] is a new site as [arg] asks for, its owner a member with that role, and
    nothing else is different. *)
Definition created (arg : CreateSiteParams) (d d' : DB) (s : DbSite) : Prop :=
  sites d !! st_ID s = None ∧ is_Some (users d !! cp_OwnerID arg) ∧
  s = mkDbSite (st_ID s) (cp_Handle arg) (cp_OwnerID arg) (cp_Visibility arg) (cp_DefaultBranch arg) None None (cp_PublishMode arg)
        (cp_GithubRepo arg) (cp_WebRoot arg) (cp_Description arg) None (dr_now w) (dr_now w) 0 ∧
  d' = with_members (with_sites d (<[st_ID s := s]> (sites d)))
         (<[(st_ID s, cp_OwnerID arg) := mkMember (st_ID s) (cp_OwnerID arg) SiteRoleOwner (dr_now w) (Some (cp_OwnerID arg))]> (members d)).

Lemma CreateSite_inv arg x d d' s : CreateSite arg x d = Ok (d', s) →
  d' = with_sites d (<[d_uuid x := s]> (sites d)) ∧ sites d !! d_uuid x = None ∧ is_Some (users d !! cp_OwnerID arg) ∧
  s = mkDbSite (d_uuid x) (cp_Handle arg) (cp_OwnerID arg) (cp_Visibility arg) (cp_DefaultBranch arg) None None (cp_PublishMode arg)
        (cp_GithubRepo arg) (cp_WebRoot arg) (cp_Description arg) None (d_now x) (d_now x) 0 ∧ site_unique d s = Ok tt.
Proof.
  unfold CreateSite, references. cbv zeta. intros Hq. take_bind Hq. injection Hq as <- <-.
  apply require_ok in Ha0, Ha2. apply has_not in Ha0. apply has_spec in Ha2. by apply ok_unit in Ha1.
Qed.
Lemma CreateSiteWithOwner_inv arg s s' a :
  db_ok (tx_tables s) →
  (let! created := wrap "create site: " (in_tx w (CreateSite arg)) in
   wrap "add owner membership: " (in_tx w (AddOwnerMembership (st_ID created) (st_OwnerID created))) ;! ok created) s = (s', Ok a) →
  created arg (tx_tables s) (tx_tables s') a.
Proof.
  intros Hd Hr. run_inv Hr. run_inv Hk. injection Hk0 as -> ->.
  apply wrap_inv, in_tx_inv in Hm as [Hm _]. apply wrap_inv, in_tx_inv in Hm0 as [Hm0 _].
  apply CreateSite_inv in Hm as (Ht & Hnone & Hown & Ha & _). cbn [d_uuid d_now] in *.
  assert (st_ID a = dr_uuid w (tx_count s)) as Hid by (by rewrite Ha). assert (st_OwnerID a = cp_OwnerID arg) as Ho by (by rewrite Ha).
  unfold AddOwnerMembership, AddMember, references in Hm0. rewrite Ht, Hid, Ho in Hm0.
  cbn [members sites users with_sites] in Hm0. rewrite <-Hid in *. split_and!; [done..|]. take_bind Hm0.
  destruct (members (tx_tables s) !! (st_ID a, cp_OwnerID arg)) as [m|] eqn:Em.
  - destruct (ok_members _ Hd _ _ Em) as (Hk & Hs & _). injection Hk as Hk _. rewrite <-Hk, Hnone in Hs. by destruct Hs.
  - take_bind Hm0. by injection Hm0 as <- _.
Qed.

(** Every site has the handle under one key, so a new one is not in use. *)
Lemma created_free arg d d' s id s0 :
  db_ok d' → created arg d d' s → sites d !! id = Some s0 → fold (st_Handle s0) ≠ fold (cp_Handle arg).
Proof.
  intros Hd' (Hnone & _ & Hs & ->) Hid Hf. destruct (decide (st_ID s = id)) as [<-|Hne]; [by rewrite Hnone in Hid|].
  apply Hne. eapply (ok_handles _ Hd' _ _ s s0); cbn [sites with_sites with_members]; [apply lookup_insert_eq|by rewrite lookup_insert_ne| |done].
  f_equal. rewrite Hs. done.
Qed.
(** Nothing fails but what the constraints refuse. *)
Definition no_faults : Prop := begin_fails = None ∧ (∀ n, statement_fails n = None) ∧ commits = Committed ∧ rollback_fails = None.
Lemma in_tx_calm {A} (q : stmt A) t n : no_faults → in_tx w q (mkTx t n) =
  match q (mkDraw (dr_now w) (dr_uuid w n)) t with
  | Ok (d, a) => (mkTx d (S n), Ok a)
  | Err e => (mkTx t (S n), Err e)
  end.
Proof. intros (_ & Hs & _). unfold in_tx. cbn [tx_count tx_tables]. by rewrite Hs. Qed.
Lemma WithTx_calm {A} (m : M (Tx DB) store_err A) d : no_faults →
  WithTx m d = match m (mkTx d 0) with (s, Ok a) => (tx_tables s, Ok a) | (_, Err e) => (d, Err e) end.
Proof. intros (Hb & _ & Hc & Hr). unfold WithTx, rolled_back. rewrite Hb, Hc, Hr. by destruct (m (mkTx d 0)) as [s [a|e]]. Qed.

(** What the database refuses of a well-formed site *)
Definition well_formed (arg : CreateSiteParams) : Prop :=
  site_visibility (cp_Visibility arg) = true ∧ cp_PublishMode arg ∈ ["direct"; "request"] ∧ handle_format (cp_Handle arg) = true.
Definition in_use (arg : CreateSiteParams) (d : DB) : Prop :=
  ∃ id s, sites d !! id = Some s ∧
    (fold (st_Handle s) = fold (cp_Handle arg) ∨ is_Some (cp_GithubRepo arg) ∧ st_GithubRepo s = cp_GithubRepo arg).

Lemma taken_by_true {K} `{Countable K} {V B} `{EqDecision B} (f : V → option B) b k (m : gmap K V) :
  m !! k = None → taken_by f (Some b) k m = true ↔ ∃ k' v, m !! k' = Some v ∧ f v = Some b.
Proof.
  intros Hk. cbn [taken_by]. rewrite existsb_exists. split.
  - intros ([k' v] & Hin & Hb). apply list_elem_of_In, elem_of_map_to_list in Hin.
    apply andb_true_iff in Hb as [_ Hb%bool_decide_eq_true]. eauto.
  - intros (k' & v & Hv & Hf). exists (k', v). split; [by apply list_elem_of_In, elem_of_map_to_list|].
    apply andb_true_iff. cbn. split; apply bool_decide_eq_true; [|done]. intros ->. by rewrite Hv in Hk.
Qed.
Lemma site_unique_spec d s : sites d !! st_ID s = None →
  match site_unique d s with
  | Ok _ => ∀ id s0, sites d !! id = Some s0 → fold (st_Handle s0) ≠ fold (st_Handle s) ∧
              (is_Some (st_GithubRepo s) → st_GithubRepo s0 ≠ st_GithubRepo s)
  | Err e => (∃ id s0, sites d !! id = Some s0 ∧ (fold (st_Handle s0) = fold (st_Handle s) ∨
                is_Some (st_GithubRepo s) ∧ st_GithubRepo s0 = st_GithubRepo s)) ∧
             (e = unique_violation "sites_handle_key" ∨ e = unique_violation "idx_sites_github_repo")
  end.
Proof.
  intros Hn. unfold site_unique. destruct (taken_by _ (Some _) _ _) eqn:Eh; cbn [negb require res_bind].
  - apply taken_by_true in Eh as (id & s0 & Hs & [= Hf]); [|done]. eauto 10.
  - destruct (taken_by st_GithubRepo _ _ _) eqn:Er; cbn [negb require].
    + destruct (st_GithubRepo s) as [b|] eqn:Eb; [|done]. apply taken_by_true in Er as (id & s0 & Hs & Hf); [|done]. eauto 10.
    + intros id s0 Hs. split.
      * intros Hf. assert (id = st_ID s) as ->; [|by rewrite Hs in Hn]. eapply (taken_by_false _ _ _ _ _ Eh eq_refl); [exact Hs|]. by rewrite Hf.
      * intros [b Hb] Hf. rewrite Hb in *. assert (id = st_ID s) as ->; [|by rewrite Hs in Hn].
        by eapply (taken_by_false _ _ _ _ _ Er eq_refl).
Qed.

Context `{GoUnicode}.
Lemma require_true e : require true e = Ok tt.
Proof. done. Qed.
(** A well-formed request for an existing owner is refused for being in use, or done. *)
Lemma CreateSite_calm arg x d : well_formed arg → is_Some (users d !! cp_OwnerID arg) → sites d !! d_uuid x = None →
  match CreateSite arg x d with
  | Ok (d', s) => ¬ in_use arg d
  | Err e => in_use arg d ∧ (e = unique_violation "sites_handle_key" ∨ e = unique_violation "idx_sites_github_repo")
  end.
Proof.
  intros (Hv & Hm & Hf) Ho Hn. unfold CreateSite, site_checks, references. cbv zeta. cbn [st_Visibility st_PublishMode st_Handle st_PublishedCommitSha].
  rewrite Hv, (bool_decide_eq_true_2 _ Hm), Hf. cbn [require res_bind null_or].
  replace (has (d_uuid x) (sites d)) with false by (symmetry; apply bool_decide_eq_false; rewrite Hn; by intros []).
  cbn [negb require res_bind]. set (s := mkDbSite _ _ _ _ _ _ _ _ _ _ _ _ _ _ _).
  pose proof (site_unique_spec d s Hn) as Hu. destruct (site_unique d s) as [u|e]; cbn [res_bind].
  - replace (has (cp_OwnerID arg) (users d)) with true by (symmetry; by apply has_spec). cbn [require res_bind].
    intros (id & s0 & Hs & [Hh|[Hr Hh]]); destruct (Hu _ _ Hs) as [Hne1 Hne2]; [by apply Hne1|by apply Hne2].
  - destruct Hu as [(id & s0 & Hs & Hor) He]. split; [|done]. by exists id, s0.
Qed.
Lemma CreateSiteWithOwner_calm arg d : db_ok d → no_faults → well_formed arg → is_Some (users d !! cp_OwnerID arg) →
  sites d !! dr_uuid w 0 = None →
  match (store_CreateSiteWithOwner w arg d).2 with
  | Ok _ => ¬ in_use arg d
  | Err e => in_use arg d ∧ isUniqueViolation (EOther (errText e)) = true
  end.
Proof.
  intros Hd Hc Hw Ho Hn. unfold store_CreateSiteWithOwner. rewrite WithTx_calm by done.
  pose proof (CreateSite_calm arg (mkDraw (dr_now w) (dr_uuid w 0)) d Hw Ho Hn) as Hq.
  unfold bindM at 1, wrap at 1. rewrite in_tx_calm by done. destruct (CreateSite arg _ d) as [[d1 s]|e] eqn:Ec.
  - apply CreateSite_inv in Ec as (-> & _ & _ & Es & _). cbn [d_uuid d_now] in *.
    unfold bindM, wrap. rewrite in_tx_calm by done. unfold AddOwnerMembership, AddMember, references.
    cbn [members sites users with_sites]. rewrite Es. cbn [st_ID st_OwnerID].
    destruct (members d !! (dr_uuid w 0, cp_OwnerID arg)) as [m|] eqn:Em.
    { destruct (ok_members _ Hd _ _ Em) as (Hk & Hs & _). injection Hk as Hk _. rewrite <-Hk, Hn in Hs. by destruct Hs. }
    change (site_role SiteRoleOwner) with true. cbn [require res_bind null_or].
    unfold has. rewrite !bool_decide_eq_true_2; [cbn; done|done|rewrite lookup_insert_eq; by eexists].
  - destruct Hq as [Hu [-> | ->]]; (split; [done|reflexivity]).
Qed.

(** C15 (functional): a site comes with its owner, or not at all.  However the
    statements of the transaction fare, creating a site either adds exactly its
    row, as asked for, and its owner's membership, or changes nothing, and then it
    reports an error; a handle that any site has, in any case and even a deleted
    one, is not given twice.  If nothing fails, a well-formed request is refused
    only because its handle or its mirror repository is in use, and the error is
    one the service takes for a unique violation. *)
Theorem create_site_atomic (arg : CreateSiteParams) (d d' : DB) (r : Res store_err DbSite) :
  db_ok d → store_CreateSiteWithOwner w arg d = (d', r) →
  ((∃ s, created arg d d' s ∧ (r = Ok s ∨ ∃ e, r = Err e)) ∨ d' = d ∧ ∃ e, r = Err e) ∧
  ((∃ id s, sites d !! id = Some s ∧ fold (st_Handle s) = fold (cp_Handle arg)) → d' = d ∧ ∃ e, r = Err e) ∧
  (no_faults → well_formed arg → is_Some (users d !! cp_OwnerID arg) → sites d !! dr_uuid w 0 = None →
     (in_use arg d ∧ ∃ e, r = Err e ∧ isUniqueViolation (EOther (errText e)) = true) ∨ (¬ in_use arg d ∧ ∃ s, r = Ok s)).
Proof.
  intros Hd Hr. assert ((∃ s, created arg d d' s ∧ (r = Ok s ∨ ∃ e, r = Err e)) ∨ d' = d ∧ ∃ e, r = Err e) as Hcases.
  { apply tx_cases in Hr as [(s & a & Hm & -> & Hor)|[He ->]]; [left|by right].
    exists a. split; [by apply (CreateSiteWithOwner_inv arg (mkTx d 0))|]. destruct Hor as [?|[? _]]; auto. }
  split_and!; [done|..].
  - intros (id & s0 & Hs & Hf). destruct Hcases as [(s & Hc & _)|?]; [|done].
    destruct (created_free arg d d' s id s0); [by eapply CreateSiteWithOwner_keeps|done..].
  - intros Hc Hw Ho Hn. pose proof (CreateSiteWithOwner_calm arg d Hd Hc Hw Ho Hn) as Hq. rewrite Hr in Hq. cbn [snd] in Hq.
    destruct r as [s|e]; [right|left]; naive_solver.
Qed.

(** ** Signing in *)

(** [u] is the account of the e-mail, with the rights it had or those of a new
    account; no other account and no link to an account is different. *)
Definition signed_in (in_ : UpsertLoginInput) (d d' : DB) (u : User) : Prop :=
  users d' !! us_ID u = Some u ∧ fold (us_Email u) = fold (ul_Email in_) ∧
  match users d !! us_ID u with
  | Some u0 => us_Email u = us_Email u0 ∧ us_IsAdmin u = us_IsAdmin u0 ∧ us_CanCreateSites u = us_CanCreateSites u0 ∧
               us_IsActive u = us_IsActive u0
  | None => us_IsAdmin u = false ∧ ∀ k u0, users d !! k = Some u0 → fold (us_Email u0) ≠ fold (ul_Email in_)
  end ∧
  (∀ k, k ≠ us_ID u → users d' !! k = users d !! k) ∧
  (∀ k i, identities d !! k = Some i → ui_UserID <$> identities d' !! k = Some (ui_UserID i)) ∧
  (identities d !! (ul_Provider in_, ul_Subject in_) = None →
     ui_UserID <$> identities d' !! (ul_Provider in_, ul_Subject in_) = Some (us_ID u)) ∧
  sessions d' = sessions d ∧ sites d' = sites d ∧ members d' = members d ∧ tokens d' = tokens d ∧
  instance_settings d' = instance_settings d.

Lemma UpsertUser_inv email name avatar x d d' u : db_ok d → UpsertUser email name avatar x d = Ok (d', u) →
  d' = with_users d (<[us_ID u := u]> (users d)) ∧ fold (us_Email u) = fold email ∧
  match users d !! us_ID u with
  | Some u0 => us_Email u = us_Email u0 ∧ us_IsAdmin u = us_IsAdmin u0 ∧ us_CanCreateSites u = us_CanCreateSites u0 ∧
               us_IsActive u = us_IsActive u0
  | None => us_IsAdmin u = false ∧ ∀ k u0, users d !! k = Some u0 → fold (us_Email u0) ≠ fold email
  end.
Proof.
  intros Hd. unfold UpsertUser. destruct (with_email email d) as [|u0 l] eqn:He; cbv zeta; intros Hq.
  - take_bind Hq. apply require_ok, has_not in Ha. injection Hq as <- <-. cbn [us_ID us_Email us_IsAdmin]. rewrite Ha.
    split_and!; [done..|]. intros k u Hk. by eapply with_email_nil.
  - injection Hq as <- <-. assert (u0 ∈ with_email email d) as [[k Hk] Hf]%with_email_elem by (rewrite He; left).
    pose proof (ok_users d Hd _ _ Hk) as Hid. cbn in Hid. cbn [us_ID us_Email us_IsAdmin us_CanCreateSites us_IsActive].
    by rewrite Hid, Hk.
Qed.
Lemma UpsertIdentity_inv u p s e x d d' a : UpsertIdentity u p s e x d = Ok (d', a) →
  ∃ t, d' = with_identities d t ∧ (∀ k i, identities d !! k = Some i → ui_UserID <$> t !! k = Some (ui_UserID i)) ∧
       (identities d !! (p, s) = None → ui_UserID <$> t !! (p, s) = Some u).
Proof.
  unfold UpsertIdentity. destruct (identities d !! (p, s)) as [i|] eqn:Hi; intros Hq.
  - injection Hq as <- _. eexists. split; [done|]. split; [|done]. intros k j Hj. destruct (decide (k = (p, s))) as [->|Hne].
    + rewrite lookup_insert_eq. by simplify_eq/=.
    + by rewrite lookup_insert_ne, Hj by done.
  - take_bind Hq. injection Hq as <- _. eexists. split; [done|]. split; [|by rewrite lookup_insert_eq].
    intros k j Hj. rewrite lookup_insert_ne, Hj; [done|]. intros <-. by rewrite Hi in Hj.
Qed.

(** C16 (safety): recording a login gives nobody rights.  This is about the transaction
    UpsertLogin, not about the whole of signing in, which may promote the account
    before and opens a session after it.  However the statements of the
    transaction fare, it leaves the tables alone and reports an error, or it brings
    the one account of the e-mail up to date: what that account may do stays as it
    was, a new account is no administrator, and no other account, session, site,
    membership, token or setting changes, nor the account any identity is linked
    to. *)
Theorem login_keeps_rights (in_ : UpsertLoginInput) (d d' : DB) (r : Res store_err User) :
  db_ok d → store_UpsertLogin w in_ d = (d', r) →
  (∃ u, signed_in in_ d d' u ∧ (r = Ok u ∨ ∃ e, r = Err e)) ∨ d' = d ∧ ∃ e, r = Err e.
Proof.
  intros Hd [(s & u & Hm & -> & Hor)|[He ->]]%tx_cases; [left|by right].
  exists u. split; [|destruct Hor as [?|[? _]]; auto]. run_inv Hm. run_inv Hk. injection Hk0 as -> ->.
  apply wrap_inv, in_tx_inv in Hm0 as [Hm0 _]. apply wrap_inv, in_tx_inv in Hm as [Hm _]. cbn [tx_tables] in Hm0.
  apply UpsertUser_inv in Hm0 as (Ht & Hf & Hu); [|done]. apply UpsertIdentity_inv in Hm as (t & -> & Hi & Hn). rewrite Ht in *.
  cbn [users identities sessions sites members tokens instance_settings with_users with_identities] in *.
  unfold signed_in. cbn [users identities sessions sites members tokens instance_settings with_users with_identities].
  split_and!; try done; [apply lookup_insert_eq|]. intros k Hk. by rewrite lookup_insert_ne by done.
Qed.
End flows.

(** ** Samples *)

#[local] Existing Instances ascii_only_unicode clear_cipher.

Definition sample_draws : Draws := mkDraws 60%Z (λ n, (40 + N.of_nat n)%N).
Definition sample_site (handle : string) : CreateSiteParams := mkCreateSite handle 2%N "private" "draft" "request" None "" "".

Lemma create_site_atomic_witness :
  (∃ s, (store_CreateSiteWithOwner sample_draws (sample_site "diary") sample_db).2 = Ok s) ∧
  (store_CreateSiteWithOwner sample_draws (sample_site "Notes") sample_db).1 = sample_db.
Proof.
  split.
  - destruct (create_site_atomic sample_draws (sample_site "diary") sample_db _ _ sample_db_ok (surjective_pairing _)) as (_ & _ & Hc).
    destruct Hc as [[_ (e & He & _)]|[_ Hs]]; [..|exact Hs].
    + unfold no_faults. repeat split.
    + split; [reflexivity|split; [set_solver|reflexivity]].
    + vm_compute. eexists. reflexivity.
    + vm_compute. reflexivity.
    + vm_compute in He. discriminate He.
  - destruct (create_site_atomic sample_draws (sample_site "Notes") sample_db _ _ sample_db_ok (surjective_pairing _)) as (_ & Hn & _).
    apply Hn. exists 7%N. eexists. vm_compute. split; reflexivity.
Defined.
Lemma login_keeps_rights_witness :
  let in_ := mkUpsert "dev" "ann" "ANN@EXAMPLE.COM" "Annie" None in
  ∃ u, signed_in in_ sample_db (store_UpsertLogin sample_draws in_ sample_db).1 u ∧ us_DisplayName u = "Annie" ∧ us_Email u = "Ann@example.com".
Proof.
  intros in_. destruct (login_keeps_rights sample_draws in_ sample_db _ _ sample_db_ok (surjective_pairing _)) as [(u & Hu & Hr)|[_ [e He]]].
  - exists u. split; [exact Hu|]. destruct Hr as [Hr|[e He]]; [|vm_compute in He; discriminate He].
    vm_compute in Hr. injection Hr as <-. split; reflexivity.
  - vm_compute in He. discriminate He.
Defined.

(** Ann's provider reports another address for the same subject: she gets a second
    account, and her identity stays linked to the first. *)
Example login_goes_by_email :
  let '(d, r) := store_UpsertLogin sample_draws (mkUpsert "oidc" "sub-ann" "ann@new.example" "Ann" None) sample_db in
  (match r with Ok u => Some (us_ID u) | Err _ => None end) = Some 40%N ∧ ui_UserID <$> identities d !! ("oidc", "sub-ann") = Some 1%N.
Proof. vm_compute. done. Qed.
(** The purge of a cache stamps updated_at, which orders the dashboard. *)
Example purge_reorders :
  let d := (direct sample_draws (BumpCacheVersion 7%N) sample_db).1 in
  st_UpdatedAt <$> sites sample_db !! 7%N = Some 30%Z ∧ st_UpdatedAt <$> sites d !! 7%N = Some 60%Z.
Proof. vm_compute. done. Qed.
