(* ===== verification/MetaGit.v ===== *)
(** * The git-backed service over the metadata database

    Handles are names: a site is reached by its handle, and for ever by its former
    handles.  The service of GitPublish, given the store of MetaStore, keeps it so.
    [git_world] answers the service's questions to the store from the tables, which
    [db_after] replays along the trace of a call; git and the file system answer as
    any [base] world does.  Calls run one after the other here, with other
    operations of the program between them. *)

From S2P Require Import Prelude Trace GoStrings Encoding SiteErrors SiteTypes Handle Regexp Http Access Wire ApiWorld SecretBox Settings.
From S2P Require Import MetaDb MetaDbFacts OidcCfg Providers MetaStore MetaFlows.
From S2P Require GitParse GitWorld GitService GitOps GitPublish GitGuard GitSafety GitTheorems.

(** ** Names *)

Section names.
Context `{Postgres}.

(** What a name leads to: the live site of that handle, else the site a redirect
    from it points at *)
Definition finds (w : Draw) (h : string) (d : DB) : option uuid :=
  match GetSiteByHandle h w d with
  | Ok (_, s) => Some (st_ID s)
  | Err _ => match GetSiteByRedirect h w d with Ok (_, s) => Some (st_ID s) | Err _ => None end
  end.
Definition live_at (d : DB) (id : uuid) : Prop := ∃ s, sites d !! id = Some s ∧ live s = true.
(** Handles are in lower case, and no site's handle is a former handle as well. *)
Definition names_ok (d : DB) : Prop :=
  ∀ id s, sites d !! id = Some s → fold (st_Handle s) = st_Handle s ∧ redirects d !! fold (st_Handle s) = None.
Definition leads (d : DB) (h : string) (id : uuid) : Prop :=
  ∃ s, sites d !! id = Some s ∧ live s = true ∧ (fold (st_Handle s) = fold h ∨ hr_SiteID <$> redirects d !! fold h = Some id).

Lemma one_some {A} (f : DB → list A) w d d' a : one f w d = Ok (d', a) → d' = d ∧ a ∈ f d.
Proof. unfold one. destruct (f d) as [|x l]; [done|]. intros [= <- <-]. split; [done|left]. Qed.
Lemma one_none {A} (f : DB → list A) w d e a : one f w d = Err e → a ∉ f d.
Proof. unfold one. destruct (f d) as [|x l]; [|done]. intros _. apply not_elem_of_nil. Qed.
Lemma by_handle h d s : s ∈ sites_where (λ s, (fold (st_Handle s) =? fold h)%string && live s) d ↔
  (∃ id, sites d !! id = Some s) ∧ fold (st_Handle s) = fold h ∧ live s = true.
Proof. unfold sites_where. by rewrite filter_elem, rows_elem, andb_true_iff, String.eqb_eq. Qed.
Lemma GetSiteByRedirect_ok h w d d' s : db_ok d → GetSiteByRedirect h w d = Ok (d', s) →
  sites d !! st_ID s = Some s ∧ live s = true ∧ hr_SiteID <$> redirects d !! fold h = Some (st_ID s).
Proof.
  unfold GetSiteByRedirect. intros Hd [_ Hin]%one_some. destruct (redirects d !! fold h) as [r|]; cbn in Hin; [|by apply not_elem_of_nil in Hin].
  rewrite app_nil_r in Hin. apply filter_elem in Hin as [Hin Hl]. destruct (sites d !! hr_SiteID r) as [s0|] eqn:Hs; cbn in Hin; [|by apply not_elem_of_nil in Hin].
  apply list_elem_of_singleton in Hin as ->. destruct (ok_sites d Hd _ _ Hs) as (Hk & _). cbn in Hk. rewrite Hk. by rewrite Hs.
Qed.
(** Under the invariants the two questions find what a name leads to. *)
Lemma finds_leads w h d id : db_ok d → names_ok d → finds w h d = Some id ↔ leads d h id.
Proof.
  intros Hd Hn. unfold finds, leads. destruct (GetSiteByHandle h w d) as [[d1 s]|e] eqn:Eh.
  - unfold GetSiteByHandle in Eh. apply one_some in Eh as [_ [[k Hk] [Hf Hl]]%by_handle]. destruct (ok_sites d Hd _ _ Hk) as [Hid _]. cbn in Hid. split.
    + intros [= <-]. exists s. rewrite Hid. auto.
    + intros (s' & Hs' & _ & [Hf'|Hr]); f_equal.
      * rewrite Hid. by eapply (ok_handles d Hd k id s s'); [| |done|cbn; congruence].
      * destruct (Hn _ _ Hk) as [_ Hnone]. rewrite Hf in Hnone. by rewrite Hnone in Hr.
  - assert (∀ s', sites d !! id = Some s' → live s' = true → fold (st_Handle s') ≠ fold h) as Hno.
    { intros s' Hs' Hl Hf. eapply (one_none _ _ _ _ s'); [exact Eh|]. apply by_handle. eauto. }
    destruct (GetSiteByRedirect h w d) as [[d1 s]|e1] eqn:Er.
    + apply GetSiteByRedirect_ok in Er as (Hs & Hl & Hr); [|done]. split.
      * intros [= <-]. eauto.
      * intros (s' & Hs' & Hl' & [Hf|Hr']); [by eapply Hno in Hf|]. congruence.
    + split; [done|]. intros (s & Hs & Hl & [Hf|Hr]); [by eapply Hno in Hf|]. exfalso.
      destruct (redirects d !! fold h) as [r|] eqn:Hh; [|done]. injection Hr as Hr.
      eapply (one_none _ _ _ _ s); [exact Er|]. cbv beta. rewrite Hh. cbn. rewrite app_nil_r, Hr, Hs. cbn. rewrite Hl. left.
Qed.

(** ** What may happen to the names *)

(** Names are kept, up to the deletion of sites. *)
Definition tame (d d' : DB) : Prop :=
  (∀ id s', sites d' !! id = Some s' → ∃ s, sites d !! id = Some s ∧ st_Handle s' = st_Handle s ∧ (live s' = true → live s = true)) ∧
  (∀ k r, redirects d' !! k = Some r → redirects d !! k = Some r) ∧
  (∀ k r, redirects d !! k = Some r → redirects d' !! k = Some r ∨ sites d' !! hr_SiteID r = None).
Record names_step (d d' : DB) : Prop := {
  step_ok : names_ok d → names_ok d';
  step_leads : names_ok d → ∀ h id, leads d h id → live_at d' id → leads d' h id;
}.
Lemma tame_refl d : tame d d.
Proof. split_and!; eauto. Qed.
Lemma tame_step d d' : tame d d' → names_step d d'.
Proof.
  intros (Hs & Hr & Hr'). split.
  - intros Hn id s' Hs'. destruct (Hs _ _ Hs') as (s & Hd & -> & _). destruct (Hn _ _ Hd) as [Hf Hnone]. split; [done|].
    apply eq_None_not_Some. intros [r Hk]. apply Hr in Hk. by rewrite Hnone in Hk.
  - intros Hn h id (s & Hd & Hl & Hor) (s' & Hs' & Hl'). exists s'. split_and!; [done..|].
    destruct (Hs _ _ Hs') as (s0 & Hs0 & -> & _). simplify_eq. destruct Hor as [?|Hk]; [by left|right].
    destruct (redirects d !! fold h) as [r|] eqn:Hh; [|done]. injection Hk as Hk. apply Hr' in Hh as [->|Hgone]; [by cbn; rewrite Hk|].
    by rewrite Hk, Hs' in Hgone.
Qed.
Lemma tame_trans d1 d2 d3 : tame d1 d2 → tame d2 d3 → tame d1 d3.
Proof.
  intros (Hs1 & Hr1 & Hk1) (Hs2 & Hr2 & Hk2). split_and!; [|by eauto|].
  - intros id s (s2 & (s1 & ? & Hh1 & ?)%Hs1 & Hh2 & ?)%Hs2. exists s1. rewrite Hh2, Hh1. auto.
  - intros k r [Hr|Hn]%Hk1; [by apply Hk2|right]. apply eq_None_not_Some. intros [s (s2 & Hs & _)%Hs2]. by rewrite Hn in Hs.
Qed.
Lemma names_step_refl d : names_step d d.
Proof. apply tame_step, tame_refl. Qed.

(** The service deletes no rows, and revives none. *)
Definition rows_kept (d d' : DB) : Prop :=
  ∀ id s, sites d !! id = Some s → ∃ s', sites d' !! id = Some s' ∧ (live s' = true → live s = true).
Lemma rows_kept_refl d : rows_kept d d.
Proof. intros id s Hs. eauto. Qed.
Lemma rows_kept_trans d1 d2 d3 : rows_kept d1 d2 → rows_kept d2 d3 → rows_kept d1 d3.
Proof. intros H1 H2 id s (s' & Hs' & Hl)%H1. apply H2 in Hs' as (s2 & Hs2 & Hl2). eauto. Qed.
Lemma rows_kept_insert d d' id s s' : sites d !! id = Some s → (live s' = true → live s = true) → sites d' = <[id := s']> (sites d) →
  rows_kept d d'.
Proof.
  intros Hs Hl He i x Hx. rewrite He. destruct (decide (i = id)) as [->|Hi]; [|by rewrite lookup_insert_ne; eauto].
  rewrite lookup_insert_eq. simplify_eq. eauto.
Qed.

Lemma names_step_trans d1 d2 d3 :
  names_step d1 d2 → rows_kept d1 d2 → names_step d2 d3 → rows_kept d2 d3 → names_step d1 d3.
Proof.
  intros [Hn1 Hl1] Hk1 [Hn2 Hl2] Hk2. split; [by auto|]. intros Hn h id Hh Hlive. apply Hl2; [by auto| |done]. apply Hl1; [done..|].
  destruct Hh as (s & Hs & _). apply Hk1 in Hs as (s2 & Hs2 & _). destruct (Hk2 _ _ Hs2) as (s3 & Hs3 & Hl3).
  destruct Hlive as (x & Hx & Hlx). simplify_eq. exists s2. auto.
Qed.

(** *** Queries *)

Lemma tame_same d d' : sites d' = sites d → redirects d' = redirects d → tame d d'.
Proof. intros Hs Hr. unfold tame. rewrite Hs, Hr. apply tame_refl. Qed.
(** An update of a row that keeps its handle, and its time of deletion once it has one *)
Definition plain (d : DB) (id : uuid) (f : DbSite → DbSite) : Prop :=
  ∀ s, sites d !! id = Some s → st_Handle (f s) = st_Handle s ∧ ∀ t, st_DeletedAt s = Some t → st_DeletedAt (f s) = Some t.
Lemma plain_live d id f s : plain d id f → sites d !! id = Some s → live (f s) = true → live s = true.
Proof. intros Hf Hs. unfold live. destruct (st_DeletedAt s) as [t|] eqn:Ht; [|done]. by rewrite (proj2 (Hf _ Hs) t Ht). Qed.
Lemma update_site_plain id f w d d' a : update_site id f w d = Ok (d', a) →
  d' = d ∨ ∃ s s', sites d !! id = Some s ∧ d' = with_sites d (<[id := s']> (sites d)) ∧ st_Handle s' = st_Handle (f s) ∧
                   st_DeletedAt s' = st_DeletedAt (f s).
Proof.
  unfold update_site. destruct (sites d !! id) as [s|] eqn:Hs; [|intros [= <- _]; by left].
  cbv zeta. intros Hq. take_bind Hq. injection Hq as <- _. right. by eexists s, _.
Qed.
Lemma update_site_tame id f w d d' a : plain d id f → update_site id f w d = Ok (d', a) → tame d d'.
Proof.
  intros Hf [->|(s & s' & Hs & -> & Hh & Hl)]%update_site_plain; [apply tame_refl|]. split_and!; [|by eauto..].
  intros i x. cbn [sites with_sites]. rewrite lookup_insert_Some. intros [[<- <-]|[_ ?]]; [|by eauto]. exists s.
  rewrite Hh, (proj1 (Hf _ Hs)). split_and!; [done..|]. unfold live at 1. rewrite Hl. by apply (plain_live d id f).
Qed.
Lemma update_site_rows id f w d d' a : plain d id f → update_site id f w d = Ok (d', a) → rows_kept d d'.
Proof.
  intros Hf [->|(s & s' & Hs & -> & _ & Hl)]%update_site_plain; [apply rows_kept_refl|].
  eapply rows_kept_insert; [exact Hs| |reflexivity]. unfold live at 1. rewrite Hl. by apply (plain_live d id f).
Qed.
Lemma HardDeleteSite_tame id w d d' a : HardDeleteSite id w d = Ok (d', a) → tame d d'.
Proof.
  intros [= <- _]. split_and!; cbn [sites redirects].
  - intros i s' [_ Hs']%lookup_delete_Some. eauto.
  - intros k r Hr%map_lookup_filter_Some. by destruct Hr.
  - intros k r Hr. destruct (decide (hr_SiteID r = id)) as [->|Hne]; [right; apply lookup_delete_eq|left]. by apply map_lookup_filter_Some.
Qed.
(** The queries that give and take names; the program has them inside its two
    flows only. *)
Definition naming {A} (q : Query A) : bool :=
  match q with CreateSite_ _ | RenameHandle_ _ _ | InsertRedirect_ _ _ | DeleteRedirect_ _ _ => true | _ => false end.
(** Only the background jobs delete rows. *)
Definition purge {A} (q : Query A) : bool := match q with HardDeleteSite_ _ => true | _ => false end.
Lemma one_tables {A} (f : DB → list A) w d d' a : one f w d = Ok (d', a) → d' = d.
Proof. by intros [-> _]%one_some. Qed.
(** What the other queries do to sites and redirects *)
Lemma exec_cases {A} (q : Query A) w d d' a : naming q = false → exec q w d = Ok (d', a) →
  (sites d' = sites d ∧ redirects d' = redirects d) ∨ (∃ id, purge q = true ∧ HardDeleteSite id w d = Ok (d', tt)) ∨
  (∃ id f, plain d id f ∧ update_site id f w d = Ok (d', tt)).
Proof.
  intros Hn Hq. destruct q; try discriminate Hn; cbn [exec] in Hq; clear Hn.
  all: try (destruct a; by right; left; eauto); try (destruct a; right; right; eexists _, _; split; [|exact Hq]; by intros s Hs).
  all: try (left; assert (d' = d) as -> by (eapply one_tables; exact Hq); done).
  all: unfold AddOwnerMembership, AddMember, AddReserved, BumpCacheVersion, CreateSession, CreateUserToken, DeleteExpiredSessions,
    DeleteSetting, DeleteSession, DeleteUserSessions, GetSession, GetUserTokenByHash, GetUserTokenByPrefix, HandleIsTaken,
    InsertAudit, IsReserved, ListAuditForActor, ListAuditForSite, audit_page, ListSitesForUser, MetaDb.PromoteUserAdmin,
    RemoveMember, RemoveReserved, RevokeUserToken, SetSetting, SetUserAdminFlags, SoftDeleteSite, TouchSession,
    TouchUserToken, UpdateMemberRole, UpsertIdentity, UpsertUser in Hq; cbv zeta in Hq.
  all: try (left; assert (d' = d) as -> by (eapply one_tables; exact Hq); done); repeat (progress take_bind Hq || case_hyp Hq).
  all: try (injection Hq as <- _; by left).
  - injection Hq as <- _. destruct a1 as [d1 []]. right; right. eexists _, _. split; [|eassumption]. by intros s Hs.
  - destruct a. right; right. eexists _, _. split; [|exact Hq]. intros s Hs. split; [done|]. intros t Ht. simplify_eq. unfold live in *. by case_match.
Qed.
Lemma exec_tame {A} (q : Query A) w d d' a : naming q = false → exec q w d = Ok (d', a) → tame d d'.
Proof.
  intros Hn [[Hs Hr]|[(id & _ & Hq)|(id & f & Hf & Hq)]]%exec_cases; [by apply tame_same|by eapply HardDeleteSite_tame| |done].
  by eapply update_site_tame.
Qed.
Lemma exec_rows {A} (q : Query A) w d d' a : naming q = false → purge q = false → exec q w d = Ok (d', a) → rows_kept d d'.
Proof.
  intros Hn Hp [[Hs Hr]|[(id & Hp' & Hq)|(id & f & Hf & Hq)]]%exec_cases; [|congruence|by eapply update_site_rows|done].
  intros i s Hi. rewrite Hs. eauto.
Qed.
End names.

(** *** The flows that give and take names *)

Section flows.
Context `{Postgres} `{Faults} (w : Draws).

Lemma direct_tame {A} (q : Query A) d : naming q = false → tame d (direct w (exec q) d).1.
Proof.
  intros Hq. destruct (direct w (exec q) d) as [d' r] eqn:E. apply direct_cases in E as [(a & Ha & _)|[_ ->]]; [|apply tame_refl].
  by eapply exec_tame.
Qed.
Lemma create_step arg d d' r :
  db_ok d → fold (cp_Handle arg) = cp_Handle arg → redirects d !! fold (cp_Handle arg) = None →
  store_CreateSiteWithOwner w arg d = (d', r) → names_step d d' ∧ rows_kept d d'.
Proof.
  intros Hd Hf Hfree Hr. apply tx_cases in Hr as [(s & a & Hm & -> & _)|[_ ->]]; [|split; [apply names_step_refl|apply rows_kept_refl]].
  apply (CreateSiteWithOwner_inv w arg (mkTx d 0)) in Hm as (Hnone & _ & Ha & ->); [|done]. cbn [tx_tables] in *. split; [split|].
  - intros Hn id s'. cbn [sites redirects with_sites with_members]. rewrite lookup_insert_Some. intros [[<- <-]|[_ Hs]]; [|by eapply Hn].
    rewrite Ha. cbn [st_Handle]. done.
  - intros _ h id (s0 & Hs0 & Hl & Hor) _. exists s0. cbn [sites redirects with_sites with_members]. split_and!; [|done..].
    rewrite lookup_insert_ne; [done|]. intros <-. by rewrite Hnone in Hs0.
  - intros i x Hx. exists x. cbn [sites with_sites with_members]. rewrite lookup_insert_ne; [done|]. intros <-. by rewrite Hnone in Hx.
Qed.

(** What the three statements of a rename leave behind *)
Definition renamed (id : uuid) (old new : string) (d d' : DB) : Prop :=
  ∃ s s' r, sites d !! id = Some s ∧ st_Handle s' = new ∧ live s' = live s ∧ sites d' = <[id := s']> (sites d) ∧ hr_SiteID r = id ∧
  redirects d' = <[fold old := r]> (match redirects d !! fold new with
                                    | Some r0 => if (hr_SiteID r0 =? id)%N then delete (fold new) (redirects d) else redirects d
                                    | None => redirects d
                                    end).
Lemma RenameHandleWithRedirect_inv id old new s s' a :
  (wrap "clear rename-back redirect: " (in_tx w (DeleteRedirect new id)) ;!
   wrap "insert redirect: " (in_tx w (InsertRedirect old id)) ;!
   wrap "rename handle: " (in_tx w (RenameHandle new id))) s = (s', Ok a) → renamed id old new (tx_tables s) (tx_tables s').
Proof.
  intros Hr. run_inv Hr. run_inv Hk.
  apply wrap_inv, in_tx_inv in Hm as [Hm _]. apply wrap_inv, in_tx_inv in Hm0 as [Hm0 _]. apply wrap_inv, in_tx_inv in Hk0 as [Hk0 _].
  unfold DeleteRedirect in Hm. injection Hm as Ht _.
  assert (sites (tx_tables s0) = sites (tx_tables s)) as Hs0 by (rewrite <-Ht; repeat case_match; done).
  unfold InsertRedirect in Hm0. cbv zeta in Hm0. take_bind Hm0. injection Hm0 as Ht1.
  unfold RenameHandle, update_site in Hk0. rewrite <-Ht1 in Hk0. cbn [sites with_redirects] in Hk0.
  unfold references in Ha0. apply require_ok, has_spec in Ha0. destruct Ha0 as [x Hx]. rewrite Hx in Hk0. cbv zeta in Hk0. take_bind Hk0.
  injection Hk0 as <- _. cbn [sites redirects with_sites with_redirects]. rewrite Hs0 in *.
  unfold renamed. assert (redirects (tx_tables s0) = match redirects (tx_tables s) !! fold new with
    | Some r0 => if (hr_SiteID r0 =? id)%N then delete (fold new) (redirects (tx_tables s)) else redirects (tx_tables s)
    | None => redirects (tx_tables s) end) as <- by (rewrite <-Ht; repeat case_match; done).
  eexists x, _, _. split_and!; [exact Hx| | |reflexivity| |reflexivity]; [done|done|by case_match].
Qed.
Lemma rename_step id old new d d' r :
  db_ok d → db_ok d' → (∃ s, sites d !! id = Some s ∧ st_Handle s = old) → fold new = new → new ≠ old →
  redirects d !! fold new = None ∨ hr_SiteID <$> redirects d !! fold new = Some id →
  store_RenameHandleWithRedirect w id old new d = (d', r) → names_step d d' ∧ rows_kept d d'.
Proof.
  intros Hd Hd' (s0 & Hs0 & Ho) Hnew Hne Hfree Hr. apply tx_cases in Hr as [(s & a & Hm & -> & _)|[_ ->]]; [|split; [apply names_step_refl|apply rows_kept_refl]].
  apply (RenameHandleWithRedirect_inv id old new (mkTx d 0)) in Hm as (s1 & s' & r1 & Hs1 & Hh & Hl & Hsites & Hrid & Hred).
  cbn [tx_tables] in *. rewrite Hs0 in Hs1. injection Hs1 as <-. rewrite Hnew in *.
  split; [|eapply rows_kept_insert; [exact Hs0|by rewrite Hl|exact Hsites]].
  set (m := match redirects d !! new with Some _ => _ | None => _ end) in Hred.
  assert (m = delete new (redirects d)) as Hm.
  { subst m. destruct Hfree as [Hfree|Hfree]; [by rewrite Hfree, delete_id|].
    destruct (redirects d !! new) as [r0|]; [|done]. injection Hfree as ->. by rewrite N.eqb_refl. }
  rewrite Hm in Hred. clear m Hm. assert (fold old ≠ new ∨ ¬ names_ok d) as Hon.
  { destruct (decide (fold old = new)) as [He|]; [right|by left]. intros Hn. apply Hne. rewrite <-He, <-Ho. by apply (Hn _ _ Hs0). }
  split; intros Hn; (destruct Hon as [Hon|[]]; [|done]); rewrite <-Ho in Hon.
  - intros i x. rewrite Hsites, Hred, lookup_insert_Some. intros [[<- <-]|[Hi Hx]].
    + rewrite Hh, Hnew, <-Ho. split; [done|]. rewrite lookup_insert_ne by done. apply lookup_delete_eq.
    + destruct (Hn _ _ Hx) as [Hf Hx0]. split; [done|]. rewrite <-Ho, lookup_insert_ne.
      * apply lookup_delete_None. by right.
      * intros He. apply Hi. by eapply (ok_handles d Hd id i s0 x); [| |done|cbn; rewrite He].
  - intros h i (x & Hx & Hlx & Hor) _. unfold leads. rewrite Hsites, Hred. destruct (Hn _ _ Hs0) as [_ Hs0n].
    destruct (decide (fold h = new)) as [Hhn|Hhn].
    + assert (i = id) as ->.
      { destruct (decide (i = id)) as [|Hi]; [done|]. destruct Hor as [Hf|Hf].
        - eapply (ok_handles _ Hd' i id x s'); rewrite ?Hsites; [by rewrite lookup_insert_ne|apply lookup_insert_eq|done|].
          cbn. by rewrite Hh, Hf, Hhn, Hnew.
        - destruct Hfree as [He|He]; rewrite Hhn, He in Hf; [done|]. by injection Hf. }
      exists s'. rewrite lookup_insert_eq, Hl, Hh, Hnew. simplify_eq. split_and!; [done..|by left].
    + destruct (decide (i = id)) as [->|Hi].
      * exists s'. rewrite lookup_insert_eq, Hl. simplify_eq. split_and!; [done..|right].
        destruct Hor as [<-|Hf]; [by rewrite lookup_insert_eq; cbn; f_equal|].
        destruct (decide (fold h = fold (st_Handle s0))) as [->|]; [by rewrite lookup_insert_eq; cbn; f_equal|].
        by rewrite lookup_insert_ne, lookup_delete_ne by done.
      * exists x. rewrite lookup_insert_ne by done. split_and!; [done..|]. destruct Hor as [Hf|Hf]; [by left|right].
        rewrite <-Ho, lookup_insert_ne, lookup_delete_ne; [done|done|]. intros He. rewrite <-He, Hs0n in Hf. done.
Qed.
End flows.

(** ** The service in the world of the database *)

Definition as_err {A} (r : Res store_err A) : Res err A := match r with Ok a => Ok a | Err e => Err (EOther (errText e)) end.

Section world.
Context `{Postgres} (base : GitWorld.World) (env : GitWorld.trace → circumstances) (d0 : DB).
Import GitWorld.

(** An operation in the circumstances of a point of the trace *)
Definition under {A} (t : trace) (f : Faults → Draws → M DB store_err A) : M DB store_err A := f (ci_faults (env t)) (ci_draws (env t)).
Abbreviation at_ t f := (under t (λ F w, f w)) (only parsing).
(** Reads leave the tables as they are. *)
Definition db_effect (pre : trace) (e : event) (d : DB) : DB :=
  match e with
  | EvCreateSiteWithOwner in_ _ => (at_ pre (λ w, ad_CreateSiteWithOwner w in_) d).1
  | EvRenameHandle id old new _ => (at_ pre (λ w, store_RenameHandleWithRedirect w id old new) d).1
  | EvSoftDeleteSite id _ => (at_ pre (λ w, ad_SoftDeleteSite w id) d).1
  | EvSetPublished id sha _ => (at_ pre (λ w, ad_SetPublished w id (Some sha)) d).1
  | EvSetSiteRemote id repo _ => (at_ pre (λ w, ad_SetSiteRemote w id repo) d).1
  | _ => d
  end.
Definition db_after (tr : trace) : DB := replay db_effect [] tr d0.
Definition git_world : World := {|
  w_now := @w_now base; w_Flock := @w_Flock base; w_Git := @w_Git base;
  w_CreateSiteWithOwner t in_ := as_err (at_ t (λ w, ad_CreateSiteWithOwner w in_) (db_after t)).2;
  w_GetSiteByID t id := as_err (at_ t (λ w, ad_GetSiteByID w id) (db_after t)).2;
  w_GetSiteByHandle t h := as_err (at_ t (λ w, ad_GetSiteByHandle w h) (db_after t)).2;
  w_GetSiteByRedirect t h := as_err (at_ t (λ w, ad_GetSiteByRedirect w h) (db_after t)).2;
  w_ListSitesForUser t id limit offset := as_err (at_ t (λ w, ad_ListSitesForUser w id limit offset) (db_after t)).2;
  w_HandleIsTaken t h := as_err (at_ t (λ w, ad_HandleIsTaken w h) (db_after t)).2;
  w_RenameHandle t id old new := as_err (at_ t (λ w, store_RenameHandleWithRedirect w id old new) (db_after t)).2;
  w_SoftDeleteSite t id := as_err (at_ t (λ w, ad_SoftDeleteSite w id) (db_after t)).2;
  w_SetPublished t id sha := as_err (at_ t (λ w, ad_SetPublished w id (Some sha)) (db_after t)).2;
  w_SetSiteRemote t id repo := as_err (at_ t (λ w, ad_SetSiteRemote w id repo) (db_after t)).2;
  w_Stat := @w_Stat base; w_MkdirAll := @w_MkdirAll base; w_OpenFile := @w_OpenFile base; w_Copy := @w_Copy base;
  w_WriteFile := @w_WriteFile base; w_ReadFile := @w_ReadFile base; w_ReadDir := @w_ReadDir base;
  w_RemoveAll := @w_RemoveAll base; w_MkdirTemp := @w_MkdirTemp base; w_Rename := @w_Rename base; w_Walk := @w_Walk base |}.

Lemma git_db_snoc t e : db_after (t ++ [e]) = db_effect t e (db_after t).
Proof. apply replay_snoc. Qed.
Lemma db_after_reads t m : Forall GitGuard.store_read m → db_after (t ++ m) = db_after t.
Proof.
  intros Hm. induction m as [|e m IH] using rev_ind; [by rewrite app_nil_r|]. apply Forall_app in Hm as [Hm He].
  rewrite app_assoc, git_db_snoc, IH by done. rewrite Forall_singleton in He. by destruct e.
Qed.

Lemma as_err_ok {A} (r : Res store_err A) a : as_err r = Ok a → r = Ok a.
Proof. by destruct r; intros [= ->]. Qed.
Lemma found_inv `{Faults} (w : Draws) (q : stmt DbSite) d rec : (found (direct w q) d).2 = Ok (Some rec) →
  ∃ s d', q (mkDraw (dr_now w) (dr_uuid w 0)) d = Ok (d', s) ∧ rec = siteRecordFromGen s.
Proof.
  unfold found. destruct (direct w q d) as [d' [s|e]] eqn:E; cbn [snd]; [|by destruct (IsNotFound e)]. intros [= <-].
  apply direct_cases in E as [(a & Hq & [[= ->]|[e [=]]])|[[e [=]] _]]. eauto.
Qed.
(** What a fresh answer says of the tables now *)
Section fresh.
Context `{GoUnicode} `{UUIDText} (cfg : GitService.Config) (c : GitPublish.call) (t : trace).
Abbreviation J := (@GitGuard.justified _ _ git_world cfg c) (only parsing).
Context (Hc : careful J t).

Lemma fresh_answer e : (@recent event GitGuard.store_read e t) → GitGuard.store_read e → ∃ p, J p e ∧ db_after p = db_after t.
Proof using Hc.
  intros (p & q & -> & Hq) He. exists p. split; [by eapply Hc|]. change (e :: q) with ([e] ++ q).
  rewrite db_after_reads; [done|]. by apply Forall_app; split; [apply Forall_singleton|].
Qed.
Lemma fresh_id id rec : db_ok (db_after t) → (@recent event GitGuard.store_read (EvGetSiteByID id (Ok (Some rec))) t) →
  ∃ s, sites (db_after t) !! id = Some s ∧ rec = siteRecordFromGen s.
Proof using Hc.
  intros Hd Hr. destruct (fresh_answer _ Hr I) as (p & Hj & Hp). cbn in Hj. symmetry in Hj.
  apply as_err_ok, found_inv in Hj as (s & d' & Hq & ->). unfold MetaDb.GetSiteByID in Hq. apply one_some in Hq as [_ Hin]. rewrite Hp in Hin.
  exists s. split; [|done]. destruct (sites (db_after t) !! id); cbn in Hin; [by apply list_elem_of_singleton in Hin as ->|by apply not_elem_of_nil in Hin].
Qed.
Lemma fresh_free h : (@recent event GitGuard.store_read (EvHandleIsTaken h (Ok false)) t) → redirects (db_after t) !! fold h = None.
Proof using Hc.
  intros Hr. destruct (fresh_answer _ Hr I) as (p & Hj & Hp). cbn in Hj. symmetry in Hj. apply as_err_ok in Hj.
  unfold under, ad_HandleIsTaken in Hj. destruct (direct _ _ _) as [d' r] eqn:E. cbn in Hj. subst r.
  apply direct_cases in E as [(a & Hq & [[= <-]|[e [=]]])|[[e [=]] _]]. unfold MetaDb.HandleIsTaken in Hq. injection Hq as _ Hq.
  apply orb_false_iff in Hq as [Hq _]. apply orb_false_iff in Hq as [_ Hq]. rewrite Hp in Hq. unfold has in Hq.
  apply bool_decide_eq_false in Hq. by apply eq_None_not_Some.
Qed.
Lemma fresh_own h rec : db_ok (db_after t) → (@recent event GitGuard.store_read (EvGetSiteByRedirect h (Ok (Some rec))) t) →
  hr_SiteID <$> redirects (db_after t) !! fold h = Some (rec_ID rec).
Proof using Hc.
  intros Hd Hr. destruct (fresh_answer _ Hr I) as (p & Hj & Hp). cbn in Hj. symmetry in Hj.
  apply as_err_ok, found_inv in Hj as (s & d' & Hq & ->). rewrite Hp in Hq. by apply GetSiteByRedirect_ok in Hq as (_ & _ & ?).
Qed.
End fresh.

(** *** One call *)

Lemma label_folds `{GoUnicode} h : ValidateHandle h = Ok tt → fold (to_lower h) = to_lower h.
Proof.
  intros Hv. assert (to_lower h = h) as ->; [|by apply ValidateHandle_iff in Hv as (_ & (_ & Hl & _) & _); apply fold_label].
  unfold ValidateHandle, validateHandleLen in Hv. case_hyp Hv. bool_hyps. done.
Qed.
Lemma direct_step `{Faults} (w : Draws) {A} (q : Query A) d : naming q = false → purge q = false →
  names_step d (direct w (exec q) d).1 ∧ rows_kept d (direct w (exec q) d).1.
Proof.
  intros Hq Hp. split; [by apply tame_step, direct_tame|]. destruct (direct w (exec q) d) as [d' r] eqn:E.
  apply direct_cases in E as [(a & Ha & _)|[_ ->]]; [by eapply exec_rows|apply rows_kept_refl].
Qed.
Lemma ad_create_inv `{Faults} (w : Draws) in_ d :
  ∃ arg, cp_Handle arg = sc_Handle in_ ∧ (ad_CreateSiteWithOwner w in_ d).1 = (store_CreateSiteWithOwner w arg d).1.
Proof.
  eexists. split; [|apply (mapped_fst siteRecordFromGen)]. done.
Qed.
Lemma event_step `{GoUnicode} `{UUIDText} cfg c t e :
  careful (@GitGuard.justified _ _ git_world cfg c) (t ++ [e]) → db_ok (db_after t) →
  db_ok (db_after (t ++ [e])) ∧ names_step (db_after t) (db_after (t ++ [e])) ∧ rows_kept (db_after t) (db_after (t ++ [e])).
Proof.
  intros Hc Hd. assert (careful (@GitGuard.justified _ _ git_world cfg c) t) as Ht.
  { intros p x q ->. apply (Hc p x (q ++ [e])). by rewrite <-app_assoc. }
  pose proof (Hc t e [] eq_refl) as He. rewrite git_db_snoc. set (d := db_after t) in *.
  destruct e; cbn [db_effect]; try (split; [done|split; [apply names_step_refl|apply rows_kept_refl]]); unfold under; cbv beta; set (F := ci_faults (env t)).
  - destruct He as [(h & Hv & Hh & Hfresh) _]. destruct (ad_create_inv (ci_draws (env t)) in_ d) as (arg & Harg & ->).
    destruct (store_CreateSiteWithOwner (ci_draws (env t)) arg d) as [d' r'] eqn:E. cbn [fst].
    split; [by eapply CreateSiteWithOwner_keeps|]. apply (fresh_free cfg c t Ht) in Hfresh.
    eapply create_step; [exact Hd|..|exact E]; rewrite Harg; [rewrite Hh; by apply label_folds|exact Hfresh].
  - destruct He as [(h & rec & Hv & Hh & Hne & Hrec & _ & Hold & Hown) _].
    destruct (store_RenameHandleWithRedirect (ci_draws (env t)) id old new d) as [d' r'] eqn:E. cbn [fst].
    assert (db_ok d') as Hd' by (by eapply RenameHandleWithRedirect_keeps). split; [done|].
    apply (fresh_id cfg c t Ht) in Hrec as (s & Hs & ->); [|done].
    eapply rename_step; [exact Hd|exact Hd'|by exists s| |exact Hne| |exact E]; [by rewrite Hh; apply label_folds|].
    destruct Hown as [Hfree|(rec' & Hr & <-)]; [left; by eapply (fresh_free cfg c t Ht)|right; by eapply (fresh_own cfg c t Ht)].
  - split; [apply (ask_db_keeps _ (SoftDeleteSite_ id) d Hd)|by apply (direct_step _ (SoftDeleteSite_ id))].
  - split; [apply (ask_db_keeps _ (SetPublished_ (Some sha) id) d Hd)|by apply (direct_step _ (SetPublished_ (Some sha) id))].
  - split; [apply (ask_db_keeps _ (SetSiteRemote_ repo id) d Hd)|by apply (direct_step _ (SetSiteRemote_ repo id))].
Qed.
Lemma trace_step `{GoUnicode} `{UUIDText} cfg c t :
  careful (@GitGuard.justified _ _ git_world cfg c) t → db_ok d0 →
  db_ok (db_after t) ∧ names_step d0 (db_after t) ∧ rows_kept d0 (db_after t).
Proof.
  intros Hc Hd. induction t as [|e t IH] using rev_ind; [split; [done|split; [apply names_step_refl|apply rows_kept_refl]]|].
  destruct IH as (Hd1 & Hn1 & Hk1).
  { intros p x q ->. apply (Hc p x (q ++ [e])). by rewrite <-app_assoc. }
  destruct (event_step _ _ _ _ Hc Hd1) as (Hd2 & Hn2 & Hk2). split; [done|]. split; [by eapply names_step_trans|by eapply rows_kept_trans].
Qed.
End world.

(** ** Calls and other operations in turn *)

Inductive step : Type :=
| Call (base : GitWorld.World) (env : GitWorld.trace → circumstances) (cfg : GitService.Config) (c : GitPublish.call)
| Other (x : circumstances) (o : db_op).

Section claims.
Context `{GoUnicode} `{GitParse.GoTime} `{UUIDText} `{GitWorld.TarReader} `{Postgres} `{AEAD}.

Definition run_step (d : DB) (s : step) : DB :=
  match s with
  | Call base env cfg c => db_after env d (@GitPublish.exec _ _ _ _ (git_world base env d) cfg c []).1
  | Other x o => run_op x o d
  end.
(** Between the calls, anything but the statements that give and take names *)
Definition names_op (o : db_op) : bool :=
  match o with OpQuery q => naming q | OpCreateSite _ | OpRename _ _ _ => true | _ => false end.
Definition allowed (s : step) : Prop := match s with Call _ _ _ _ => True | Other _ o => names_op o = false end.
Definition run (now : time) (l : list step) : DB := foldl run_step (migrated now) l.

Lemma run_snoc now l s : run now (l ++ [s]) = run_step (run now l) s.
Proof. unfold run. by rewrite foldl_app. Qed.
Lemma run_op_tame x o d : names_op o = false → tame d (run_op x o d).
Proof.
  intros Ho. destruct o as [A q|arg|id o n|in_|A c]; try discriminate Ho; cbn [run_op].
  - by apply direct_tame.
  - destruct (store_UpsertLogin _ _ _) as [d' r] eqn:E. apply tx_cases in E as [(s & u & Hm & -> & _)|[_ ->]]; [|apply tame_refl].
    run_inv Hm. run_inv Hk. injection Hk0 as -> _. apply wrap_inv, in_tx_inv in Hm as [Hm _]. apply wrap_inv, in_tx_inv in Hm0 as [Hm0 _].
    cbn [fst]. eapply tame_trans.
    + by eapply (exec_tame (UpsertUser_ (ul_Email in_) (ul_DisplayName in_) (ul_AvatarURL in_))); [|exact Hm0].
    + by eapply (exec_tame (UpsertIdentity_ _ _ _ _)); [|exact Hm].
  - destruct c; cbn [meta]; rewrite ?mapped_fst; try (by apply direct_tame); try (by apply tame_refl).
    unfold on_settings. destruct (SetGitHubConfig _ _ _ _). by apply tame_same.
Qed.
Lemma run_step_ok d s : allowed s → db_ok d → db_ok (run_step d s) ∧ names_step d (run_step d s).
Proof.
  intros Hs Hd. destruct s as [base env cfg c|x o]; cbn [run_step].
  - destruct (trace_step base env d cfg c _ (@GitSafety.exec_careful _ _ _ _ (git_world base env d) cfg c) Hd) as (? & ? & _). done.
  - split; [by apply run_op_keeps|]. by apply tame_step, run_op_tame.
Qed.
Lemma run_ok now l : Forall allowed l → db_ok (run now l) ∧ names_ok (run now l).
Proof.
  intros Hl. induction l as [|s l IH] using rev_ind; [split; [apply migrated_ok|done]|].
  apply Forall_app in Hl as [Hl Hs]. rewrite Forall_singleton in Hs. destruct (IH Hl) as [Hd Hn]. rewrite run_snoc.
  destruct (run_step_ok _ _ Hs Hd) as [Hd' [Hn' _]]. auto.
Qed.

(** C37 (invariant): names keep leading to their site, as long as calls do not overlap.
    From the migrations on, let calls of the git-backed service run one after
    another in any order, each to its end (two renames at once may break this,
    rename_race, since RenameHandle takes no lock), their store
    being the database and everything failing as it likes, with any requests of
    the control plane, logins, purges and other statements in between.  Then a
    name under which a site was ever found, its handle or a former one, finds that
    same site as long as it lives, whatever sites are created and renamed; and
    every live site is found by the handle it has. *)
Theorem names_kept (now : time) (l1 l2 : list step) (w : Draw) (h : string) (id : uuid) :
  Forall allowed (l1 ++ l2) → finds w h (run now l1) = Some id →
  (∀ l, l `prefix_of` l2 → live_at (run now (l1 ++ l)) id) →
  finds w h (run now (l1 ++ l2)) = Some id ∧
  (∀ i s, sites (run now (l1 ++ l2)) !! i = Some s → live s = true → finds w (st_Handle s) (run now (l1 ++ l2)) = Some i).
Proof.
  intros Hl Hf Hlive. destruct (run_ok now _ Hl) as [Hd Hn]. split.
  - apply finds_leads; [done..|]. revert Hl Hlive Hd Hn. induction l2 as [|s l IH] using rev_ind; intros Hl Hlive Hd Hn.
    { rewrite app_nil_r in *. by apply (finds_leads w). }
    rewrite app_assoc in *. apply Forall_app in Hl as [Hl Hs]. rewrite Forall_singleton in Hs. destruct (run_ok now _ Hl) as [Hd1 Hn1].
    assert (leads (run now (l1 ++ l)) h id) as Hlead.
    { apply IH; [done| |done..]. intros k Hk. apply Hlive. by apply prefix_app_r. }
    specialize (Hlive _ (reflexivity _)). rewrite app_assoc in Hlive.
    rewrite run_snoc in *. destruct (run_step_ok _ _ Hs Hd1) as [_ [_ Hk]]. by apply Hk.
  - intros i s Hs Hlv. apply finds_leads; [done..|]. exists s. auto.
Qed.
End claims.

(** ** A run: a site is renamed, and its former handle is not given away *)

#[local] Existing Instances ascii_only_unicode GitTheorems.sample_time GitTheorems.sample_text GitTheorems.sample_tar clear_cipher.

Definition sample_new (h : string) : CreateSiteInput := {|
  cs_Handle := h; cs_OwnerID := 1%N; cs_Visibility := ""; cs_PublishMode := ""; cs_GitHubRepo := ""; cs_Description := "";
  cs_Zip := None; cs_Actor := GitTheorems.sample_actor |}.
Definition sample_step (first : N) (c : GitPublish.call) : step :=
  Call GitTheorems.sample_world (λ _, calm_at 100%Z first) GitTheorems.sample_cfg c.
Definition sample_before : list step := [
  Other (calm_at 10%Z 1%N) (OpLogin (mkUpsert "oidc" "sub-ann" "Ann@example.com" "Ann" None));
  sample_step 7%N (GitPublish.CCreateSite (sample_new "notes"))].
Definition sample_after : list step := [
  sample_step 8%N (GitPublish.CRenameHandle 7%N "journal"); sample_step 9%N (GitPublish.CCreateSite (sample_new "notes"))].

Lemma prefix_take {A} (l k : list A) : l `prefix_of` k → ∃ n, n ≤ length k ∧ l = take n k.
Proof. intros [m ->]. exists (length l). rewrite length_app, take_app_length. split; [lia|done]. Qed.
Lemma names_kept_witness :
  finds (mkDraw 0%Z 0%N) "Notes" (run 0%Z (sample_before ++ sample_after)) = Some 7%N ∧
  st_Handle <$> sites (run 0%Z (sample_before ++ sample_after)) !! 7%N = Some "journal" ∧
  size (sites (run 0%Z (sample_before ++ sample_after))) = 1.
Proof.
  split; [|vm_compute; split; reflexivity].
  refine (proj1 (names_kept 0%Z sample_before sample_after (mkDraw 0%Z 0%N) "Notes" 7%N _ _ _)).
  - repeat constructor.
  - vm_compute. reflexivity.
  - intros l (n & Hn & ->)%prefix_take. destruct n as [|[|[|n]]]; [..|cbn in Hn; lia]; vm_compute; eexists; split; reflexivity.
Defined.
(** Calls that overlap are another matter: two renames that have both read the
    handle notes lose the name the first one gives. *)
Example rename_race :
  let w := mkDraw 0%Z 0%N in
  let rename new d := (store_RenameHandleWithRedirect (mkDraws 60%Z (λ _, 9%N)) 7%N "notes" new d).1 in
  let d1 := rename "journal" sample_db in
  finds w "journal" d1 = Some 7%N ∧ finds w "diary" (rename "diary" d1) = Some 7%N ∧ finds w "journal" (rename "diary" d1) = None.
Proof. vm_compute. done. Qed.
