(* ===== verification/MetaOps.v ===== *)
(** * The background jobs over the metadata database (app/opsadapter.go)

    The reaper of Ops with the store it is given: [ops_world] answers its questions
    from the tables, between which the rest of the program goes on ([others]).
    What it destroys was deleted long enough ago. *)

From S2P Require Import Prelude Trace GoStrings Encoding SiteErrors SiteTypes Handle Http Preview Access Wire ApiWorld SecretBox Settings.
From S2P Require Import MetaDb MetaDbFacts OidcCfg Providers MetaStore MetaFlows MetaGit.
From S2P Require Ops.

(** ** The adapter *)

Section adapter.
Context `{Postgres} `{Faults} (w : Draws) (marshal : list (string * json) → bytes).
Abbreviation DBM A := (M DB store_err A) (only parsing).

Definition op_ListSitesPastGrace (cutoff : time) : DBM (list Ops.SoftDeletedSite) :=
  let! rows := direct w (ListSitesForReaper cutoff) in
  ok ((λ s, Ops.mkDeleted (st_ID s) (st_Handle s) (default 0%Z (st_DeletedAt s))) <$> rows).
Definition op_HardDeleteSite (id : uuid) : DBM unit := direct w (HardDeleteSite id).
Definition op_ListLiveSiteIDs : DBM (list uuid) := direct w ListLiveSiteIDs.
Definition op_InsertSystemAudit (id : uuid) (action : string) (meta : list (string * string)) : DBM unit :=
  direct w (InsertAudit (mkInsertAudit None (Some id) None action "system" None (marshal ((λ kv, (kv.1, JStr kv.2)) <$> meta)))).
End adapter.

(** ** Soft-deleted rows *)

Section rows.
Context `{Postgres}.

(** Deletion times never change, and new rows have identifiers just drawn. *)
Definition frozen (drawn : uuid → Prop) (d d' : DB) : Prop :=
  (∀ id s t, sites d !! id = Some s → st_DeletedAt s = Some t → ∃ s', sites d' !! id = Some s' ∧ st_DeletedAt s' = Some t) ∧
  (∀ id, is_Some (sites d' !! id) → is_Some (sites d !! id) ∨ drawn id).
Lemma frozen_refl p d : frozen p d d.
Proof. split; eauto. Qed.
Lemma frozen_same p d d' : sites d' = sites d → frozen p d d'.
Proof. intros Hs. unfold frozen. rewrite Hs. apply frozen_refl. Qed.
Lemma frozen_trans p d1 d2 d3 : frozen p d1 d2 → frozen p d2 d3 → frozen p d1 d3.
Proof.
  intros [F1 N1] [F2 N2]. split.
  - intros id s t Hs Ht. destruct (F1 _ _ _ Hs Ht) as (s2 & Hs2 & Ht2). eauto.
  - intros id [[?|?]%N1|?]%N2; auto.
Qed.
Lemma frozen_update p id f w d d' a :
  (∀ s t, sites d !! id = Some s → st_DeletedAt s = Some t → st_DeletedAt (f s) = Some t) → update_site id f w d = Ok (d', a) → frozen p d d'.
Proof.
  intros Hf [->|(s & s' & Hs & -> & _ & Hdel)]%update_site_plain; [apply frozen_refl|]. split; cbn [sites with_sites].
  - intros i x t Hx Ht. destruct (decide (i = id)) as [->|Hi]; [|rewrite lookup_insert_ne by done; eauto].
    rewrite lookup_insert_eq. simplify_eq. exists s'. split; [done|]. rewrite Hdel. by apply Hf.
  - intros i. destruct (decide (i = id)) as [->|Hi]; [by rewrite Hs; eauto|]. rewrite lookup_insert_ne by done. auto.
Qed.
Lemma frozen_insert (p : uuid → Prop) d d' id s : sites d !! id = None → p id → sites d' = <[id := s]> (sites d) → frozen p d d'.
Proof.
  intros Hn Hp He. unfold frozen. rewrite He. split.
  - intros i x t Hx Ht. exists x. rewrite lookup_insert_ne; [done|]. intros <-. by rewrite Hn in Hx.
  - intros i. destruct (decide (i = id)) as [->|]; [by right|]. rewrite lookup_insert_ne by done. auto.
Qed.
Lemma exec_frozen {A} (q : Query A) w d d' a : purge q = false → exec q w d = Ok (d', a) → frozen (λ i, i = d_uuid w) d d'.
Proof.
  intros Hp Hq. destruct (naming q) eqn:Hn.
  - destruct q; try discriminate Hn; cbn [exec] in Hq.
    + apply CreateSite_inv in Hq as (-> & Hnone & _). by eapply frozen_insert; [exact Hnone| |reflexivity].
    + unfold DeleteRedirect in Hq. case_hyp Hq; injection Hq as <- _; by apply frozen_same.
    + unfold InsertRedirect in Hq. cbv zeta in Hq. take_bind Hq. injection Hq as <- _. by apply frozen_same.
    + by eapply frozen_update; [|exact Hq].
  - destruct (exec_cases q w d d' a Hn Hq) as [[Hs _]|[(id & Hp' & _)|(id & f & Hf & Hu)]]; [by apply frozen_same|congruence|].
    eapply frozen_update; [|exact Hu]. intros s t Hs. by apply (Hf s Hs).
Qed.
Lemma frozen_mono (p p' : uuid → Prop) d d' : frozen p d d' → (∀ i, p i → p' i) → frozen p' d d'.
Proof. intros [F N] Hp. split; [done|]. intros i [?|?]%N; auto. Qed.

Definition drawn (w : Draws) (i : uuid) : Prop := ∃ n, i = dr_uuid w n.
Section flows.
Context `{Faults} (w : Draws).
Definition tx_frozen {A} (m : M (Tx DB) store_err A) : Prop :=
  ∀ s s' a, m s = (s', Ok a) → frozen (drawn w) (tx_tables s) (tx_tables s').
Lemma tx_frozen_query {A} p (q : Query A) : purge q = false → tx_frozen (wrap p (in_tx w (exec q))).
Proof.
  intros Hp s s' a Hr%wrap_inv%in_tx_inv. destruct Hr as [Hr _]. eapply frozen_mono; [by eapply exec_frozen|].
  intros i ->. by eexists.
Qed.
Lemma tx_frozen_bind {A B} (m : M (Tx DB) store_err A) (k : A → M (Tx DB) store_err B) :
  tx_frozen m → (∀ a, tx_frozen (k a)) → tx_frozen (bindM m k).
Proof. intros Hm Hk s s' b Hr. run_inv Hr. eapply frozen_trans; [by eapply Hm|by eapply Hk]. Qed.
Lemma tx_frozen_ok {A} (a : A) : tx_frozen (ok a).
Proof. intros s s' b [= <- <-]. apply frozen_refl. Qed.
Lemma WithTx_frozen {A} (m : M (Tx DB) store_err A) d : tx_frozen m → frozen (drawn w) d (WithTx m d).1.
Proof.
  intros Hm. destruct (WithTx m d) as [d' r] eqn:E. apply tx_cases in E as [(s & a & Hr & -> & _)|[_ ->]]; [|apply frozen_refl].
  by apply Hm in Hr.
Qed.
Lemma direct_frozen {A} (q : Query A) d : purge q = false → frozen (drawn w) d (direct w (exec q) d).1.
Proof.
  intros Hp. destruct (direct w (exec q) d) as [d' r] eqn:E. apply direct_cases in E as [(a & Ha & _)|[_ ->]]; [|apply frozen_refl].
  eapply frozen_mono; [by eapply exec_frozen|]. intros i ->. by eexists.
Qed.
End flows.
Definition purges (o : db_op) : bool := match o with OpQuery q => purge q | _ => false end.
Lemma run_op_frozen `{AEAD} x o d : purges o = false → frozen (drawn (ci_draws x)) d (run_op x o d).
Proof.
  intros Ho. destruct o as [A q|arg|id o n|in_|A c]; cbn [run_op].
  - by apply direct_frozen.
  - apply WithTx_frozen. apply tx_frozen_bind; [by apply (tx_frozen_query _ _ (CreateSite_ arg))|]. intros s.
    apply tx_frozen_bind; [by apply (tx_frozen_query _ _ (AddOwnerMembership_ _ _))|]. intros _. apply tx_frozen_ok.
  - apply WithTx_frozen. apply tx_frozen_bind; [by apply (tx_frozen_query _ _ (DeleteRedirect_ n id))|]. intros _.
    apply tx_frozen_bind; [by apply (tx_frozen_query _ _ (InsertRedirect_ o id))|]. intros _. by apply (tx_frozen_query _ _ (RenameHandle_ n id)).
  - apply WithTx_frozen. apply tx_frozen_bind; [by apply (tx_frozen_query _ _ (UpsertUser_ _ _ _))|]. intros u.
    apply tx_frozen_bind; [by apply (tx_frozen_query _ _ (UpsertIdentity_ _ _ _ _))|]. intros _. apply tx_frozen_ok.
  - destruct c; cbn [meta]; rewrite ?mapped_fst; try (by apply direct_frozen); try (by apply frozen_refl).
    unfold on_settings. destruct (SetGitHubConfig _ _ _ _). by apply frozen_same.
Qed.
End rows.

(** ** The jobs in the world of the database *)

Section world.
Context `{UUIDText} `{UUIDParse} `{Postgres} `{AEAD} (base : Ops.Env) (d0 : DB).
(** The circumstances of the jobs' statements, and what the rest of the program
    does to the tables before each step of theirs *)
Context (env : Ops.trace → circumstances) (others : Ops.trace → list (circumstances * db_op)).
Import Ops.

Definition meanwhile (pre : trace) (d : DB) : DB := foldl (λ d x, run_op x.1 x.2 d) d (others pre).
Definition db_effect (pre : trace) (e : event) (d : DB) : DB :=
  let x := env pre in let F := ci_faults x in
  match e with
  | EvHardDeleteSite id _ => (op_HardDeleteSite (ci_draws x) id d).1
  | EvInsertSystemAudit id action meta => (op_InsertSystemAudit (ci_draws x) (ci_marshal x) id action meta d).1
  | _ => d
  end.
(** The tables after a trace, and those the next step meets *)
Definition db_after (tr : trace) : DB := replay (λ pre e d, db_effect pre e (meanwhile pre d)) [] tr d0.
Definition db_at (tr : trace) : DB := meanwhile tr (db_after tr).
Definition text {A} (r : Res store_err A) : Res string A := match r with Ok a => Ok a | Err e => Err (errText e) end.
Definition ops_world : Env := {|
  env_now := @env_now base; env_ctxErr := @env_ctxErr base; env_Exists := @env_Exists base; env_ListDir := @env_ListDir base;
  env_MkdirAll := @env_MkdirAll base; env_RemoveAll := @env_RemoveAll base; env_Remove := @env_Remove base; env_Git := @env_Git base;
  env_ListSitesPastGrace t cutoff :=
    text (let F := ci_faults (env t) in op_ListSitesPastGrace (ci_draws (env t)) cutoff (db_at t)).2;
  env_HardDeleteSite t id := text (let F := ci_faults (env t) in op_HardDeleteSite (ci_draws (env t)) id (db_at t)).2;
  env_ListLiveSiteIDs t := text (let F := ci_faults (env t) in op_ListLiveSiteIDs (ci_draws (env t)) (db_at t)).2 |}.
Lemma ops_db_snoc t e : db_after (t ++ [e]) = db_effect t e (db_at t).
Proof. unfold db_at, db_after. by rewrite replay_snoc. Qed.
Lemma db_at_ok t : db_ok d0 → db_ok (db_at t).
Proof.
  intros Hd. assert (∀ t d, db_ok d → db_ok (meanwhile t d)) as Hm.
  { intros t' d Hok. unfold meanwhile. revert d Hok. induction (others t') as [|x l IH]; intros d Hok; cbn [foldl]; auto using run_op_keeps. }
  induction t as [|e t IH] using rev_ind; [by apply Hm|]. unfold db_at at 1. apply Hm. rewrite ops_db_snoc.
  destruct e; cbn [db_effect]; try done; apply (run_op_keeps (env t) (OpQuery (HardDeleteSite_ id)) _ IH) ||
    apply (run_op_keeps (env t) (OpQuery (InsertAudit_ _)) _ IH).
Qed.

(** ** What is destroyed was deleted long ago *)

Definition named (t : trace) (id : uuid) : Prop := ∃ c l s, EvListSitesPastGrace c (Ok l) ∈ t ∧ s ∈ l ∧ ds_ID s = id.
(** During a run, the rest of the program deletes no rows, and gen_random_uuid() does
    not draw an identifier again that a listing has named. *)
Definition lawful (run : trace) : Prop :=
  ∀ t x o, t `prefix_of` run → (x, o) ∈ others t → purges o = false ∧ ∀ id, named t id → ¬ drawn (ci_draws x) id.
Definition kept (id : uuid) (u : time) (d : DB) : Prop := ∀ s, sites d !! id = Some s → st_DeletedAt s = Some u.
Lemma kept_frozen p id u d d' : frozen p d d' → ¬ p id → kept id u d → kept id u d'.
Proof.
  intros [Hf Hn] Hp Hk s' Hs'. destruct (Hn id) as [[s Hs]|]; [by eexists| |done].
  destruct (Hf _ _ _ Hs (Hk _ Hs)) as (x & Hx & Hd). by simplify_eq.
Qed.
Lemma effect_sites t e d id s : sites (db_effect t e d) !! id = Some s → sites d !! id = Some s.
Proof.
  destruct e; cbn [db_effect]; try done; set (F := ci_faults (env t)).
  - unfold op_HardDeleteSite. destruct (direct _ _ _) as [d' r'] eqn:E. apply direct_cases in E as [(a & Hq & _)|[_ ->]]; [|done].
    injection Hq as <- _. cbn [fst sites]. by intros [_ ?]%lookup_delete_Some.
  - unfold op_InsertSystemAudit. destruct (direct _ _ _) as [d' r'] eqn:E. apply direct_cases in E as [(a & Hq & _)|[_ ->]]; [|done].
    unfold InsertAudit in Hq. cbv zeta in Hq. take_bind Hq. by injection Hq as <- _.
Qed.
Lemma kept_snoc run t e id u : lawful run → t ++ [e] `prefix_of` run → named (t ++ [e]) id → kept id u (db_at t) → kept id u (db_at (t ++ [e])).
Proof.
  intros Hl Hrun Hn Hk. unfold db_at at 1, meanwhile. rewrite ops_db_snoc.
  assert (kept id u (db_effect t e (db_at t))) as Hk' by (intros s Hs%effect_sites; by apply Hk).
  specialize (λ x o, Hl (t ++ [e]) x o Hrun). revert Hl Hk'. generalize (db_effect t e (db_at t)). generalize (others (t ++ [e])).
  induction l as [|[x o] l IH]; intros d Hl Hk'; [done|]. cbn [foldl fst snd]. apply IH; [intros y p Hy; apply Hl; by right|].
  destruct (Hl x o) as [Hp Hd]; [left|]. eapply kept_frozen; [by apply run_op_frozen|by apply Hd|done].
Qed.

Section claim.
Context (cfg : Config).
Abbreviation justified := (@Ops.justified _ ops_world cfg) (only parsing).
(** If [id] has a row, the site was deleted more than the grace period before an
    earlier reading of the clock. *)
Definition expired (pre : trace) (id : uuid) : Prop :=
  ∀ s, sites (db_at pre) !! id = Some s →
  ∃ del p, st_DeletedAt s = Some del ∧ p `prefix_of` pre ∧ (del < @env_now base p - Grace cfg)%Z.

Lemma listed_deleted t cutoff l s : db_ok (db_at t) → @env_ListSitesPastGrace ops_world t cutoff = Ok l → s ∈ l →
  ∃ u, (u < cutoff)%Z ∧ kept (ds_ID s) u (db_at t).
Proof.
  intros Hd Hl Hs. cbn in Hl. unfold op_ListSitesPastGrace, bindM in Hl. destruct (direct _ _ _) as [d' r] eqn:E. cbn in Hl.
  apply direct_cases in E as [(a & Hq & [->|[e ->]])|[[e ->] _]]; [|done..]. cbn in Hl. injection Hl as <-.
  unfold ListSitesForReaper, many in Hq. injection Hq as _ <-.
  apply list_elem_of_fmap in Hs as (x & -> & Hx). unfold oldest in Hx. rewrite merge_sort_Permutation in Hx.
  unfold sites_where in Hx. apply filter_elem in Hx as [Hx Hlt]. apply rows_elem in Hx as [k Hk]. destruct (ok_sites _ Hd _ _ Hk) as [Hid _].
  cbn in Hid. destruct (st_DeletedAt x) as [u|] eqn:Hu; [|done]. exists u. apply Z.ltb_lt in Hlt. split; [done|].
  cbn [ds_ID]. rewrite Hid. intros y Hy. by simplify_eq.
Qed.
Lemma past_expired run pre s : lawful run → pre `prefix_of` run → db_ok d0 → careful justified pre → @past_grace ops_world cfg pre s → expired pre (ds_ID s).
Proof.
  intros Hlaw Hrun Hd Hc (_ & p & l & post & -> & Hs). pose proof (Hc p _ post eq_refl) as He. cbn [Ops.justified] in He. symmetry in He.
  destruct (listed_deleted p _ l s (db_at_ok p Hd) He Hs) as (u & Hu & Hk).
  intros x Hx. exists u, p. split_and!; [|by apply prefix_app_r|exact Hu]. revert x Hx. change (kept (ds_ID s) u (db_at (p ++ EvListSitesPastGrace (@env_now base p - Grace cfg)%Z (Ok l) :: post))).
  clear Hc. induction post as [|e post IH] using rev_ind.
  - eapply kept_snoc; [done..| |done]. eexists _, _, s. split; [by apply elem_of_app; right; left|done].
  - rewrite app_comm_cons, app_assoc in *. eapply kept_snoc; [done..| |apply IH; by eapply prefix_app_l].
    eexists _, _, s. split; [|done]. rewrite !elem_of_app. by left; right; left.
Qed.

(** C38 (safety): nothing is destroyed before its time.  Let the scheduler run for
    any number of ticks over the database, while the rest of the program goes on
    between its steps: calls, requests, logins, in any circumstances.  A repository
    is only removed for a site, and a site's row only ever goes, when that site was
    soft-deleted longer than the grace period before a reading of the clock.  So a
    site that is live, or was deleted within the grace period, is not touched, and
    its deletion cannot be back-dated. *)
Theorem grace_kept (n : nat) (pre : trace) (e : event) (post : trace) :
  lawful (@loop _ _ ops_world cfg n []) → db_ok d0 → @loop _ _ ops_world cfg n [] = pre ++ e :: post →
  (∀ p r, e = EvRemoveAll p r → ∃ id, p = repoDir cfg id ∧ expired pre id) ∧
  (∀ id, is_Some (sites (db_at pre) !! id) → sites (db_after (pre ++ [e])) !! id = None → expired pre id).
Proof.
  intros Hlaw Hd Heq.
  assert (careful justified (pre ++ e :: post)) as Hc.
  { intros p x q Hq. eapply loop_careful. by rewrite Heq. }
  assert (careful justified pre) as Hp by (intros p x q ->; apply (Hc p x (q ++ e :: post)); by rewrite <-app_assoc).
  assert (pre `prefix_of` @loop _ _ ops_world cfg n []) as Hpre by (rewrite Heq; by apply prefix_app_r).
  pose proof (Hc pre e post eq_refl) as He. split.
  - intros p r ->. destruct He as (s & Hs & -> & _). exists (ds_ID s). split; [done|]. by eapply past_expired.
  - intros id [s Hs] Hn. rewrite ops_db_snoc in Hn. destruct e; cbn [db_effect] in Hn; try congruence.
    + destruct He as (x & Hx & -> & _). unfold op_HardDeleteSite in Hn. destruct (decide (id = ds_ID x)) as [->|Hne]; [by eapply past_expired|].
      destruct (direct _ _ _) as [d' r'] eqn:E. cbn [fst] in Hn.
      apply direct_cases in E as [(a & Hq & _)|[_ ->]]; [|congruence].
      injection Hq as <- _. cbn [sites] in Hn. rewrite lookup_delete_ne in Hn by done. congruence.
    + unfold op_InsertSystemAudit in Hn. destruct (direct _ _ _) as [d' r'] eqn:E. cbn [fst] in Hn.
      apply direct_cases in E as [(a & Hq & _)|[_ ->]]; [|congruence].
      unfold InsertAudit in Hq. cbv zeta in Hq. take_bind Hq. injection Hq as <- _. cbn [sites with_audit] in Hn. congruence.
Qed.
End claim.
End world.

(** ** A run: the site 7 was deleted long ago, and meanwhile people sign in *)

#[local] Existing Instances ascii_only_unicode clear_cipher Ops.sample_ids.
#[local] Instance sample_parse : UUIDParse := {| uuid_Parse _ := Some 7%N |}.

Definition sample_deleted : DB := run_op (calm_at 60%Z 9%N) (OpQuery (SoftDeleteSite_ 7%N)) sample_db.
Definition sample_base : Ops.Env := Ops.sample_env (Ok tt).
Definition sample_circ : Ops.trace → circumstances := λ _, calm_at 80%Z 20%N.
Definition sample_others (t : Ops.trace) : list (circumstances * db_op) :=
  let n := N.of_nat (length t) in
  [(calm_at 70%Z (100 + n)%N, OpLogin (mkUpsert "oidc" ("sub-" +:+ digits 16 n) (digits 16 n +:+ "@example.com") "Eve" None))].
Definition sample_world : Ops.Env := ops_world sample_base sample_deleted sample_circ sample_others.
Definition sample_run : Ops.trace := @Ops.loop _ _ sample_world Ops.sample_ops 0 [].

Definition names (e : Ops.event) : list uuid := match e with Ops.EvListSitesPastGrace _ (Ok l) => Ops.ds_ID <$> l | _ => [] end.
Lemma named_names t id : named t id → id ∈ t ≫= names.
Proof.
  intros (c & l & s & He & Hs & <-). apply list_elem_of_bind. eexists. split; [|exact He]. cbn [names].
  apply list_elem_of_fmap. eauto.
Qed.
Lemma sample_lawful : lawful sample_others sample_run.
Proof.
  intros t x o [q Hq] [= -> ->]%list_elem_of_singleton. split; [done|].
  intros id Hn%named_names [n Hd]. assert (id ∈ sample_run ≫= names) as Hin by (rewrite Hq, bind_app; apply elem_of_app; by left).
  replace (sample_run ≫= names) with [7%N] in Hin by (vm_compute; reflexivity).
  apply list_elem_of_singleton in Hin. cbn in Hd. lia.
Qed.
Lemma grace_kept_witness :
  let tr := sample_run in let at_ := db_at sample_deleted sample_circ sample_others (take 9 tr) in
  tr !! 9 = Some (Ops.EvHardDeleteSite 7%N (Ok tt)) ∧
  is_Some (sites at_ !! 7%N) ∧ sites (db_after sample_deleted sample_circ sample_others (take 10 tr)) !! 7%N = None ∧
  size (MetaDb.users at_) = 12 ∧
  expired sample_base sample_deleted sample_circ sample_others Ops.sample_ops (take 9 tr) 7%N.
Proof.
  intros tr at_. assert (tr !! 9 = Some (Ops.EvHardDeleteSite 7%N (Ok tt))) as H9 by (vm_compute; reflexivity).
  assert (sites (db_after sample_deleted sample_circ sample_others (take 10 tr)) !! 7%N = None) as Hgone by (vm_compute; reflexivity).
  assert (is_Some (sites at_ !! 7%N)) as Hrow by (vm_compute; eexists; reflexivity).
  split; [exact H9|]. split; [exact Hrow|]. split; [exact Hgone|]. split; [vm_compute; reflexivity|].
  refine (proj2 (grace_kept sample_base sample_deleted sample_circ sample_others Ops.sample_ops 0 (take 9 tr)
                   (Ops.EvHardDeleteSite 7%N (Ok tt)) (drop 10 tr) sample_lawful _ _) 7%N Hrow _).
  - apply run_op_keeps, sample_db_ok.
  - symmetry. exact (take_drop_middle tr 9 _ H9).
  - rewrite <-(take_S_r _ _ _ H9). exact Hgone.
Defined.
