(* ===== verification/App.v ===== *)
(** * The composition root (app/app.go)

    How the parts get their configuration and each other: the secrets, the mirror,
    the limiters, the resolver of the data plane, the gate of the TLS edge over the
    database, and what [New] holds when it fails.

    The gate and the data plane agree on what a host name is. *)

From S2P Require Import Prelude GoStrings Encoding SiteTypes Http GoURL Preview SecretBox Wire ApiWorld Settings MetaDb MetaDbFacts MetaStore.
From S2P Require GitRunner Config Zip Resolver ServeHeaders Serve RateLimit GitWorld GitService Ops DomainCfg OidcCfg TlsEdge MetaGit.

Definition sitesSubdir : string := "sites".

(** ** Values derived from the configuration *)

Section derived.
Context `{GoUnicode} `{Crypto} (cfg : Config.Config).
Abbreviation oidcSecret := (Config.ClientSecret (Config.cfg_OIDC cfg)) (only parsing).

Definition previewSecret : bytes :=
  Secret (Config.SecretKey cfg) (Config.AdminPassword cfg) oidcSecret (Config.cfg_ControlBaseURL cfg) (Config.cfg_BaseDomain cfg).
Definition secretKey : bytes :=
  ResolveKey (Config.SecretKey cfg) (Config.AdminPassword cfg) oidcSecret (Config.cfg_ControlBaseURL cfg) (Config.cfg_BaseDomain cfg).
(** [None]: the key has not the right length *)
Definition newSecretBox : option Box :=
  if Config.IsProduction cfg && negb (ExplicitKeyProvided (Config.SecretKey cfg)) then NewSealDisabled secretKey else SecretBox.New secretKey.
(** The signer of the control plane and the verifier of the data plane *)
Definition previewSigner (realNow : nat → time) : option GrantAuthzConfig :=
  match NewGrantAuthz (mkGrantCfg previewSecret (Config.cfg_CookieSecure cfg) 0 realNow None) with
  | Ok a => Some a
  | Err _ => None
  end.
Definition originOf (rawURL : string) : string :=
  if (rawURL =? "")%string then ""
  else match url_Parse rawURL with
       | Some u => if (u_Scheme u =? "")%string || (u_Host u =? "")%string then "" else u_Scheme u +:+ "://" +:+ u_Host u
       | None => ""
       end.
Definition servedSecurityConfig (controlBaseURL : string) : ServeHeaders.SecurityHeaderConfig :=
  ServeHeaders.DefaultSecurityHeaderConfigForControl (originOf controlBaseURL).
Definition buildOps : Ops.Config :=
  Ops.New (Ops.mkOps (filepath_Join [Config.DataDir cfg; sitesSubdir]) (Config.BackupDir cfg) (Config.SoftDeleteGrace cfg)
             (Config.OpsInterval cfg) true true).
End derived.

(** ** The configuration of the site service *)

Definition zipConfig (z : Config.ZipLimits) : Zip.ZipConfig := {|
  Zip.MaxUploadBytes := Config.zl_MaxUploadBytes z; Zip.MaxUncompressedBytes := Config.zl_MaxTotalBytes z;
  Zip.MaxEntries := Config.zl_MaxFiles z; Zip.MaxEntryUncompressed := Config.zl_MaxEntryBytes z;
  Zip.MaxCompressionRatio := Config.zl_MaxRatio z; Zip.AllowedExt := Config.zl_AllowedExt z |}.
(** The GitHub settings of the database before those of the environment; [gh] is
    what GetGitHubConfig answers. *)
Definition MirrorToken (env : Config.GitHubMirror) (gh : Res store_err GitHubConfig) : string * string :=
  match gh with
  | Ok gh => if gh_TokenSet gh then (gh_Token gh, "") else (Config.gm_Token env, "")
  | Err _ => (Config.gm_Token env, "")
  end.
Definition MirrorEnabled (env : Config.GitHubMirror) (gh : Res store_err GitHubConfig) : bool :=
  let enabled := Config.gm_Enabled env in
  let tokenPresent := negb (Config.gm_Token env =? "")%string in
  match gh with
  | Ok gh => (if gh_EnabledSet gh then gh_Enabled gh else enabled) && (if gh_TokenSet gh then true else tokenPresent)
  | Err _ => enabled && tokenPresent
  end.
(** [store]: nil, or what it answers at each point of a call *)
Definition siteConfig (cfg : Config.Config) (store : option (GitWorld.trace → Res store_err GitHubConfig)) : GitService.Config := {|
  GitService.Root := filepath_Join [Config.DataDir cfg; sitesSubdir]; GitService.GitBin := Config.GitBin cfg;
  GitService.MirrorOn := Config.gm_Enabled (Config.cfg_GitHub cfg); GitService.ListLimit := 0; GitService.MaxLogLimit := 0;
  GitService.GitHubToken := Config.gm_Token (Config.cfg_GitHub cfg); GitService.GitHubUser := "";
  GitService.MirrorToken := (λ rd t, MirrorToken (Config.cfg_GitHub cfg) (rd t)) <$> store;
  GitService.MirrorEnabled := (λ rd t, MirrorEnabled (Config.cfg_GitHub cfg) (rd t)) <$> store;
  GitService.ZipLimits := zipConfig (Config.cfg_Zip cfg); GitService.SiteQuotaBytes := Config.SiteQuotaBytes cfg;
  GitService.GitOpTimeout := 0 |}.
(** The secret of the webhook receiver, [None] when it is not mounted *)
Definition webhookSecret (cfg : Config.Config) : option string :=
  if Config.gm_Enabled (Config.cfg_GitHub cfg) then Some (Config.gm_WebhookSecret (Config.cfg_GitHub cfg)) else None.

(** ** Limiters: nil when the rate is not positive *)

Section limiters.
Context `{RateLimit.TokenBucket} (cfg : Config.Config) (now : time).
Definition limiter (rps : Z) (keyer : Request → string) : option (RateLimit.Limiter * (Request → string)) :=
  if (rps <=? 0)%Z then None else Some (RateLimit.New (RateLimit.mkConfig (RateLimit.mkRate rps 1) 0 0) now, keyer).
Definition sessionCookie : string :=
  if Config.cfg_CookieSecure cfg then "__Host-" +:+ Config.SessionCookieName cfg else Config.SessionCookieName cfg.
Definition controlKey (r : Request) : string :=
  let ip := "ip:" +:+ RateLimit.ClientIP r (Config.TrustProxyHeaders cfg) in
  match cookie r sessionCookie with
  | Some v => if negb (v =? "")%string then "sess:" +:+ v else ip
  | None => ip
  end.
Definition controlLimiter := limiter (Config.RateLimitAPIRPS cfg) controlKey.
Definition serveLimiter := limiter (Config.RateLimitServeRPS cfg) (λ r, RateLimit.ClientIP r (Config.TrustProxyHeaders cfg)).
End limiters.

(** ** Domains, the data plane and the TLS edge *)

Section domains.
Context `{GoUnicode} (cfg : Config.Config).
(** What the provider of the effective domain has: the answer of the store and its cache *)
Context (rd : Res store_err DomainConfig) (k : DomainCfg.read_cache DomainConfig).

Definition domain : DomainCfg.DomainProvider :=
  DomainCfg.NewDomain true (Config.cfg_BaseDomain cfg) (Config.BaseDomainEnvSet cfg) (Config.cfg_ControlBaseURL cfg) (Config.ControlBaseURLEnvSet cfg).
Definition dynamicBaseDomainFunc : option (Request → string) :=
  if Config.BaseDomainEnvSet cfg then None
  else Some (λ r, DomainCfg.Value (DomainCfg.rs_BaseDomain (DomainCfg.Resolve domain rd (Some r) k).2)).
Definition effectiveControlHost : string := DomainCfg.rs_ControlHost (DomainCfg.Resolve domain rd None k).2.
Definition newDataResolver : Resolver.DefaultResolver :=
  @Resolver.NewResolverWith _
    (Resolver.mkConfig (Config.cfg_BaseDomain cfg) "" (Config.TrustProxyHeaders cfg) dynamicBaseDomainFunc).
Definition data_resolve (r : Request) : Res Resolver.verr Resolver.Target :=
  match @Resolver.Resolve _ Resolver.builtinValidator newDataResolver r with Ok t => Ok t | Err e => Err (Resolver.VResolve e) end.

(** The two lookups of siteExists are statements of their own. *)
Section exists_.
Context `{Postgres} (F1 F2 : Faults) (w : Draws).
Definition siteExists (handle : string) : M DB store_err bool := λ d,
  match (let F := F1 in direct w (GetSiteByHandle handle)) d with
  | (d, Ok _) => (d, Ok true)
  | (d, Err e) =>
      if negb (IsNotFound e) then (d, Err e)
      else match (let F := F2 in direct w (GetSiteByRedirect handle)) d with
           | (d, Ok _) => (d, Ok true)
           | (d, Err e) => if negb (IsNotFound e) then (d, Err e) else (d, Ok false)
           end
  end.
End exists_.

(** The gate of a handshake over the tables: [dbs t] is the database at time [t]. *)
Context `{Postgres} (dbs : time → DB) (F1 F2 : time → Faults) (w : Draws).
Definition exists_at (t : time) (handle : string) : Res string bool :=
  match (siteExists (F1 t) (F2 t) w handle (dbs t)).2 with Ok b => Ok b | Err e => Err (errText e) end.
Definition decider : TlsEdge.Decider := TlsEdge.mkDecider (λ _, effectiveControlHost) data_resolve exists_at.
End domains.

(** ** The data plane *)

Section data_plane.
Context `{GoUnicode} `{Crypto} `{UUIDText} `{UUIDParse} (cfg : Config.Config) (realNow : nat → time).
(** The resolver, the trees of the site service and the control plane, if it shares
    the listener, are given. *)
Definition dataHandler (res : Request → Res Resolver.verr Resolver.Target) (trees : Resolver.Target → Res Serve.tree_err Serve.TreeHandle)
    (control : option TlsEdge.http_handler) : Serve.Handler :=
  Serve.NewHandler (Serve.mkDeps res trees (Authorize <$> previewSigner cfg realNow) control
    (servedSecurityConfig (Config.cfg_ControlBaseURL cfg)) (Serve.mkCache (Config.AssetMaxAge cfg * second) false false false) 0).
End data_plane.

(** ** Routers, engine *)

Section routers.
Context {R : Type} (cfg : Config.Config).
(** A router is built, or nil. *)
Definition ControlRouter (control : R) : option R := if negb (Config.ServesControl cfg) then None else Some control.
Definition ServeRouter (wrapDataRouter : option R → R) : option R :=
  if negb (Config.ServesData cfg) then None else Some (wrapDataRouter None).
Definition CombinedRouter (wrapDataRouter : option R → R) (control : R) : option R :=
  if negb (Config.ServesData cfg) || negb (Config.ServesControl cfg) then None else Some (wrapDataRouter (ControlRouter control)).
End routers.

Section engine.
Context `{TlsEdge.CertMagic} `{Serve.GoHTTP} (challenge : TlsEdge.http_handler → TlsEdge.http_handler) (cfg : Config.Config).
Definition prodCA : TlsEdge.CA := TlsEdge.LetsEncryptCA (Config.TLSStaging cfg).
Definition errTLSNoCombinedHandler : string := "app: auto-TLS enabled but combined handler unavailable (requires RUN_MODE=all)".
Definition NewTLSEngineWithCA (ca : TlsEdge.CA) (combined : option TlsEdge.http_handler) (d : TlsEdge.Decider) :
    Res string (option TlsEdge.Engine) :=
  if negb (Config.ServesTLS cfg) then Ok None
  else match combined with
       | None => Err errTLSNoCombinedHandler
       | Some h =>
           match TlsEdge.NewDecider (Some (TlsEdge.d_controlHost d)) (Some (TlsEdge.d_resolver d)) (Some (TlsEdge.d_siteExists d)) with
           | Err e => Err e
           | Ok (d, _) =>
               match TlsEdge.New challenge (TlsEdge.mkEngineCfg (Some h) (Some d) (Config.CertMagicStorageDir cfg) ca
                       (Config.ACMEEmail cfg) (Config.TLSAddr cfg) (Config.TLSHTTPAddr cfg)) with
               | Ok e => Ok (Some e)
               | Err e => Err e
               end
           end
       end.
Definition NewTLSEngine := NewTLSEngineWithCA prodCA.
End engine.

(** ** New and Close *)

Inductive action := OpenStore | CloseStore | RunMigrations | BuildProviders | StartOps | StopOps.
Scheme Equality for action.
Definition times (a : action) (l : list action) : nat := length (List.filter (action_beq a) l).
Lemma times_app a l1 l2 : times a (l1 ++ l2) = times a l1 + times a l2.
Proof. unfold times. by rewrite List.filter_app, length_app. Qed.
Lemma times_cons a b l : times a (b :: l) = (if action_beq a b then 1 else 0) + times a l.
Proof. unfold times. cbn. by destruct (action_beq a b). Qed.
Lemma times_nil a : times a [] = 0.
Proof. done. Qed.
(** The auth surface and its runtime sign-in are there or not. *)
Record App := mkApp {
  app_box : Box; app_domain : DomainCfg.DomainProvider; app_oidc : OidcCfg.OidcProvider; app_siteSvc : GitService.Config;
  app_auth : bool; app_oidcRuntime : bool; app_ops : option Ops.Config;
}.
Section lifecycle.
Context `{GoUnicode} `{Crypto} (cfg : Config.Config) (gh : GitWorld.trace → Res store_err GitHubConfig).
(** The errors of db.New, migrate.Run and ProvidersFor, if they are called *)
Definition New (dbErr migrateErr providersErr : option string) : list action * Res string App :=
  match dbErr with
  | Some e => ([], Err e)
  | None =>
      match newSecretBox cfg with
      | None => ([OpenStore; CloseStore], Err "secretbox: key must be exactly 32 bytes")
      | Some box =>
          let app := mkApp box (domain cfg) (OidcCfg.NewOidc true (Config.cfg_OIDC cfg) (Config.cfg_OIDCEnvSet cfg) (Config.AuthModes cfg))
                       (siteConfig cfg (Some gh)) in
          let '(tr, failed) := if Config.AutoMigrate cfg then ([OpenStore; RunMigrations], migrateErr) else ([OpenStore], None) in
          match failed with
          | Some e => (tr ++ [CloseStore], Err e)
          | None =>
              if negb (Config.ServesControl cfg) then (tr, Ok (app false false None))
              else match providersErr with
                   | Some e => (tr ++ [BuildProviders; CloseStore], Err e)
                   | None => (tr ++ [BuildProviders],
                              Ok (app true (negb (Config.es_AuthMode (Config.cfg_OIDCEnvSet cfg))) (Some (buildOps cfg))))
                   end
          end
      end
  end.
Definition StartBackground (a : App) : list action := match app_ops a with Some _ => [StartOps] | None => [] end.
Definition Close (a : App) : list action := match app_ops a with Some _ => [StopOps] | None => [] end ++ [CloseStore].
End lifecycle.

(** ** CORS: what the library is configured with *)

Record CorsOptions := mkCors {
  AllowedOrigins : list string; AllowOriginFunc : option (Request → string → bool); AllowedMethods : list string;
  AllowedHeaders : list string; ExposedHeaders : list string; AllowCredentials : bool; MaxAge : Z;
}.
Section cors.
Context `{GoUnicode} (cfg : Config.Config).
Definition useDynamicCORS (domain : bool) : bool :=
  domain && negb (Config.CORSOriginsEnvSet cfg) && negb (Config.ControlBaseURLEnvSet cfg).
Definition dynamicCORSAllow (rd : Res store_err DomainConfig) (k : DomainCfg.read_cache DomainConfig) (r : Request) (origin : string) : bool :=
  let allowed := DomainCfg.Value (DomainCfg.rs_ControlBaseURL (DomainCfg.Resolve (domain cfg) rd (Some r) k).2) in
  negb (allowed =? "")%string && equal_fold origin allowed.
Definition corsMiddleware (has_domain : bool) rd k : CorsOptions :=
  let dynamic := useDynamicCORS has_domain in
  mkCors (if dynamic then [] else Config.CORSAllowedOrigins cfg) (if dynamic then Some (dynamicCORSAllow rd k) else None)
    ["GET"; "POST"; "PUT"; "PATCH"; "DELETE"; "OPTIONS"]
    ["Accept"; "Authorization"; "Content-Type"; "X-CSRF-Token"; "X-Request-Id"] ["X-Request-Id"] true 300.
(** The MCP endpoint (mcpserver/server.go) *)
Definition corsOrigins (origins : list string) : list string := List.filter (λ o, negb (o =? "")%string) (trim_space <$> origins).
Definition mcp_cors (origins : list string) : CorsOptions :=
  mkCors (corsOrigins origins) None ["GET"; "POST"; "OPTIONS"; "DELETE"]
    ["Authorization"; "Content-Type"; "Mcp-Session-Id"; "Mcp-Protocol-Version"] [] false 300.
(** What FromConfig makes of the configuration: scheme and domain of the URLs the
    tools report *)
Definition mcp_scheme : string := if negb (Config.IsProduction cfg) then "http" else "https".
Definition mcp_base_domain : string := Config.cfg_BaseDomain cfg.
End cors.

(** ** kotojid (cmd/kotojid/main.go) *)

Definition controlWriteTimeout : Z := (60 * second)%Z.
Definition newControlServer (addr : string) (h : TlsEdge.http_handler) : TlsEdge.Server :=
  TlsEdge.mkServer addr h TlsEdge.readHeaderTimeout TlsEdge.readTimeout controlWriteTimeout TlsEdge.idleTimeout.
Definition newServeServer (addr : string) (h : TlsEdge.http_handler) : TlsEdge.Server :=
  TlsEdge.mkServer addr h TlsEdge.readHeaderTimeout TlsEdge.readTimeout TlsEdge.writeTimeout TlsEdge.idleTimeout.
Section kotojid.
Context `{GoUnicode} `{Crypto} (cfg : Config.Config) (gh : GitWorld.trace → Res store_err GitHubConfig).
Definition servers (control data : option TlsEdge.http_handler) : list TlsEdge.Server :=
  match control with Some h => [newControlServer (Config.ControlAddr cfg) h] | None => [] end ++
  match data with Some h => [newServeServer (Config.ServeAddr cfg) h] | None => [] end.
(** The error of the wait, else the first server that does not drain; an error of
    the TLS engine counts only if it is what ends the wait. *)
Definition serve (woken : TlsEdge.wake) (servers : list TlsEdge.Server) (drain : TlsEdge.Server → option string) : option string :=
  foldl (λ e srv, TlsEdge.first_error e (drain srv)) (match woken with TlsEdge.CtxDone => None | TlsEdge.ListenerError e => Some e end) servers.
Definition run (dbErr migrateErr providersErr : option string) (engine : Res string (option TlsEdge.Engine)) (served : option string) :
    list action * option string :=
  match New cfg gh dbErr migrateErr providersErr with
  | (tr, Err e) => (tr, Some e)
  | (tr, Ok a) =>
      match engine with
      | Err e => (tr ++ Close a, Some e)
      | Ok _ => (tr ++ StartBackground a ++ Close a, served)
      end
  end.
End kotojid.

(** ** Facts *)

(** The grants the control plane signs are those the data plane verifies. *)
Lemma preview_shared `{GoUnicode} `{Crypto} `{UUIDText} `{UUIDParse} cfg realNow res trees control : previewSecret cfg ≠ "" →
  ∃ a, previewSigner cfg realNow = Some a ∧ gaSecret a = previewSecret cfg ∧
    Serve.h_authz (dataHandler cfg realNow res trees control) = Authorize a.
Proof.
  intros Hne%String.eqb_neq. unfold dataHandler, previewSigner, NewGrantAuthz. cbn [gaSecret]. rewrite Hne. by eexists.
Qed.

Section secrets.
Context `{GoUnicode} `{Crypto} (cfg : Config.Config) (Hsha : ∀ b, String.length (sha256 b) = KeySize).

Lemma secretKey_length : String.length (secretKey cfg) = KeySize.
Proof using Hsha.
  unfold secretKey, ResolveKey. destruct (decodeExplicitKey _) as [key|] eqn:E; [|apply Hsha]. revert E. unfold decodeExplicitKey.
  generalize (trim_space (Config.SecretKey cfg)). intros v.
  assert (∀ (o : option bytes) k, match o with
            | Some b => if KeySize <=? String.length b then Some (str_take KeySize b) else None | None => None end = Some k →
          String.length k = KeySize) as Hl.
  { intros [x|] k; [|done]. destruct (Nat.leb_spec KeySize (String.length x)); [|done].
    intros Hk. assert (k = str_take KeySize x) as -> by congruence. rewrite str_length_take. lia. }
  destruct (v =? "")%string; [done|]. destruct (match hex_decode v with Some _ => _ | None => _ end) as [k'|] eqn:E1.
  - intros [= <-]. by eapply Hl.
  - intros Hk%head_Some_elem_of. apply list_elem_of_omap in Hk as (e & _ & He). by eapply Hl.
Qed.
(** The box is always there; in production it seals under an explicit key only. *)
Lemma newSecretBox_some : ∃ b, newSecretBox cfg = Some b ∧ box_key b = secretKey cfg ∧
  (Config.IsProduction cfg = true → ExplicitKeyProvided (Config.SecretKey cfg) = false → sealDisabled b = true).
Proof using Hsha.
  unfold newSecretBox, NewSealDisabled, SecretBox.New, newBox. rewrite secretKey_length. cbn [Nat.eqb KeySize].
  destruct (Config.IsProduction cfg), (ExplicitKeyProvided _); cbn; eexists; by split_and!.
Qed.
End secrets.

Section lifecycle_facts.
Context `{GoUnicode} `{Crypto} (cfg : Config.Config) (gh : GitWorld.trace → Res store_err GitHubConfig).
(** A store that was opened is closed: by New when it fails, once, else by Close. *)
Lemma New_releases dbErr migrateErr providersErr tr r : New cfg gh dbErr migrateErr providersErr = (tr, r) →
  times OpenStore tr =
  times CloseStore (tr ++ match r with Ok a => Close a | Err _ => [] end).
Proof.
  unfold New. destruct dbErr; [by intros [= <- <-]|]. destruct (newSecretBox cfg); [|by intros [= <- <-]].
  destruct (Config.AutoMigrate cfg), migrateErr, (negb (Config.ServesControl cfg)), providersErr; by intros [= <- <-].
Qed.
(** The process leaves no store open, on any path, and stops the jobs it started. *)
Lemma run_releases dbErr migrateErr providersErr engine served :
  let tr := (run cfg gh dbErr migrateErr providersErr engine served).1 in
  times OpenStore tr = times CloseStore tr ∧ times StartOps tr ≤ times StopOps tr.
Proof.
  unfold run. destruct (New cfg gh dbErr migrateErr providersErr) as [tr [a|e]] eqn:E.
  - pose proof (New_releases _ _ _ _ _ E) as Hn.
    assert (times StartOps tr = 0) as Hs.
    { revert E. unfold New. destruct dbErr; [done|]. destruct (newSecretBox cfg); [|done].
      destruct (Config.AutoMigrate cfg), migrateErr, (negb (Config.ServesControl cfg)), providersErr; by intros [= <- _]. }
    destruct engine; cbn [fst]; rewrite ?times_app in *; unfold Close, StartBackground in *; destruct (app_ops a);
      cbn [app] in *; rewrite ?times_cons, ?times_nil in *; cbn [action_beq] in *; lia.
  - pose proof (New_releases _ _ _ _ _ E) as Hn. cbn in *. rewrite app_nil_r in Hn. split; [done|].
    revert E. unfold New. destruct dbErr; [intros [= <- _]; by constructor|]. destruct (newSecretBox cfg); [|intros [= <- _]; by constructor].
    destruct (Config.AutoMigrate cfg), migrateErr, (negb (Config.ServesControl cfg)), providersErr; intros [= <- _]; vm_compute; repeat constructor.
Qed.
(** What runs in which mode: the jobs exactly where the control plane does; the
    runtime sign-in only when the environment does not fix the modes. *)
Lemma New_planes dbErr migrateErr providersErr tr a : New cfg gh dbErr migrateErr providersErr = (tr, Ok a) →
  app_auth a = Config.ServesControl cfg ∧ (is_Some (app_ops a) ↔ Config.ServesControl cfg = true) ∧
  (app_oidcRuntime a = true → Config.ServesControl cfg = true ∧ Config.es_AuthMode (Config.cfg_OIDCEnvSet cfg) = false) ∧
  Some (app_box a) = newSecretBox cfg.
Proof.
  unfold New. destruct dbErr; [done|]. destruct (newSecretBox cfg); [|done].
  destruct (Config.AutoMigrate cfg), migrateErr, (Config.ServesControl cfg), providersErr; intros [= _ <-]; cbn;
    (split_and!; [done| | |done]); try (by split; [intros []|]); try (by split; eauto); by intros ?%negb_true_iff.
Qed.
(** Every listener bounds every phase of a connection. *)
Lemma servers_bounded control data srv : srv ∈ servers cfg control data →
  (0 < TlsEdge.srv_ReadHeaderTimeout srv ≤ TlsEdge.srv_ReadTimeout srv)%Z ∧
  (0 < TlsEdge.srv_WriteTimeout srv ≤ 120 * second)%Z ∧ (0 < TlsEdge.srv_IdleTimeout srv)%Z.
Proof.
  unfold servers. rewrite elem_of_app. intros [Hs|Hs]; [destruct control|destruct data]; (try by apply not_elem_of_nil in Hs);
    apply list_elem_of_singleton in Hs as ->; done.
Qed.
End lifecycle_facts.

Section gate.
Context `{GoUnicode} (cfg : Config.Config) (rd : Res store_err DomainConfig) (k : DomainCfg.read_cache DomainConfig).
Context `{Postgres} (dbs : time → DB) (F1 F2 : time → Faults) (w : Draws).
Abbreviation D := (decider cfg rd k dbs F1 F2 w) (only parsing).
Abbreviation host_of r := (Resolver.lowerStripPort (Resolver.effectiveHost (newDataResolver cfg rd k) r)) (only parsing).

(** The base domain is configured, in the environment or in the database. *)
Definition stored_base : string := default "" (dc_BaseDomain (DomainCfg.cached DomainCfg.unset_domain rd k).2).
Definition configured : bool := Config.BaseDomainEnvSet cfg || negb (stored_base =? "")%string.

(** Then a request is resolved by its host alone. *)
Lemma resolve_by_host r1 r2 : configured = true → host_of r1 = host_of r2 → data_resolve cfg rd k r1 = data_resolve cfg rd k r2.
Proof.
  intros Hc Hh. unfold data_resolve, Resolver.Resolve. rewrite Hh.
  assert (Resolver.effectiveBase (newDataResolver cfg rd k) r1 = Resolver.effectiveBase (newDataResolver cfg rd k) r2) as ->; [|done].
  unfold Resolver.effectiveBase, newDataResolver, Resolver.NewResolverWith, dynamicBaseDomainFunc, configured in *.
  cbn [Resolver.cfg Resolver.BaseDomainFunc]. destruct (Config.BaseDomainEnvSet cfg) eqn:Hset; [done|].
  assert (∀ r, DomainCfg.Value (DomainCfg.rs_BaseDomain (DomainCfg.Resolve (domain cfg) rd (Some r) k).2) = stored_base) as Hb.
  { intros r. unfold DomainCfg.Resolve, DomainCfg.needsDB, DomainCfg.baseDomainEnvLocked, stored_base in *.
    cbn [domain DomainCfg.NewDomain DomainCfg.envBaseDomainSet DomainCfg.dp_store]. rewrite Hset. cbn [andb negb orb].
    destruct (DomainCfg.cached _ rd k) as [k' v]. cbn [snd] in *. unfold DomainCfg.resolve_with.
    destruct (DomainCfg.requestSchemeHost _) as [scheme host]. cbn [DomainCfg.rs_BaseDomain].
    unfold DomainCfg.resolveBaseDomain, DomainCfg.baseDomainEnvLocked. cbn [DomainCfg.envBaseDomainSet domain DomainCfg.NewDomain].
    rewrite Hset. cbn [andb orb] in *. by rewrite Hc. }
  by rewrite !Hb.
Qed.

Lemma direct_ok {A} (F : Faults) (q : stmt A) d a : (direct w q d).2 = Ok a → ∃ d', q (mkDraw (dr_now w) (dr_uuid w 0)) d = Ok (d', a).
Proof. unfold direct. case_match; [done|]. case_match; [|done]. repeat case_match; intros [= <-]; eauto. Qed.
Lemma direct_none {A} (F : Faults) (q : stmt A) d e : (direct w q d).2 = Err e → IsNotFound e = true →
  q (mkDraw (dr_now w) (dr_uuid w 0)) d = Err e.
Proof. unfold direct. case_match; [by intros [= <-]|]. case_match; [|by intros [= ->]]. repeat case_match; intros [= <-] Hn; done. Qed.
(** What the lookup of the gate answers is what the data plane finds. *)
Lemma exists_finds dr t h b : exists_at dbs F1 F2 w t h = Ok b → b = true ↔ ∃ id, MetaGit.finds dr h (dbs t) = Some id.
Proof.
  unfold exists_at, siteExists, MetaGit.finds. set (d := dbs t).
  change (GetSiteByHandle h dr d) with (GetSiteByHandle h (mkDraw (dr_now w) (dr_uuid w 0)) d). change (GetSiteByRedirect h dr d) with (GetSiteByRedirect h (mkDraw (dr_now w) (dr_uuid w 0)) d).
  pose proof (@direct_ok _ (F1 t) (GetSiteByHandle h) d) as A1. pose proof (@direct_none _ (F1 t) (GetSiteByHandle h) d) as N1.
  destruct (direct w (GetSiteByHandle h) d) as [d1 [s|e]] eqn:E1; cbn [snd] in *.
  - intros [= <-]. destruct (A1 s eq_refl) as [d' ->]. naive_solver.
  - destruct (IsNotFound e) eqn:He; cbn [negb]; [|done]. rewrite (N1 e eq_refl He).
    assert (d1 = d) as ->.
    { apply (@direct_cases (F1 t)) in E1 as [(a & Hq & _)|[_ ->]]; [|done]. by rewrite (N1 e eq_refl He) in Hq. }
    pose proof (@direct_ok _ (F2 t) (GetSiteByRedirect h) d) as A2. pose proof (@direct_none _ (F2 t) (GetSiteByRedirect h) d) as N2.
    destruct (direct w (GetSiteByRedirect h) d) as [d2 [s|e2]] eqn:E2; cbn [snd] in *.
    + intros [= <-]. destruct (A2 s eq_refl) as [d' ->]. naive_solver.
    + destruct (IsNotFound e2) eqn:He2; cbn [negb]; [|done]. rewrite (N2 e2 eq_refl He2). intros [= <-]. naive_solver.
Qed.

(** C39 (safety): the gate of the certificates agrees with the data plane.  With the
    base domain configured, whatever other handshakes do: a certificate is asked
    for only for the control host, or for a name that the data plane resolves, in
    every request that has it as its host, to the control plane or to a handle
    under which the database finds a site, at this moment or less than 30 seconds
    ago; of a preview host only the handle is looked up, not the branch.
    Conversely a host that the data plane resolves to the published branch or the
    draft of a handle of the database gets its certificate, unless the lookup fails
    or said no within the last 10 seconds.  With no base domain configured the gate
    is open (gate_open_unconfigured). *)
Theorem cert_gate (now : time) ctxErr meanwhile name c log c' res dr :
  TlsEdge.greach c log → TlsEdge.interference meanwhile →
  (∀ u h b, (u, h, b) ∈ log → exists_at dbs F1 F2 w u h = Ok b) → configured = true →
  TlsEdge.Allow D ctxErr now meanwhile name c = (c', res) →
  let host := TlsEdge.normalizeHost name in
  (res = Ok tt → host ≠ "" ∧ (host = TlsEdge.normalizeHost (effectiveControlHost cfg rd k) ∨
     ∃ t, (∀ r, host_of r = host_of (TlsEdge.syntheticRequest host) → data_resolve cfg rd k r = Ok t) ∧
          (Resolver.tIsControl t = true ∨
           ∃ u id, (u = now ∨ now < u + TlsEdge.existsCacheTTL)%Z ∧ MetaGit.finds dr (Resolver.tHandle t) (dbs u) = Some id))) ∧
  (∀ r t id, host ≠ "" → host_of r = host_of (TlsEdge.syntheticRequest host) → data_resolve cfg rd k r = Ok t →
     Resolver.tBranch t = Handle.BranchPublished ∨ Resolver.tBranch t = Handle.BranchDraft →
     Resolver.tHandle t ≠ "" → ctxErr = None → MetaGit.finds dr (Resolver.tHandle t) (dbs now) = Some id →
     is_ok (exists_at dbs F1 F2 w now (Resolver.tHandle t)) = true →
     (∀ u, (u, Resolver.tHandle t, false) ∈ log → (u + TlsEdge.existsNegCacheTTL ≤ now)%Z) → res = Ok tt).
Proof.
  intros Hg Hm Hlog Hc Ha host. destruct (TlsEdge.issuance_gate _ _ _ _ _ _ _ _ _ Hg Hm Ha) as (_ & Hok & _ & Hback). split.
  - intros [Hne Hr]%Hok. split; [done|]. destruct Hr as [Hr|(t & Ht & Hk)]; [by left|right]. exists t. split.
    + intros r Hr. cbn in Ht. rewrite <-Ht. by apply resolve_by_host.
    + destruct Hk as [|(_ & [(u & Hin & Hu)|[_ He]])]; [by left|right..].
      * apply Hlog, (exists_finds dr) in Hin. destruct (proj1 Hin eq_refl) as [id Hid]. eauto.
      * apply (exists_finds dr) in He. destruct (proj1 He eq_refl) as [id Hid]. eauto.
  - intros r t id Hne Hr Ht _ Hh Hctx Hid He Hneg. apply (Hback t); try done; [by rewrite <-Ht; symmetry; apply resolve_by_host|].
    cbn. destruct (exists_at _ _ _ _ now _) as [b|] eqn:E; [|done]. f_equal. eapply exists_finds; [exact E|]. by eexists.
Qed.
End gate.

(** ** An instance *)

#[local] Existing Instances ascii_only_unicode ascii_postgres clear_cipher.
Definition sample_cfg (baseSet : bool) (rps : Z) : Config.Config := {|
  Config.cfg_Env := Config.EnvDevelopment; Config.cfg_Mode := Config.RunModeAll; Config.ControlAddr := ":8080"; Config.ServeAddr := ":8081";
  Config.cfg_TLSMode := Config.TLSModeAuto; Config.cfg_TLSCA := Config.TLSCAProd; Config.TLSAddr := ":443"; Config.TLSHTTPAddr := ":80";
  Config.ACMEEmail := ""; Config.CertMagicStorageDir := "/data/certmagic";
  Config.cfg_BaseDomain := if baseSet then "kotoji.example" else Config.defaultBaseDomain;
  Config.cfg_ControlBaseURL := Config.defaultControlBaseURL; Config.ControlHost := "hosting.localhost";
  Config.BaseDomainEnvSet := baseSet; Config.ControlBaseURLEnvSet := false;
  Config.DatabaseURL := "postgres://db"; Config.DBMaxConns := 10; Config.AutoMigrate := true; Config.DataDir := "/data"; Config.GitBin := "git";
  Config.AuthMode := "password"; Config.AuthModes := ["password"]; Config.cfg_OIDC := Config.mkOIDC "" "" "" "" [] [] [];
  Config.cfg_OIDCEnvSet := Config.mkEnvSet false false false false false false false false;
  Config.AdminPassword := "correct horse"; Config.AdminEmail := ""; Config.SessionCookieName := "kotoji_session";
  Config.SessionTTL := 1; Config.SessionCookieDomain := ""; Config.cfg_CookieSecure := true; Config.CSRFCookieName := "kotoji_csrf";
  Config.MCPEnabled := true; Config.MCPPath := "/mcp"; Config.MCPTokenTTL := 1;
  Config.cfg_GitHub := Config.mkMirror false "" "" ""; Config.SecretKey := "";
  Config.cfg_Zip := Config.mkLimits 1 1 1 1 1 []; Config.SiteQuotaBytes := 1; Config.UserSiteQuota := 1;
  Config.RateLimitAPIRPS := rps; Config.RateLimitServeRPS := rps; Config.AssetMaxAge := 0; Config.SoftDeleteGrace := 1;
  Config.BackupDir := "/backup"; Config.OpsInterval := 1; Config.CORSAllowedOrigins := []; Config.CORSOriginsEnvSet := false;
  Config.LogLevel := "info"; Config.LogFormat := "json"; Config.HandleMinLen := 3; Config.HandleMaxLen := 32;
  Config.PublishedPublic := true; Config.TrustProxyHeaders := false |}.
Definition no_domain : Res store_err DomainConfig := Ok DomainCfg.unset_domain.
Definition sample_gate (baseSet : bool) (d : DB) : TlsEdge.Decider :=
  decider (sample_cfg baseSet 0) no_domain DomainCfg.domain_cache0 (λ _, d) (λ _, calm_faults) (λ _, calm_faults) (mkDraws 0%Z (λ _, 0%N)).

Lemma cert_gate_witness :
  let r := TlsEdge.Allow (sample_gate true sample_db) None 100%Z id "Notes--draft.Kotoji.example" ∅ in
  r.2 = Ok tt ∧ (∃ t, data_resolve (sample_cfg true 0) no_domain DomainCfg.domain_cache0 (host_request "notes--draft.kotoji.example:443") = Ok t).
Proof.
  intros r.
  destruct (cert_gate (sample_cfg true 0) no_domain DomainCfg.domain_cache0 (λ _, sample_db) (λ _, calm_faults) (λ _, calm_faults)
    (mkDraws 0%Z (λ _, 0%N)) 100%Z None id "Notes--draft.Kotoji.example" ∅ [] r.1 r.2 (mkDraw 0%Z 0%N)) as [Hok Hback];
    [constructor|intros c log Hc; by exists []|intros u h b Hin; inversion Hin|reflexivity|apply surjective_pairing|].
  assert (r.2 = Ok tt) as Hr.
  { apply (Hback (host_request "notes--draft.kotoji.example") (Resolver.mkTarget "notes" "draft" true false Resolver.SourceHost "") 7%N);
      try (vm_compute; reflexivity); try (vm_compute; discriminate);
      [right; reflexivity|intros u Hin; inversion Hin]. }
  split; [exact Hr|]. destruct (Hok Hr) as (_ & [Hc|(t & Ht & _)]); [vm_compute in Hc; discriminate|].
  exists t. apply Ht. vm_compute. reflexivity.
Defined.

(** Without a configured base domain every name is the control host: the gate is
    open to any name that reaches the instance. *)
Example gate_open_unconfigured :
  (λ name, (TlsEdge.Allow (sample_gate false (migrated 0%Z)) None 0%Z id name ∅).2) <$>
    ["attacker.test"; "a1.attacker.test"; "a2.attacker.test"] = [Ok tt; Ok tt; Ok tt].
Proof. vm_compute. reflexivity. Qed.

(** What the administrator saves for the mirror reaches the site service, but not
    the webhook receiver. *)
Example webhook_secret_of_environment :
  let gh := mkGitHub true true "acme" "ghp_token" true "db-secret" in
  let env := Config.cfg_GitHub (sample_cfg true 0) in
  MirrorEnabled env (Ok gh) = true ∧ MirrorToken env (Ok gh) = ("ghp_token", "") ∧ webhookSecret (sample_cfg true 0) = None.
Proof. vm_compute. done. Qed.

(** The control limiter keys a request on the value of a cookie that nobody has
    checked: with a new value each time, one address is never refused. *)
#[local] Instance one_token : RateLimit.TokenBucket := {|
  RateLimit.bucket := Z; RateLimit.NewBucket _ b := b; RateLimit.AllowN b _ n := if (n <=? b)%Z then ((b - n)%Z, true) else (b, false) |}.
Definition with_cookie (v : string) : Request :=
  mkRequest "POST" "kotoji.example" "" "/auth/login" "/auth/login" "" ∅ "203.0.113.9:4000" false
    (if (v =? "")%string then [] else [("__Host-kotoji_session", v)]).
Definition verdicts (l : list string) : list bool :=
  match controlLimiter (sample_cfg true 1) 0%Z with
  | None => []
  | Some (l0, key) =>
      (foldl (λ acc v, let '(l, ok) := RateLimit.Middleware key (with_cookie v) 0%Z acc.1 in (l, acc.2 ++ [ok])) (l0, []) l).2
  end.
Example cookie_rotates_bucket :
  verdicts [""; ""; ""] = [true; false; false] ∧ verdicts ["1"; "2"; "3"; "4"] = [true; true; true; true].
Proof. vm_compute. done. Qed.

(** Two places keep the domain of the environment when the administrator has set
    another one: the URLs of the MCP tools, and the origin that may frame a preview. *)
Example domain_of_environment :
  let rd : Res store_err DomainConfig := Ok (mkDomainCfg (Some "hosting.acme.example") (Some "https://kotoji.acme.example")) in
  effectiveControlHost (sample_cfg false 0) rd DomainCfg.domain_cache0 = "kotoji.acme.example" ∧
  mcp_base_domain (sample_cfg false 0) = "hosting.localhost" ∧
  originOf (Config.cfg_ControlBaseURL (sample_cfg false 0)) = "http://hosting.localhost:8080".
Proof. vm_compute. done. Qed.
(** The git of the background jobs has not all the protections of the git of the
    site service: the protocols it may speak are not restricted. *)
Example ops_env_unrestricted :
  List.filter (λ kv, negb (bool_decide (kv ∈ Ops.scrubbedEnv))) GitRunner.scrubbedEnv =
  ["GIT_FLUSH=1"; "GIT_ALLOW_PROTOCOL=https:ssh"; "GIT_PROTOCOL_FROM_USER=0"].
Proof. vm_compute. reflexivity. Qed.
